(** * OpenMP code generation for NVPTX: master/worker protocol and data sharing

    A shallow embedding of [lib/CodeGen/CGOpenMPRuntimeNVPTX.cpp].  The code
    generator is embedded as Rocq functions that build a small control-flow
    graph IR (basic blocks, instructions, terminators); the emitted code is
    given a per-lane operational semantics so that statements about what a
    lane does at run time can be proved about the generator's output. *)

From Stdlib Require Import ZArith Lia FunctionalExtensionality.
From stdpp Require Import base tactics option list strings gmap.

Local Open Scope Z_scope.
Set Warnings "-register-all".

(** ** Constants of the runtime (anonymous enums of the source) *)

Definition TASK_STATE_SIZE : Z := 48.
Definition SIMD_STATE_SIZE : Z := 48.

Definition DS_Max_Worker_Threads : Z := 992.
Definition DS_Slot_Size : Z := 4.
Definition DS_Max_Worker_Warp_Size : Z := 32.
Definition DS_Max_Worker_Warp_Size_Log2 : Z := 5.
(* (~0u >> (32 - DS_Max_Worker_Warp_Size_Log2)) *)
Definition DS_Max_Worker_Warp_Size_Log2_Mask : Z :=
  Z.shiftr (2 ^ 32 - 1) (32 - DS_Max_Worker_Warp_Size_Log2).
Definition DS_Worker_Warp_Slot_Size : Z := DS_Max_Worker_Warp_Size * DS_Slot_Size.
Definition DS_Max_Teams : Z := 1024.

Inductive OpenMPRTLFunctionNVPTX :=
| OMPRTL_NVPTX__kmpc_kernel_init
| OMPRTL_NVPTX__kmpc_kernel_deinit
| OMPRTL_NVPTX__kmpc_serialized_parallel
| OMPRTL_NVPTX__kmpc_end_serialized_parallel
| OMPRTL_NVPTX__kmpc_kernel_prepare_parallel
| OMPRTL_NVPTX__kmpc_kernel_parallel
| OMPRTL_NVPTX__kmpc_kernel_end_parallel
| OMPRTL_NVPTX__kmpc_kernel_convergent_parallel
| OMPRTL_NVPTX__kmpc_kernel_end_convergent_parallel
| OMPRTL_NVPTX__kmpc_kernel_convergent_simd
| OMPRTL_NVPTX__kmpc_kernel_end_convergent_simd
| OMPRTL_NVPTX__kmpc_warp_active_thread_mask
| OMPRTL_NVPTX__kmpc_initialize_data_sharing_environment
| OMPRTL_NVPTX__kmpc_data_sharing_environment_begin
| OMPRTL_NVPTX__kmpc_data_sharing_environment_end
| OMPRTL_NVPTX__kmpc_get_data_sharing_environment_frame.

#[global] Instance OpenMPRTLFunctionNVPTX_eq_dec : EqDecision OpenMPRTLFunctionNVPTX.
Proof. solve_decision. Defined.

(** ** The emitted IR *)

(** Special registers read through the [nvvm.read.ptx.sreg.*] intrinsics. *)
Inductive SReg := sreg_tid_x | sreg_ntid_x | sreg_ctaid_x | sreg_warpsize.

Inductive BinaryOp :=
| OpAdd | OpNSWAdd | OpSub | OpNUWSub | OpNSWSub | OpMul | OpAnd | OpShl | OpAShr.

Inductive Predicate := ICMP_EQ | ICMP_NE | ICMP_ULT | ICMP_SGT.

(** An [llvm::Value *] handed around by the generator.  Pure instructions are
    kept as expression trees; a load reads memory where the value is used,
    which in every function below is the point where it is emitted. *)
Inductive Value :=
| ConstantInt (z : Z)
| NullValue
| FunctionAddr (f : string)
| Argument (i : nat)
| CallResult (id : nat)
| AllocaAddr (id : nat) (name : string)
| GlobalAddr (name : string)
| ReadSReg (r : SReg)
| BinOp (op : BinaryOp) (a b : Value)
| CreateNot (a : Value)
| Popc (a : Value)
| ICmp (p : Predicate) (a b : Value)
| CreateZExt (a : Value)
| CreateLoad (a : Value)
| CreateInBoundsGEP (base : Value) (idxs : list Value)
| CreateBitOrPointerCast (a : Value).

Inductive Callee :=
| RuntimeFunction (f : OpenMPRTLFunctionNVPTX)
| nvvm_barrier0
| Function (f : string).

#[global] Instance Callee_eq_dec : EqDecision Callee.
Proof. solve_decision. Defined.

Inductive Instr :=
| Store (v addr : Value)
| Call (res : option nat) (callee : Callee) (args : list Value).

Inductive Terminator :=
| Br (target : nat)
| CondBr (cond : Value) (iftrue iffalse : nat)
| Ret (v : option Value).

Record BasicBlock := {
  bb_id : nat;
  bb_name : string;
  bb_instrs : list Instr;
  bb_term : option Terminator
}.

(** ** Run-time values and the per-lane machine *)

Inductive Addr :=
| StackSlot (id : nat)                      (* an alloca of the running function *)
| GlobalElem (g : string) (path : list Z)   (* inside a module global *)
| FrameElem (owner : Z) (path : list Z).    (* inside a data-sharing frame *)

#[global] Instance Addr_eq_dec : EqDecision Addr.
Proof. solve_decision. Defined.

Inductive RVal :=
| RInt (z : Z)
| RPtr (a : Addr)
| RFn (f : string)
| RNull.

#[global] Instance RVal_eq_dec : EqDecision RVal.
Proof. solve_decision. Defined.

(** 32-bit integers are kept as their unsigned representative. *)
Definition wrap32 (z : Z) : Z := z mod 2 ^ 32.
Definition signed32 (z : Z) : Z := if z <? 2 ^ 31 then z else z - 2 ^ 32.
Definition in_signed32 (z : Z) : bool := (- 2 ^ 31 <=? z) && (z <=? 2 ^ 31 - 1).

Fixpoint popc_bits (n : nat) (z : Z) : Z :=
  match n with
  | O => 0
  | S n' => (if Z.testbit z (Z.of_nat n') then 1 else 0) + popc_bits n' z
  end.

(** The [nsw]/[nuw] operations have no value when they wrap, and a shift has
    none when the shift amount is not below the bit width 32: in both cases
    the result of the LLVM instruction is poison. *)
Definition shift_in_range (b : Z) : bool := (0 <=? b) && (b <? 32).

Definition eval_binop (op : BinaryOp) (a b : Z) : option Z :=
  match op with
  | OpAdd => Some (wrap32 (a + b))
  | OpNSWAdd =>
      let r := signed32 a + signed32 b in
      if in_signed32 r then Some (wrap32 r) else None
  | OpSub => Some (wrap32 (a - b))
  | OpNUWSub => if a <? b then None else Some (a - b)
  | OpNSWSub =>
      let r := signed32 a - signed32 b in
      if in_signed32 r then Some (wrap32 r) else None
  | OpMul => Some (wrap32 (a * b))
  | OpAnd => Some (Z.land a b)
  | OpShl => if shift_in_range b then Some (wrap32 (Z.shiftl a b)) else None
  | OpAShr => if shift_in_range b then Some (wrap32 (Z.shiftr (signed32 a) b)) else None
  end.

Definition bool_to_Z (b : bool) : Z := if b then 1 else 0.

Definition eval_icmp (p : Predicate) (a b : RVal) : option RVal :=
  match p with
  | ICMP_EQ => Some (RInt (bool_to_Z (bool_decide (a = b))))
  | ICMP_NE => Some (RInt (bool_to_Z (negb (bool_decide (a = b)))))
  | ICMP_ULT =>
      match a, b with
      | RInt x, RInt y => Some (RInt (bool_to_Z (x <? y)))
      | _, _ => None
      end
  | ICMP_SGT =>
      match a, b with
      | RInt x, RInt y => Some (RInt (bool_to_Z (signed32 y <? signed32 x)))
      | _, _ => None
      end
  end.

(** The lane that runs the code: its special registers and the actual
    arguments of the running function. *)
Record Lane := {
  tid_x : Z;
  ntid_x : Z;
  ctaid_x : Z;
  warpsize : Z;
  fn_args : list RVal
}.

Definition read_sreg (L : Lane) (r : SReg) : Z :=
  match r with
  | sreg_tid_x => tid_x L
  | sreg_ntid_x => ntid_x L
  | sreg_ctaid_x => ctaid_x L
  | sreg_warpsize => warpsize L
  end.

Definition Memory := Addr -> option RVal.

Definition mem_store (m : Memory) (a : Addr) (v : RVal) : Memory :=
  fun a' => if decide (a = a') then Some v else m a'.

(** Length of the global arrays that are indexed by inbounds GEPs. *)
Definition global_length (g : string) : option Z :=
  if String.eqb g "__openmp_nvptx_parallelism_levels"
  then Some DS_Max_Worker_Threads else None.

Definition as_int (v : RVal) : option Z :=
  match v with RInt z => Some z | _ => None end.

Definition in_bounds (g : string) (path : list Z) : bool :=
  match global_length g, path with
  | Some n, [i] => (0 <=? i) && (i <? n)
  | _, _ => true
  end.

(** An inbounds GEP whose first index is 0 steps into the pointee; an index
    outside a global array of known length gives no address to load from or
    store to (the result is poison or, one past the end, an address at which
    no access is defined). *)
Definition gep (base : RVal) (idxs : list RVal) : option RVal :=
  match base, mapM as_int idxs with
  | RPtr (GlobalElem g []), Some (z :: path) =>
      if (z =? 0) && in_bounds g path then Some (RPtr (GlobalElem g path)) else None
  | RPtr (FrameElem o []), Some (z :: path) =>
      if z =? 0 then Some (RPtr (FrameElem o path)) else None
  | RPtr (StackSlot id), Some [z1; z2] =>
      if (z1 =? 0) && (z2 =? 0) then Some (RPtr (StackSlot id)) else None
  | _, _ => None
  end.

Fixpoint eval (L : Lane) (regs : nat -> option RVal) (m : Memory) (v : Value)
  : option RVal :=
  match v with
  | ConstantInt z => Some (RInt z)
  | NullValue => Some RNull
  | FunctionAddr f => Some (RFn f)
  | Argument i => fn_args L !! i
  | CallResult id => regs id
  | AllocaAddr id _ => Some (RPtr (StackSlot id))
  | GlobalAddr g => Some (RPtr (GlobalElem g []))
  | ReadSReg r => Some (RInt (read_sreg L r))
  | BinOp op a b =>
      match eval L regs m a, eval L regs m b with
      | Some (RInt x), Some (RInt y) => RInt <$> eval_binop op x y
      | _, _ => None
      end
  | CreateNot a =>
      match eval L regs m a with
      | Some (RInt x) => Some (RInt (wrap32 (Z.lnot x)))
      | _ => None
      end
  | Popc a =>
      match eval L regs m a with
      | Some (RInt x) => Some (RInt (popc_bits 32 x))
      | _ => None
      end
  | ICmp p a b =>
      match eval L regs m a, eval L regs m b with
      | Some x, Some y => eval_icmp p x y
      | _, _ => None
      end
  | CreateZExt a => eval L regs m a
  | CreateLoad a =>
      match eval L regs m a with
      | Some (RPtr p) => m p
      | _ => None
      end
  | CreateInBoundsGEP base idxs =>
      match eval L regs m base, mapM (eval L regs m) idxs with
      | Some b, Some ixs => gep b ixs
      | _, _ => None
      end
  | CreateBitOrPointerCast a => eval L regs m a
  end.

(** ** Thread and block identifiers (pure values) *)

Definition getNVPTXWarpSize : Value := ReadSReg sreg_warpsize.
Definition getNVPTXThreadID : Value := ReadSReg sreg_tid_x.
Definition getNVPTXThreadWarpID : Value :=
  BinOp OpAnd getNVPTXThreadID (ConstantInt DS_Max_Worker_Warp_Size_Log2_Mask).
Definition getNVPTXBlockID : Value := ReadSReg sreg_ctaid_x.
Definition getNVPTXWarpID : Value :=
  BinOp OpAShr getNVPTXThreadID (ConstantInt DS_Max_Worker_Warp_Size_Log2).
Definition getNVPTXNumThreads : Value := ReadSReg sreg_ntid_x.

(* The runtime always starts thread_limit+warpSize threads. *)
Definition getThreadLimit : Value :=
  BinOp OpSub getNVPTXNumThreads getNVPTXWarpSize.

Definition getMasterThreadID : Value :=
  let NumThreads := getNVPTXNumThreads in
  (* We assume that the warp size is a power of 2. *)
  let Mask := BinOp OpSub getNVPTXWarpSize (ConstantInt 1) in
  BinOp OpAnd (BinOp OpSub NumThreads (ConstantInt 1)) (CreateNot Mask).

Definition getNumWorkers : Value :=
  BinOp OpNUWSub getNVPTXNumThreads (ConstantInt 32).

Definition getTeamThreadId : Value :=
  let Mask := BinOp OpNUWSub getMasterThreadID (ConstantInt 1) in
  BinOp OpAnd getNVPTXThreadID Mask.

Definition getGlobalThreadId : Value :=
  BinOp OpAdd (BinOp OpMul getNVPTXBlockID getNumWorkers) getTeamThreadId.

(** ** The generator's state *)

Inductive Result (A : Type) :=
| Ok (a : A)
| AssertionFailed (msg : string).
Arguments Ok {A} a.
Arguments AssertionFailed {A} msg.

(** A module global with a [getNullValue] initializer. *)
Record GlobalVariable := {
  gv_name : string;
  gv_length : Z;          (* number of i32 elements *)
  gv_addrspace : Z
}.

Record CodeGenFunction := {
  CurFn : string;
  Blocks : list BasicBlock;      (* blocks placed in CurFn, in emission order *)
  InsertPoint : option nat;      (* Builder.GetInsertBlock() *)
  NextBlockId : nat;
  NextValueId : nat;
  ReturnValue : option Value
}.

(** *** Declarations and types of the front end *)

(** A declaration is known by its identity (the pointer in the source). *)
Definition Decl : Type := nat.
Definition VarDecl : Type := nat.

Inductive QualType :=
| BuiltinType (name : string)
| PointerType (pointee : QualType)
| ConstantArrayType (elem : QualType) (size : Z)
| RecordType (name : string).

#[global] Instance QualType_eq_dec : EqDecision QualType.
Proof. solve_decision. Defined.

(** Modelled from the spec: the declaration of [DataSharingInfo] and of its
    [DataSharingType] is not in the excerpt (the header declares an older
    version of the struct); the fields are the ones the code reads and
    [add] appends a capture with its sharing mode. *)
Inductive DataSharingType := DST_Val | DST_Ref | DST_Cast.

#[global] Instance DataSharingType_eq_dec : EqDecision DataSharingType.
Proof. solve_decision. Defined.

Record DataSharingInfo := {
  CapturesValues : list (option VarDecl * DataSharingType);
  MasterRecordType : list QualType;        (* the fields of the master record *)
  WorkerWarpRecordType : list QualType     (* the fields of the warp record *)
}.

(** Per kernel/function bookkeeping of the data sharing machinery. *)
Record DataSharingFunctionInfo := {
  IsEntryPoint : bool;
  EntryWorkerFunction : option string;
  EntryExitBlock : option nat;
  InitializationFunction : option string
}.

Record CGOpenMPRuntimeNVPTX := {
  IsOrphaned : bool;               (* State information to track orphaned directives. *)
  ParallelNestingLevel : Z;        (* Track parallel nesting level. *)
  Work : list string;              (* Pointers to outlined function work for workers. *)
  WrapperFunctionsMap : gmap string string;
  DataSharingInfoMap : gmap Decl DataSharingInfo;
  DataSharingFunctionInfoMap : gmap string DataSharingFunctionInfo;
  CurrentParallelContext : option Decl
}.

Record GenState := {
  Globals : list GlobalVariable;   (* CGM.getModule() *)
  RT : CGOpenMPRuntimeNVPTX;
  CGF : CodeGenFunction
}.

Definition Gen (A : Type) : Type := GenState -> Result (A * GenState).

Definition gen_ret {A} (a : A) : Gen A := fun s => Ok (a, s).
Definition gen_bind {A B} (c : Gen A) (k : A -> Gen B) : Gen B :=
  fun s => match c s with
           | Ok (a, s') => k a s'
           | AssertionFailed msg => AssertionFailed msg
           end.
Definition gen_assert (cond : bool) (msg : string) : Gen unit :=
  fun s => if cond then Ok (tt, s) else AssertionFailed msg.

#[global] Instance Gen_ret : MRet Gen := @gen_ret.
#[global] Instance Gen_bind : MBind Gen := fun A B k c => gen_bind c k.

Definition getRT : Gen CGOpenMPRuntimeNVPTX := fun s => Ok (RT s, s).
Definition setRT (r : CGOpenMPRuntimeNVPTX) : Gen unit :=
  fun s => Ok (tt, {| Globals := Globals s; RT := r; CGF := CGF s |}).
Definition getCGF : Gen CodeGenFunction := fun s => Ok (CGF s, s).
Definition setCGF (c : CodeGenFunction) : Gen unit :=
  fun s => Ok (tt, {| Globals := Globals s; RT := RT s; CGF := c |}).
Definition modifyCGF (f : CodeGenFunction -> CodeGenFunction) : Gen unit :=
  fun s => Ok (tt, {| Globals := Globals s; RT := RT s; CGF := f (CGF s) |}).

(** ** The generic emitter *)

Definition find_block (bs : list BasicBlock) (id : nat) : option BasicBlock :=
  List.find (fun b => Nat.eqb (bb_id b) id) bs.

Definition update_block (id : nat) (f : BasicBlock -> BasicBlock)
    (bs : list BasicBlock) : list BasicBlock :=
  List.map (fun b => if Nat.eqb (bb_id b) id then f b else b) bs.

Definition append_instr (i : Instr) (b : BasicBlock) : BasicBlock :=
  {| bb_id := bb_id b; bb_name := bb_name b;
     bb_instrs := bb_instrs b ++ [i]; bb_term := bb_term b |}.

Definition prepend_instr (i : Instr) (b : BasicBlock) : BasicBlock :=
  {| bb_id := bb_id b; bb_name := bb_name b;
     bb_instrs := i :: bb_instrs b; bb_term := bb_term b |}.

Definition set_term (t : Terminator) (b : BasicBlock) : BasicBlock :=
  {| bb_id := bb_id b; bb_name := bb_name b;
     bb_instrs := bb_instrs b; bb_term := Some t |}.

Definition with_blocks (c : CodeGenFunction) (bs : list BasicBlock)
    (ip : option nat) : CodeGenFunction :=
  {| CurFn := CurFn c; Blocks := bs; InsertPoint := ip; NextBlockId := NextBlockId c;
     NextValueId := NextValueId c; ReturnValue := ReturnValue c |}.

(** Modelled from the spec: the generic emitter's primitives for basic blocks,
    branches, calls and temporaries (CodeGenFunction and its IR builder),
    which the runtime code below only calls.  A basic block handle is its
    identity together with its name. *)
Definition BlockRef : Type := nat * string.

Definition createBasicBlock (name : string) : Gen BlockRef :=
  fun s =>
    let c := CGF s in
    Ok ((NextBlockId c, name),
        {| Globals := Globals s; RT := RT s;
           CGF := {| CurFn := CurFn c; Blocks := Blocks c; InsertPoint := InsertPoint c;
                     NextBlockId := S (NextBlockId c);
                     NextValueId := NextValueId c;
                     ReturnValue := ReturnValue c |} |}).

Definition fresh_value : Gen nat :=
  fun s =>
    let c := CGF s in
    Ok (NextValueId c,
        {| Globals := Globals s; RT := RT s;
           CGF := {| CurFn := CurFn c; Blocks := Blocks c; InsertPoint := InsertPoint c;
                     NextBlockId := NextBlockId c;
                     NextValueId := S (NextValueId c);
                     ReturnValue := ReturnValue c |} |}).

Definition open_block (id : nat) (name : string) : BasicBlock :=
  {| bb_id := id; bb_name := name; bb_instrs := []; bb_term := None |}.

(** Append an instruction at the insertion point (nothing is emitted when the
    insertion point has been cleared). *)
Definition emitInstr (i : Instr) (c : CodeGenFunction) : CodeGenFunction :=
  match InsertPoint c with
  | Some id => with_blocks c (update_block id (append_instr i) (Blocks c)) (Some id)
  | None => c
  end.

Definition emit (i : Instr) : Gen unit := modifyCGF (emitInstr i).

Definition terminated (c : CodeGenFunction) : bool :=
  match InsertPoint c with
  | Some id =>
      match find_block (Blocks c) id with
      | Some b => match bb_term b with Some _ => true | None => false end
      | None => false
      end
  | None => true
  end.

Definition setTerminator (t : Terminator) (c : CodeGenFunction) : CodeGenFunction :=
  match InsertPoint c with
  | Some id => with_blocks c (update_block id (set_term t) (Blocks c)) (Some id)
  | None => c
  end.

Definition set_terminator (t : Terminator) : Gen unit := modifyCGF (setTerminator t).

Definition CreateCondBr (cond : Value) (t f : BlockRef) : Gen unit :=
  set_terminator (CondBr cond (fst t) (fst f)).

(** Branch to the target unless there is no insertion point or the current
    block already has a terminator; then clear the insertion point. *)
Definition emitBranch (target : BlockRef) (c : CodeGenFunction) : CodeGenFunction :=
  if terminated c then with_blocks c (Blocks c) None
  else with_blocks (setTerminator (Br (fst target)) c)
                   (Blocks (setTerminator (Br (fst target)) c)) None.

Definition EmitBranch (target : BlockRef) : Gen unit := modifyCGF (emitBranch target).

(** Fall out of the current block, place the block in the function and make
    it the insertion point. *)
Definition placeBlock (BB : BlockRef) (c : CodeGenFunction) : CodeGenFunction :=
  with_blocks c (Blocks c ++ [open_block (fst BB) (snd BB)]) (Some (fst BB)).

Definition EmitBlock (BB : BlockRef) : Gen unit :=
  EmitBranch BB;;
  modifyCGF (placeBlock BB).

Definition CreateTempAlloca (name : string) : Gen Value :=
  id ← fresh_value; gen_ret (AllocaAddr id name).

Definition CreateMemTemp (name : string) : Gen Value := CreateTempAlloca name.

(** The initial value of a temporary is stored in the function's entry block,
    so that it is observable at all locations of the function. *)
Definition initTempAlloca (Var Init : Value) (c : CodeGenFunction) : CodeGenFunction :=
  with_blocks c (update_block 0%nat (prepend_instr (Store Init Var)) (Blocks c))
              (InsertPoint c).

Definition InitTempAlloca (Var Init : Value) : Gen unit :=
  modifyCGF (initTempAlloca Var Init).

Definition EmitStoreOfScalar (v addr : Value) : Gen unit := emit (Store v addr).
Definition EmitLoadOfScalar (addr : Value) : Value := CreateLoad addr.

(** A call whose result is used. *)
Definition CreateCall (callee : Callee) (args : list Value) : Gen Value :=
  id ← fresh_value;
  emit (Call (Some id) callee args);;
  gen_ret (CallResult id).

Definition EmitRuntimeCall (f : OpenMPRTLFunctionNVPTX) (args : list Value) : Gen Value :=
  CreateCall (RuntimeFunction f) args.

(** A call to a void function. *)
Definition EmitVoidCall (callee : Callee) (args : list Value) : Gen unit :=
  emit (Call None callee args).

Definition EmitCallOrInvoke (Fn : string) (args : list Value) : Gen unit :=
  EmitVoidCall (Function Fn) args.

Definition StartFunction (name : string) (returns_value : bool) : CodeGenFunction :=
  {| CurFn := name;
     Blocks := [{| bb_id := 0; bb_name := "entry"; bb_instrs := []; bb_term := None |}];
     InsertPoint := Some 0%nat;
     NextBlockId := 1;
     NextValueId := if returns_value then 1%nat else 0%nat;
     ReturnValue := if returns_value then Some (AllocaAddr 0 "retval") else None |}.

Definition FinishFunction : Gen unit :=
  c ← getCGF;
  if terminated c then gen_ret tt
  else set_terminator (Ret (CreateLoad <$> ReturnValue c)).

(** A finished function of the module. *)
Record LLVMFunction := {
  fn_name : string;
  fn_blocks : list BasicBlock;
  fn_next_block : nat;
  fn_next_value : nat
}.

(** Generate a function of its own: the body runs in a fresh
    [CodeGenFunction], and the caller's one is restored afterwards. *)
Definition generateFunction (name : string) (returns_value : bool) (body : Gen unit)
  : Gen LLVMFunction :=
  saved ← getCGF;
  setCGF (StartFunction name returns_value);;
  body;;
  FinishFunction;;
  c ← getCGF;
  setCGF saved;;
  mret {| fn_name := name; fn_blocks := Blocks c;
          fn_next_block := NextBlockId c; fn_next_value := NextValueId c |}.

(** ** Per-lane execution of emitted code *)

(** Results of the calls into the device runtime library, which is not part of
    the generator: the run is scripted by the answers the library gives. *)
Inductive Response :=
| RespKernelParallel (work_fn : RVal) (active : bool)
| RespConvergentParallel (active is_final : bool) (source : Z)
| RespConvergentSimd (active is_final : bool) (source lane_id num_lanes : Z)
| RespActiveMask (mask : Z)
| RespReturn (v : RVal).            (* value returned by a function of the module *)

Inductive Event :=
| EvCall (callee : Callee) (args : list RVal).

Record MState := {
  regs : nat -> option RVal;
  mem : Memory;
  script : list Response;
  trace : list Event
}.

Definition set_reg (r : nat -> option RVal) (id : nat) (v : RVal) : nat -> option RVal :=
  fun id' => if Nat.eqb id id' then Some v else r id'.

Definition set_result (res : option nat) (v : RVal) (r : nat -> option RVal) :=
  match res with Some id => set_reg r id v | None => r end.

(** What a call does beyond being recorded in the trace. *)
Definition call_effect (callee : Callee) (args : list RVal) (res : option nat)
    (s : MState) : option MState :=
  let tr := trace s ++ [EvCall callee args] in
  match callee with
  | RuntimeFunction OMPRTL_NVPTX__kmpc_kernel_parallel =>
      match args, script s with
      | [RPtr p], RespKernelParallel fn active :: rest =>
          Some {| regs := set_result res (RInt (bool_to_Z active)) (regs s);
                  mem := mem_store (mem s) p fn; script := rest; trace := tr |}
      | _, _ => None
      end
  | RuntimeFunction OMPRTL_NVPTX__kmpc_kernel_convergent_parallel =>
      match args, script s with
      | [_; RPtr pfinal; RPtr psource], RespConvergentParallel active final src :: rest =>
          Some {| regs := set_result res (RInt (bool_to_Z active)) (regs s);
                  mem := mem_store (mem_store (mem s) pfinal (RInt (bool_to_Z final)))
                                   psource (RInt src);
                  script := rest; trace := tr |}
      | _, _ => None
      end
  | RuntimeFunction OMPRTL_NVPTX__kmpc_kernel_convergent_simd =>
      match args, script s with
      | [_; RPtr pfinal; RPtr psource; RPtr plane; RPtr pnum],
        RespConvergentSimd active final src lane num :: rest =>
          Some {| regs := set_result res (RInt (bool_to_Z active)) (regs s);
                  mem := mem_store (mem_store (mem_store (mem_store (mem s)
                           pfinal (RInt (bool_to_Z final))) psource (RInt src))
                           plane (RInt lane)) pnum (RInt num);
                  script := rest; trace := tr |}
      | _, _ => None
      end
  | RuntimeFunction OMPRTL_NVPTX__kmpc_warp_active_thread_mask =>
      match script s with
      | RespActiveMask mask :: rest =>
          Some {| regs := set_result res (RInt mask) (regs s);
                  mem := mem s; script := rest; trace := tr |}
      | _ => None
      end
  | RuntimeFunction OMPRTL_NVPTX__kmpc_get_data_sharing_environment_frame =>
      match args with
      | [RInt t] =>
          Some {| regs := set_result res (RPtr (FrameElem t [])) (regs s);
                  mem := mem s; script := script s; trace := tr |}
      | _ => None
      end
  | Function _ =>
      match res, script s with
      | None, _ =>
          Some {| regs := regs s; mem := mem s; script := script s; trace := tr |}
      | Some id, RespReturn v :: rest =>
          Some {| regs := set_reg (regs s) id v; mem := mem s; script := rest; trace := tr |}
      | Some _, _ => None
      end
  | _ =>
      Some {| regs := regs s; mem := mem s; script := script s; trace := tr |}
  end.

Definition exec_instr (L : Lane) (i : Instr) (s : MState) : option MState :=
  match i with
  | Store v a =>
      match eval L (regs s) (mem s) v, eval L (regs s) (mem s) a with
      | Some x, Some (RPtr p) =>
          Some {| regs := regs s; mem := mem_store (mem s) p x;
                  script := script s; trace := trace s |}
      | _, _ => None
      end
  | Call res callee args =>
      match mapM (eval L (regs s) (mem s)) args with
      | Some vs => call_effect callee vs res s
      | None => None
      end
  end.

Fixpoint exec_instrs (L : Lane) (code : list Instr) (s : MState) : option MState :=
  match code with
  | [] => Some s
  | i :: rest =>
      match exec_instr L i s with
      | Some s' => exec_instrs L rest s'
      | None => None
      end
  end.

Inductive Config :=
| At (bb : nat) (s : MState)          (* about to run block bb *)
| Stopped (bb : nat) (s : MState)     (* at the end of the open block bb *)
| Returned (v : option RVal) (s : MState)
| Fault.

Definition exec_term (L : Lane) (bb : nat) (t : option Terminator) (s : MState) : Config :=
  match t with
  | None => Stopped bb s
  | Some (Br l) => At l s
  | Some (CondBr c l1 l2) =>
      match eval L (regs s) (mem s) c with
      | Some (RInt z) => if z =? 0 then At l2 s else At l1 s
      | _ => Fault
      end
  | Some (Ret None) => Returned None s
  | Some (Ret (Some v)) =>
      match eval L (regs s) (mem s) v with
      | Some x => Returned (Some x) s
      | None => Fault
      end
  end.

Definition step (F : list BasicBlock) (L : Lane) (c : Config) : Config :=
  match c with
  | At bb s =>
      match find_block F bb with
      | Some B =>
          match exec_instrs L (bb_instrs B) s with
          | Some s' => exec_term L bb (bb_term B) s'
          | None => Fault
          end
      | None => Fault
      end
  | _ => c
  end.

Fixpoint steps (n : nat) (F : list BasicBlock) (L : Lane) (c : Config) : Config :=
  match n with
  | O => c
  | S n' => steps n' F L (step F L c)
  end.

(** ** The parallelism level kept in shared memory *)

Definition ADDRESS_SPACE_SHARED : Z := 3.

Definition parallelism_levels_name : string := "__openmp_nvptx_parallelism_levels".

Definition getGlobalVariable (Name : string) (gs : list GlobalVariable)
  : option GlobalVariable :=
  List.find (fun g => String.eqb (gv_name g) Name) gs.

(** Return the address where the parallelism level is kept in shared memory
    for the current thread.  The global is created, zero-initialized, the
    first time it is needed. *)
Definition getParallelismLevelLValue : Gen Value :=
  fun s =>
    let Name := parallelism_levels_name in
    let gs :=
      match getGlobalVariable Name (Globals s) with
      | Some _ => Globals s
      | None =>
          Globals s ++ [{| gv_name := Name; gv_length := DS_Max_Worker_Threads;
                           gv_addrspace := ADDRESS_SPACE_SHARED |}]
      end in
    Ok (CreateInBoundsGEP (GlobalAddr Name) [ConstantInt 0; getNVPTXThreadID],
        {| Globals := gs; RT := RT s; CGF := CGF s |}).

Definition getParallelismLevel : Gen Value :=
  Addr ← getParallelismLevelLValue;
  mret (EmitLoadOfScalar Addr).

Definition increaseParallelismLevel (IsSimd : bool) : Gen unit :=
  let Increment := if IsSimd then 10 else 1 in
  Addr ← getParallelismLevelLValue;
  let CurVal := EmitLoadOfScalar Addr in
  let NewVal := BinOp OpNSWAdd CurVal (ConstantInt Increment) in
  EmitStoreOfScalar NewVal Addr.

Definition decreaseParallelismLevel (IsSimd : bool) : Gen unit :=
  let Increment := if IsSimd then 10 else 1 in
  Addr ← getParallelismLevelLValue;
  let CurVal := EmitLoadOfScalar Addr in
  let NewVal := BinOp OpNSWSub CurVal (ConstantInt Increment) in
  EmitStoreOfScalar NewVal Addr.

Definition initializeParallelismLevel : Gen unit :=
  Addr ← getParallelismLevelLValue;
  EmitStoreOfScalar (ConstantInt 0) Addr.

(** ** Static classification of the nesting level *)

Definition InL0 (rt : CGOpenMPRuntimeNVPTX) : bool :=
  negb (IsOrphaned rt) && (ParallelNestingLevel rt =? 0).

Definition InL1 (rt : CGOpenMPRuntimeNVPTX) : bool :=
  negb (IsOrphaned rt) && (ParallelNestingLevel rt =? 1).

Definition InL1Plus (rt : CGOpenMPRuntimeNVPTX) : bool :=
  negb (IsOrphaned rt) && (1 <=? ParallelNestingLevel rt).

Definition IndeterminateLevel (rt : CGOpenMPRuntimeNVPTX) : bool := IsOrphaned rt.

Definition RegionCodeGenTy : Type := Gen unit.

Definition EmitBlock_opt (BB : option BlockRef) : Gen unit :=
  match BB with Some b => EmitBlock b | None => mret tt end.

(** Emit the code that each thread requires to execute when it encounters one
    of the three possible parallelism levels. *)
Definition emitParallelismLevelCode (Level0 Level1 Sequential : RegionCodeGenTy)
  : Gen unit :=
  rt ← getRT;
  (* Flags that prevent code to be emitted if it can be proven that threads
     cannot reach this function at a given level. *)
  let OnlyInL0 := InL0 rt in
  let OnlyInL1 := InL1 rt in
  let OnlySequential := negb (IsOrphaned rt) && negb (InL0 rt) && negb (InL1 rt) in
  AfterBB ← createBasicBlock ".after.parallel";
  (* Do we need to emit L0 code? *)
  (if negb OnlyInL1 && negb OnlySequential then
     LBB ← createBasicBlock ".level0.parallel";
     NextBB ←
       (if negb OnlyInL0 then
          NextBB ← createBasicBlock ".next.parallel";
          let ThreadID := getNVPTXThreadID in
          let MasterID := getMasterThreadID in
          let Cond := ICmp ICMP_EQ ThreadID MasterID in
          CreateCondBr Cond LBB NextBB;;
          mret (Some NextBB)
        else mret None);
     EmitBlock LBB;;
     Level0;;
     EmitBranch AfterBB;;
     EmitBlock_opt NextBB
   else mret tt);;
  (* Do we need to emit L1 code? *)
  (if negb OnlyInL0 && negb OnlySequential then
     LBB ← createBasicBlock ".level1.parallel";
     NextBB ←
       (if negb OnlyInL1 then
          NextBB ← createBasicBlock ".next.parallel";
          ParallelLevelVal ← getParallelismLevel;
          let Cond := ICmp ICMP_EQ ParallelLevelVal (ConstantInt 1) in
          CreateCondBr Cond LBB NextBB;;
          mret (Some NextBB)
        else mret None);
     EmitBlock LBB;;
     Level1;;
     EmitBranch AfterBB;;
     EmitBlock_opt NextBB
   else mret tt);;
  (* Do we need to emit sequential code? *)
  (if negb OnlyInL0 && negb OnlyInL1 then
     SeqBB ← createBasicBlock ".sequential.parallel";
     (if negb OnlySequential then
        ParallelLevelVal ← getParallelismLevel;
        let Cond := ICmp ICMP_SGT ParallelLevelVal (ConstantInt 1) in
        CreateCondBr Cond SeqBB AfterBB
      else mret tt);;
     EmitBlock SeqBB;;
     Sequential
   else mret tt);;
  EmitBlock AfterBB.

(** A generator state at the start of a function body. *)
Definition start_state (gs : list GlobalVariable) (rt : CGOpenMPRuntimeNVPTX)
    (returns_value : bool) : GenState :=
  {| Globals := gs; RT := rt; CGF := StartFunction "f" returns_value |}.

Definition emitted_blocks {A} (r : Result (A * GenState)) : list BasicBlock :=
  match r with
  | Ok (_, s) => Blocks (CGF s)
  | AssertionFailed _ => []
  end.

Definition emitted_insert_point {A} (r : Result (A * GenState)) : option nat :=
  match r with
  | Ok (_, s) => InsertPoint (CGF s)
  | AssertionFailed _ => None
  end.

(** Memory at kernel start: every element of a zero-initialized module global
    holds 0; nothing else is allocated. *)
Definition initial_memory (gs : list GlobalVariable) : Memory :=
  fun a =>
    match a with
    | GlobalElem g [i] =>
        match getGlobalVariable g gs with
        | Some gv => if (0 <=? i) && (i <? gv_length gv) then Some (RInt 0) else None
        | None => None
        end
    | _ => None
    end.

Definition initial_state (gs : list GlobalVariable) (sc : list Response) : MState :=
  {| regs := fun _ => None; mem := initial_memory gs; script := sc; trace := [] |}.

Definition add_events (s : MState) (evs : list Event) : MState :=
  {| regs := regs s; mem := mem s; script := script s; trace := trace s ++ evs |}.

(** ** Observing the emitted dispatch *)

Inductive Level := AtLevel0 | AtLevel1 | AtSequential.

#[global] Instance Level_eq_dec : EqDecision Level.
Proof. solve_decision. Defined.

Definition level_block_name (l : Level) : string :=
  match l with
  | AtLevel0 => ".level0.parallel"
  | AtLevel1 => ".level1.parallel"
  | AtSequential => ".sequential.parallel"
  end.

Definition block_named (F : list BasicBlock) (name : string) : option BasicBlock :=
  List.find (fun b => String.eqb (bb_name b) name) F.

(** The conditions of the conditional branches whose taken target is [id]. *)
Definition guards_into (F : list BasicBlock) (id : nat) : list Value :=
  omap (fun b => match bb_term b with
                 | Some (CondBr c t _) => if Nat.eqb t id then Some c else None
                 | _ => None
                 end) F.

(** [None]: the block of the level is not emitted; [Some None]: it is emitted
    without a guard; [Some (Some g)]: it is entered under the guard [g]. *)
Definition level_guard (F : list BasicBlock) (l : Level) : option (option Value) :=
  match block_named F (level_block_name l) with
  | Some B => Some (head (guards_into F (bb_id B)))
  | None => None
  end.

Definition ParallelLevelVal : Value :=
  CreateLoad (CreateInBoundsGEP (GlobalAddr parallelism_levels_name)
                                [ConstantInt 0; getNVPTXThreadID]).

(** The run-time predicate that guards each level. *)
Definition level_predicate (l : Level) : Value :=
  match l with
  | AtLevel0 => ICmp ICMP_EQ getNVPTXThreadID getMasterThreadID
  | AtLevel1 => ICmp ICMP_EQ ParallelLevelVal (ConstantInt 1)
  | AtSequential => ICmp ICMP_SGT ParallelLevelVal (ConstantInt 1)
  end.

(** The value [getMasterThreadID] computes in 32-bit arithmetic. *)
Definition master_tid (L : Lane) : Z :=
  Z.land (wrap32 (ntid_x L - 1)) (wrap32 (Z.lnot (wrap32 (warpsize L - 1)))).

Definition level_cell (L : Lane) : Addr := GlobalElem parallelism_levels_name [tid_x L].

(** The level the static nesting information stands for. *)
Definition level_of_nesting (pnl : Z) : Level :=
  if pnl =? 0 then AtLevel0 else if pnl =? 1 then AtLevel1 else AtSequential.

(** What the claim expects of the guard of a level. *)
Definition expected_guard (rt : CGOpenMPRuntimeNVPTX) (l : Level) : option (option Value) :=
  if IsOrphaned rt then Some (Some (level_predicate l))
  else if decide (level_of_nesting (ParallelNestingLevel rt) = l) then Some None
  else None.

Definition region_marker (l : Level) : string :=
  match l with
  | AtLevel0 => "level0.region"
  | AtLevel1 => "level1.region"
  | AtSequential => "sequential.region"
  end.

(** A region body that only leaves a mark in the trace. *)
Definition mark (l : Level) : RegionCodeGenTy := EmitCallOrInvoke (region_marker l) [].

Definition dispatch (rt : CGOpenMPRuntimeNVPTX) : Result (unit * GenState) :=
  emitParallelismLevelCode (mark AtLevel0) (mark AtLevel1) (mark AtSequential)
    (start_state [] rt false).

Definition level_events (o : option Level) : list Event :=
  match o with
  | Some l => [EvCall (Function (region_marker l)) []]
  | None => []
  end.

(** The code of the level [l] among the three a construct is lowered with. *)
Definition level_code (l : Level) (Level0 Level1 Sequential : RegionCodeGenTy)
  : RegionCodeGenTy :=
  match l with
  | AtLevel0 => Level0
  | AtLevel1 => Level1
  | AtSequential => Sequential
  end.

(** The dispatch of a construct whose level is known statically: the block
    of that level, entered without a guard, and the continuation block. *)
Definition static_dispatch (l : Level) (body : RegionCodeGenTy) : Gen unit :=
  AfterBB ← createBasicBlock ".after.parallel";
  LBB ← createBasicBlock (level_block_name l);
  EmitBlock LBB;;
  body;;
  EmitBranch AfterBB;;
  EmitBlock AfterBB.

(** The generator's state when the code of the statically known level [l] is
    about to be emitted: the continuation block and the block of the level
    are created, and the latter is placed and is the insertion point. *)
Definition level_entry (l : Level) (st : GenState) : GenState :=
  match (AfterBB ← createBasicBlock ".after.parallel";
         LBB ← createBasicBlock (level_block_name l);
         EmitBlock LBB) st with
  | Ok (_, s) => s
  | AssertionFailed _ => st
  end.

(** The code emitted so far ends in the open block [e], which is the
    insertion point. *)
Definition open_end (c : CodeGenFunction) (e : nat) : Prop :=
  InsertPoint c = Some e /\
  exists B, find_block (Blocks c) e = Some B /\ bb_term B = None.

(** The runtime object as constructed: not orphaned, nesting level 0. *)
Definition initial_runtime : CGOpenMPRuntimeNVPTX :=
  {| IsOrphaned := false; ParallelNestingLevel := 0; Work := [];
     WrapperFunctionsMap := ∅; DataSharingInfoMap := ∅;
     DataSharingFunctionInfoMap := ∅; CurrentParallelContext := None |}.

Definition set_orphaned (o : bool) (rt : CGOpenMPRuntimeNVPTX) : CGOpenMPRuntimeNVPTX :=
  {| IsOrphaned := o; ParallelNestingLevel := ParallelNestingLevel rt; Work := Work rt;
     WrapperFunctionsMap := WrapperFunctionsMap rt;
     DataSharingInfoMap := DataSharingInfoMap rt;
     DataSharingFunctionInfoMap := DataSharingFunctionInfoMap rt;
     CurrentParallelContext := CurrentParallelContext rt |}.

Definition set_nesting (l : Z) (rt : CGOpenMPRuntimeNVPTX) : CGOpenMPRuntimeNVPTX :=
  {| IsOrphaned := IsOrphaned rt; ParallelNestingLevel := l; Work := Work rt;
     WrapperFunctionsMap := WrapperFunctionsMap rt;
     DataSharingInfoMap := DataSharingInfoMap rt;
     DataSharingFunctionInfoMap := DataSharingFunctionInfoMap rt;
     CurrentParallelContext := CurrentParallelContext rt |}.

Definition levels_global : GlobalVariable :=
  {| gv_name := parallelism_levels_name; gv_length := DS_Max_Worker_Threads;
     gv_addrspace := ADDRESS_SPACE_SHARED |}.

(** Lane 5 of a block of 64 threads with 32-lane groups. *)
Definition worker_lane_5 : Lane :=
  {| tid_x := 5; ntid_x := 64; ctaid_x := 0; warpsize := 32; fn_args := [] |}.

(** The block of 128 threads of the worked example, seen from thread 70. *)
Definition lane_70_of_128 : Lane :=
  {| tid_x := 70; ntid_x := 128; ctaid_x := 0; warpsize := 32; fn_args := [] |}.

(** ** Kernel entry: splitting the block into workers, master and the rest *)

Definition shared_data_slots_name : string := "__openmp_nvptx_shared_data_slots".

(** Return address of the initial slot that is used to share data. *)
Definition getDataSharingRootSlotLValue (IsMaster : bool) : Gen Value :=
  fun s =>
    let Name := shared_data_slots_name in
    let gs :=
      match getGlobalVariable Name (Globals s) with
      | Some _ => Globals s
      | None =>
          Globals s ++ [{| gv_name := Name; gv_length := DS_Max_Teams; gv_addrspace := 0 |}]
      end in
    let Gbl := GlobalAddr Name in
    (* Return the master slot if the flag is set, otherwise get the right
       worker slots. *)
    let AddrVal :=
      if IsMaster then
        CreateInBoundsGEP Gbl [ConstantInt 0; getNVPTXBlockID; ConstantInt 0]
      else
        CreateInBoundsGEP Gbl [ConstantInt 0; getNVPTXBlockID; ConstantInt 1; getNVPTXWarpID] in
    Ok (AddrVal, {| Globals := gs; RT := RT s; CGF := CGF s |}).

Definition getNVPTXWarpActiveThreadsMask : Gen Value :=
  EmitRuntimeCall OMPRTL_NVPTX__kmpc_warp_active_thread_mask [].

Definition getNVPTXWarpActiveNumThreads : Gen Value :=
  Mask ← getNVPTXWarpActiveThreadsMask;
  mret (Popc Mask).

(** popc( Mask << (32 - (threadID & 0x1f)) ) *)
Definition getNVPTXWarpActiveThreadID : Gen Value :=
  let WarpID := getNVPTXThreadWarpID in
  Mask ← getNVPTXWarpActiveThreadsMask;
  let ShNum := BinOp OpSub (ConstantInt 32) WarpID in
  let Sh := BinOp OpShl Mask ShNum in
  mret (Popc Sh).

Definition getNVPTXIsWarpActiveMaster : Gen Value :=
  t ← getNVPTXWarpActiveThreadID;
  mret (ICmp ICMP_EQ t (ConstantInt 0)).

Definition getNVPTXCTABarrier : Gen unit := EmitVoidCall nvvm_barrier0 [].
Definition syncCTAThreads : Gen unit := getNVPTXCTABarrier.

(** Initialize the data sharing slots and pointers. *)
Definition initializeDataSharing (IsMaster : bool) : Gen unit :=
  EndBB ← createBasicBlock "after_shared_data_init";
  (* If this is not the OpenMP master thread, make sure that only the warp
     master does the initialization. *)
  (if negb IsMaster then
     IsWarpMaster ← getNVPTXIsWarpActiveMaster;
     InitBB ← createBasicBlock "shared_data_init";
     CreateCondBr IsWarpMaster InitBB EndBB;;
     EmitBlock InitBB
   else mret tt);;
  SlotLV ← getDataSharingRootSlotLValue IsMaster;
  let CastedSlot := CreateBitOrPointerCast SlotLV in
  let Args := [CastedSlot;
               ConstantInt (if IsMaster then DS_Slot_Size else DS_Worker_Warp_Slot_Size)] in
  EmitVoidCall (RuntimeFunction OMPRTL_NVPTX__kmpc_initialize_data_sharing_environment) Args;;
  EmitBlock EndBB.

Definition kernel_initialization_name : string := "__omp_kernel_initialization".

(** Initialize the data sharing slots and pointers and return the generated
    function: it returns 0 to the master lane and 1 to every other lane. *)
Definition createKernelInitializerFunction (WorkerFunction : string) : Gen LLVMFunction :=
  generateFunction kernel_initialization_name true (
    c ← getCGF;
    let RetVal := default NullValue (ReturnValue c) in
    WorkerBB ← createBasicBlock ".worker";
    MasterCheckBB ← createBasicBlock ".ismaster";
    MasterBB ← createBasicBlock ".master";
    ExitBB ← createBasicBlock ".exit";
    let One := ConstantInt 1 in
    let Zero := ConstantInt 0 in
    EmitStoreOfScalar One RetVal;;
    let IsWorker := ICmp ICMP_ULT getNVPTXThreadID getThreadLimit in
    CreateCondBr IsWorker WorkerBB MasterCheckBB;;
    EmitBlock WorkerBB;;
    initializeDataSharing false;;
    EmitVoidCall (Function WorkerFunction) [];;
    EmitBranch ExitBB;;
    EmitBlock MasterCheckBB;;
    let IsMaster := ICmp ICMP_EQ getNVPTXThreadID getMasterThreadID in
    CreateCondBr IsMaster MasterBB ExitBB;;
    EmitBlock MasterBB;;
    initializeDataSharing true;;
    EmitStoreOfScalar Zero RetVal;;
    EmitBranch ExitBB;;
    EmitBlock ExitBB).

Definition generated {A} (g : Gen A) (gs : list GlobalVariable)
    (rt : CGOpenMPRuntimeNVPTX) : option A :=
  match g (start_state gs rt false) with
  | Ok (a, _) => Some a
  | AssertionFailed _ => None
  end.

(** ** The worker loop *)

Fixpoint gen_for {A} (l : list A) (body : A -> Gen unit) : Gen unit :=
  match l with
  | [] => mret tt
  | x :: rest => body x;; gen_for rest body
  end.

(** The body of the loop over [Work] in [emitWorkerLoop]: try to match one
    outlined function against the work function read into [WorkFn]. *)
Definition match_work_item (WorkFn : Value) (TerminateBB : BlockRef) (W : string)
  : Gen unit :=
  (* Try to match this outlined function. *)
  let ID := CreateBitOrPointerCast (CreateBitOrPointerCast (FunctionAddr W)) in
  let WorkFnMatch := ICmp ICMP_EQ (CreateLoad WorkFn) ID in
  ExecuteFNBB ← createBasicBlock ".execute.fn";
  CheckNextBB ← createBasicBlock ".check.next";
  CreateCondBr WorkFnMatch ExecuteFNBB CheckNextBB;;
  (* Execute this outlined function. *)
  EmitBlock ExecuteFNBB;;
  (* Insert call to work function. We pass the master has source thread ID. *)
  EmitCallOrInvoke W [getMasterThreadID];;
  (* Go to end of parallel region. *)
  EmitBranch TerminateBB;;
  EmitBlock CheckNextBB.

(** The workers enter this loop and wait for parallel work from the master.
    When the master encounters a parallel region it sets up the work and wakes
    up the workers. *)
Definition emitWorkerLoop : Gen unit :=
  AwaitBB ← createBasicBlock ".await.work";
  SelectWorkersBB ← createBasicBlock ".select.workers";
  ExecuteBB ← createBasicBlock ".execute.parallel";
  TerminateBB ← createBasicBlock ".terminate.parallel";
  BarrierBB ← createBasicBlock ".barrier.parallel";
  ExitBB ← createBasicBlock ".exit";
  EmitBranch AwaitBB;;
  (* Workers wait for work from master. *)
  EmitBlock AwaitBB;;
  (* Wait for parallel work *)
  syncCTAThreads;;
  WorkFn ← CreateTempAlloca "work_fn";
  ExecStatus ← CreateTempAlloca "exec_status";
  InitTempAlloca ExecStatus (ConstantInt 0);;
  Ret ← EmitRuntimeCall OMPRTL_NVPTX__kmpc_kernel_parallel [WorkFn];
  emit (Store (CreateZExt Ret) ExecStatus);;
  (* On termination condition (workfn == 0), exit loop. *)
  let ShouldTerminate := ICmp ICMP_EQ (CreateLoad WorkFn) NullValue in
  CreateCondBr ShouldTerminate ExitBB SelectWorkersBB;;
  (* Activate requested workers. *)
  EmitBlock SelectWorkersBB;;
  let IsActive := ICmp ICMP_NE (CreateLoad ExecStatus) (ConstantInt 0) in
  CreateCondBr IsActive ExecuteBB BarrierBB;;
  (* Signal start of parallel region. *)
  EmitBlock ExecuteBB;;
  (* Process work items: outlined parallel functions. *)
  rt ← getRT;
  gen_for (Work rt) (match_work_item WorkFn TerminateBB);;
  (* Signal end of parallel region. *)
  EmitBlock TerminateBB;;
  EmitVoidCall (RuntimeFunction OMPRTL_NVPTX__kmpc_kernel_end_parallel) [];;
  EmitBranch BarrierBB;;
  (* All active and inactive workers wait at a barrier after parallel region. *)
  EmitBlock BarrierBB;;
  (* Barrier after parallel region. *)
  syncCTAThreads;;
  EmitBranch AwaitBB;;
  (* Exit target region. *)
  EmitBlock ExitBB.

Definition emitWorkerFunction (WorkerFn : string) : Gen LLVMFunction :=
  generateFunction WorkerFn false emitWorkerLoop.

(** ** The kernel entry function *)

Definition lookup_function_info (rt : CGOpenMPRuntimeNVPTX) (Fn : string)
  : DataSharingFunctionInfo :=
  default {| IsEntryPoint := false; EntryWorkerFunction := None;
             EntryExitBlock := None; InitializationFunction := None |}
          (DataSharingFunctionInfoMap rt !! Fn).

Definition set_function_info (Fn : string) (i : DataSharingFunctionInfo)
    (rt : CGOpenMPRuntimeNVPTX) : CGOpenMPRuntimeNVPTX :=
  {| IsOrphaned := IsOrphaned rt; ParallelNestingLevel := ParallelNestingLevel rt;
     Work := Work rt; WrapperFunctionsMap := WrapperFunctionsMap rt;
     DataSharingInfoMap := DataSharingInfoMap rt;
     DataSharingFunctionInfoMap := <[Fn := i]> (DataSharingFunctionInfoMap rt);
     CurrentParallelContext := CurrentParallelContext rt |}.

(** Setup NVPTX threads for master-worker OpenMP scheme.  The split of the
    threads is not done here (that code is commented out in the source): the
    function is only marked as an entry point, and the split is inserted by
    [InitializeEntryPoint] when the module is finished. *)
Definition emitEntryHeader (WorkerFn : string) : Gen BlockRef :=
  ExitBB ← createBasicBlock ".sleepy.hollow";
  c ← getCGF;
  rt ← getRT;
  (* Mark the current function as entry point. *)
  let old := lookup_function_info rt (CurFn c) in
  setRT (set_function_info (CurFn c)
           {| IsEntryPoint := true; EntryWorkerFunction := Some WorkerFn;
              EntryExitBlock := Some (fst ExitBB);
              InitializationFunction := InitializationFunction old |} rt);;
  (* First action in sequential region:
     Initialize the state of the OpenMP runtime library on the GPU. *)
  EmitVoidCall (RuntimeFunction OMPRTL_NVPTX__kmpc_kernel_init)
               [ConstantInt 0; getThreadLimit];;
  mret ExitBB.

Definition emitEntryFooter (ExitBB : BlockRef) : Gen unit :=
  TerminateBB ← createBasicBlock ".termination.notifier";
  EmitBranch TerminateBB;;
  EmitBlock TerminateBB;;
  (* Signal termination condition. *)
  EmitVoidCall (RuntimeFunction OMPRTL_NVPTX__kmpc_kernel_deinit) [];;
  (* Barrier to terminate worker threads. *)
  syncCTAThreads;;
  (* Master thread jumps to exit point. *)
  EmitBranch ExitBB;;
  EmitBlock ExitBB.

(** Emit the entry function of a target region and its worker function;
    nothing is emitted for a region that is not an offload entry.  The region
    body [CodeGen] is emitted between the header and the footer by the helper
    of the base class, which is part of the generic emitter and names the
    entry function after [ParentName]: [EntryName] is the name it gives. *)
Definition emitTargetOutlinedFunction (ParentName EntryName : string)
    (IsOffloadEntry : bool) (CodeGen : RegionCodeGenTy)
  : Gen (option (LLVMFunction * LLVMFunction)) :=
  if negb IsOffloadEntry then
    (* Nothing to do. *)
    mret None
  else
    gen_assert (negb (bool_decide (ParentName = EmptyString)))
               "Invalid target region parent name!";;
    let WorkerFn := (EntryName +:+ "_worker")%string in
    Entry ← generateFunction EntryName false (
      ExitBB ← emitEntryHeader WorkerFn;
      CodeGen;;
      emitEntryFooter ExitBB);
    (* Create the worker function *)
    Worker ← emitWorkerFunction WorkerFn;
    mret (Some (Entry, Worker)).

(** Split the block [bb] before its instruction number [k]: the first part
    keeps the identity and gets [extra] and the terminator [t]; the rest moves
    to a new block. *)
Definition split_block (bb k : nat) (extra : list Instr) (t : Terminator)
    (new_id : nat) (new_name : string) (bs : list BasicBlock) : list BasicBlock :=
  flat_map (fun b =>
    if Nat.eqb (bb_id b) bb then
      [ {| bb_id := bb_id b; bb_name := bb_name b;
           bb_instrs := take k (bb_instrs b) ++ extra; bb_term := Some t |};
        {| bb_id := new_id; bb_name := new_name;
           bb_instrs := drop k (bb_instrs b); bb_term := bb_term b |} ]
    else [b]) bs.

(** Helper to emit the initialization code at the provided insertion point
    [InsertPtr] (a block and a position in it) of the entry function [Fn]:
    call the kernel initializer and leave to the exit block unless it
    returned 0. *)
Definition InitializeEntryPoint (DSI : DataSharingFunctionInfo) (Fn : LLVMFunction)
    (InsertPtr : nat * nat)
  : Gen (LLVMFunction * (nat * nat) * LLVMFunction) :=
  match EntryWorkerFunction DSI, EntryExitBlock DSI with
  | Some WorkerFunction, Some ExitBlock =>
      InitFn ← createKernelInitializerFunction WorkerFunction;
      let res := fn_next_value Fn in
      let ShouldReturnImmediatelly := CallResult res in
      let Cond := ICmp ICMP_EQ ShouldReturnImmediatelly (ConstantInt 0) in
      let MasterBB := fn_next_block Fn in
      let blocks :=
        split_block (fst InsertPtr) (snd InsertPtr)
          [Call (Some res) (Function (fn_name InitFn)) []]
          (CondBr Cond MasterBB ExitBlock) MasterBB ".master" (fn_blocks Fn) in
      (* Continue inserting in the master basic block. *)
      mret ({| fn_name := fn_name Fn; fn_blocks := blocks;
               fn_next_block := S (fn_next_block Fn);
               fn_next_value := S (fn_next_value Fn) |},
            (MasterBB, 0%nat), InitFn)
  | None, _ =>
      fun _ => AssertionFailed "All entry function are expected to have an worker function."
  | _, None =>
      fun _ => AssertionFailed "All entry function are expected to have an exit basic block."
  end.

(** A kernel: the entry function of a target region with body [CodeGen],
    finished as [emitRegistrationFunction] finishes an entry point that has
    nothing to share; with its worker and its initializer. *)
Record Kernel := {
  k_entry : LLVMFunction;
  k_worker : LLVMFunction;
  k_init : LLVMFunction
}.

Definition emitKernel (ParentName EntryName : string) (IsOffloadEntry : bool)
    (CodeGen : RegionCodeGenTy) : Gen (option Kernel) :=
  fns ← emitTargetOutlinedFunction ParentName EntryName IsOffloadEntry CodeGen;
  match fns with
  | None => mret None
  | Some fns =>
      rt ← getRT;
      let DSI := lookup_function_info rt EntryName in
      (* We will start inserting after the first alloca or at the beginning of
         the function. *)
      let InsertPtr := (0%nat, 0%nat) in
      r ← InitializeEntryPoint DSI (fst fns) InsertPtr;
      mret (Some {| k_entry := fst (fst r); k_worker := snd fns; k_init := snd r |})
  end.

Definition target_region_body : string := "target.region.body".

Definition sample_kernel : option Kernel :=
  mjoin (generated (emitKernel "main" "kernel" true (EmitCallOrInvoke target_region_body []))
                   [] initial_runtime).

(** The position of a lane in its warp. *)
Definition lane_id (L : Lane) : Z := tid_x L mod DS_Max_Worker_Warp_Size.

Definition lane_is_active (L : Lane) (mask : Z) : bool := Z.testbit mask (lane_id L).

(** ** Roles of the threads of a block at kernel entry *)

Inductive Role := Worker | Master | Parked.

(** The value [getThreadLimit] computes: the block size minus one lane group. *)
Definition thread_limit (L : Lane) : Z := wrap32 (ntid_x L - warpsize L).

Definition kernel_role (L : Lane) : Role :=
  if tid_x L <? thread_limit L then Worker
  else if tid_x L =? master_tid L then Master
  else Parked.

Definition calls_function (f : string) (tr : list Event) : bool :=
  existsb (fun e => match e with
                    | EvCall (Function g) _ => String.eqb f g
                    | _ => false
                    end) tr.

(** Is the lane the first active lane of its group, for the given mask of
    active lanes? *)
Definition is_warp_active_master (L : Lane) (mask : Z) : bool :=
  popc_bits 32 (wrap32 (Z.shiftl mask (wrap32 (32 - Z.land (tid_x L) DS_Max_Worker_Warp_Size_Log2_Mask)))) =? 0.

Definition worker_slot (L : Lane) : RVal :=
  RPtr (GlobalElem shared_data_slots_name
          [ctaid_x L; 1; wrap32 (Z.shiftr (signed32 (tid_x L)) DS_Max_Worker_Warp_Size_Log2)]).

Definition master_slot (L : Lane) : RVal :=
  RPtr (GlobalElem shared_data_slots_name [ctaid_x L; 0]).

(** What a lane does in the kernel initializer. *)
Definition initializer_events (WorkerFunction : string) (L : Lane) (mask : Z) : list Event :=
  match kernel_role L with
  | Worker =>
      [EvCall (RuntimeFunction OMPRTL_NVPTX__kmpc_warp_active_thread_mask) []] ++
      (if is_warp_active_master L mask then
         [EvCall (RuntimeFunction OMPRTL_NVPTX__kmpc_initialize_data_sharing_environment)
                 [worker_slot L; RInt DS_Worker_Warp_Slot_Size]]
       else []) ++
      [EvCall (Function WorkerFunction) []]
  | Master =>
      [EvCall (RuntimeFunction OMPRTL_NVPTX__kmpc_initialize_data_sharing_environment)
              [master_slot L; RInt DS_Slot_Size]]
  | Parked => []
  end.

Definition initializer_result (L : Lane) : Z :=
  match kernel_role L with Master => 0 | _ => 1 end.

(** The claim that the lanes entering the worker loop are exactly those with
    an id in [0, MasterThreadId). *)
Definition workers_are_below_master (F : list BasicBlock) (WorkerFunction : string)
    (L : Lane) (s : MState) : Prop :=
  exists n v s',
    steps n F L (At 0 s) = Returned v s' /\
    (calls_function WorkerFunction (trace s') = true <-> 0 <= tid_x L < master_tid L).

(** Lane 5 of a block of 33 threads with 32-lane groups (thread limit 1). *)
Definition lane_5_of_33 : Lane :=
  {| tid_x := 5; ntid_x := 33; ctaid_x := 0; warpsize := 32; fn_args := [] |}.

(** The blocks of the kernel initializer, as [createKernelInitializerFunction]
    emits them for the worker function [W]. *)
Definition initializer_blocks (W : string) : list BasicBlock :=
  Eval vm_compute in
    (fun W => default [] (fn_blocks <$> generated (createKernelInitializerFunction W)
                                          [] initial_runtime)) W.

(** The blocks of the entry function of the sample kernel. *)
Definition sample_entry_blocks : list BasicBlock :=
  Eval vm_compute in default [] ((fun K => fn_blocks (k_entry K)) <$> sample_kernel).

Definition sample_worker_name : string := "kernel_worker".

(** What the master lane does in the entry function once the initializer has
    returned 0 to it. *)
Definition master_events (L : Lane) : list Event :=
  [EvCall (RuntimeFunction OMPRTL_NVPTX__kmpc_kernel_init) [RInt 0; RInt (thread_limit L)];
   EvCall (Function target_region_body) [];
   EvCall (RuntimeFunction OMPRTL_NVPTX__kmpc_kernel_deinit) [];
   EvCall nvvm_barrier0 []].

(** ** The shape of the emitted worker loop *)

Definition WorkFnSlot : Value := AllocaAddr 0 "work_fn".
Definition ExecStatusSlot : Value := AllocaAddr 1 "exec_status".

Definition work_match (W : string) : Value :=
  ICmp ICMP_EQ (CreateLoad WorkFnSlot)
       (CreateBitOrPointerCast (CreateBitOrPointerCast (FunctionAddr W))).

(** The chain of comparisons against the work functions, starting in the
    block [B]; [next] is the identity of the next block to be created and
    [final] the terminator of the last block of the chain. *)
Fixpoint work_chain (B : BasicBlock) (next : nat) (final : option Terminator)
    (ws : list string) : list BasicBlock :=
  match ws with
  | [] =>
      [ {| bb_id := bb_id B; bb_name := bb_name B; bb_instrs := bb_instrs B;
           bb_term := final |} ]
  | W :: rest =>
      set_term (CondBr (work_match W) next (S next)) B ::
      {| bb_id := next; bb_name := ".execute.fn";
         bb_instrs := [Call None (Function W) [getMasterThreadID]];
         bb_term := Some (Br 4) |} ::
      work_chain (open_block (S next) ".check.next") (S (S next)) final rest
  end.

Definition worker_blocks (ws : list string) : list BasicBlock :=
  [ {| bb_id := 0; bb_name := "entry";
       bb_instrs := [Store (ConstantInt 0) ExecStatusSlot];
       bb_term := Some (Br 1) |};
    {| bb_id := 1; bb_name := ".await.work";
       bb_instrs := [Call None nvvm_barrier0 [];
                     Call (Some 2%nat) (RuntimeFunction OMPRTL_NVPTX__kmpc_kernel_parallel)
                          [WorkFnSlot];
                     Store (CreateZExt (CallResult 2)) ExecStatusSlot];
       bb_term := Some (CondBr (ICmp ICMP_EQ (CreateLoad WorkFnSlot) NullValue) 6 2) |};
    {| bb_id := 2; bb_name := ".select.workers"; bb_instrs := [];
       bb_term := Some (CondBr (ICmp ICMP_NE (CreateLoad ExecStatusSlot) (ConstantInt 0)) 3 5) |} ]
  ++ work_chain (open_block 3 ".execute.parallel") 7 (Some (Br 4)) ws
  ++ [ {| bb_id := 4; bb_name := ".terminate.parallel";
          bb_instrs := [Call None (RuntimeFunction OMPRTL_NVPTX__kmpc_kernel_end_parallel) []];
          bb_term := Some (Br 5) |};
       {| bb_id := 5; bb_name := ".barrier.parallel";
          bb_instrs := [Call None nvvm_barrier0 []];
          bb_term := Some (Br 1) |};
       {| bb_id := 6; bb_name := ".exit"; bb_instrs := []; bb_term := Some (Ret None) |} ].


(** The worker loop before [FinishFunction] closes the exit block. *)
Definition worker_blocks_open (ws : list string) : list BasicBlock :=
  firstn 3 (worker_blocks []) ++
  work_chain (open_block 3 ".execute.parallel") 7 (Some (Br 4)) ws ++
  [ {| bb_id := 4; bb_name := ".terminate.parallel";
       bb_instrs := [Call None (RuntimeFunction OMPRTL_NVPTX__kmpc_kernel_end_parallel) []];
       bb_term := Some (Br 5) |};
    {| bb_id := 5; bb_name := ".barrier.parallel";
       bb_instrs := [Call None nvvm_barrier0 []];
       bb_term := Some (Br 1) |};
    open_block 6 ".exit" ].


(** What one iteration of the worker loop does, for the work function and the
    activity flag that [__kmpc_kernel_parallel] hands to the lane. *)
Definition matched_work (fn : RVal) (ws : list string) : list string :=
  match fn with
  | RFn p => if bool_decide (p ∈ ws) then [p] else []
  | _ => []
  end.

Definition iteration_events (L : Lane) (ws : list string) (fn : RVal) (active : bool)
  : list Event :=
  [EvCall nvvm_barrier0 [];
   EvCall (RuntimeFunction OMPRTL_NVPTX__kmpc_kernel_parallel) [RPtr (StackSlot 0)]] ++
  (if bool_decide (fn = RNull) then []
   else
     (if active then
        ((fun p => EvCall (Function p) [RInt (master_tid L)]) <$> matched_work fn ws) ++
        [EvCall (RuntimeFunction OMPRTL_NVPTX__kmpc_kernel_end_parallel) []]
      else []) ++
     [EvCall nvvm_barrier0 []]).

(** ** The data sharing planner *)

#[global] Instance Result_ret : MRet Result := @Ok.
#[global] Instance Result_bind : MBind Result := fun A B k r =>
  match r with
  | Ok a => k a
  | AssertionFailed msg => AssertionFailed msg
  end.

(** Modelled from the spec: which directive kinds open a parallel or a simd
    region is decided by the front end's directive-kind predicates, which are
    not part of this repository excerpt; the kinds below are the ones the
    runtime code names. *)
Inductive OpenMPDirectiveKind :=
| OMPD_parallel | OMPD_parallel_for | OMPD_parallel_sections
| OMPD_distribute_parallel_for | OMPD_simd | OMPD_for | OMPD_teams | OMPD_barrier.

#[global] Instance OpenMPDirectiveKind_eq_dec : EqDecision OpenMPDirectiveKind.
Proof. solve_decision. Defined.

Definition isOpenMPParallelDirective (k : OpenMPDirectiveKind) : bool :=
  match k with
  | OMPD_parallel | OMPD_parallel_for | OMPD_parallel_sections
  | OMPD_distribute_parallel_for => true
  | _ => false
  end.

Definition isOpenMPSimdDirective (k : OpenMPDirectiveKind) : bool :=
  match k with OMPD_simd => true | _ => false end.

(** What a captured statement captures, in the order of the fields of its
    captured record. *)
Inductive VariableCaptureKind := VCK_This | VCK_ByRef | VCK_ByCopy | VCK_VLAType.

#[global] Instance VariableCaptureKind_eq_dec : EqDecision VariableCaptureKind.
Proof. solve_decision. Defined.

Record Capture := {
  getCaptureKind : VariableCaptureKind;
  getCapturedVar : VarDecl;      (* the variable, unless [this] or a VLA size *)
  InitType : QualType            (* the type of the capture's init expression *)
}.

Definition capturesThis (c : Capture) : bool := bool_decide (getCaptureKind c = VCK_This).
Definition capturesVariableByCopy (c : Capture) : bool :=
  bool_decide (getCaptureKind c = VCK_ByCopy).
Definition capturesVariableArrayType (c : Capture) : bool :=
  bool_decide (getCaptureKind c = VCK_VLAType).
(** The field of the captured record that belongs to a capture holds a VLA
    size exactly when the capture is one of a variable array type. *)
Definition hasCapturedVLAType (c : Capture) : bool := capturesVariableArrayType c.

Inductive Stmt :=
| NullStmt
| OtherStmt (children : list Stmt)
| OMPExecutableDirective (kind : OpenMPDirectiveKind) (captures : list Capture)
                         (CapturedBody : Stmt)
| OMPStandaloneDirective (kind : OpenMPDirectiveKind).

Record CapturedStmt := {
  cs_captures : list Capture;
  getCapturedStmt : Stmt
}.

(** The context that encloses a region: a captured declaration or a function,
    with its identity and its body. *)
Inductive DeclContext :=
| CapturedDecl (id : Decl) (body : Stmt)
| FunctionDecl (id : Decl) (body : Stmt).

Definition decl_id (d : DeclContext) : Decl :=
  match d with CapturedDecl id _ | FunctionDecl id _ => id end.

(** The instruction that computes the address of a local variable in the
    enclosing function (the planner expects the address to be an
    instruction; [OtherInst] stands for one of any other kind). *)
Inductive LocalAddress := AllocaInst | LoadInst | BitCastInst | OtherInst.

(** What the planner reads of the enclosing [CodeGenFunction] and of the
    declarations: it emits no code. *)
Record EnclosingFunction := {
  CurCodeDecl : option DeclContext;
  GetAddrOfLocalVar : VarDecl -> LocalAddress;
  hasLocalStorage : VarDecl -> bool
}.

Definition pop_back_val {A} (l : list A) : option (list A * A) :=
  match reverse l with
  | [] => None
  | x :: r => Some (reverse r, x)
  end.

(** Find all the captures in all enclosed regions and obtain their captured
    statements: the work list loop, one iteration per unit of [fuel]. *)
Fixpoint collectCapturedStmts (fuel : nat) (WorkList : list Stmt)
    (CapturedStmts : list CapturedStmt) : option (list CapturedStmt) :=
  match fuel with
  | O => None
  | S fuel =>
      match pop_back_val WorkList with
      | None => Some CapturedStmts
      | Some (WorkList, CurStmt) =>
          match CurStmt with
          | NullStmt => collectCapturedStmts fuel WorkList CapturedStmts
          | OMPExecutableDirective kind caps body =>
              (* Is this a parallel region. *)
              if isOpenMPParallelDirective kind || isOpenMPSimdDirective kind then
                collectCapturedStmts fuel WorkList
                  (CapturedStmts ++ [{| cs_captures := caps; getCapturedStmt := body |}])
              else
                (* Look into the associated statement of OpenMP directives. *)
                collectCapturedStmts fuel (WorkList ++ [body]) CapturedStmts
          | OMPStandaloneDirective _ => collectCapturedStmts fuel WorkList CapturedStmts
          | OtherStmt children =>
              (* Keep looking for other regions. *)
              collectCapturedStmts fuel (WorkList ++ children) CapturedStmts
          end
      end
  end.

Fixpoint stmt_size (s : Stmt) : nat :=
  match s with
  | NullStmt => 1
  | OtherStmt children => S (list_sum (List.map stmt_size children))
  | OMPExecutableDirective _ _ body => S (stmt_size body)
  | OMPStandaloneDirective _ => 1
  end.

(** The work that is left for the loop: the statements in the work list and
    below them. *)
Definition work_size (l : list Stmt) : nat := list_sum (List.map stmt_size l).

(** The captured statements of the regions of a context, in the order in
    which the work list loop finds them.  The loop is given one unit of fuel
    per statement below [Body] and one more, which is enough for it to
    finish. *)
Definition regions_of (Body : Stmt) : list CapturedStmt :=
  default [] (collectCapturedStmts (S (stmt_size Body)) [Body] []).

(** The planner's bookkeeping while it scans the captured statements. *)
Record SharingPlan := {
  AlreadySharedDecls : gset (option VarDecl);
  Info : list (option VarDecl * DataSharingType);
  SharedMasterRD : list QualType;
  SharedWarpRD : list QualType
}.

Definition empty_plan : SharingPlan :=
  {| AlreadySharedDecls := ∅; Info := []; SharedMasterRD := []; SharedWarpRD := [] |}.

(** The identity and the sharing mode of one capture; [None] when the capture
    is passed over.  The two [assert]s of the source on VLAs and on by-copy
    captures test a string literal, which is never null: they cannot fail,
    and the [continue] after them skips the capture. *)
Definition classify_capture (F : EnclosingFunction) (c : Capture)
  : Result (option (option VarDecl * DataSharingType)) :=
  if hasCapturedVLAType c then Ok None
  else if capturesThis c then
    (* We use null to indicate 'this'. *)
    Ok (Some (None, DST_Val))
  else if capturesVariableByCopy c then Ok None
  else
    let CurVD := getCapturedVar c in
    if hasLocalStorage F CurVD then
      (* If we have an alloca for this variable, then we need to share the
         storage too, not only the reference. *)
      Ok (Some (Some CurVD,
                match GetAddrOfLocalVar F CurVD with
                | LoadInst => DST_Ref
                | BitCastInst => DST_Cast
                | _ => DST_Val
                end))
    else AssertionFailed "Expecting to capture only variables with local storage.".

Definition share_capture (F : EnclosingFunction) (p : SharingPlan) (c : Capture)
  : Result SharingPlan :=
  cl ← classify_capture F c;
  match cl with
  | None => Ok p
  | Some (CurVD, DST) =>
      (* Do not insert the same declaration twice. *)
      if bool_decide (CurVD ∈ AlreadySharedDecls p) then Ok p
      else
        let ElemTy := if bool_decide (DST = DST_Ref) then PointerType (InitType c)
                      else InitType c in
        Ok {| AlreadySharedDecls := {[ CurVD ]} ∪ AlreadySharedDecls p;
              Info := Info p ++ [(CurVD, DST)];
              SharedMasterRD := SharedMasterRD p ++ [ElemTy];
              SharedWarpRD := SharedWarpRD p ++
                                [ConstantArrayType ElemTy DS_Max_Worker_Warp_Size] |}
  end.

Fixpoint share_captures (F : EnclosingFunction) (p : SharingPlan) (cs : list Capture)
  : Result SharingPlan :=
  match cs with
  | [] => Ok p
  | c :: cs => p' ← share_capture F p c; share_captures F p' cs
  end.

Definition all_captures (CapturedStmts : list CapturedStmt) : list Capture :=
  concat (cs_captures <$> CapturedStmts).

Definition set_data_sharing_info (Context : Decl) (i : DataSharingInfo)
    (rt : CGOpenMPRuntimeNVPTX) : CGOpenMPRuntimeNVPTX :=
  {| IsOrphaned := IsOrphaned rt; ParallelNestingLevel := ParallelNestingLevel rt;
     Work := Work rt; WrapperFunctionsMap := WrapperFunctionsMap rt;
     DataSharingInfoMap := <[Context := i]> (DataSharingInfoMap rt);
     DataSharingFunctionInfoMap := DataSharingFunctionInfoMap rt;
     CurrentParallelContext := CurrentParallelContext rt |}.

Definition gen_fail {A} (msg : string) : Gen A := fun _ => AssertionFailed msg.

Definition lift_result {A} (r : Result A) : Gen A :=
  fun s => match r with Ok a => Ok (a, s) | AssertionFailed m => AssertionFailed m end.

Definition createDataSharingInfo (F : EnclosingFunction) : Gen unit :=
  match CurCodeDecl F with
  | None => gen_fail "A parallel region is expected to be enclosed in a context."
  | Some Context =>
      rt ← getRT;
      if bool_decide (is_Some (DataSharingInfoMap rt !! decl_id Context)) then mret tt
      else
        (* Get the body of the region.  For a context that is not a captured
           declaration the source casts the null result of the failed
           [dyn_cast], which the cast rejects. *)
        Body ← (match Context with
                | CapturedDecl _ body => mret body
                | FunctionDecl _ _ => gen_fail "isa<> used on a null pointer"
                end : Gen Stmt);
        let CapturedStmts := regions_of Body in
        gen_assert (negb (bool_decide (CapturedStmts = [])))
                   "Expecting at least one parallel region!";;
        (* Scan the captured statements and generate a record to contain all
           the data to be shared. *)
        p ← lift_result (share_captures F empty_plan (all_captures CapturedStmts));
        rt ← getRT;
        setRT (set_data_sharing_info (decl_id Context)
                 {| CapturesValues := Info p;
                    MasterRecordType := SharedMasterRD p;
                    WorkerWarpRecordType := SharedWarpRD p |} rt)
  end.

Definition getDataSharingInfo (Context : option Decl) : Gen DataSharingInfo :=
  match Context with
  | None => gen_fail "A parallel region is expected to be enclosed in a context."
  | Some Context =>
      rt ← getRT;
      match DataSharingInfoMap rt !! Context with
      | Some i => mret i
      | None => gen_fail "Data sharing info does not exist."
      end
  end.

(** Registers the context of a parallel region with the runtime codegen
    implementation. *)
Definition set_parallel_context (d : option Decl) (rt : CGOpenMPRuntimeNVPTX)
  : CGOpenMPRuntimeNVPTX :=
  {| IsOrphaned := IsOrphaned rt; ParallelNestingLevel := ParallelNestingLevel rt;
     Work := Work rt; WrapperFunctionsMap := WrapperFunctionsMap rt;
     DataSharingInfoMap := DataSharingInfoMap rt;
     DataSharingFunctionInfoMap := DataSharingFunctionInfoMap rt;
     CurrentParallelContext := d |}.

Definition registerParallelContext (F : EnclosingFunction) (kind : OpenMPDirectiveKind)
  : Gen unit :=
  rt ← getRT;
  setRT (set_parallel_context (decl_id <$> CurCodeDecl F) rt);;
  if isOpenMPParallelDirective kind || isOpenMPSimdDirective kind
  then createDataSharingInfo F else mret tt.

(** *** What the planner is expected to produce *)

(** The captures the planner handles, with identity and sharing mode. *)
Definition supported (c : Capture) : bool :=
  negb (hasCapturedVLAType c) && negb (capturesVariableByCopy c).

(** Keep the first occurrence of every identity. *)
Fixpoint first_occurrences {A} (seen : list (option VarDecl))
    (l : list (option VarDecl * A)) : list (option VarDecl * A) :=
  match l with
  | [] => []
  | (v, a) :: l =>
      if bool_decide (v ∈ seen) then first_occurrences seen l
      else (v, a) :: first_occurrences (v :: seen) l
  end.

Definition capture_identity (c : Capture) : option VarDecl :=
  if capturesThis c then None else Some (getCapturedVar c).

Definition sharing_mode (F : EnclosingFunction) (c : Capture) : DataSharingType :=
  if capturesThis c then DST_Val
  else match GetAddrOfLocalVar F (getCapturedVar c) with
       | LoadInst => DST_Ref
       | BitCastInst => DST_Cast
       | _ => DST_Val
       end.

Definition master_field (ty : QualType) (dst : DataSharingType) : QualType :=
  match dst with DST_Ref => PointerType ty | _ => ty end.

(** One descriptor per capture the planner handles: identity, and sharing
    mode with the type of the captured expression. *)
Definition descriptors (F : EnclosingFunction) (cs : list Capture)
  : list (option VarDecl * (DataSharingType * QualType)) :=
  (fun c => (capture_identity c, (sharing_mode F c, InitType c))) <$>
  filter (fun c => supported c = true) cs.

Definition descriptor_capture (d : option VarDecl * (DataSharingType * QualType))
  : option VarDecl * DataSharingType := (d.1, d.2.1).

Definition descriptor_field (d : option VarDecl * (DataSharingType * QualType)) : QualType :=
  master_field d.2.2 d.2.1.

Definition warp_field (t : QualType) : QualType :=
  ConstantArrayType t DS_Max_Worker_Warp_Size.

Definition planned (F : EnclosingFunction) (rt : CGOpenMPRuntimeNVPTX)
  : option DataSharingInfo :=
  match CurCodeDecl F with
  | Some Context =>
      match createDataSharingInfo F {| Globals := []; RT := rt; CGF := StartFunction "f" false |} with
      | Ok (_, s) => DataSharingInfoMap (RT s) !! decl_id Context
      | AssertionFailed _ => None
      end
  | None => None
  end.

(** Sample contexts. *)
Definition int_ty : QualType := BuiltinType "int".
Definition var_x : VarDecl := 0%nat.
Definition var_y : VarDecl := 1%nat.
Definition var_z : VarDecl := 2%nat.

Definition by_ref (v : VarDecl) : Capture :=
  {| getCaptureKind := VCK_ByRef; getCapturedVar := v; InitType := int_ty |}.
Definition by_copy (v : VarDecl) : Capture :=
  {| getCaptureKind := VCK_ByCopy; getCapturedVar := v; InitType := int_ty |}.
Definition vla_size (v : VarDecl) : Capture :=
  {| getCaptureKind := VCK_VLAType; getCapturedVar := v; InitType := int_ty |}.

(** [y] is a reference: its local address is loaded; [x] and [z] live in
    allocas. *)
Definition sample_locals (v : VarDecl) : LocalAddress :=
  if Nat.eqb v var_y then LoadInst else AllocaInst.

Definition enclosing (body : Stmt) : EnclosingFunction :=
  {| CurCodeDecl := Some (CapturedDecl 0%nat body);
     GetAddrOfLocalVar := sample_locals;
     hasLocalStorage := fun _ => true |}.

(** One parallel region capturing [x : int] and [y : int&]. *)
Definition one_region : EnclosingFunction :=
  enclosing (OtherStmt [OMPExecutableDirective OMPD_parallel [by_ref var_x; by_ref var_y] NullStmt]).

(** Two regions of the same context that both capture [x]. *)
Definition two_regions : EnclosingFunction :=
  enclosing (OtherStmt
    [OMPExecutableDirective OMPD_parallel [by_ref var_x; by_ref var_y] NullStmt;
     OMPExecutableDirective OMPD_for []
       (OtherStmt [OMPExecutableDirective OMPD_simd [by_ref var_z; by_ref var_x] NullStmt])]).

(** A region with a capture by copy and the size of a variable length array. *)
Definition unsupported_region : EnclosingFunction :=
  enclosing (OtherStmt
    [OMPExecutableDirective OMPD_parallel [by_copy var_x; vla_size var_z; by_ref var_y] NullStmt]).

Definition context_body (F : EnclosingFunction) : Stmt :=
  match CurCodeDecl F with
  | Some (CapturedDecl _ body) | Some (FunctionDecl _ body) => body
  | None => NullStmt
  end.

Definition context_captures (F : EnclosingFunction) : list Capture :=
  all_captures (regions_of (context_body F)).

Definition fresh_context (F : EnclosingFunction) (rt : CGOpenMPRuntimeNVPTX) : Prop :=
  match CurCodeDecl F with
  | Some Context => DataSharingInfoMap rt !! decl_id Context = None
  | None => True
  end.

(** The claim that the plan of a context holds one descriptor for every
    identity that a region of the context captures. *)
Definition one_descriptor_per_identity (F : EnclosingFunction) (info : DataSharingInfo)
  : Prop :=
  NoDup (CapturesValues info).*1 /\
  forall c, c ∈ context_captures F -> capture_identity c ∈ (CapturesValues info).*1.

(** ** Outlined regions, their wrappers and the calls to them *)

Fixpoint gen_mapM {A B} (f : A -> Gen B) (l : list A) : Gen (list B) :=
  match l with
  | [] => mret []
  | a :: l => b ← f a; bs ← gen_mapM f l; mret (b :: bs)
  end.

(** The position of the first capture descriptor with identity [VD]; the
    number of descriptors when there is none. *)
Fixpoint capture_index (VD : option VarDecl)
    (CapturesValues : list (option VarDecl * DataSharingType)) : nat :=
  match CapturesValues with
  | [] => 0
  | (v, _) :: rest => if bool_decide (v = VD) then 0 else S (capture_index VD rest)
  end.

(** The body of the loops of the wrapper over the captures: obtain the pointer
    of one capture by calculating the right offset in the record at
    [CastedDataAddr], where [Lane] is the extra index into the per-lane arrays
    of the warp record. *)
Definition resolve_capture (DSI : DataSharingInfo) (CastedDataAddr : Value)
    (Lane : list Value) (ca : Capture * Value) : Gen unit :=
  let '(CI, ArgAddress) := ca in
  let VD := if capturesThis CI then None else Some (getCapturedVar CI) in
  let Idx := capture_index VD (CapturesValues DSI) in
  gen_assert (negb (Nat.eqb Idx (length (CapturesValues DSI)))) "Capture must exist!";;
  let Arg := CreateInBoundsGEP CastedDataAddr
               ([ConstantInt 0; ConstantInt (Z.of_nat Idx)] ++ Lane) in
  (* If what is being shared is the reference, we should load it. *)
  if bool_decide (snd <$> CapturesValues DSI !! Idx = Some DST_Ref)
  then EmitStoreOfScalar (EmitLoadOfScalar Arg) ArgAddress
  else EmitStoreOfScalar Arg ArgAddress.

Definition wrapper_name (OutlinedParallelFn : string) : string :=
  (OutlinedParallelFn +:+ "_wrapper")%string.

(** The code generators of the levels of a wrapper, for the captures of the
    region paired with the temporaries that will hold the new arguments. *)
Module Wrapper.

Definition L0ParallelGen (DSI : DataSharingInfo) (Args : list (Capture * Value))
  : RegionCodeGenTy :=
  (* In the Level 0 regions, we need to get the record of the master thread. *)
  DataAddr ← EmitRuntimeCall OMPRTL_NVPTX__kmpc_get_data_sharing_environment_frame
               [getMasterThreadID];
  let CastedDataAddr := CreateBitOrPointerCast DataAddr in
  (* For each capture obtain the pointer by calculating the right offset in
     the host record. *)
  gen_for Args (resolve_capture DSI CastedDataAddr []).

Definition L1ParallelGen (DSI : DataSharingInfo) (SourceLaneID : Value)
    (Args : list (Capture * Value)) : RegionCodeGenTy :=
  (* In the Level 1 regions, we need to get the record of the current worker
     thread. *)
  DataAddr ← EmitRuntimeCall OMPRTL_NVPTX__kmpc_get_data_sharing_environment_frame
               [getNVPTXThreadID];
  let CastedDataAddr := CreateBitOrPointerCast DataAddr in
  gen_for Args (resolve_capture DSI CastedDataAddr [SourceLaneID]).

(** A sequential region does not use the wrapper. *)
Definition Sequential : RegionCodeGenTy := mret tt.

(** Create temporary variables to contain the new args. *)
Definition createArgsAddress (CI : Capture) : Gen Value :=
  gen_assert (negb (capturesVariableArrayType CI)) "Not expecting to capture VLA!";;
  gen_assert (negb (capturesVariableByCopy CI)) "Not expecting to capture by copy values!";;
  (* the temporary is named after the capture; the names of variables are
     not kept, only whether the capture is [this] *)
  CreateMemTemp (if capturesThis CI then "this.addr" else "var.addr").

(** The first arguments of the call to the outlined function. *)
Definition Header (D : OpenMPDirectiveKind) (IsSimd : bool) : list Value :=
  if IsSimd then
    (* LaneID and NumLanes: the values of the two pointer arguments *)
    [Argument 1; Argument 2]
  else
    [NullValue; NullValue] ++
    (if bool_decide (D = OMPD_distribute_parallel_for)
     then [ConstantInt 0; ConstantInt 0] else []).

End Wrapper.

(** Create the data sharing arguments and call the parallel outlined
    function.  The wrapper takes the source lane as argument 0 and, for simd,
    the addresses of the lane id and of the number of lanes as arguments 1
    and 2. *)
Definition createDataSharingParallelWrapper (D : OpenMPDirectiveKind)
    (OutlinedParallelFn : string) (CS : CapturedStmt) (CurrentContext : option Decl)
    (IsSimd : bool) : Gen LLVMFunction :=
  generateFunction (wrapper_name OutlinedParallelFn) false (
    (* Get the source thread ID, it is the argument of the current function. *)
    let SourceLaneID := Argument 0 in
    ArgsAddresses ← gen_mapM Wrapper.createArgsAddress (cs_captures CS);
    (* Get the data sharing information for the context that encloses the
       current one. *)
    DSI ← getDataSharingInfo CurrentContext;
    let Args := zip (cs_captures CS) ArgsAddresses in
    (* In Simd we only support L1 level. *)
    (if IsSimd then
       emitParallelismLevelCode Wrapper.Sequential
         (Wrapper.L1ParallelGen DSI SourceLaneID Args) Wrapper.Sequential
     else
       emitParallelismLevelCode (Wrapper.L0ParallelGen DSI Args)
         (Wrapper.L1ParallelGen DSI SourceLaneID Args) Wrapper.Sequential);;
    (* Get the array of arguments. *)
    let Args := Wrapper.Header D IsSimd ++ (EmitLoadOfScalar <$> ArgsAddresses) in
    EmitCallOrInvoke OutlinedParallelFn Args).

Definition add_nesting (Increment : Z) (rt : CGOpenMPRuntimeNVPTX) : CGOpenMPRuntimeNVPTX :=
  set_nesting (ParallelNestingLevel rt + Increment) rt.

Definition set_wrapper (OutlinedFun WrapperFun : string) (rt : CGOpenMPRuntimeNVPTX)
  : CGOpenMPRuntimeNVPTX :=
  {| IsOrphaned := IsOrphaned rt; ParallelNestingLevel := ParallelNestingLevel rt;
     Work := Work rt;
     WrapperFunctionsMap := <[OutlinedFun := WrapperFun]> (WrapperFunctionsMap rt);
     DataSharingInfoMap := DataSharingInfoMap rt;
     DataSharingFunctionInfoMap := DataSharingFunctionInfoMap rt;
     CurrentParallelContext := CurrentParallelContext rt |}.

(** Include updates in runtime parallelism level. *)
Definition CodeGenWithDataSharing (IsSimd : bool) (CodeGen : RegionCodeGenTy)
  : RegionCodeGenTy :=
  increaseParallelismLevel IsSimd;;
  CodeGen;;
  decreaseParallelismLevel IsSimd.

(** The function of the captured statement of a region: for the outlined
    function [OutlinedName] the generic emitter starts a function, emits the
    region's code and finishes the function. *)
Definition GenerateOpenMPCapturedStmtFunction (OutlinedName : string)
    (CodeGen : RegionCodeGenTy) : Gen LLVMFunction :=
  generateFunction OutlinedName false CodeGen.

Record OutlinedRegion := {
  region_function : LLVMFunction;
  region_wrapper : LLVMFunction
}.

Definition isPointerType (T : QualType) : bool :=
  match T with PointerType _ => true | _ => false end.

(** Of the declaration of the thread id variable only its type is read:
    [ThreadIDVar] is that type. *)
Definition emitParallelOrTeamsOutlinedFunction (D : OpenMPDirectiveKind)
    (ThreadIDVar : QualType) (CS : CapturedStmt) (OutlinedName : string)
    (CodeGen : RegionCodeGenTy)
  : Gen (option OutlinedRegion) :=
  gen_assert (isPointerType ThreadIDVar) "thread id variable must be of type kmp_int32 *";;
  if bool_decide (D = OMPD_teams) then
    (* no outlining happening for teams *)
    mret None
  else
    (* Save the current parallel context because it may be overwritten by the
       innermost regions. *)
    rt ← getRT;
    let CurrentContext := CurrentParallelContext rt in
    setRT (add_nesting 1 rt);;
    OutlinedFun ← GenerateOpenMPCapturedStmtFunction OutlinedName
                    (CodeGenWithDataSharing false CodeGen);
    rt ← getRT;
    setRT (add_nesting (-1) rt);;
    WrapperFun ← createDataSharingParallelWrapper D OutlinedName CS CurrentContext false;
    rt ← getRT;
    setRT (set_wrapper OutlinedName (fn_name WrapperFun) rt);;
    mret (Some {| region_function := OutlinedFun; region_wrapper := WrapperFun |}).

Definition emitSimdOutlinedFunction (D : OpenMPDirectiveKind)
    (CS : CapturedStmt) (OutlinedName : string) (CodeGen : RegionCodeGenTy)
  : Gen OutlinedRegion :=
  rt ← getRT;
  let CurrentContext := CurrentParallelContext rt in
  setRT (add_nesting 10 rt);;
  OutlinedFun ← GenerateOpenMPCapturedStmtFunction OutlinedName
                  (CodeGenWithDataSharing true CodeGen);
  rt ← getRT;
  setRT (add_nesting (-10) rt);;
  WrapperFun ← createDataSharingParallelWrapper D OutlinedName CS CurrentContext true;
  rt ← getRT;
  setRT (set_wrapper OutlinedName (fn_name WrapperFun) rt);;
  mret {| region_function := OutlinedFun; region_wrapper := WrapperFun |}.

Definition set_initialization_function (Fn InitFn : string) (rt : CGOpenMPRuntimeNVPTX)
  : CGOpenMPRuntimeNVPTX :=
  let old := lookup_function_info rt Fn in
  set_function_info Fn
    {| IsEntryPoint := IsEntryPoint old; EntryWorkerFunction := EntryWorkerFunction old;
       EntryExitBlock := EntryExitBlock old; InitializationFunction := Some InitFn |} rt.

(** Emit code that does the data sharing changes in the beginning of the
    enclosing function.  The initializer is a function of its own, named
    after the enclosing one; it is registered for the enclosing function,
    whose code stays as it is until the module is finished.  Its body (the
    copies of the captured values into the frame) is outside this
    development: only the registration is kept. *)
Definition createDataSharingPerFunctionInfrastructure (EnclosingCGF : EnclosingFunction)
  : Gen unit :=
  CD ← (match CurCodeDecl EnclosingCGF with
        | Some CD => mret (decl_id CD)
        | None => gen_fail "Function does not have a context associated!"
        end : Gen Decl);
  (* Create the data sharing information. *)
  DSI ← getDataSharingInfo (Some CD);
  (* If there is nothing being captured in the parallel regions, we do not
     need to do anything. *)
  if bool_decide (CapturesValues DSI = []) then mret tt
  else
    c ← getCGF;
    rt ← getRT;
    (* If we already have a data sharing initializer of this function, don't
       need to create a new one. *)
    match InitializationFunction (lookup_function_info rt (CurFn c)) with
    | Some _ => mret tt
    | None => setRT (set_initialization_function (CurFn c)
                       (CurFn c +:+ ".data_share")%string rt)
    end.

Definition push_work (WFn : string) (rt : CGOpenMPRuntimeNVPTX) : CGOpenMPRuntimeNVPTX :=
  {| IsOrphaned := IsOrphaned rt; ParallelNestingLevel := ParallelNestingLevel rt;
     Work := Work rt ++ [WFn]; WrapperFunctionsMap := WrapperFunctionsMap rt;
     DataSharingInfoMap := DataSharingInfoMap rt;
     DataSharingFunctionInfoMap := DataSharingFunctionInfoMap rt;
     CurrentParallelContext := CurrentParallelContext rt |}.

Definition HaveInsertPoint (c : CodeGenFunction) : bool :=
  match InsertPoint c with Some _ => true | None => false end.

(** Modelled from the spec: the source location descriptor of a runtime call
    and the emission of an [if] clause belong to the generic OpenMP runtime
    emitter: the descriptor is a constant of the module, and the clause
    branches on its condition to the code of one of two generators, which
    rejoin at one block. *)
Definition emitUpdateLocation : Value := GlobalAddr ".kmpc_loc".

Definition emitOMPIfClause (Cond : Value) (ThenGen ElseGen : RegionCodeGenTy) : Gen unit :=
  ThenBlock ← createBasicBlock "omp_if.then";
  ElseBlock ← createBasicBlock "omp_if.else";
  ContBlock ← createBasicBlock "omp_if.end";
  CreateCondBr Cond ThenBlock ElseBlock;;
  (* Emit the 'then' code. *)
  EmitBlock ThenBlock;;
  ThenGen;;
  EmitBranch ContBlock;;
  (* Emit the 'else' code. *)
  EmitBlock ElseBlock;;
  ElseGen;;
  EmitBranch ContBlock;;
  (* Emit the continuation block for code after the if. *)
  EmitBlock ContBlock.

Definition getThreadID : Value := getGlobalThreadId.

(** The task state is handed to the runtime by the address of its first
    element. *)
Definition ArrayDecay (TaskState : Value) : Value :=
  CreateInBoundsGEP TaskState [ConstantInt 0; ConstantInt 0].

(** The code generators of the three levels of a parallel call. *)
Module ParallelCall.

Definition L0ParallelGen (WFn : string) : RegionCodeGenTy :=
  let ID := CreateBitOrPointerCast (FunctionAddr WFn) in
  (* Prepare for parallel region. Indicate the outlined function. *)
  EmitVoidCall (RuntimeFunction OMPRTL_NVPTX__kmpc_kernel_prepare_parallel) [ID];;
  (* Activate workers. *)
  syncCTAThreads;;
  (* Barrier at end of parallel region. *)
  syncCTAThreads;;
  (* Remember for post-processing in worker loop. *)
  rt ← getRT;
  setRT (push_work WFn rt).

Definition L1ParallelGen (WFn : string) : RegionCodeGenTy :=
  IsFinal ← CreateTempAlloca "is_final";
  WorkSource ← CreateTempAlloca "work_source";
  TaskState ← CreateMemTemp "task_state";
  InitTempAlloca IsFinal (ConstantInt 0);;
  InitTempAlloca WorkSource (ConstantInt (wrap32 (-1)));;
  DoBodyBB ← createBasicBlock ".do.body";
  ExecuteBB ← createBasicBlock ".do.body.execute";
  DoCondBB ← createBasicBlock ".do.cond";
  DoEndBB ← createBasicBlock ".do.end";
  EmitBranch DoBodyBB;;
  EmitBlock DoBodyBB;;
  IsActive ← EmitRuntimeCall OMPRTL_NVPTX__kmpc_kernel_convergent_parallel
               [ArrayDecay TaskState; IsFinal; WorkSource];
  CreateCondBr IsActive ExecuteBB DoCondBB;;
  EmitBlock ExecuteBB;;
  (* Execute the work, and pass the thread source from where the data should
     be used. *)
  let SourceThread := EmitLoadOfScalar WorkSource in
  EmitCallOrInvoke WFn [SourceThread];;
  EmitVoidCall (RuntimeFunction OMPRTL_NVPTX__kmpc_kernel_end_convergent_parallel)
               [ArrayDecay TaskState];;
  EmitBranch DoCondBB;;
  EmitBlock DoCondBB;;
  let IsDone := ICmp ICMP_EQ (CreateLoad IsFinal) (ConstantInt 1) in
  CreateCondBr IsDone DoEndBB DoBodyBB;;
  EmitBlock DoEndBB.

Definition SeqGen (Fn : string) (CapturedVars : list Value) : RegionCodeGenTy :=
  let RTLoc := emitUpdateLocation in
  let ThreadID := getThreadID in
  (* __kmpc_serialized_parallel(&Loc, GTid); *)
  EmitVoidCall (RuntimeFunction OMPRTL_NVPTX__kmpc_serialized_parallel) [RTLoc; ThreadID];;
  EmitCallOrInvoke Fn ([NullValue; NullValue] ++ CapturedVars);;
  (* __kmpc_end_serialized_parallel(&Loc, GTid); *)
  EmitVoidCall (RuntimeFunction OMPRTL_NVPTX__kmpc_end_serialized_parallel)
               [emitUpdateLocation; ThreadID].

Definition ThenGen (Fn WFn : string) (CapturedVars : list Value) : RegionCodeGenTy :=
  emitParallelismLevelCode (L0ParallelGen WFn) (L1ParallelGen WFn) (SeqGen Fn CapturedVars).

End ParallelCall.

Definition emitParallelCall (EnclosingCGF : EnclosingFunction) (OutlinedFn : string)
    (CapturedVars : list Value) (IfCond : option Value) : Gen unit :=
  c ← getCGF;
  if negb (HaveInsertPoint c) then mret tt
  else
    let Fn := OutlinedFn in
    rt ← getRT;
    match WrapperFunctionsMap rt !! Fn with
    | None => gen_fail "Wrapper function does not exist??"
    | Some WFn =>
        (* Emit code that does the data sharing changes in the beginning of
           the function. *)
        createDataSharingPerFunctionInfrastructure EnclosingCGF;;
        match IfCond with
        | Some Cond =>
            emitOMPIfClause Cond (ParallelCall.ThenGen Fn WFn CapturedVars)
                            (ParallelCall.SeqGen Fn CapturedVars)
        | None => ParallelCall.ThenGen Fn WFn CapturedVars
        end
    end.

(** The code generators of the levels of a simd call. *)
Module SimdCall.

Definition L1SimdGen (WFn : string) : RegionCodeGenTy :=
  IsFinal ← CreateTempAlloca "is_final";
  WorkSource ← CreateTempAlloca "work_source";
  LaneId ← CreateTempAlloca "lane_id";
  NumLanes ← CreateTempAlloca "num_lanes";
  TaskState ← CreateMemTemp "task_state";
  InitTempAlloca IsFinal (ConstantInt 0);;
  InitTempAlloca WorkSource (ConstantInt (wrap32 (-1)));;
  DoBodyBB ← createBasicBlock ".do.body";
  ExecuteBB ← createBasicBlock ".do.body.execute";
  DoCondBB ← createBasicBlock ".do.cond";
  DoEndBB ← createBasicBlock ".do.end";
  EmitBranch DoBodyBB;;
  EmitBlock DoBodyBB;;
  IsActive ← EmitRuntimeCall OMPRTL_NVPTX__kmpc_kernel_convergent_simd
               [ArrayDecay TaskState; IsFinal; WorkSource; LaneId; NumLanes];
  CreateCondBr IsActive ExecuteBB DoCondBB;;
  EmitBlock ExecuteBB;;
  let SourceThread := EmitLoadOfScalar WorkSource in
  EmitCallOrInvoke WFn [SourceThread; LaneId; NumLanes];;
  EmitVoidCall (RuntimeFunction OMPRTL_NVPTX__kmpc_kernel_end_convergent_simd)
               [ArrayDecay TaskState];;
  EmitBranch DoCondBB;;
  EmitBlock DoCondBB;;
  let IsDone := ICmp ICMP_EQ (CreateLoad IsFinal) (ConstantInt 1) in
  CreateCondBr IsDone DoEndBB DoBodyBB;;
  EmitBlock DoEndBB.

Definition SeqGen (Fn : string) (CapturedVars : list Value) : RegionCodeGenTy :=
  LaneId ← CreateTempAlloca "lane_id";
  NumLanes ← CreateTempAlloca "num_lanes";
  InitTempAlloca LaneId (ConstantInt 0);;
  InitTempAlloca NumLanes (ConstantInt 1);;
  EmitCallOrInvoke Fn ([LaneId; NumLanes] ++ CapturedVars).

End SimdCall.

Definition emitSimdCall (EnclosingCGF : EnclosingFunction) (OutlinedFn : string)
    (CapturedVars : list Value) : Gen unit :=
  c ← getCGF;
  if negb (HaveInsertPoint c) then mret tt
  else
    let Fn := OutlinedFn in
    rt ← getRT;
    match WrapperFunctionsMap rt !! Fn with
    | None => gen_fail "Wrapper function does not exist??"
    | Some WFn =>
        (* Emit code that does the data sharing changes in the beginning of
           the function. *)
        createDataSharingPerFunctionInfrastructure EnclosingCGF;;
        (* We only do SIMD if nested in a parallel region. *)
        emitParallelismLevelCode (SimdCall.SeqGen Fn CapturedVars) (SimdCall.L1SimdGen WFn)
                                 (SimdCall.SeqGen Fn CapturedVars)
    end.

(** *** The code of a wrapper, as a list of instructions *)

Definition append_instrs (code : list Instr) (b : BasicBlock) : BasicBlock :=
  {| bb_id := bb_id b; bb_name := bb_name b;
     bb_instrs := bb_instrs b ++ code; bb_term := bb_term b |}.

(** Append a list of instructions at the insertion point. *)
Definition emitInstrs (code : list Instr) (c : CodeGenFunction) : CodeGenFunction :=
  match InsertPoint c with
  | Some id => with_blocks c (update_block id (append_instrs code) (Blocks c)) (Some id)
  | None => c
  end.

Definition bump_values (n : nat) (c : CodeGenFunction) : CodeGenFunction :=
  {| CurFn := CurFn c; Blocks := Blocks c; InsertPoint := InsertPoint c;
     NextBlockId := NextBlockId c; NextValueId := NextValueId c + n;
     ReturnValue := ReturnValue c |}.

Definition next_value (c : CodeGenFunction) : CodeGenFunction :=
  {| CurFn := CurFn c; Blocks := Blocks c; InsertPoint := InsertPoint c;
     NextBlockId := NextBlockId c; NextValueId := S (NextValueId c);
     ReturnValue := ReturnValue c |}.

Definition temp_name (CI : Capture) : string :=
  if capturesThis CI then "this.addr" else "var.addr".

(** The temporaries of the new arguments: one per capture, numbered from
    [nv]. *)
Fixpoint args_addresses (nv : nat) (caps : list Capture) : list Value :=
  match caps with
  | [] => []
  | CI :: rest => AllocaAddr nv (temp_name CI) :: args_addresses (S nv) rest
  end.

Definition capture_known (DSI : DataSharingInfo) (CI : Capture) : bool :=
  negb (Nat.eqb (capture_index (capture_identity CI) (CapturesValues DSI))
                (length (CapturesValues DSI))).

Definition shared_by_reference (DSI : DataSharingInfo) (CI : Capture) : bool :=
  bool_decide (snd <$> CapturesValues DSI !! capture_index (capture_identity CI)
                                               (CapturesValues DSI) = Some DST_Ref).

(** The value stored for a capture: the address of its field in the record at
    [base], or what that field holds when the capture is shared by
    reference. *)
Definition resolve_value (DSI : DataSharingInfo) (base : Value) (Lane : list Value)
    (CI : Capture) : Value :=
  let Idx := capture_index (capture_identity CI) (CapturesValues DSI) in
  let Arg := CreateInBoundsGEP base ([ConstantInt 0; ConstantInt (Z.of_nat Idx)] ++ Lane) in
  if shared_by_reference DSI CI then CreateLoad Arg else Arg.

Definition resolve_store (DSI : DataSharingInfo) (base : Value) (Lane : list Value)
    (ca : Capture * Value) : Instr :=
  Store (resolve_value DSI base Lane ca.1) ca.2.

(** The code of the two levels of a wrapper whose frame pointer is the call
    result [r]. *)
Definition frame_code (DSI : DataSharingInfo) (owner : Value) (Lane : list Value)
    (Args : list (Capture * Value)) (r : nat) : list Instr :=
  Call (Some r) (RuntimeFunction OMPRTL_NVPTX__kmpc_get_data_sharing_environment_frame)
       [owner]
  :: (resolve_store DSI (CreateBitOrPointerCast (CallResult r)) Lane <$> Args).

(** A generator that draws one value and appends code that may name it. *)
Definition emit_with_value (code : nat -> list Instr) : RegionCodeGenTy :=
  fun s =>
    Ok (tt, {| Globals := Globals s; RT := RT s;
               CGF := emitInstrs (code (NextValueId (CGF s))) (next_value (CGF s)) |}).

(** The wrapper once the temporaries and the data sharing information are
    known. *)
Definition wrapper_code (DSI : DataSharingInfo) (D : OpenMPDirectiveKind) (Fn : string)
    (caps : list Capture) (IsSimd : bool) : Gen unit :=
  let ArgsAddresses := args_addresses 0 caps in
  let Args := zip caps ArgsAddresses in
  modifyCGF (bump_values (length caps));;
  (if IsSimd then
     emitParallelismLevelCode Wrapper.Sequential
       (emit_with_value (frame_code DSI getNVPTXThreadID [Argument 0] Args))
       Wrapper.Sequential
   else
     emitParallelismLevelCode
       (emit_with_value (frame_code DSI getMasterThreadID [] Args))
       (emit_with_value (frame_code DSI getNVPTXThreadID [Argument 0] Args))
       Wrapper.Sequential);;
  EmitCallOrInvoke Fn (Wrapper.Header D IsSimd ++ (EmitLoadOfScalar <$> ArgsAddresses)).

(** The wrapper of a region whose enclosing context is known to be at one
    nesting level: the level's block between the entry and the call. *)
Definition wrapper_blocks_at (l : Level) (code : list Instr) (Fn : string)
    (args : list Value) : list BasicBlock :=
  [ {| bb_id := 0; bb_name := "entry"; bb_instrs := []; bb_term := Some (Br 2) |};
    {| bb_id := 2; bb_name := level_block_name l; bb_instrs := code;
       bb_term := Some (Br 1) |};
    {| bb_id := 1; bb_name := ".after.parallel";
       bb_instrs := [Call None (Function Fn) args]; bb_term := Some (Ret None) |} ].

(** What a lane that runs a wrapper finds: the address of the field of the
    capture in the frame of [owner] (the element [lane] of the field in a
    warp record), or what the field holds when the capture is shared by
    reference. *)
Definition resolved (m : Memory) (DSI : DataSharingInfo) (owner : Z) (lane : list Z)
    (CI : Capture) : option RVal :=
  let Idx := capture_index (capture_identity CI) (CapturesValues DSI) in
  let a := FrameElem owner (Z.of_nat Idx :: lane) in
  if shared_by_reference DSI CI then m a else Some (RPtr a).

Fixpoint store_all (m : Memory) (nv : nat) (vs : list RVal) : Memory :=
  match vs with
  | [] => m
  | v :: vs => store_all (mem_store m (StackSlot nv) v) (S nv) vs
  end.

Definition header_values (D : OpenMPDirectiveKind) (IsSimd : bool) (L : Lane) : list RVal :=
  if IsSimd then drop 1 (fn_args L)
  else [RNull; RNull] ++
       (if bool_decide (D = OMPD_distribute_parallel_for) then [RInt 0; RInt 0] else []).

(** The frame a wrapper reads at a nesting level and the lane index into it. *)
Definition frame_owner (pnl : Z) (L : Lane) : Z :=
  if pnl =? 0 then master_tid L else tid_x L.

Definition frame_lane (pnl : Z) (src : Z) : list Z :=
  if pnl =? 0 then [] else [src].

Definition wrapper_level_emitted (IsSimd : bool) (pnl : Z) : bool :=
  (pnl =? 1) || (negb IsSimd && (pnl =? 0)).

Definition get_frame : Callee :=
  RuntimeFunction OMPRTL_NVPTX__kmpc_get_data_sharing_environment_frame.

(** A sample wrapper: the region of [one_region] in its context, at nesting
    level 0, run by lane 5 of a block of 128 threads that is handed the
    master's thread id 96 as source lane. *)
Definition one_region_plan : DataSharingInfo :=
  {| CapturesValues := [(Some var_x, DST_Val); (Some var_y, DST_Ref)];
     MasterRecordType := [int_ty; PointerType int_ty];
     WorkerWarpRecordType :=
       [ConstantArrayType int_ty 32; ConstantArrayType (PointerType int_ty) 32] |}.

Definition planned_runtime : CGOpenMPRuntimeNVPTX :=
  set_data_sharing_info 0%nat one_region_plan initial_runtime.

Definition one_region_stmt : CapturedStmt :=
  {| cs_captures := [by_ref var_x; by_ref var_y]; getCapturedStmt := NullStmt |}.

Definition wrapper_lane : Lane :=
  {| tid_x := 5; ntid_x := 128; ctaid_x := 0; warpsize := 32; fn_args := [RInt 96] |}.

(** The master's frame holds the address of [y]'s referent in its second
    field. *)
Definition y_referent : RVal := RPtr (GlobalElem "y.referent" []).

Definition frame_memory : Memory :=
  fun a => if decide (a = FrameElem 96 [1]) then Some y_referent else None.

Definition wrapper_state : MState :=
  {| regs := fun _ => None; mem := frame_memory; script := []; trace := [] |}.

(** Lane 37 of a block of 128 threads runs the wrapper of a simd region for
    the source lane 3 of its warp; the frame of the lane holds the address of
    [y]'s referent in the element 3 of its second field. *)
Definition simd_wrapper_lane : Lane :=
  {| tid_x := 37; ntid_x := 128; ctaid_x := 0; warpsize := 32;
     fn_args := [RInt 3; RPtr (StackSlot 7); RPtr (StackSlot 8)] |}.

Definition simd_frame_memory : Memory :=
  fun a => if decide (a = FrameElem 37 [1; 3]) then Some y_referent else None.

Definition simd_wrapper_state : MState :=
  {| regs := fun _ => None; mem := simd_frame_memory; script := []; trace := [] |}.

(** The assertion of the wrapper generator that a capture by copy or of a
    variable array type trips. *)
Definition unsupported_capture_message (CI : Capture) : string :=
  if capturesVariableArrayType CI then "Not expecting to capture VLA!"
  else "Not expecting to capture by copy values!".

(** ** Observations on emitted code *)

Definition instr_calls (c : Callee) (i : Instr) : bool :=
  match i with
  | Call _ c' _ => bool_decide (c' = c)
  | Store _ _ => false
  end.

Definition block_calls (c : Callee) (B : BasicBlock) : bool :=
  existsb (instr_calls c) (bb_instrs B).

(** The names of the blocks that call [c]. *)
Definition blocks_calling (c : Callee) (F : list BasicBlock) : list string :=
  bb_name <$> List.filter (block_calls c) F.

(** Some block of the function asks the runtime for a data sharing frame. *)
Definition looks_up_frame (W : LLVMFunction) : Prop :=
  exists B, B ∈ fn_blocks W /\ block_calls get_frame B = true.

(** The names of the blocks a block branches to. *)
Definition successors (F : list BasicBlock) (B : BasicBlock) : list string :=
  let name id := bb_name <$> find_block F id in
  match bb_term B with
  | Some (Br t) => omap name [t]
  | Some (CondBr _ t f) => omap name [t; f]
  | _ => []
  end.

Definition entry_code (F : list BasicBlock) : list Instr :=
  default [] (bb_instrs <$> find_block F 0).

Definition level_block (F : list BasicBlock) (l : Level) : option BasicBlock :=
  block_named F (level_block_name l).

(** The block [B] does nothing but call the outlined simd function [Fn] on
    the spot, with a lane id cell that the entry block sets to 0, a lane
    count cell that it sets to 1, and the captured variables. *)
Definition inline_simd_call (F : list BasicBlock) (Fn : string) (CapturedVars : list Value)
    (B : BasicBlock) : Prop :=
  exists li ni,
    bb_instrs B = [Call None (Function Fn)
                     ([AllocaAddr li "lane_id"; AllocaAddr ni "num_lanes"] ++ CapturedVars)] /\
    Store (ConstantInt 0) (AllocaAddr li "lane_id") ∈ entry_code F /\
    Store (ConstantInt 1) (AllocaAddr ni "num_lanes") ∈ entry_code F /\
    successors F B = [".after.parallel"].

Definition kernel_prepare_parallel : Callee :=
  RuntimeFunction OMPRTL_NVPTX__kmpc_kernel_prepare_parallel.
Definition kernel_convergent_simd : Callee :=
  RuntimeFunction OMPRTL_NVPTX__kmpc_kernel_convergent_simd.

(** A runtime object with a wrapper and a plan registered. *)
Definition simd_runtime (o : bool) (pnl : Z) : CGOpenMPRuntimeNVPTX :=
  set_wrapper "simd_fn" "simd_fn_wrapper"
    (set_data_sharing_info 0%nat one_region_plan
       (set_orphaned o (set_nesting pnl initial_runtime))).

Definition simd_dispatch (gs : list GlobalVariable) (rt : CGOpenMPRuntimeNVPTX)
    (Fn WFn : string) (CapturedVars : list Value) : list BasicBlock :=
  emitted_blocks
    (emitParallelismLevelCode (SimdCall.SeqGen Fn CapturedVars) (SimdCall.L1SimdGen WFn)
       (SimdCall.SeqGen Fn CapturedVars) (start_state gs rt false)).

(** What is expected of the code of a simd call. *)
Definition simd_call_shape (rt : CGOpenMPRuntimeNVPTX) (F : list BasicBlock)
    (Fn : string) (CapturedVars : list Value) : Prop :=
  (* no master dispatch *)
  blocks_calling kernel_prepare_parallel F = [] /\
  (* the blocks of the levels are the ones of the dispatch *)
  (forall l, is_Some (level_block F l) <-> is_Some (expected_guard rt l)) /\
  (* level 0 and sequential: the outlined function is called on the spot *)
  (forall l B, l <> AtLevel1 -> level_block F l = Some B ->
               inline_simd_call F Fn CapturedVars B) /\
  (* the drain loop starts from the level 1 block and from nowhere else *)
  blocks_calling kernel_convergent_simd F
    = match level_block F AtLevel1 with Some _ => [".do.body"] | None => [] end /\
  (forall B, level_block F AtLevel1 = Some B ->
             bb_instrs B = [] /\ successors F B = [".do.body"]).

(** What is expected of the wrapper of a simd region with the captures
    [caps]: its level blocks are the ones of the dispatch; the blocks of
    level 0 and of the sequential level are empty; the level 1 block asks for
    the frame of the lane itself and resolves every capture in it at the
    element of the source lane; no other block asks for a frame; and the
    continuation calls the outlined function with the two cells the wrapper
    was given and what the temporaries of the captures hold. *)
Definition simd_wrapper_shape (rt : CGOpenMPRuntimeNVPTX) (DSI : DataSharingInfo)
    (Fn : string) (caps : list Capture) (W : list BasicBlock) : Prop :=
  let Temps := args_addresses 0 caps in
  (forall l, is_Some (level_block W l) <-> is_Some (expected_guard rt l)) /\
  (forall B, B ∈ W -> block_calls get_frame B = true -> bb_name B = ".level1.parallel") /\
  (forall l B, l <> AtLevel1 -> level_block W l = Some B -> bb_instrs B = []) /\
  (forall B, level_block W AtLevel1 = Some B ->
             bb_instrs B = frame_code DSI getNVPTXThreadID [Argument 0] (zip caps Temps)
                             (length caps)) /\
  (exists B, block_named W ".after.parallel" = Some B /\
             bb_instrs B = [Call None (Function Fn)
                              ([Argument 1; Argument 2] ++ (CreateLoad <$> Temps))] /\
             bb_term B = Some (Ret None)).

(** ** Kernels with parallel regions *)

Definition kmp_int32_ptr : QualType := PointerType (BuiltinType "kmp_int32").

(** Modelled from the spec: the statement emitter of the front end lowers a
    parallel directive by registering its context with the runtime code
    generator, outlining the region, and emitting the call; it is not part of
    this repository excerpt. *)
Definition EmitOMPParallelDirective (EnclosingCGF : EnclosingFunction)
    (D : OpenMPDirectiveKind) (CS : CapturedStmt) (OutlinedName : string)
    (CodeGen : RegionCodeGenTy) (CapturedVars : list Value) (IfCond : option Value)
  : Gen unit :=
  registerParallelContext EnclosingCGF D;;
  r ← emitParallelOrTeamsOutlinedFunction D kmp_int32_ptr CS OutlinedName CodeGen;
  match r with
  | Some _ => emitParallelCall EnclosingCGF OutlinedName CapturedVars IfCond
  | None => mret tt
  end.

(** The wrappers handed to the workers by the code [F]: the functions whose
    address is passed to [__kmpc_kernel_prepare_parallel]. *)
Definition dispatched_by_instr (i : Instr) : list string :=
  match i with
  | Call _ (RuntimeFunction OMPRTL_NVPTX__kmpc_kernel_prepare_parallel)
         [CreateBitOrPointerCast (FunctionAddr W)] => [W]
  | _ => []
  end.

Definition dispatched (F : list BasicBlock) : list string :=
  F ≫= (fun B => bb_instrs B ≫= dispatched_by_instr).

(** A target region that consists of one parallel region without captures. *)
Definition region_stmt : CapturedStmt :=
  {| cs_captures := []; getCapturedStmt := NullStmt |}.

Definition target_region (id : Decl) : EnclosingFunction :=
  {| CurCodeDecl :=
       Some (CapturedDecl id (OtherStmt [OMPExecutableDirective OMPD_parallel [] NullStmt]));
     GetAddrOfLocalVar := fun _ => AllocaInst;
     hasLocalStorage := fun _ => true |}.

Definition emitParallelKernel (id : Decl) (EntryName OutlinedName : string)
  : Gen (option Kernel) :=
  emitKernel "main" EntryName true
    (EmitOMPParallelDirective (target_region id) OMPD_parallel region_stmt OutlinedName
       (EmitCallOrInvoke "region.body" []) [] None).

(** Two kernels of one module, emitted one after the other. *)
Definition two_kernels : option (Kernel * Kernel) :=
  ks ← generated (k1 ← emitParallelKernel 1%nat "kernel1" "outlined1";
                  k2 ← emitParallelKernel 2%nat "kernel2" "outlined2";
                  mret (k1, k2)) [] initial_runtime;
  k1 ← ks.1; k2 ← ks.2; Some (k1, k2).

(** The claim that the worker loop of a kernel matches the work function
    against the functions dispatched at this kernel's entry only: whatever a
    worker calls between two visits of the await block was dispatched by the
    entry function. *)
Definition matches_this_kernel_only (k : Kernel) : Prop :=
  forall L s fn rest n s',
    script s = RespKernelParallel (RFn fn) true :: rest ->
    steps n (fn_blocks (k_worker k)) L (At 1 s) = At 1 s' ->
    calls_function fn (trace s') = true ->
    calls_function fn (trace s) = true \/ fn ∈ dispatched (fn_blocks (k_entry k)).

Definition idle_worker (sc : list Response) : MState :=
  {| regs := fun _ => None; mem := fun _ => None; script := sc; trace := [] |}.

(** The runtime object after the two kernels have been emitted. *)
Definition runtime_after_two_kernels : CGOpenMPRuntimeNVPTX :=
  push_work "outlined2_wrapper" (push_work "outlined1_wrapper" initial_runtime).

(** ** The parallelism level around an outlined region *)

Definition level_increment (IsSimd : bool) : Z := if IsSimd then 10 else 1.

Definition LevelAddr : Value :=
  CreateInBoundsGEP (GlobalAddr parallelism_levels_name) [ConstantInt 0; getNVPTXThreadID].

(** The instruction [increaseParallelismLevel] emits, and the one
    [decreaseParallelismLevel] emits. *)
Definition increase_code (IsSimd : bool) : Instr :=
  Store (BinOp OpNSWAdd (CreateLoad LevelAddr) (ConstantInt (level_increment IsSimd)))
        LevelAddr.

Definition decrease_code (IsSimd : bool) : Instr :=
  Store (BinOp OpNSWSub (CreateLoad LevelAddr) (ConstantInt (level_increment IsSimd)))
        LevelAddr.

(** The module once the array of the levels is declared. *)
Definition declare_levels (gs : list GlobalVariable) : list GlobalVariable :=
  match getGlobalVariable parallelism_levels_name gs with
  | Some _ => gs
  | None => gs ++ [{| gv_name := parallelism_levels_name;
                      gv_length := DS_Max_Worker_Threads;
                      gv_addrspace := ADDRESS_SPACE_SHARED |}]
  end.

(** The generator's state when the code of the region is about to be emitted
    into the outlined function [name]: the entry code is in place. *)
Definition region_entry (gs : list GlobalVariable) (rt : CGOpenMPRuntimeNVPTX)
    (name : string) (IsSimd : bool) : GenState :=
  {| Globals := declare_levels gs; RT := rt;
     CGF := emitInstr (increase_code IsSimd) (StartFunction name false) |}.

(** The master lane of a block of 1024 threads. *)
Definition master_of_1024 : Lane :=
  {| tid_x := 992; ntid_x := 1024; ctaid_x := 0; warpsize := 32; fn_args := [] |}.

(** The claim for one lane of a kernel: its counter is 0 at kernel start and
    the entry code of a parallel region makes it 1. *)
Definition level_counter_works (gs : list GlobalVariable) (L : Lane) : Prop :=
  initial_memory gs (level_cell L) = Some (RInt 0) /\
  exists s1,
    exec_instr L (increase_code false) (initial_state gs []) = Some s1 /\
    mem s1 (level_cell L) = Some (RInt 1).

(** * Further properties of the code generator *)

(** ** Thread identifiers within a block *)

(** A lane of a block of [N] threads with lane groups of [W] lanes. *)
Definition lane_of_block (N W block t : Z) : Lane :=
  {| tid_x := t; ntid_x := N; ctaid_x := block; warpsize := W; fn_args := [] |}.

Definition no_state : nat -> option RVal := fun _ => None.
Definition no_memory : Memory := fun _ => None.

(** ** Active lanes of a warp *)

Definition warp_active_thread_mask_call (id : nat) : Instr :=
  Call (Some id) (RuntimeFunction OMPRTL_NVPTX__kmpc_warp_active_thread_mask) [].

(** The generator state after a call whose result is bound to the next
    value. *)
Definition after_call (i : nat -> Instr) (st : GenState) : GenState :=
  {| Globals := Globals st; RT := RT st;
     CGF := emitInstr (i (NextValueId (CGF st))) (next_value (CGF st)) |}.

(** ** The code of a parallel call, level by level *)

Definition kernel_convergent_parallel : Callee :=
  RuntimeFunction OMPRTL_NVPTX__kmpc_kernel_convergent_parallel.
Definition kernel_end_convergent_parallel : Callee :=
  RuntimeFunction OMPRTL_NVPTX__kmpc_kernel_end_convergent_parallel.
Definition kernel_end_convergent_simd : Callee :=
  RuntimeFunction OMPRTL_NVPTX__kmpc_kernel_end_convergent_simd.
Definition serialized_parallel : Callee :=
  RuntimeFunction OMPRTL_NVPTX__kmpc_serialized_parallel.
Definition end_serialized_parallel : Callee :=
  RuntimeFunction OMPRTL_NVPTX__kmpc_end_serialized_parallel.

(** The blocks between the entry block and the continuation block that a
    parallel call gets in a context whose nesting level is known. *)
Definition parallel_call_blocks (l : Level) (Fn WFn : string) (CapturedVars : list Value)
  : list BasicBlock :=
  match l with
  | AtLevel0 =>
      [ {| bb_id := 0; bb_name := "entry"; bb_instrs := []; bb_term := Some (Br 2) |};
        {| bb_id := 2; bb_name := ".level0.parallel";
           bb_instrs :=
             [Call None kernel_prepare_parallel [CreateBitOrPointerCast (FunctionAddr WFn)];
              Call None nvvm_barrier0 []; Call None nvvm_barrier0 []];
           bb_term := Some (Br 1) |};
        open_block 1 ".after.parallel" ]
  | AtLevel1 =>
      [ {| bb_id := 0; bb_name := "entry";
           bb_instrs := [Store (ConstantInt (wrap32 (-1))) (AllocaAddr 1 "work_source");
                         Store (ConstantInt 0) (AllocaAddr 0 "is_final")];
           bb_term := Some (Br 2) |};
        {| bb_id := 2; bb_name := ".level1.parallel"; bb_instrs := [];
           bb_term := Some (Br 3) |};
        {| bb_id := 3; bb_name := ".do.body";
           bb_instrs :=
             [Call (Some 3%nat) kernel_convergent_parallel
                   [ArrayDecay (AllocaAddr 2 "task_state");
                    AllocaAddr 0 "is_final"; AllocaAddr 1 "work_source"]];
           bb_term := Some (CondBr (CallResult 3) 4 5) |};
        {| bb_id := 4; bb_name := ".do.body.execute";
           bb_instrs :=
             [Call None (Function WFn) [CreateLoad (AllocaAddr 1 "work_source")];
              Call None kernel_end_convergent_parallel
                   [ArrayDecay (AllocaAddr 2 "task_state")]];
           bb_term := Some (Br 5) |};
        {| bb_id := 5; bb_name := ".do.cond"; bb_instrs := [];
           bb_term := Some (CondBr (ICmp ICMP_EQ (CreateLoad (AllocaAddr 0 "is_final"))
                                         (ConstantInt 1)) 6 3) |};
        {| bb_id := 6; bb_name := ".do.end"; bb_instrs := []; bb_term := Some (Br 1) |};
        open_block 1 ".after.parallel" ]
  | AtSequential =>
      [ {| bb_id := 0; bb_name := "entry"; bb_instrs := []; bb_term := Some (Br 2) |};
        {| bb_id := 2; bb_name := ".sequential.parallel";
           bb_instrs :=
             [Call None serialized_parallel [emitUpdateLocation; getThreadID];
              Call None (Function Fn) ([NullValue; NullValue] ++ CapturedVars);
              Call None end_serialized_parallel [emitUpdateLocation; getThreadID]];
           bb_term := Some (Br 1) |};
        open_block 1 ".after.parallel" ]
  end.

(** The wrappers a parallel call adds to the work of the workers. *)
Definition work_added (rt : CGOpenMPRuntimeNVPTX) (WFn : string) : list string :=
  if IsOrphaned rt || (ParallelNestingLevel rt =? 0) then [WFn] else [].

(** One round of the loop around [__kmpc_kernel_convergent_parallel]: whether
    the lane is active in the round and the lane whose data it is to use. *)
Definition Round : Type := bool * Z.

Definition convergent_parallel_script (rounds : list Round) (last : Round) : list Response :=
  ((fun r : Round => RespConvergentParallel r.1 false r.2) <$> rounds)
  ++ [RespConvergentParallel last.1 true last.2].

Definition convergent_parallel_round (WFn : string) (r : Round) : list Event :=
  EvCall kernel_convergent_parallel
         [RPtr (StackSlot 2); RPtr (StackSlot 0); RPtr (StackSlot 1)]
  :: (if r.1 then [EvCall (Function WFn) [RInt r.2];
                   EvCall kernel_end_convergent_parallel [RPtr (StackSlot 2)]]
      else []).

(** The same for a simd call: a round also brings the lane id and the number
    of lanes. *)
Definition SimdRound : Type := bool * Z * (Z * Z).

Definition convergent_simd_script (rounds : list SimdRound) (last : SimdRound)
  : list Response :=
  ((fun r : SimdRound => RespConvergentSimd r.1.1 false r.1.2 r.2.1 r.2.2) <$> rounds)
  ++ [RespConvergentSimd last.1.1 true last.1.2 last.2.1 last.2.2].

Definition convergent_simd_round (WFn : string) (r : SimdRound) : list Event :=
  EvCall kernel_convergent_simd
         [RPtr (StackSlot 4); RPtr (StackSlot 0); RPtr (StackSlot 1);
          RPtr (StackSlot 2); RPtr (StackSlot 3)]
  :: (if r.1.1 then [EvCall (Function WFn)
                            [RInt r.1.2; RPtr (StackSlot 2); RPtr (StackSlot 3)];
                     EvCall kernel_end_convergent_simd [RPtr (StackSlot 4)]]
      else []).

Definition simd_level1_blocks (WFn : string) : list BasicBlock :=
  [ {| bb_id := 0; bb_name := "entry";
       bb_instrs := [Store (ConstantInt (wrap32 (-1))) (AllocaAddr 1 "work_source");
                     Store (ConstantInt 0) (AllocaAddr 0 "is_final")];
       bb_term := Some (Br 2) |};
    {| bb_id := 2; bb_name := ".level1.parallel"; bb_instrs := [];
       bb_term := Some (Br 3) |};
    {| bb_id := 3; bb_name := ".do.body";
       bb_instrs :=
         [Call (Some 5%nat) kernel_convergent_simd
               [ArrayDecay (AllocaAddr 4 "task_state");
                AllocaAddr 0 "is_final"; AllocaAddr 1 "work_source";
                AllocaAddr 2 "lane_id"; AllocaAddr 3 "num_lanes"]];
       bb_term := Some (CondBr (CallResult 5) 4 5) |};
    {| bb_id := 4; bb_name := ".do.body.execute";
       bb_instrs :=
         [Call None (Function WFn)
               [CreateLoad (AllocaAddr 1 "work_source");
                AllocaAddr 2 "lane_id"; AllocaAddr 3 "num_lanes"];
          Call None kernel_end_convergent_simd [ArrayDecay (AllocaAddr 4 "task_state")]];
       bb_term := Some (Br 5) |};
    {| bb_id := 5; bb_name := ".do.cond"; bb_instrs := [];
       bb_term := Some (CondBr (ICmp ICMP_EQ (CreateLoad (AllocaAddr 0 "is_final"))
                                     (ConstantInt 1)) 6 3) |};
    {| bb_id := 6; bb_name := ".do.end"; bb_instrs := []; bb_term := Some (Br 1) |};
    open_block 1 ".after.parallel" ].


(** ** Loop schedules *)

(** Modelled from the spec: the kinds of a schedule clause are declared by
    the front end, outside this repository excerpt; the kinds below are the
    ones the runtime code names, and [runtime]. *)
Inductive OpenMPScheduleClauseKind :=
| OMPC_SCHEDULE_static
| OMPC_SCHEDULE_dynamic
| OMPC_SCHEDULE_guided
| OMPC_SCHEDULE_auto
| OMPC_SCHEDULE_runtime
| OMPC_SCHEDULE_unknown.

#[global] Instance OpenMPScheduleClauseKind_eq_dec : EqDecision OpenMPScheduleClauseKind.
Proof. solve_decision. Defined.

(** What the code reads of a loop directive: whether it has an [ordered]
    clause and the kind of its [schedule] clause, if it has one. *)
Record OMPLoopDirective := {
  OrderedClause : bool;
  ScheduleClause : option OpenMPScheduleClauseKind
}.

(** Generate optimized code resembling static schedule with chunk size of 1
    whenever the standard gives us freedom. *)
Definition generateCoalescedSchedule (ScheduleKind : OpenMPScheduleClauseKind)
    (ChunkSizeOne ordered : bool) : bool :=
  negb ordered &&
  (bool_decide (ScheduleKind = OMPC_SCHEDULE_unknown) ||
   bool_decide (ScheduleKind = OMPC_SCHEDULE_auto) ||
   (bool_decide (ScheduleKind = OMPC_SCHEDULE_static) && ChunkSizeOne)).

Definition requiresBarrier (S : OMPLoopDirective) : bool :=
  let Ordered := OrderedClause S in
  let ScheduleKind := default OMPC_SCHEDULE_unknown (ScheduleClause S) in
  Ordered || bool_decide (ScheduleKind = OMPC_SCHEDULE_dynamic) ||
  bool_decide (ScheduleKind = OMPC_SCHEDULE_guided).

(** ** The functions of the device runtime library *)

Inductive LLVMType :=
| VoidTy | Int1Ty | Int32Ty | SizeTy
| Int8PtrTy | Int8PtrPtrTy | Int32PtrTy | VoidPtrTy | VoidPtrPtrTy
| IdentTyPointerTy      (* ident_t * *)
| SlotPtrTy             (* __kmpc_data_sharing_slot * *)
| SlotPtrPtrTy.

#[global] Instance LLVMType_eq_dec : EqDecision LLVMType.
Proof. solve_decision. Defined.

Record FunctionType := {
  ReturnType : LLVMType;
  TypeParams : list LLVMType
}.

(** The name and the type with which each runtime function is declared. *)
Definition createNVPTXRuntimeFunction (f : OpenMPRTLFunctionNVPTX) : string * FunctionType :=
  match f with
  | OMPRTL_NVPTX__kmpc_kernel_init =>
      (* Build void __kmpc_kernel_init(kmp_int32 omp_handle, kmp_int32 thread_limit); *)
      ("__kmpc_kernel_init",
       {| ReturnType := VoidTy; TypeParams := [Int32Ty; Int32Ty] |})
  | OMPRTL_NVPTX__kmpc_kernel_deinit =>
      (* Build void __kmpc_kernel_deinit(); *)
      ("__kmpc_kernel_deinit", {| ReturnType := VoidTy; TypeParams := [] |})
  | OMPRTL_NVPTX__kmpc_serialized_parallel =>
      (* Build void __kmpc_serialized_parallel(ident_t *loc, kmp_int32 global_tid); *)
      ("__kmpc_serialized_parallel",
       {| ReturnType := VoidTy; TypeParams := [IdentTyPointerTy; Int32Ty] |})
  | OMPRTL_NVPTX__kmpc_end_serialized_parallel =>
      (* Build void __kmpc_end_serialized_parallel(ident_t *loc, kmp_int32 global_tid); *)
      ("__kmpc_end_serialized_parallel",
       {| ReturnType := VoidTy; TypeParams := [IdentTyPointerTy; Int32Ty] |})
  | OMPRTL_NVPTX__kmpc_kernel_prepare_parallel =>
      (* Build void __kmpc_kernel_prepare_parallel(void *outlined_function); *)
      ("__kmpc_kernel_prepare_parallel",
       {| ReturnType := VoidTy; TypeParams := [Int8PtrTy] |})
  | OMPRTL_NVPTX__kmpc_kernel_parallel =>
      (* Build bool __kmpc_kernel_parallel(void **outlined_function); *)
      ("__kmpc_kernel_parallel",
       {| ReturnType := Int1Ty; TypeParams := [Int8PtrPtrTy] |})
  | OMPRTL_NVPTX__kmpc_kernel_end_parallel =>
      (* Build void __kmpc_kernel_end_parallel(); *)
      ("__kmpc_kernel_end_parallel", {| ReturnType := VoidTy; TypeParams := [] |})
  | OMPRTL_NVPTX__kmpc_kernel_convergent_parallel =>
      (* bool __kmpc_kernel_convergent_parallel(void *buffer, bool *IsFinal,
         kmpc_int32 *LaneSource); *)
      ("__kmpc_kernel_convergent_parallel",
       {| ReturnType := Int1Ty; TypeParams := [Int8PtrTy; Int8PtrTy; Int32PtrTy] |})
  | OMPRTL_NVPTX__kmpc_kernel_end_convergent_parallel =>
      (* Build void __kmpc_kernel_end_convergent_parallel(void *buffer); *)
      ("__kmpc_kernel_end_convergent_parallel",
       {| ReturnType := VoidTy; TypeParams := [Int8PtrTy] |})
  | OMPRTL_NVPTX__kmpc_kernel_convergent_simd =>
      (* bool __kmpc_kernel_convergent_simd(void *buffer, bool *IsFinal,
         kmpc_int32 *LaneSource, kmpc_int32 *LaneId, kmpc_int32 *NumLanes); *)
      ("__kmpc_kernel_convergent_simd",
       {| ReturnType := Int1Ty;
          TypeParams := [Int8PtrTy; Int8PtrTy; Int32PtrTy; Int32PtrTy; Int32PtrTy] |})
  | OMPRTL_NVPTX__kmpc_kernel_end_convergent_simd =>
      (* Build void __kmpc_kernel_end_convergent_simd(void *buffer); *)
      ("__kmpc_kernel_end_convergent_simd",
       {| ReturnType := VoidTy; TypeParams := [Int8PtrTy] |})
  | OMPRTL_NVPTX__kmpc_warp_active_thread_mask =>
      ("__kmpc_warp_active_thread_mask", {| ReturnType := Int32Ty; TypeParams := [] |})
  | OMPRTL_NVPTX__kmpc_initialize_data_sharing_environment =>
      (* void __kmpc_initialize_data_sharing_environment(
           __kmpc_data_sharing_slot *RootS, size_t InitialDataSize); *)
      ("__kmpc_initialize_data_sharing_environment",
       {| ReturnType := VoidTy; TypeParams := [SlotPtrTy; SizeTy] |})
  | OMPRTL_NVPTX__kmpc_data_sharing_environment_begin =>
      (* void* __kmpc_data_sharing_environment_begin(
           __kmpc_data_sharing_slot **SavedSharedSlot, void **SavedSharedStack,
           void **SavedSharedFrame, int32_t *SavedActiveThreads,
           size_t SharingDataSize, size_t SharingDefaultDataSize); *)
      ("__kmpc_data_sharing_environment_begin",
       {| ReturnType := VoidPtrTy;
          TypeParams := [SlotPtrPtrTy; VoidPtrPtrTy; VoidPtrPtrTy; Int32PtrTy;
                         SizeTy; SizeTy] |})
  | OMPRTL_NVPTX__kmpc_data_sharing_environment_end =>
      (* void __kmpc_data_sharing_environment_end(
           __kmpc_data_sharing_slot **SavedSharedSlot, void **SavedSharedStack,
           void **SavedSharedFrame, int32_t *SavedActiveThreads,
           int32_t IsEntryPoint); *)
      ("__kmpc_data_sharing_environment_end",
       {| ReturnType := VoidTy;
          TypeParams := [SlotPtrPtrTy; VoidPtrPtrTy; VoidPtrPtrTy; Int32PtrTy; Int32Ty] |})
  | OMPRTL_NVPTX__kmpc_get_data_sharing_environment_frame =>
      (* void* __kmpc_get_data_sharing_environment_frame(int32_t SourceThreadID); *)
      ("__kmpc_get_data_sharing_environment_frame",
       {| ReturnType := VoidPtrTy; TypeParams := [Int32Ty] |})
  end.

(** A call to a runtime function passes as many arguments as the function is
    declared with, and binds a result only if the function returns one. *)
Definition call_conforms (i : Instr) : bool :=
  match i with
  | Call res (RuntimeFunction f) args =>
      let FnTy := (createNVPTXRuntimeFunction f).2 in
      bool_decide (length args = length (TypeParams FnTy)) &&
      match res with
      | Some _ => negb (bool_decide (ReturnType FnTy = VoidTy))
      | None => true
      end
  | _ => true
  end.

Definition calls_conform (F : list BasicBlock) : bool :=
  forallb (fun B => forallb call_conforms (bb_instrs B)) F.

(** ** The regions of a context, by recursion on the statement *)

(** The parallel and simd regions of a statement that are not nested in
    another such region, each statement's children taken last to first. *)
Fixpoint outermost_regions (s : Stmt) : list CapturedStmt :=
  match s with
  | NullStmt => []
  | OtherStmt children => concat (reverse (List.map outermost_regions children))
  | OMPExecutableDirective kind caps body =>
      if isOpenMPParallelDirective kind || isOpenMPSimdDirective kind
      then [{| cs_captures := caps; getCapturedStmt := body |}]
      else outermost_regions body
  | OMPStandaloneDirective _ => []
  end.

(** The sharing mode of a captured identity: it does not depend on the
    capture that names it. *)
Definition identity_mode (F : EnclosingFunction) (v : option VarDecl) : DataSharingType :=
  match v with
  | None => DST_Val
  | Some VD =>
      match GetAddrOfLocalVar F VD with
      | LoadInst => DST_Ref
      | BitCastInst => DST_Cast
      | _ => DST_Val
      end
  end.

(** ** The split of an entry function *)

(** The two halves of a block split before its instruction number [k], as
    [InitializeEntryPoint] leaves them: the first ends with the call to the
    kernel initializer, whose result is bound to [res], and leaves to the
    second half or to the exit block. *)
Definition entry_half (B : BasicBlock) (k res MasterBB ExitBlock : nat) : BasicBlock :=
  {| bb_id := bb_id B; bb_name := bb_name B;
     bb_instrs := take k (bb_instrs B)
                  ++ [Call (Some res) (Function kernel_initialization_name) []];
     bb_term := Some (CondBr (ICmp ICMP_EQ (CallResult res) (ConstantInt 0))
                             MasterBB ExitBlock) |}.

Definition master_half (B : BasicBlock) (k MasterBB : nat) : BasicBlock :=
  {| bb_id := MasterBB; bb_name := ".master";
     bb_instrs := drop k (bb_instrs B); bb_term := bb_term B |}.

(** An entry function with three blocks, registered as [emitEntryHeader]
    registers it. *)
Definition sample_entry : LLVMFunction :=
  {| fn_name := "kernel";
     fn_blocks :=
       [ {| bb_id := 0; bb_name := "entry";
            bb_instrs := [Store (ConstantInt 7) (AllocaAddr 0 "x");
                          Call None (Function target_region_body) []];
            bb_term := Some (Br 2) |};
         {| bb_id := 2; bb_name := ".termination.notifier";
            bb_instrs := [Call None (RuntimeFunction OMPRTL_NVPTX__kmpc_kernel_deinit) []];
            bb_term := Some (Br 1) |};
         {| bb_id := 1; bb_name := ".sleepy.hollow"; bb_instrs := [];
            bb_term := Some (Ret None) |} ];
     fn_next_block := 3; fn_next_value := 1 |}.

Definition sample_entry_info : DataSharingFunctionInfo :=
  {| IsEntryPoint := true; EntryWorkerFunction := Some "kernel_worker";
     EntryExitBlock := Some 1%nat; InitializationFunction := None |}.

(** ** The root slots of the data sharing *)

(** The types of the slots, as far as the addressing of the root slots goes:
    characters, pointers (to a named type), arrays and records. *)
Inductive SlotType :=
| SlotCharTy
| SlotPointerType (pointee : string)
| SlotConstantArrayType (elem : SlotType) (NumElems : Z)
| SlotIncompleteArrayType (elem : SlotType)
| SlotRecordType (name : string) (fields : list SlotType).

(** struct Slot { Slot *Next; void *DataEnd; char Data[]; }; *)
Definition DataSharingSlotQty : SlotType :=
  SlotRecordType "__kmpc_data_sharing_slot"
    [SlotPointerType "__kmpc_data_sharing_slot"; SlotPointerType "void";
     SlotIncompleteArrayType SlotCharTy].

(** Type of the data sharing master slot:
    struct MasterSlot { Slot *Next; void *DataEnd; char Data[DS_Slot_Size]; }; *)
Definition getDataSharingMasterSlotQty : SlotType :=
  SlotRecordType "__openmp_nvptx_data_sharing_master_slot_ty"
    [SlotPointerType "__kmpc_data_sharing_slot"; SlotPointerType "void";
     SlotConstantArrayType SlotCharTy DS_Slot_Size].

(** Type of the data sharing worker warp slot:
    struct WorkerWarpSlot { Slot *Next; void *DataEnd;
                            char [DS_Worker_Warp_Slot_Size]; }; *)
Definition getDataSharingWorkerWarpSlotQty : SlotType :=
  SlotRecordType "__openmp_nvptx_data_sharing_worker_warp_slot_ty"
    [SlotPointerType "__kmpc_data_sharing_slot"; SlotPointerType "void";
     SlotConstantArrayType SlotCharTy DS_Worker_Warp_Slot_Size].

(** Get the type of the master or worker slot. *)
Definition getDataSharingSlotQty (UseFixedDataSize IsMaster : bool) : SlotType :=
  if UseFixedDataSize then
    if IsMaster then getDataSharingMasterSlotQty else getDataSharingWorkerWarpSlotQty
  else DataSharingSlotQty.

(** Type of the data sharing root slot, the type of the global with the root
    slots:
    struct Slots { MasterSlot MS;
                   WorkerWarpSlot WS[DS_Max_Worker_Threads/DS_Max_Worker_Warp_Size]; };
    one per team. *)
Definition getDataSharingRootSlotQty : SlotType :=
  SlotConstantArrayType
    (SlotRecordType "__openmp_nvptx_data_sharing_ty"
       [getDataSharingMasterSlotQty;
        SlotConstantArrayType getDataSharingWorkerWarpSlotQty
          (DS_Max_Worker_Threads / DS_Max_Worker_Warp_Size)])
    DS_Max_Teams.

(** The type of the element an inbounds GEP reaches by the indices [path]
    (after the leading 0 that steps into the global); none when an index
    leaves an array or names no field. *)
Fixpoint element_type (T : SlotType) (path : list Z) : option SlotType :=
  match path with
  | [] => Some T
  | i :: rest =>
      match T with
      | SlotConstantArrayType elem n =>
          if (0 <=? i) && (i <? n) then element_type elem rest else None
      | SlotRecordType _ fields =>
          if 0 <=? i then
            match fields !! Z.to_nat i with
            | Some f => element_type f rest
            | None => None
            end
          else None
      | _ => None
      end
  end.

(** ** The whole run of a worker *)

(** What the runtime hands a worker while a kernel runs: one work function
    with an activity flag per parallel region, and no work function at the
    end. *)
Definition work_script (items : list (string * bool)) : list Response :=
  ((fun it : string * bool => RespKernelParallel (RFn it.1) it.2) <$> items)
  ++ [RespKernelParallel RNull false].

Definition is_barrier (e : Event) : bool :=
  match e with EvCall c _ => bool_decide (c = nvvm_barrier0) end.

Definition barriers (tr : list Event) : nat := length (List.filter is_barrier tr).

(** A region without code of its own. *)
Definition empty_region_code : RegionCodeGenTy := mret tt.

(** The generator's state when the code of a target region is about to be
    emitted into the entry function [EntryName]: the exit block is created
    (not yet placed), the function is registered as an entry point and the
    call that initializes the runtime is in place. *)
Definition entry_header_state (gs : list GlobalVariable) (rt : CGOpenMPRuntimeNVPTX)
    (EntryName : string) : GenState :=
  {| Globals := gs;
     RT := set_function_info EntryName
             {| IsEntryPoint := true;
                EntryWorkerFunction := Some (EntryName +:+ "_worker")%string;
                EntryExitBlock := Some 1%nat;
                InitializationFunction :=
                  InitializationFunction (lookup_function_info rt EntryName) |} rt;
     CGF := emitInstr (Call None (RuntimeFunction OMPRTL_NVPTX__kmpc_kernel_init)
                            [ConstantInt 0; getThreadLimit])
              {| CurFn := EntryName; Blocks := [open_block 0 "entry"];
                 InsertPoint := Some 0%nat; NextBlockId := 2; NextValueId := 0;
                 ReturnValue := None |} |}.


(** * Proofs *)

#[local] Arguments wrap32 : simpl never.
#[local] Arguments signed32 : simpl never.
#[local] Arguments in_signed32 : simpl never.
#[local] Arguments popc_bits : simpl never.
#[local] Arguments Z.shiftl : simpl never.
#[local] Arguments Z.shiftr : simpl never.
#[local] Arguments Z.land : simpl never.
#[local] Arguments Z.lnot : simpl never.
#[local] Arguments Z.modulo : simpl never.

(** ** Arithmetic of the 32-bit values *)

Lemma bool_decide_RInt a b : bool_decide (RInt a = RInt b) = (a =? b).
Proof.
  destruct (Z.eqb_spec a b) as [->|Hne].
  - by rewrite bool_decide_eq_true_2.
  - rewrite bool_decide_eq_false_2; [done | congruence].
Qed.

Lemma land_wrap32_r a b : 0 <= a < 2 ^ 32 -> Z.land a (wrap32 b) = Z.land a b.
Proof.
  intros Ha. unfold wrap32. apply Z.bits_inj'. intros n Hn.
  rewrite !Z.land_spec.
  destruct (Z_lt_le_dec n 32).
  - rewrite Z.mod_pow2_bits_low by lia. reflexivity.
  - assert (Z.testbit a n = false) as ->; [|reflexivity].
    destruct (Z.eq_dec a 0) as [->|]; [apply Z.bits_0|].
    apply Z.bits_above_log2; [lia|].
    apply Z.lt_le_trans with 32; [|lia].
    apply Z.log2_lt_pow2; lia.
Qed.

Lemma land_lnot_pow2 a k : 0 <= k -> Z.land a (Z.lnot (2 ^ k - 1)) = 2 ^ k * (a / 2 ^ k).
Proof.
  intros Hk. rewrite <- Z.ldiff_land.
  replace (2 ^ k - 1) with (Z.ones k) by (rewrite Z.ones_equiv; lia).
  rewrite Z.ldiff_ones_r by lia.
  rewrite Z.shiftr_div_pow2, Z.shiftl_mul_pow2 by lia. lia.
Qed.

(** ** Stepping through emitted code *)

Lemma step_block F L bb s B s' :
  find_block F bb = Some B ->
  exec_instrs L (bb_instrs B) s = Some s' ->
  step F L (At bb s) = exec_term L bb (bb_term B) s'.
Proof. intros HB Hs. cbn. by rewrite HB, Hs. Qed.

Lemma exec_term_condbr L bb c l1 l2 s b :
  eval L (regs s) (mem s) c = Some (RInt (bool_to_Z b)) ->
  exec_term L bb (Some (CondBr c l1 l2)) s = At (if b then l1 else l2) s.
Proof. intros H. cbn. rewrite H. by destruct b. Qed.

Lemma steps_S n F L c : steps (S n) F L c = steps n F L (step F L c).
Proof. reflexivity. Qed.

Lemma steps_Stopped n F L bb s : steps n F L (Stopped bb s) = Stopped bb s.
Proof. induction n; [done | exact IHn]. Qed.

Lemma steps_Returned n F L v s : steps n F L (Returned v s) = Returned v s.
Proof. induction n; [done | exact IHn]. Qed.

Lemma steps_add n k F L c : steps (n + k) F L c = steps k F L (steps n F L c).
Proof. revert c. induction n; intros c; [done | apply IHn]. Qed.

Lemma mem_store_eq m a v : mem_store m a v a = Some v.
Proof. unfold mem_store. by rewrite decide_True. Qed.

Lemma mem_store_ne m a v a' : a <> a' -> mem_store m a v a' = m a'.
Proof. intros H. unfold mem_store. by rewrite decide_False. Qed.

Lemma step_Returned F L v s : step F L (Returned v s) = Returned v s.
Proof. reflexivity. Qed.

Lemma step_Stopped F L bb s : step F L (Stopped bb s) = Stopped bb s.
Proof. reflexivity. Qed.

Lemma steps_Returned_any m F L v s : steps m F L (Returned v s) = Returned v s.
Proof. induction m as [|m IH]; [done|]. cbn. exact IH. Qed.

Lemma find_block_bb_id F id B : find_block F id = Some B -> bb_id B = id.
Proof.
  unfold find_block. intros H. apply List.find_some in H as [_ H].
  by apply Nat.eqb_eq in H.
Qed.

Lemma find_block_update_block id f bs b :
  (forall B, bb_id (f B) = bb_id B) ->
  find_block (update_block id f bs) b
  = (fun B => if Nat.eqb (bb_id B) id then f B else B) <$> find_block bs b.
Proof.
  intros Hf. induction bs as [|B bs IH]; [done|].
  unfold find_block, update_block in *. cbn [List.map List.find].
  destruct (Nat.eqb (bb_id B) id) eqn:Hid.
  - rewrite Hf. destruct (Nat.eqb (bb_id B) b); [|exact IH]. cbn. by rewrite Hid.
  - destruct (Nat.eqb (bb_id B) b); [|exact IH]. cbn. by rewrite Hid.
Qed.

Lemma exec_instrs_app L a b s :
  exec_instrs L (a ++ b) s
  = match exec_instrs L a s with Some s' => exec_instrs L b s' | None => None end.
Proof.
  revert s. induction a as [|i a IH]; intros s; [done|].
  cbn. destruct (exec_instr L i s); [apply IH|done].
Qed.

Lemma steps_Fault n F L : steps n F L Fault = Fault.
Proof. induction n as [|n IH]; [done|]. cbn. exact IH. Qed.

Lemma steps_Stopped_any n F L b s : steps n F L (Stopped b s) = Stopped b s.
Proof. induction n as [|n IH]; [done|]. cbn. exact IH. Qed.

Lemma set_reg_eq r id v : set_reg r id v id = Some v.
Proof. unfold set_reg. by rewrite Nat.eqb_refl. Qed.

Ltac run_block_with H :=
  rewrite steps_S;
  erewrite step_block; [ | reflexivity | cbn; rewrite ?H; reflexivity ].

Ltac run_block :=
  rewrite steps_S;
  erewrite step_block; [ | reflexivity | cbn; reflexivity ].

(** ** The guards of the dispatch *)

Lemma eval_getMasterThreadID L rg m :
  eval L rg m getMasterThreadID = Some (RInt (master_tid L)).
Proof. reflexivity. Qed.

Lemma eval_ParallelLevelVal L rg m lvl :
  0 <= tid_x L < DS_Max_Worker_Threads ->
  m (level_cell L) = Some (RInt lvl) ->
  eval L rg m ParallelLevelVal = Some (RInt lvl).
Proof.
  intros [H0 H1] Hm. cbn. unfold in_bounds.
  change (global_length parallelism_levels_name) with (Some DS_Max_Worker_Threads).
  apply Z.leb_le in H0. apply Z.ltb_lt in H1.
  rewrite H0, H1. cbn. exact Hm.
Qed.

Lemma eval_level_predicate L rg m lvl l :
  0 <= tid_x L < DS_Max_Worker_Threads ->
  m (level_cell L) = Some (RInt lvl) ->
  eval L rg m (level_predicate l)
  = Some (RInt (bool_to_Z match l with
                          | AtLevel0 => tid_x L =? master_tid L
                          | AtLevel1 => lvl =? 1
                          | AtSequential => 1 <? signed32 lvl
                          end)).
Proof.
  intros Ht Hm. destruct l; unfold level_predicate.
  - cbn [eval]. rewrite eval_getMasterThreadID.
    cbn [getNVPTXThreadID eval eval_icmp read_sreg].
    by rewrite bool_decide_RInt.
  - cbn [eval]. fold ParallelLevelVal. rewrite (eval_ParallelLevelVal _ _ _ lvl) by done.
    cbn [eval_icmp]. by rewrite bool_decide_RInt.
  - cbn [eval]. fold ParallelLevelVal. rewrite (eval_ParallelLevelVal _ _ _ lvl) by done.
    reflexivity.
Qed.

(** The dispatch emitted for an orphaned construct: the full three-way
    runtime-guarded chain. *)
Lemma dispatch_orphaned rt :
  IsOrphaned rt = true ->
  emitted_blocks (dispatch rt)
  = [ {| bb_id := 0; bb_name := "entry"; bb_instrs := [];
         bb_term := Some (CondBr (level_predicate AtLevel0) 2 3) |};
      {| bb_id := 2; bb_name := ".level0.parallel";
         bb_instrs := [Call None (Function (region_marker AtLevel0)) []];
         bb_term := Some (Br 1) |};
      {| bb_id := 3; bb_name := ".next.parallel"; bb_instrs := [];
         bb_term := Some (CondBr (level_predicate AtLevel1) 4 5) |};
      {| bb_id := 4; bb_name := ".level1.parallel";
         bb_instrs := [Call None (Function (region_marker AtLevel1)) []];
         bb_term := Some (Br 1) |};
      {| bb_id := 5; bb_name := ".next.parallel"; bb_instrs := [];
         bb_term := Some (CondBr (level_predicate AtSequential) 6 1) |};
      {| bb_id := 6; bb_name := ".sequential.parallel";
         bb_instrs := [Call None (Function (region_marker AtSequential)) []];
         bb_term := Some (Br 1) |};
      {| bb_id := 1; bb_name := ".after.parallel"; bb_instrs := []; bb_term := None |} ].
Proof. destruct rt; cbn; intros ->; reflexivity. Qed.

(** The dispatch emitted when the nesting level is known statically: one
    unguarded block. *)
Lemma dispatch_static rt :
  IsOrphaned rt = false ->
  let pnl := ParallelNestingLevel rt in
  emitted_blocks (dispatch rt)
  = [ {| bb_id := 0; bb_name := "entry"; bb_instrs := []; bb_term := Some (Br 2) |};
      {| bb_id := 2; bb_name := level_block_name (level_of_nesting pnl);
         bb_instrs := [Call None (Function (region_marker (level_of_nesting pnl))) []];
         bb_term := Some (Br 1) |};
      {| bb_id := 1; bb_name := ".after.parallel"; bb_instrs := []; bb_term := None |} ].
Proof.
  destruct rt as [o pnl w wm dm fm cc]; cbn; intros ->.
  destruct pnl as [|[p|p|]|p]; reflexivity.
Qed.

Lemma dispatch_guards rt l :
  level_guard (emitted_blocks (dispatch rt)) l = expected_guard rt l.
Proof.
  unfold expected_guard. destruct (IsOrphaned rt) eqn:Ho.
  - rewrite dispatch_orphaned by done. destruct l; reflexivity.
  - rewrite dispatch_static by done.
    destruct (level_of_nesting (ParallelNestingLevel rt)), l; reflexivity.
Qed.

(** ** Master and team-relative thread ids *)

Lemma land_upper_bound a b : 0 <= b -> 0 <= Z.land a b <= b.
Proof.
  intros Hb. split; [apply Z.land_nonneg; by right|].
  assert (Hsum : Z.land a b + Z.ldiff b a = b).
  { rewrite <- Z.add_lor_land.
    assert (Z.land (Z.land a b) (Z.ldiff b a) = 0) as ->.
    { apply Z.bits_inj'. intros n Hn.
      rewrite !Z.land_spec, Z.ldiff_spec, Z.bits_0.
      destruct (Z.testbit a n), (Z.testbit b n); reflexivity. }
    rewrite Z.add_0_r. apply Z.bits_inj'. intros n Hn.
    rewrite Z.lor_spec, Z.land_spec, Z.ldiff_spec.
    destruct (Z.testbit a n), (Z.testbit b n); reflexivity. }
  assert (0 <= Z.ldiff b a) by (apply Z.ldiff_nonneg; by left).
  lia.
Qed.

Lemma wrap32_small z : 0 <= z < 2 ^ 32 -> wrap32 z = z.
Proof. intros H. unfold wrap32. by apply Z.mod_small. Qed.

Lemma master_tid_formula L k :
  warpsize L = 2 ^ k -> 0 <= k < 32 -> 1 <= ntid_x L < 2 ^ 32 ->
  master_tid L = Z.land (ntid_x L - 1) (Z.lnot (warpsize L - 1)) /\
  master_tid L = warpsize L * ((ntid_x L - 1) / warpsize L).
Proof.
  intros HW Hk HN. unfold master_tid.
  assert (0 < 2 ^ k) by (apply Z.pow_pos_nonneg; lia).
  assert (2 ^ k < 2 ^ 32) by (apply Z.pow_lt_mono_r; lia).
  rewrite (wrap32_small (ntid_x L - 1)) by lia.
  rewrite (wrap32_small (warpsize L - 1)) by lia.
  rewrite land_wrap32_r by lia.
  split; [reflexivity|]. rewrite HW. apply land_lnot_pow2. lia.
Qed.

(** C3: with a power-of-two lane-group size W and N threads per block, the
    generated master thread id is (N-1) & ~(W-1), the first lane of the last
    group, and the generated team-relative thread id is
    threadId & (MasterThreadId - 1), which is always below the master thread
    id, hence outside the master group; for N = 128 and W = 32 the master is
    thread 96 and the team-relative id of thread 70 is 70. *)
Theorem C3_master_and_team_thread_id :
  (forall L rg m k,
     warpsize L = 2 ^ k -> 0 <= k < 32 ->
     1 <= ntid_x L < 2 ^ 32 -> 0 <= tid_x L < 2 ^ 32 ->
     let N := ntid_x L in
     let W := warpsize L in
     let M := Z.land (N - 1) (Z.lnot (W - 1)) in
     eval L rg m getMasterThreadID = Some (RInt M) /\
     M = W * ((N - 1) / W) /\
     (W < N ->
      eval L rg m getTeamThreadId = Some (RInt (Z.land (tid_x L) (M - 1))) /\
      0 <= Z.land (tid_x L) (M - 1) < M)) /\
  eval lane_70_of_128 (fun _ => None) (fun _ => None) getMasterThreadID = Some (RInt 96) /\
  eval lane_70_of_128 (fun _ => None) (fun _ => None) getTeamThreadId = Some (RInt 70).
Proof.
  split; [|split; reflexivity].
  intros L rg m k HW Hk HN Ht N W M.
  destruct (master_tid_formula L k HW Hk HN) as [HM1 HM2].
  fold N W in HM1, HM2. fold M in HM1. rewrite HM1 in HM2.
  split; [rewrite eval_getMasterThreadID; by rewrite HM1|].
  split; [exact HM2|].
  intros HWN.
  assert (HWpos : 0 < W) by (unfold W; rewrite HW; apply Z.pow_pos_nonneg; lia).
  assert (HM : 1 <= M).
  { rewrite HM2. assert (1 <= (N - 1) / W); [|nia].
    apply Z.div_le_lower_bound; lia. }
  unfold getTeamThreadId. cbn [eval]. rewrite eval_getMasterThreadID, HM1.
  cbn [getNVPTXThreadID eval read_sreg eval_binop fmap option_fmap option_map].
  destruct (Z.ltb_spec M 1); [lia|]. cbn.
  split; [reflexivity|].
  pose proof (land_upper_bound (tid_x L) (M - 1)). lia.
Qed.

Lemma C3_witness :
  eval lane_70_of_128 (fun _ => None) (fun _ => None) getMasterThreadID
  = Some (RInt (Z.land (128 - 1) (Z.lnot (32 - 1)))).
Proof.
  apply (proj1 C3_master_and_team_thread_id lane_70_of_128 (fun _ => None) (fun _ => None) 5);
    [reflexivity | lia | cbn; lia | cbn; lia].
Defined.

(** ** Active lanes of a warp *)

Lemma warp_mask_is_31 : DS_Max_Worker_Warp_Size_Log2_Mask = Z.ones 5.
Proof. reflexivity. Qed.

Lemma popc_bits_O z : popc_bits 0 z = 0.
Proof. reflexivity. Qed.

Lemma popc_bits_S n z :
  popc_bits (S n) z = (if Z.testbit z (Z.of_nat n) then 1 else 0) + popc_bits n z.
Proof. reflexivity. Qed.

Lemma popc_bits_nonneg n z : 0 <= popc_bits n z.
Proof.
  induction n as [|n IH]; [rewrite popc_bits_O; lia|].
  rewrite popc_bits_S. destruct (Z.testbit _ _); lia.
Qed.

Lemma popc_bits_mono n k z : popc_bits n z <= popc_bits (n + k) z.
Proof.
  induction k as [|k IH]; [by rewrite Nat.add_0_r|].
  rewrite Nat.add_succ_r, popc_bits_S. destruct (Z.testbit _ _); lia.
Qed.

Lemma popc_bits_zero n z :
  popc_bits n z = 0 <-> forall i, 0 <= i < Z.of_nat n -> Z.testbit z i = false.
Proof.
  induction n as [|n IH]; [rewrite popc_bits_O | rewrite popc_bits_S].
  - split; [intros _ i Hi; lia | done].
  - pose proof (popc_bits_nonneg n z). split.
    + intros H0 i Hi. destruct (Z.testbit z (Z.of_nat n)) eqn:Hb; [lia|].
      destruct (Z.eq_dec i (Z.of_nat n)) as [->|]; [exact Hb|].
      apply IH; lia.
    + intros Hall. rewrite (Hall (Z.of_nat n)) by lia.
      apply IH. intros i Hi. apply Hall. lia.
Qed.

Lemma testbit_wrap32_shiftl mask s i :
  0 <= s -> 0 <= i < 32 ->
  Z.testbit (wrap32 (Z.shiftl mask s)) i = Z.testbit mask (i - s).
Proof.
  intros Hs Hi. unfold wrap32.
  rewrite Z.mod_pow2_bits_low by lia. apply Z.shiftl_spec. lia.
Qed.

Lemma popc_bits_shifted_low mask s n :
  (n <= s)%nat -> (s <= 32)%nat ->
  popc_bits n (wrap32 (Z.shiftl mask (Z.of_nat s))) = 0.
Proof.
  intros Hn Hs. apply popc_bits_zero. intros i Hi.
  rewrite testbit_wrap32_shiftl by lia. apply Z.testbit_neg_r. lia.
Qed.

Lemma popc_bits_shifted mask s k :
  (s + k <= 32)%nat ->
  popc_bits (s + k) (wrap32 (Z.shiftl mask (Z.of_nat s))) = popc_bits k mask.
Proof.
  induction k as [|k IH]; intros Hk.
  - rewrite Nat.add_0_r. apply popc_bits_shifted_low; lia.
  - rewrite Nat.add_succ_r, !popc_bits_S. rewrite IH by lia.
    rewrite testbit_wrap32_shiftl by lia.
    replace (Z.of_nat (s + k) - Z.of_nat s) with (Z.of_nat k) by lia. reflexivity.
Qed.

Lemma lane_id_bounds L : 0 <= lane_id L < 32.
Proof. unfold lane_id. change DS_Max_Worker_Warp_Size with 32. apply Z.mod_pos_bound. lia. Qed.

Lemma eval_lane_id L rg m :
  eval L rg m getNVPTXThreadWarpID = Some (RInt (lane_id L)).
Proof.
  unfold getNVPTXThreadWarpID, getNVPTXThreadID, lane_id.
  cbn [eval read_sreg eval_binop fmap option_fmap option_map].
  by rewrite warp_mask_is_31, Z.land_ones by lia.
Qed.

(** The value of popc(Mask << (32 - laneId)). *)
Lemma popc_of_shifted_mask L mask :
  popc_bits 32 (wrap32 (Z.shiftl mask (wrap32 (32 - lane_id L))))
  = popc_bits (Z.to_nat (lane_id L)) mask.
Proof.
  pose proof (lane_id_bounds L) as Hl.
  rewrite (wrap32_small (32 - lane_id L)) by lia.
  replace (32 - lane_id L) with (Z.of_nat (Z.to_nat (32 - lane_id L))) by lia.
  replace 32%nat with (Z.to_nat (32 - lane_id L) + Z.to_nat (lane_id L))%nat at 1 by lia.
  apply popc_bits_shifted. lia.
Qed.

Lemma shift_in_range_lane L : shift_in_range (32 - lane_id L) = negb (lane_id L =? 0).
Proof.
  pose proof (lane_id_bounds L) as Hl. unfold shift_in_range.
  destruct (Z.eqb_spec (lane_id L) 0) as [->|Hne]; [reflexivity|].
  apply andb_true_intro. split; [apply Z.leb_le | apply Z.ltb_lt]; lia.
Qed.

(** The value of the id among the active threads: none for lane 0, whose
    shift amount is 32. *)
Lemma eval_active_thread_id L rg m id mask :
  rg id = Some (RInt mask) ->
  eval L rg m (Popc (BinOp OpShl (CallResult id)
                       (BinOp OpSub (ConstantInt 32) getNVPTXThreadWarpID)))
  = if lane_id L =? 0 then None
    else Some (RInt (popc_bits (Z.to_nat (lane_id L)) mask)).
Proof.
  intros Hrg. pose proof (lane_id_bounds L) as Hl.
  cbn [eval]. rewrite eval_lane_id, Hrg.
  cbn [eval_binop fmap option_fmap option_map].
  rewrite (wrap32_small (32 - lane_id L)) by lia.
  rewrite shift_in_range_lane.
  destruct (lane_id L =? 0); [reflexivity|].
  cbn [negb fmap option_fmap option_map].
  rewrite <- (wrap32_small (32 - lane_id L)) at 1 by lia.
  by rewrite popc_of_shifted_mask.
Qed.

Lemma is_warp_active_master_eq L mask :
  is_warp_active_master L mask = (popc_bits (Z.to_nat (lane_id L)) mask =? 0).
Proof.
  unfold is_warp_active_master.
  rewrite warp_mask_is_31, Z.land_ones by lia.
  change (tid_x L mod 2 ^ 5) with (lane_id L).
  by rewrite popc_of_shifted_mask.
Qed.

(** The value of the test for the active master of the warp. *)
Lemma eval_is_warp_active_master L rg m id mask :
  rg id = Some (RInt mask) ->
  eval L rg m (ICmp ICMP_EQ
                 (Popc (BinOp OpShl (CallResult id)
                          (BinOp OpSub (ConstantInt 32) getNVPTXThreadWarpID)))
                 (ConstantInt 0))
  = if lane_id L =? 0 then None
    else Some (RInt (bool_to_Z (is_warp_active_master L mask))).
Proof.
  intros Hrg.
  change (eval L rg m (ICmp ICMP_EQ ?a ?b))
    with (match eval L rg m a, eval L rg m b with
          | Some x, Some y => eval_icmp ICMP_EQ x y
          | _, _ => None
          end).
  rewrite (eval_active_thread_id L rg m id mask Hrg).
  destruct (lane_id L =? 0); [reflexivity|].
  cbn [eval eval_icmp]. rewrite bool_decide_RInt, is_warp_active_master_eq. reflexivity.
Qed.

(** ** Kernel entry *)

Lemma createKernelInitializerFunction_blocks W gs rt :
  fn_blocks <$> generated (createKernelInitializerFunction W) gs rt
  = Some (initializer_blocks W).
Proof. reflexivity. Qed.

Lemma sample_kernel_functions :
  (fun K => (fn_blocks (k_entry K), fn_name (k_worker K), fn_blocks (k_init K)))
    <$> sample_kernel
  = Some (sample_entry_blocks, sample_worker_name, initializer_blocks sample_worker_name).
Proof. reflexivity. Qed.

Lemma initializer_run W L s mask rest :
  script s = RespActiveMask mask :: rest ->
  (kernel_role L = Worker -> lane_id L <> 0) ->
  exists s',
    steps 6 (initializer_blocks W) L (At 0 s)
    = Returned (Some (RInt (initializer_result L))) s' /\
    trace s' = trace s ++ initializer_events W L mask /\
    script s' = match kernel_role L with Worker => rest | _ => script s end.
Proof.
  intros Hsc Hlane. unfold initializer_result, initializer_events.
  unfold kernel_role in *.
  set (F := initializer_blocks W).
  run_block. cbn [bb_term].
  erewrite exec_term_condbr; [|cbn; reflexivity]. fold (thread_limit L).
  destruct (tid_x L <? thread_limit L).
  { specialize (Hlane eq_refl). run_block_with Hsc. cbn [bb_term].
    erewrite exec_term_condbr.
    2:{ etransitivity;
          [exact (eval_is_warp_active_master L _ _ 1%nat mask (set_reg_eq _ _ _))|].
        destruct (Z.eqb_spec (lane_id L) 0); [contradiction|reflexivity]. }
    destruct (is_warp_active_master L mask).
    - run_block. cbn [bb_term exec_term]. run_block. cbn [bb_term exec_term].
      run_block. cbn [bb_term exec_term eval]. rewrite ?mem_store_eq, ?steps_Returned.
      eexists. split; [reflexivity|]. cbn.
      split; [|reflexivity]. rewrite <- !app_assoc. reflexivity.
    - run_block. cbn [bb_term exec_term].
      run_block. cbn [bb_term exec_term eval]. rewrite ?mem_store_eq, ?steps_Returned.
      eexists. split; [reflexivity|]. cbn.
      split; [|reflexivity]. rewrite <- !app_assoc. reflexivity. }
  run_block. cbn [bb_term].
  erewrite exec_term_condbr; [|cbn; rewrite bool_decide_RInt; reflexivity].
  fold (master_tid L).
  destruct (tid_x L =? master_tid L).
  - run_block. cbn [bb_term exec_term]. run_block. cbn [bb_term exec_term].
    run_block. cbn [bb_term exec_term eval]. rewrite ?mem_store_eq, ?steps_Returned.
    eexists. split; [reflexivity|]. cbn.
    split; reflexivity.
  - run_block. cbn [bb_term exec_term eval]. rewrite ?mem_store_eq, ?steps_Returned.
    eexists. split; [reflexivity|]. cbn.
    split; [|reflexivity]. by rewrite app_nil_r.
Qed.

Lemma initializer_events_call_worker W L mask :
  calls_function W (initializer_events W L mask) = true <-> kernel_role L = Worker.
Proof.
  unfold initializer_events. destruct (kernel_role L); cbn.
  - destruct (is_warp_active_master L mask); cbn; rewrite String.eqb_refl; done.
  - done.
  - done.
Qed.

Lemma entry_run L s r rest :
  script s = RespReturn (RInt r) :: rest ->
  exists s',
    steps 4 sample_entry_blocks L (At 0 s) = Returned None s' /\
    trace s' = trace s ++ [EvCall (Function kernel_initialization_name) []] ++
               (if r =? 0 then master_events L else []).
Proof.
  intros Hsc. set (F := sample_entry_blocks).
  run_block_with Hsc. cbn [bb_term].
  erewrite exec_term_condbr; [|cbn; rewrite bool_decide_RInt; reflexivity].
  destruct (r =? 0).
  - run_block. cbn [bb_term exec_term]. run_block. cbn [bb_term exec_term].
    run_block. cbn [bb_term exec_term]. eexists. split; [reflexivity|].
    cbn. rewrite <- !app_assoc. reflexivity.
  - run_block. cbn [bb_term exec_term]. rewrite steps_Returned.
    eexists. split; [reflexivity|]. reflexivity.
Qed.

Lemma thread_limit_is_master L k :
  warpsize L = 2 ^ k -> 0 <= k < 32 -> warpsize L <= ntid_x L < 2 ^ 32 ->
  thread_limit L <= master_tid L < ntid_x L /\
  ((warpsize L | ntid_x L) -> thread_limit L = master_tid L).
Proof.
  intros HW Hk HN.
  assert (HWpos : 0 < warpsize L) by (rewrite HW; apply Z.pow_pos_nonneg; lia).
  destruct (master_tid_formula L k HW Hk) as [_ HM]; [lia|].
  unfold thread_limit. rewrite wrap32_small by lia. rewrite HM.
  pose proof (Z.div_mod (ntid_x L - 1) (warpsize L)) as Hdm.
  pose proof (Z.mod_pos_bound (ntid_x L - 1) (warpsize L) HWpos) as Hb.
  split; [lia|].
  intros [q Hq].
  assert ((ntid_x L - 1) / warpsize L = q - 1); [|lia].
  symmetry. apply (Z.div_unique _ _ _ (warpsize L - 1)); lia.
Qed.

(** ** Evaluating the generator on explicit states *)

Lemma bind_modifyCGF {B} f (k : unit -> Gen B) gs rt c :
  (modifyCGF f ≫= k) {| Globals := gs; RT := rt; CGF := c |}
  = k tt {| Globals := gs; RT := rt; CGF := f c |}.
Proof. reflexivity. Qed.

Lemma bind_createBasicBlock {B} name (k : BlockRef -> Gen B) gs rt cf bs ip nb nv rv :
  (createBasicBlock name ≫= k)
    {| Globals := gs; RT := rt;
       CGF := {| CurFn := cf; Blocks := bs; InsertPoint := ip; NextBlockId := nb;
                 NextValueId := nv; ReturnValue := rv |} |}
  = k (nb, name)
      {| Globals := gs; RT := rt;
         CGF := {| CurFn := cf; Blocks := bs; InsertPoint := ip; NextBlockId := S nb;
                   NextValueId := nv; ReturnValue := rv |} |}.
Proof. reflexivity. Qed.

Lemma bind_assoc {A B C} (c : Gen A) (f : A -> Gen B) (g : B -> Gen C) st :
  ((c ≫= f) ≫= g) st = (c ≫= (fun a => f a ≫= g)) st.
Proof.
  unfold mbind, Gen_bind, gen_bind. destruct (c st) as [[a st']|]; reflexivity.
Qed.

Lemma bind_mret {B} (k : unit -> Gen B) st : (mret tt ≫= k) st = k tt st.
Proof. reflexivity. Qed.

Lemma bind_EmitBranch {B} target (k : unit -> Gen B) gs rt c :
  (EmitBranch target ≫= k) {| Globals := gs; RT := rt; CGF := c |}
  = k tt {| Globals := gs; RT := rt; CGF := emitBranch target c |}.
Proof. reflexivity. Qed.

Lemma bind_EmitBlock {B} BB (k : unit -> Gen B) gs rt c :
  (EmitBlock BB ≫= k) {| Globals := gs; RT := rt; CGF := c |}
  = k tt {| Globals := gs; RT := rt; CGF := placeBlock BB (emitBranch BB c) |}.
Proof. reflexivity. Qed.

Lemma EmitBlock_eq BB gs rt c :
  EmitBlock BB {| Globals := gs; RT := rt; CGF := c |}
  = Ok (tt, {| Globals := gs; RT := rt; CGF := placeBlock BB (emitBranch BB c) |}).
Proof. reflexivity. Qed.

Lemma bind_emit {B} i (k : unit -> Gen B) gs rt c :
  (emit i ≫= k) {| Globals := gs; RT := rt; CGF := c |}
  = k tt {| Globals := gs; RT := rt; CGF := emitInstr i c |}.
Proof. reflexivity. Qed.

Lemma bind_EmitVoidCall {B} callee args (k : unit -> Gen B) gs rt c :
  (EmitVoidCall callee args ≫= k) {| Globals := gs; RT := rt; CGF := c |}
  = k tt {| Globals := gs; RT := rt; CGF := emitInstr (Call None callee args) c |}.
Proof. reflexivity. Qed.

Lemma bind_EmitCallOrInvoke {B} Fn args (k : unit -> Gen B) gs rt c :
  (EmitCallOrInvoke Fn args ≫= k) {| Globals := gs; RT := rt; CGF := c |}
  = k tt {| Globals := gs; RT := rt; CGF := emitInstr (Call None (Function Fn) args) c |}.
Proof. reflexivity. Qed.

Lemma bind_syncCTAThreads {B} (k : unit -> Gen B) gs rt c :
  (syncCTAThreads ≫= k) {| Globals := gs; RT := rt; CGF := c |}
  = k tt {| Globals := gs; RT := rt; CGF := emitInstr (Call None nvvm_barrier0 []) c |}.
Proof. reflexivity. Qed.

Lemma bind_CreateCondBr {B} cond t f (k : unit -> Gen B) gs rt c :
  (CreateCondBr cond t f ≫= k) {| Globals := gs; RT := rt; CGF := c |}
  = k tt {| Globals := gs; RT := rt; CGF := setTerminator (CondBr cond (fst t) (fst f)) c |}.
Proof. reflexivity. Qed.

Lemma update_block_app id f l1 l2 :
  update_block id f (l1 ++ l2) = update_block id f l1 ++ update_block id f l2.
Proof. unfold update_block. apply map_app. Qed.

Lemma update_block_absent id f l :
  Forall (fun b => bb_id b <> id) l -> update_block id f l = l.
Proof.
  induction 1 as [|b l Hb _ IH]; [done|]. cbn.
  destruct (Nat.eqb_spec (bb_id b) id); [done|]. by rewrite <- IH at 2.
Qed.

Lemma update_block_last id f pre B :
  Forall (fun b => bb_id b <> id) pre -> bb_id B = id ->
  update_block id f (pre ++ [B]) = pre ++ [f B].
Proof.
  intros H <-. rewrite update_block_app, update_block_absent by done.
  cbn. by rewrite Nat.eqb_refl.
Qed.

Lemma find_block_app_absent id l1 l2 :
  Forall (fun b => bb_id b <> id) l1 -> find_block (l1 ++ l2) id = find_block l2 id.
Proof.
  induction 1 as [|b l Hb _ IH]; [done|]. cbn.
  destruct (Nat.eqb_spec (bb_id b) id); [done|]. exact IH.
Qed.

Lemma find_block_head b l id :
  bb_id b = id -> find_block (b :: l) id = Some b.
Proof. intros <-. cbn. by rewrite Nat.eqb_refl. Qed.

Lemma find_block_tail b l id :
  bb_id b <> id -> find_block (b :: l) id = find_block l id.
Proof. intros H. cbn. by destruct (Nat.eqb_spec (bb_id b) id). Qed.

Lemma find_block_last id pre B :
  Forall (fun b => bb_id b <> id) pre -> bb_id B = id ->
  find_block (pre ++ [B]) id = Some B.
Proof.
  intros H Hid. rewrite find_block_app_absent by done. by apply find_block_head.
Qed.

Section EmitterOnLastBlock.
Context (cf : string) (pre : list BasicBlock) (B : BasicBlock) (id nb nv : nat)
        (rv : option Value).
Hypothesis Hpre : Forall (fun b => bb_id b <> id) pre.
Hypothesis Hid : bb_id B = id.

Let here (b : BasicBlock) (ip : option nat) : CodeGenFunction :=
  {| CurFn := cf; Blocks := pre ++ [b]; InsertPoint := ip; NextBlockId := nb;
     NextValueId := nv; ReturnValue := rv |}.

Lemma emitInstr_last i :
  emitInstr i (here B (Some id)) = here (append_instr i B) (Some id).
Proof.
  unfold emitInstr, here, with_blocks. cbn [InsertPoint Blocks CurFn NextBlockId NextValueId ReturnValue]. by rewrite update_block_last.
Qed.

Lemma setTerminator_last t :
  setTerminator t (here B (Some id)) = here (set_term t B) (Some id).
Proof.
  unfold setTerminator, here, with_blocks. cbn [InsertPoint Blocks CurFn NextBlockId NextValueId ReturnValue]. by rewrite update_block_last.
Qed.

Lemma emitBranch_last_open target :
  bb_term B = None ->
  emitBranch target (here B (Some id)) = here (set_term (Br (fst target)) B) None.
Proof.
  intros Ht. unfold emitBranch, terminated, setTerminator, here, with_blocks.
  cbn [InsertPoint Blocks CurFn NextBlockId NextValueId ReturnValue].
  rewrite find_block_last, Ht by done.
  cbn [InsertPoint Blocks CurFn NextBlockId NextValueId ReturnValue].
  by rewrite update_block_last.
Qed.

Lemma emitBranch_last_closed target t :
  bb_term B = Some t ->
  emitBranch target (here B (Some id)) = here B None.
Proof.
  intros Ht. unfold emitBranch, terminated, here, with_blocks.
  cbn [InsertPoint Blocks CurFn NextBlockId NextValueId ReturnValue].
  by rewrite find_block_last, Ht.
Qed.
End EmitterOnLastBlock.

Lemma emitBranch_no_insert_point target cf bs nb nv rv :
  emitBranch target {| CurFn := cf; Blocks := bs; InsertPoint := None; NextBlockId := nb;
                       NextValueId := nv; ReturnValue := rv |}
  = {| CurFn := cf; Blocks := bs; InsertPoint := None; NextBlockId := nb;
       NextValueId := nv; ReturnValue := rv |}.
Proof. reflexivity. Qed.

Lemma placeBlock_eq BB cf bs ip nb nv rv :
  placeBlock BB {| CurFn := cf; Blocks := bs; InsertPoint := ip; NextBlockId := nb;
                   NextValueId := nv; ReturnValue := rv |}
  = {| CurFn := cf; Blocks := bs ++ [open_block (fst BB) (snd BB)];
       InsertPoint := Some (fst BB); NextBlockId := nb;
       NextValueId := nv; ReturnValue := rv |}.
Proof. reflexivity. Qed.

(** ** The worker loop *)

Lemma work_chain_ids B next final ws :
  Forall (fun b => bb_id b = bb_id B \/ (next <= bb_id b)%nat) (work_chain B next final ws).
Proof.
  revert B next. induction ws as [|W ws IH]; intros B next; cbn [work_chain].
  - constructor; [by left | constructor].
  - constructor; [by left|]. constructor; [right; cbn; lia|].
    eapply Forall_impl; [apply IH|]. cbn. intros b [->|H]; right; lia.
Qed.

Lemma modifyCGF_eq f gs rt c :
  modifyCGF f {| Globals := gs; RT := rt; CGF := c |}
  = Ok (tt, {| Globals := gs; RT := rt; CGF := f c |}).
Proof. reflexivity. Qed.

Lemma match_work_item_eq {A} (k : unit -> Gen A) pre B next W gs rt cf nv rv :
  Forall (fun b => (bb_id b < next)%nat /\ bb_id b <> bb_id B) pre ->
  (bb_id B < next)%nat -> bb_term B = None ->
  (match_work_item WorkFnSlot (4%nat, ".terminate.parallel"%string) W ≫= k)
    {| Globals := gs; RT := rt;
       CGF := {| CurFn := cf; Blocks := pre ++ [B]; InsertPoint := Some (bb_id B);
                 NextBlockId := next; NextValueId := nv; ReturnValue := rv |} |}
  = k tt
      {| Globals := gs; RT := rt;
         CGF := {| CurFn := cf;
                   Blocks := (pre ++ [set_term (CondBr (work_match W) next (S next)) B;
                                      {| bb_id := next; bb_name := ".execute.fn";
                                         bb_instrs := [Call None (Function W) [getMasterThreadID]];
                                         bb_term := Some (Br 4) |}])
                             ++ [open_block (S next) ".check.next"];
                   InsertPoint := Some (S next);
                   NextBlockId := S (S next); NextValueId := nv; ReturnValue := rv |} |}.
Proof.
  intros Hpre HB Hterm.
  assert (Hne : Forall (fun b => bb_id b <> bb_id B) pre)
    by (eapply Forall_impl; [exact Hpre|]; cbn; tauto).
  assert (Hnext : Forall (fun b => bb_id b <> next) pre)
    by (eapply Forall_impl; [exact Hpre|]; cbn; lia).
  unfold match_work_item.
  rewrite bind_assoc, bind_createBasicBlock.
  rewrite bind_assoc, bind_createBasicBlock.
  unfold CreateCondBr, set_terminator.
  rewrite bind_assoc, bind_modifyCGF.
  rewrite (setTerminator_last _ _ _ (bb_id B)) by done.
  unfold EmitBlock, EmitBranch.
  rewrite !bind_assoc, bind_modifyCGF.
  erewrite (emitBranch_last_closed _ _ _ (bb_id B)) by done.
  rewrite bind_modifyCGF, placeBlock_eq. cbn [fst snd].
  unfold EmitCallOrInvoke, EmitVoidCall, emit.
  rewrite bind_assoc, bind_modifyCGF.
  rewrite <- app_assoc. cbn [app].
  change (pre ++ ?a :: [?b]) with (pre ++ [a] ++ [b]). rewrite app_assoc.
  rewrite (emitInstr_last _ _ _ next);
    [| apply Forall_app; split; [exact Hnext | constructor; [cbn; lia | constructor]] | reflexivity].
  rewrite bind_assoc, bind_modifyCGF.
  rewrite (emitBranch_last_open _ _ _ next);
    [| apply Forall_app; split; [exact Hnext | constructor; [cbn; lia | constructor]]
     | reflexivity | reflexivity].
  rewrite bind_assoc, bind_modifyCGF, emitBranch_no_insert_point.
  rewrite bind_modifyCGF, placeBlock_eq. cbn [fst snd].
  rewrite <- !app_assoc. reflexivity.
Qed.

Lemma work_loop_blocks pre B next ws gs rt cf nv rv :
  Forall (fun b => (bb_id b < next)%nat /\ bb_id b <> bb_id B) pre ->
  (bb_id B < next)%nat -> bb_term B = None ->
  (gen_for ws (match_work_item WorkFnSlot (4%nat, ".terminate.parallel"%string));;
   EmitBranch (4%nat, ".terminate.parallel"%string))
    {| Globals := gs; RT := rt;
       CGF := {| CurFn := cf; Blocks := pre ++ [B]; InsertPoint := Some (bb_id B);
                 NextBlockId := next; NextValueId := nv; ReturnValue := rv |} |}
  = Ok (tt, {| Globals := gs; RT := rt;
               CGF := {| CurFn := cf;
                         Blocks := pre ++ work_chain B next (Some (Br 4)) ws;
                         InsertPoint := None;
                         NextBlockId := (next + 2 * length ws)%nat;
                         NextValueId := nv; ReturnValue := rv |} |}).
Proof.
  revert pre B next. induction ws as [|W ws IH]; intros pre B next Hpre HB Hterm.
  - assert (Hne : Forall (fun b => bb_id b <> bb_id B) pre)
      by (eapply Forall_impl; [exact Hpre|]; cbn; tauto).
    cbn [gen_for work_chain length]. rewrite bind_mret. unfold EmitBranch.
    rewrite modifyCGF_eq, (emitBranch_last_open _ _ _ (bb_id B)) by done.
    rewrite Nat.mul_0_r, Nat.add_0_r. destruct B; reflexivity.
  - cbn [gen_for work_chain length]. rewrite bind_assoc.
    rewrite match_work_item_eq by done.
    rewrite (IH _ (open_block (S next) ".check.next") (S (S next)));
      [ | | cbn; lia | reflexivity ].
    + rewrite <- !app_assoc. cbn [app].
      replace (next + 2 * S (length ws))%nat with (S (S next) + 2 * length ws)%nat by lia.
      reflexivity.
    + apply Forall_app; split.
      * eapply Forall_impl; [exact Hpre|]. intros b [? ?]. cbn. lia.
      * constructor; [cbn; lia|]. constructor; [cbn; lia | constructor].
Qed.


Lemma bind_Ok {A B} (c : Gen A) (k : A -> Gen B) st a st' :
  c st = Ok (a, st') -> (c ≫= k) st = k a st'.
Proof. intros H. unfold mbind, Gen_bind, gen_bind. by rewrite H. Qed.

Lemma bind_AssertionFailed {A B} (c : Gen A) (k : A -> Gen B) st msg :
  c st = AssertionFailed msg -> (c ≫= k) st = AssertionFailed msg.
Proof. intros H. unfold mbind, Gen_bind, gen_bind. by rewrite H. Qed.

Lemma bind_regroup {A B C} (c : Gen A) (k1 : Gen B) (k2 : Gen C) (k3 : Gen unit) st :
  (c ≫= fun _ => ((k1 ≫= fun _ => k2) ≫= fun _ => k3)) st
  = ((c ≫= fun _ => k1) ≫= fun _ => (k2 ≫= fun _ => k3)) st.
Proof.
  unfold mbind, Gen_bind, gen_bind.
  destruct (c st) as [[a s1]|]; [|reflexivity].
  destruct (k1 s1) as [[b s2]|]; reflexivity.
Qed.

Lemma emitWorkerLoop_unfold gs rt cf :
  emitWorkerLoop {| Globals := gs; RT := rt; CGF := StartFunction cf false |}
  = (gen_for (Work rt) (match_work_item WorkFnSlot (4%nat, ".terminate.parallel"%string));;
     ((EmitBranch (4%nat, ".terminate.parallel"%string);;
       modifyCGF (placeBlock (4%nat, ".terminate.parallel"%string)));;
      (EmitVoidCall (RuntimeFunction OMPRTL_NVPTX__kmpc_kernel_end_parallel) [];;
       EmitBranch (5%nat, ".barrier.parallel"%string);;
       EmitBlock (5%nat, ".barrier.parallel"%string);;
       syncCTAThreads;;
       EmitBranch (1%nat, ".await.work"%string);;
       EmitBlock (6%nat, ".exit"%string))))
      {| Globals := gs; RT := rt;
         CGF := {| CurFn := cf;
                   Blocks := firstn 3 (worker_blocks []) ++ [open_block 3 ".execute.parallel"];
                   InsertPoint := Some 3%nat; NextBlockId := 7; NextValueId := 3;
                   ReturnValue := None |} |}.
Proof. reflexivity. Qed.

Lemma worker_prefix_absent id final ws :
  (4 <= id <= 6)%nat ->
  Forall (fun b => bb_id b <> id)
    (firstn 3 (worker_blocks []) ++
     work_chain (open_block 3 ".execute.parallel") 7 final ws).
Proof.
  intros Hid. apply Forall_app. split.
  - cbn. repeat constructor; cbn; lia.
  - eapply Forall_impl; [apply work_chain_ids|]. cbn. intros b [->|H]; lia.
Qed.

Lemma emitWorkerLoop_eq gs rt cf :
  emitWorkerLoop {| Globals := gs; RT := rt; CGF := StartFunction cf false |}
  = Ok (tt, {| Globals := gs; RT := rt;
               CGF := {| CurFn := cf; Blocks := worker_blocks_open (Work rt);
                         InsertPoint := Some 6%nat;
                         NextBlockId := (7 + 2 * length (Work rt))%nat;
                         NextValueId := 3; ReturnValue := None |} |}).
Proof.
  rewrite emitWorkerLoop_unfold, bind_regroup.
  erewrite bind_Ok;
    [| apply work_loop_blocks; [cbn; repeat constructor; cbn; lia | cbn; lia | reflexivity]].
  unfold worker_blocks_open.
  set (P := firstn 3 (worker_blocks []) ++
            work_chain (open_block 3 ".execute.parallel") 7 (Some (Br 4)) (Work rt)).
  assert (HP : forall id, (4 <= id <= 6)%nat -> Forall (fun b => bb_id b <> id) P)
    by (intros; by apply worker_prefix_absent).
  rewrite bind_modifyCGF, placeBlock_eq. cbn [fst snd].
  rewrite bind_EmitVoidCall, (emitInstr_last _ _ _ 4%nat) by (try apply HP; (lia || done)).
  rewrite bind_EmitBranch, (emitBranch_last_open _ _ _ 4%nat) by (try apply HP; (lia || done)).
  rewrite bind_EmitBlock, emitBranch_no_insert_point, placeBlock_eq. cbn [fst snd].
  assert (HP5 : Forall (fun b => bb_id b <> 5%nat)
                  (P ++ [set_term (Br 5)
                           (append_instr
                              (Call None (RuntimeFunction OMPRTL_NVPTX__kmpc_kernel_end_parallel) [])
                              (open_block 4 ".terminate.parallel"))])).
  { apply Forall_app; split; [apply HP; lia | repeat constructor; cbn; lia]. }
  rewrite bind_syncCTAThreads, (emitInstr_last _ _ _ 5%nat) by done.
  rewrite bind_EmitBranch, (emitBranch_last_open _ _ _ 5%nat) by done.
  rewrite EmitBlock_eq, emitBranch_no_insert_point, placeBlock_eq. cbn [fst snd].
  subst P. rewrite <- !app_assoc. reflexivity.
Qed.

Lemma worker_blocks_finish ws :
  update_block 6 (set_term (Ret None)) (worker_blocks_open ws) = worker_blocks ws.
Proof.
  unfold worker_blocks_open, worker_blocks.
  rewrite app_assoc, update_block_app.
  rewrite update_block_absent by (apply worker_prefix_absent; lia).
  rewrite <- app_assoc. reflexivity.
Qed.

Lemma find_exit_open ws :
  find_block (worker_blocks_open ws) 6 = Some (open_block 6 ".exit").
Proof.
  unfold worker_blocks_open. rewrite app_assoc, find_block_app_absent; [reflexivity|].
  apply worker_prefix_absent; lia.
Qed.

Lemma emitWorkerFunction_blocks name gs rt :
  fn_blocks <$> generated (emitWorkerFunction name) gs rt = Some (worker_blocks (Work rt)).
Proof.
  unfold generated, emitWorkerFunction, generateFunction, start_state.
  unfold getCGF at 1. rewrite (bind_Ok _ _ _ _ _ eq_refl).
  unfold setCGF at 1. rewrite (bind_Ok _ _ _ _ _ eq_refl).
  cbn [Globals RT CGF].
  rewrite (bind_Ok _ _ _ _ _ (emitWorkerLoop_eq gs rt name)).
  unfold FinishFunction, getCGF at 1. rewrite bind_assoc, (bind_Ok _ _ _ _ _ eq_refl).
  cbn [CGF]. unfold terminated. cbn [InsertPoint Blocks]. rewrite find_exit_open.
  cbn [bb_term open_block]. unfold set_terminator. 
  rewrite bind_modifyCGF. unfold setTerminator, with_blocks. cbn [InsertPoint Blocks].
  rewrite worker_blocks_finish. reflexivity.
Qed.

Lemma eval_work_match L rg m W fn :
  m (StackSlot 0) = Some fn ->
  eval L rg m (work_match W) = Some (RInt (bool_to_Z (bool_decide (fn = RFn W)))).
Proof. intros Hm. cbn. by rewrite Hm. Qed.

Lemma matched_work_cons_ne fn W ws :
  fn <> RFn W -> matched_work fn (W :: ws) = matched_work fn ws.
Proof.
  intros Hne. destruct fn as [z|a|p|]; try reflexivity. cbn.
  assert (p <> W) by congruence.
  apply (f_equal (fun b : bool => if b then [p] else [])).
  apply bool_decide_ext. rewrite elem_of_cons. tauto.
Qed.

Lemma add_events_nil s : add_events s [] = s.
Proof. unfold add_events. rewrite app_nil_r. by destruct s. Qed.

Lemma chain_run pre B next ws post L s fn :
  Forall (fun b => bb_id b <> bb_id B /\ (bb_id b < next)%nat) pre ->
  (bb_id B < next)%nat -> bb_instrs B = [] ->
  mem s (StackSlot 0) = Some fn ->
  exists n,
    steps n (pre ++ work_chain B next (Some (Br 4)) ws ++ post) L (At (bb_id B) s)
    = At 4 (add_events s ((fun p => EvCall (Function p) [RInt (master_tid L)])
                            <$> matched_work fn ws)).
Proof.
  revert pre B next. induction ws as [|W ws IH]; intros pre B next Hpre HB Hinstrs Hmem.
  - exists 1%nat. cbn [steps work_chain].
    erewrite step_block;
      [ | rewrite find_block_app_absent;
          [apply find_block_head; reflexivity
          | eapply Forall_impl; [exact Hpre|]; cbn; tauto]
        | cbn [bb_instrs]; rewrite Hinstrs; reflexivity ].
    cbn [bb_term exec_term]. unfold matched_work.
    destruct fn; cbn [fmap list_fmap]; by rewrite add_events_nil.
  - cbn [work_chain].
    set (B1 := set_term (CondBr (work_match W) next (S next)) B).
    set (Bx := {| bb_id := next; bb_name := ".execute.fn";
                  bb_instrs := [Call None (Function W) [getMasterThreadID]];
                  bb_term := Some (Br 4) |}).
    set (rest := work_chain (open_block (S next) ".check.next") (S (S next)) (Some (Br 4)) ws).
    assert (Hne : Forall (fun b => bb_id b <> bb_id B) pre)
      by (eapply Forall_impl; [exact Hpre|]; cbn; tauto).
    assert (Hnx : Forall (fun b => bb_id b <> next) pre)
      by (eapply Forall_impl; [exact Hpre|]; cbn; lia).
    assert (Hfind1 : find_block (pre ++ (B1 :: Bx :: rest) ++ post) (bb_id B) = Some B1).
    { rewrite find_block_app_absent by done. by apply find_block_head. }
    assert (Hfind2 : find_block (pre ++ (B1 :: Bx :: rest) ++ post) next = Some Bx).
    { rewrite find_block_app_absent by done. cbn [app].
      rewrite find_block_tail by (cbn; lia). by apply find_block_head. }
    destruct (decide (fn = RFn W)) as [Heq|Hneq].
    + exists 2%nat. rewrite steps_S.
      erewrite step_block; [ | exact Hfind1 | cbn [bb_instrs B1 set_term]; rewrite Hinstrs; reflexivity ].
      cbn [bb_term B1 set_term].
      erewrite exec_term_condbr by (by apply eval_work_match).
      rewrite bool_decide_eq_true_2 by done.
      rewrite steps_S.
      erewrite step_block; [ | exact Hfind2 | reflexivity ].
      cbn [bb_term Bx exec_term steps]. subst fn. cbn [matched_work].
      rewrite bool_decide_eq_true_2 by (apply elem_of_cons; by left).
      reflexivity.
    + destruct (IH (pre ++ [B1; Bx]) (open_block (S next) ".check.next") (S (S next)))
        as [n Hn]; [ | cbn; lia | reflexivity | exact Hmem | ].
      { apply Forall_app; split.
        - eapply Forall_impl; [exact Hpre|]. intros b [? ?]. cbn. lia.
        - repeat constructor; cbn; lia. }
      exists (S n). rewrite steps_S.
      erewrite step_block; [ | exact Hfind1 | cbn [bb_instrs B1 set_term]; rewrite Hinstrs; reflexivity ].
      cbn [bb_term B1 set_term].
      erewrite exec_term_condbr by (by apply eval_work_match).
      rewrite bool_decide_eq_false_2 by done.
      rewrite matched_work_cons_ne by done.
      rewrite <- Hn. cbn [bb_id open_block]. rewrite <- !app_assoc. reflexivity.
Qed.

Lemma find_worker_block ws id :
  (4 <= id <= 6)%nat ->
  find_block (worker_blocks ws) id = find_block (drop 4 (worker_blocks [])) id.
Proof.
  intros Hid.
  change (worker_blocks ws) with
    (firstn 3 (worker_blocks []) ++
     work_chain (open_block 3 ".execute.parallel") 7 (Some (Br 4)) ws ++
     drop 4 (worker_blocks [])).
  rewrite app_assoc. rewrite find_block_app_absent; [reflexivity|].
  apply (worker_prefix_absent id (Some (Br 4)) ws Hid).
Qed.

Lemma worker_iteration ws L s fn active rest :
  script s = RespKernelParallel fn active :: rest ->
  exists n s',
    steps n (worker_blocks ws) L (At 1 s)
    = (if bool_decide (fn = RNull) then Returned None s' else At 1 s') /\
    trace s' = trace s ++ iteration_events L ws fn active /\
    script s' = rest /\
    (fn = RNull -> n = 2%nat).
Proof.
  intros Hsc. set (F := worker_blocks ws).
  assert (Hawait : exists sa,
    step F L (At 1 s) = At (if bool_decide (fn = RNull) then 6%nat else 2%nat) sa /\
    mem sa (StackSlot 0) = Some fn /\ mem sa (StackSlot 1) = Some (RInt (bool_to_Z active)) /\
    script sa = rest /\
    trace sa = trace s ++ [EvCall nvvm_barrier0 [];
       EvCall (RuntimeFunction OMPRTL_NVPTX__kmpc_kernel_parallel) [RPtr (StackSlot 0)]]).
  { eexists. split.
    - erewrite step_block; [ | reflexivity | cbn; rewrite Hsc; reflexivity ].
      cbn [bb_term]. erewrite exec_term_condbr; [reflexivity|].
      cbn. rewrite mem_store_ne by done. rewrite mem_store_eq. reflexivity.
    - cbn. rewrite mem_store_ne by done. rewrite !mem_store_eq.
      rewrite <- app_assoc. done. }
  destruct Hawait as (sa & Hstep & Hm0 & Hm1 & Hsca & Htra).
  unfold iteration_events.
  destruct (bool_decide (fn = RNull)) eqn:Hnull.
  - exists 2%nat, sa. rewrite !steps_S, Hstep.
    erewrite step_block; [ | unfold F; rewrite find_worker_block by lia; reflexivity | reflexivity ].
    cbn [bb_term exec_term steps]. rewrite app_nil_r. done.
  - assert (Hsel : step F L (At 2 sa) = At (if active then 3%nat else 5%nat) sa).
    { erewrite step_block; [ | reflexivity | reflexivity ].
      cbn [bb_term]. erewrite exec_term_condbr; [reflexivity|].
      cbn. rewrite Hm1. cbn. rewrite bool_decide_RInt. by destruct active. }
    assert (Hbar : forall sb, step F L (At 5 sb) = At 1 (add_events sb [EvCall nvvm_barrier0 []])).
    { intros sb. erewrite step_block;
        [ | unfold F; rewrite find_worker_block by lia; reflexivity | reflexivity ].
      reflexivity. }
    destruct active.
    + destruct (chain_run (firstn 3 (worker_blocks [])) (open_block 3 ".execute.parallel") 7
                  ws (drop 4 (worker_blocks [])) L sa fn) as [n Hn];
        [cbn; repeat constructor; cbn; lia | cbn; lia | reflexivity | exact Hm0 | ].
      change (firstn 3 (worker_blocks []) ++
              work_chain (open_block 3 ".execute.parallel") 7 (Some (Br 4)) ws ++
              drop 4 (worker_blocks [])) with F in Hn.
      cbn [bb_id open_block] in Hn.
      eexists (2 + n + 2)%nat, _. split; [|split; [|split]].
      4: { intros ->. discriminate. }
      * rewrite !steps_add. cbn [steps]. rewrite Hstep, Hsel, Hn.
        erewrite step_block;
          [ | unfold F; rewrite find_worker_block by lia; reflexivity | reflexivity ].
        cbn [bb_term exec_term]. rewrite Hbar. reflexivity.
      * cbn. rewrite Htra, <- !app_assoc. reflexivity.
      * cbn. exact Hsca.
    + eexists 3%nat, _. split; [|split; [|split]].
      4: { intros ->. discriminate. }
      * cbn [steps]. rewrite Hstep, Hsel, Hbar. reflexivity.
      * cbn. rewrite Htra, <- !app_assoc. reflexivity.
      * cbn. exact Hsca.
Qed.

(** ** The dispatch for a statically known level *)

Lemma emitBranch_idem target c : emitBranch target (emitBranch target c) = emitBranch target c.
Proof.
  unfold emitBranch. destruct (terminated c); reflexivity.
Qed.

(** When the construct is not orphaned, the dispatch is the code of the one
    level the static nesting level stands for; the code of the other two
    levels is not generated. *)
Lemma emitParallelismLevelCode_static Level0 Level1 Sequential st :
  IsOrphaned (RT st) = false ->
  let l := level_of_nesting (ParallelNestingLevel (RT st)) in
  emitParallelismLevelCode Level0 Level1 Sequential st
  = static_dispatch l (level_code l Level0 Level1 Sequential) st.
Proof.
  destruct st as [gs rt c]. destruct rt as [o pnl w wm dm fm cc].
  cbn [RT IsOrphaned ParallelNestingLevel]. intros ->.
  unfold emitParallelismLevelCode, static_dispatch.
  unfold getRT at 1. rewrite (bind_Ok _ _ _ _ _ eq_refl). cbn [RT].
  unfold InL0, InL1. cbn [IsOrphaned ParallelNestingLevel negb andb].
  unfold level_of_nesting.
  destruct (Z.eqb_spec pnl 0) as [->|H0]; [|destruct (Z.eqb_spec pnl 1) as [->|H1]];
    cbn [Z.eqb negb andb level_code level_block_name];
    cbv [mbind Gen_bind gen_bind mret Gen_ret gen_ret createBasicBlock EmitBlock EmitBranch
         EmitBlock_opt modifyCGF];
    cbn [CGF Globals RT NextBlockId fst snd].
  - destruct (Level0 _) as [[[] s1]|]; cbn [CGF Globals RT];
      rewrite ?emitBranch_idem; reflexivity.
  - destruct (Level1 _) as [[[] s1]|]; cbn [CGF Globals RT];
      rewrite ?emitBranch_idem; reflexivity.
  - destruct (Sequential _) as [[[] s1]|]; cbn [CGF Globals RT];
      rewrite ?emitBranch_idem; reflexivity.
Qed.

Lemma find_block_app_present id l1 l2 B :
  find_block l1 id = Some B -> find_block (l1 ++ l2) id = Some B.
Proof.
  unfold find_block. induction l1 as [|b l1 IH]; [done|]. cbn.
  destruct (Nat.eqb (bb_id b) id); [done | exact IH].
Qed.

Lemma Forall_update_block id f a bs :
  (forall B, bb_id (f B) = bb_id B) ->
  Forall (fun b => bb_id b <> a) bs ->
  Forall (fun b => bb_id b <> a) (update_block id f bs).
Proof.
  intros Hf H. unfold update_block. induction H as [|b bs Hb _ IH]; [constructor|].
  cbn. constructor; [|exact IH]. destruct (Nat.eqb (bb_id b) id); [by rewrite Hf | done].
Qed.

(** A run that stops at the end of the open block [e] goes on, once the block
    branches to a new block placed after the code, to the end of that
    block. *)
Lemma steps_continue F L e B a name s' : forall n b s,
  find_block F e = Some B -> bb_term B = None ->
  Forall (fun b => bb_id b <> a) F ->
  steps n F L (At b s) = Stopped e s' ->
  steps (S n) (update_block e (set_term (Br a)) F ++ [open_block a name]) L (At b s)
  = Stopped a s'.
Proof.
  intros n b s He Hopen Hfresh.
  set (g := set_term (Br a)).
  set (F' := update_block e g F ++ [open_block a name]).
  assert (Hg : forall B, bb_id (g B) = bb_id B) by done.
  assert (Hfind : forall b Bb,
             find_block F b = Some Bb ->
             find_block F' b = Some (if Nat.eqb (bb_id Bb) e then g Bb else Bb)).
  { intros b0 Bb Hb. unfold F'. apply find_block_app_present.
    rewrite find_block_update_block by done. by rewrite Hb. }
  assert (Ha : find_block F' a = Some (open_block a name)).
  { unfold F'. apply find_block_last; [by apply Forall_update_block | reflexivity]. }
  revert b s. induction n as [|n IH]; intros b s Hrun; [discriminate Hrun|].
  rewrite steps_S in Hrun. rewrite (steps_S (S n)).
  cbn [step] in Hrun. cbn [step].
  destruct (find_block F b) as [Bb|] eqn:Hb; [|by rewrite steps_Fault in Hrun].
  rewrite (Hfind _ _ Hb).
  destruct (Nat.eqb (bb_id Bb) e) eqn:Hbe.
  - apply Nat.eqb_eq in Hbe. rewrite (find_block_bb_id _ _ _ Hb) in Hbe. subst b.
    rewrite He in Hb. injection Hb as <-.
    unfold g. cbn [bb_instrs bb_term set_term].
    destruct (exec_instrs L (bb_instrs B) s) as [s1|]; [|by rewrite steps_Fault in Hrun].
    rewrite Hopen in Hrun. cbn [exec_term] in Hrun.
    rewrite steps_Stopped_any in Hrun. injection Hrun as ->.
    cbn [exec_term]. rewrite steps_S. cbn [step]. rewrite Ha.
    cbn [open_block bb_instrs bb_term exec_instrs exec_term]. apply steps_Stopped_any.
  - destruct (exec_instrs L (bb_instrs Bb) s) as [s1|]; [|by rewrite steps_Fault in Hrun].
    destruct (exec_term L b (bb_term Bb) s1) as [b' s''|b' s''|v s''|] eqn:Ht.
    + by apply IH.
    + rewrite steps_Stopped_any in Hrun. injection Hrun as -> ->.
      unfold exec_term in Ht. destruct (bb_term Bb) as [[t|c t f|[v|]]|].
      * discriminate Ht.
      * destruct (eval _ _ _ c) as [[z| | |]|]; try discriminate Ht.
        by destruct (z =? 0).
      * by destruct (eval _ _ _ v).
      * discriminate Ht.
      * injection Ht as -> _. apply Nat.eqb_neq in Hbe.
        by rewrite (find_block_bb_id _ _ _ Hb) in Hbe.
    + by rewrite steps_Returned_any in Hrun.
    + by rewrite steps_Fault in Hrun.
Qed.

(** The code of the statically known level, once generated up to the open
    block [e], is closed by a branch to the continuation block, which every
    lane that reaches the end of the code goes on to. *)
Lemma static_dispatch_run l (body : RegionCodeGenTy) st st1 e :
  body (level_entry l st) = Ok (tt, st1) ->
  open_end (CGF st1) e ->
  Forall (fun b => bb_id b <> NextBlockId (CGF st)) (Blocks (CGF st1)) ->
  let after := NextBlockId (CGF st) in
  exists st2,
    static_dispatch l body st = Ok (tt, st2) /\
    Globals st2 = Globals st1 /\ RT st2 = RT st1 /\
    InsertPoint (CGF st2) = Some after /\
    Blocks (CGF st2)
    = update_block e (set_term (Br after)) (Blocks (CGF st1))
      ++ [open_block after ".after.parallel"] /\
    forall L b s n s',
      steps n (Blocks (CGF st1)) L (At b s) = Stopped e s' ->
      steps (S n) (Blocks (CGF st2)) L (At b s) = Stopped after s'.
Proof.
  intros Hbody (Hip & B & HB & Hopen) Hfresh after.
  destruct st as [gs rt c]. destruct st1 as [gs1 rt1 c1].
  destruct c1 as [cf bs ip nb nv rv]. cbn [CGF InsertPoint Blocks] in *. subst ip.
  eexists. split.
  { unfold static_dispatch.
    cbv [mbind Gen_bind gen_bind createBasicBlock].
    cbn [CGF Globals RT NextBlockId fst snd].
    match goal with
    | |- match ?X with _ => _ end = _ =>
        change X with (Ok (tt, level_entry l {| Globals := gs; RT := rt; CGF := c |}))
    end.
    cbn iota. rewrite Hbody.
    cbv [EmitBlock EmitBranch modifyCGF mbind Gen_bind gen_bind].
    cbn [CGF Globals RT]. unfold emitBranch at 2, terminated.
    cbn [InsertPoint Blocks]. rewrite HB, Hopen.
    unfold setTerminator, with_blocks.
    cbn [InsertPoint Blocks CurFn NextBlockId NextValueId ReturnValue].
    unfold emitBranch, terminated.
    cbn [InsertPoint Blocks CurFn NextBlockId NextValueId ReturnValue].
    unfold placeBlock, with_blocks.
    cbn [InsertPoint Blocks CurFn NextBlockId NextValueId ReturnValue fst snd].
    reflexivity. }
  cbn [CGF Globals RT InsertPoint Blocks].
  split; [reflexivity|]. split; [reflexivity|]. split; [reflexivity|].
  split; [reflexivity|].
  intros L b s n s' Hrun. by apply (steps_continue _ _ _ B).
Qed.




Lemma level_entry_current_block l st b0 B0 :
  InsertPoint (CGF st) = Some b0 ->
  find_block (Blocks (CGF st)) b0 = Some B0 -> bb_term B0 = None ->
  find_block (Blocks (CGF (level_entry l st))) b0
  = Some (set_term (Br (S (NextBlockId (CGF st)))) B0).
Proof.
  destruct st as [gs rt c]. destruct c as [cf bs ip nb nv rv].
  cbn [CGF InsertPoint Blocks NextBlockId]. intros -> HB Hopen.
  unfold level_entry.
  cbv [mbind Gen_bind gen_bind createBasicBlock EmitBlock EmitBranch modifyCGF].
  cbn [CGF Globals RT NextBlockId fst snd CurFn Blocks InsertPoint NextValueId ReturnValue].
  unfold emitBranch, terminated. cbn [InsertPoint Blocks]. rewrite HB, Hopen.
  unfold placeBlock, setTerminator, with_blocks.
  cbn [InsertPoint Blocks CurFn NextBlockId NextValueId ReturnValue fst snd].
  apply find_block_app_present. rewrite find_block_update_block by done.
  rewrite HB. cbn. by rewrite (find_block_bb_id _ _ _ HB), Nat.eqb_refl.
Qed.

Lemma dispatch_static_run rt L s :
  IsOrphaned rt = false ->
  steps 3 (emitted_blocks (dispatch rt)) L (At 0 s)
  = Stopped 1 (add_events s (level_events
                               (Some (level_of_nesting (ParallelNestingLevel rt))))).
Proof.
  intros Ho. rewrite dispatch_static by done.
  run_block. cbn [bb_term exec_term]. run_block. cbn [bb_term exec_term].
  run_block. cbn [bb_term exec_term]. reflexivity.
Qed.

(** C1: the dispatch of a construct lowered through
    [emitParallelismLevelCode].  The blocks of the three levels are guarded
    by [threadId == masterThreadId], [ParallelismLevel == 1] and
    [ParallelismLevel > 1], and a guard is emitted exactly when the static
    information does not decide the level, which is when the construct is
    orphaned.  The generator never is in that state: the constructor clears
    the flag and nothing sets it.  The static nesting level then selects one
    level; the code of that level alone is generated, in a block of its own
    that the current block enters by an unconditional branch, and the code
    of the other two levels is not generated; every lane that runs the code
    of the level to its end goes on to the single continuation block, where
    the code generator continues. *)
Theorem C1_dispatch_guards_and_selection Level0 Level1 Sequential st :
  IsOrphaned (RT st) = false ->
  let l := level_of_nesting (ParallelNestingLevel (RT st)) in
  let after := NextBlockId (CGF st) in
  let lbb := S after in
  (forall rt l', level_guard (emitted_blocks (dispatch rt)) l' = expected_guard rt l') /\
  IsOrphaned initial_runtime = false /\
  emitParallelismLevelCode Level0 Level1 Sequential st
  = static_dispatch l (level_code l Level0 Level1 Sequential) st /\
  InsertPoint (CGF (level_entry l st)) = Some lbb /\
  (forall b0 B0,
     InsertPoint (CGF st) = Some b0 ->
     find_block (Blocks (CGF st)) b0 = Some B0 -> bb_term B0 = None ->
     find_block (Blocks (CGF (level_entry l st))) b0 = Some (set_term (Br lbb) B0)) /\
  (forall st1 e,
     level_code l Level0 Level1 Sequential (level_entry l st) = Ok (tt, st1) ->
     open_end (CGF st1) e ->
     Forall (fun b => bb_id b <> after) (Blocks (CGF st1)) ->
     exists st2,
       emitParallelismLevelCode Level0 Level1 Sequential st = Ok (tt, st2) /\
       RT st2 = RT st1 /\
       InsertPoint (CGF st2) = Some after /\
       forall L b s n s',
         steps n (Blocks (CGF st1)) L (At b s) = Stopped e s' ->
         steps (S n) (Blocks (CGF st2)) L (At b s) = Stopped after s') /\
  (forall L s,
     steps 3 (emitted_blocks (dispatch (RT st))) L (At 0 s)
     = Stopped 1 (add_events s (level_events (Some l)))).
Proof.
  intros Ho l after lbb.
  split; [intros rt l'; apply dispatch_guards|]. split; [reflexivity|].
  split; [by apply emitParallelismLevelCode_static|].
  split; [by destruct st as [gs rt [cf bs ip nb nv rv]]|].
  split; [intros b0 B0; apply level_entry_current_block|].
  split; [|intros L s; by apply dispatch_static_run].
  intros st1 e Hbody Hend Hfresh.
  destruct (static_dispatch_run l _ st st1 e Hbody Hend Hfresh)
    as (st2 & Hrun & _ & HRT & Hip & _ & Hsteps).
  exists st2. rewrite emitParallelismLevelCode_static by exact Ho.
  split; [exact Hrun|]. split; [exact HRT|]. split; [exact Hip | exact Hsteps].
Qed.

Lemma C1_dispatch_witness :
  exists st2 s',
    emitParallelismLevelCode (mark AtLevel0) (mark AtLevel1) (mark AtSequential)
      (start_state [] initial_runtime false) = Ok (tt, st2) /\
    steps 3 (Blocks (CGF st2)) worker_lane_5 (At 0 (initial_state [] [])) = Stopped 1 s' /\
    trace s' = [EvCall (Function (region_marker AtLevel0)) []].
Proof.
  destruct (C1_dispatch_guards_and_selection (mark AtLevel0) (mark AtLevel1)
              (mark AtSequential) (start_state [] initial_runtime false) eq_refl)
    as (_ & _ & _ & _ & _ & Hrun & _).
  destruct (Hrun {| Globals := []; RT := initial_runtime;
                    CGF := emitInstr (Call None (Function (region_marker AtLevel0)) [])
                             (CGF (level_entry AtLevel0
                                     (start_state [] initial_runtime false))) |}
                 2%nat eq_refl)
    as (st2 & Hgen & _ & _ & Hsteps).
  - split; [reflexivity|]. eexists. split; reflexivity.
  - cbn. repeat constructor; discriminate.
  - exists st2. eexists. split; [exact Hgen|]. split.
    + apply (Hsteps worker_lane_5 0%nat (initial_state [] []) 2%nat). reflexivity.
    + reflexivity.
Defined.

(** ** The data sharing planner *)

Lemma pop_back_val_snoc {A} (l : list A) x : pop_back_val (l ++ [x]) = Some (l, x).
Proof. unfold pop_back_val. rewrite reverse_snoc. cbn. by rewrite reverse_involutive. Qed.

Lemma pop_back_val_inv {A} (l : list A) :
  pop_back_val l = None /\ l = [] \/ exists l' x, l = l' ++ [x] /\ pop_back_val l = Some (l', x).
Proof.
  destruct l as [|a l] using rev_ind; [by left|right].
  exists l, a. split; [done|apply pop_back_val_snoc].
Qed.


Lemma work_size_app l1 l2 : work_size (l1 ++ l2) = (work_size l1 + work_size l2)%nat.
Proof.
  unfold work_size. by rewrite List.map_app, list_sum_app.
Qed.

Lemma collectCapturedStmts_total fuel WorkList CapturedStmts :
  (work_size WorkList < fuel)%nat ->
  is_Some (collectCapturedStmts fuel WorkList CapturedStmts).
Proof.
  revert WorkList CapturedStmts.
  induction fuel as [|fuel IH]; intros WorkList CapturedStmts Hlt; [lia|].
  cbn [collectCapturedStmts].
  destruct (pop_back_val_inv WorkList) as [[-> _]|(l' & x & -> & ->)]; [by eexists|].
  rewrite work_size_app in Hlt. unfold work_size at 2 in Hlt. cbn in Hlt.
  destruct x as [|children|kind caps body|kind]; cbn [stmt_size] in Hlt.
  - apply IH. lia.
  - apply IH. rewrite work_size_app. unfold work_size at 2. lia.
  - destruct (_ || _).
    + apply IH. lia.
    + apply IH. rewrite work_size_app. unfold work_size at 2. cbn. lia.
  - apply IH. lia.
Qed.

Lemma regions_of_total Body :
  collectCapturedStmts (S (stmt_size Body)) [Body] [] = Some (regions_of Body).
Proof.
  unfold regions_of.
  destruct (collectCapturedStmts_total (S (stmt_size Body)) [Body] []) as [r ->]; [|done].
  unfold work_size. cbn. lia.
Qed.

Lemma supported_cases c :
  supported c = true /\ (getCaptureKind c = VCK_This \/ getCaptureKind c = VCK_ByRef) \/
  supported c = false /\ (getCaptureKind c = VCK_ByCopy \/ getCaptureKind c = VCK_VLAType).
Proof.
  unfold supported, hasCapturedVLAType, capturesVariableArrayType, capturesVariableByCopy.
  destruct (getCaptureKind c); cbn; tauto.
Qed.

Lemma classify_capture_unsupported F c :
  supported c = false -> classify_capture F c = Ok None.
Proof.
  intros Hs. destruct (supported_cases c) as [[? _]|[_ Hk]]; [congruence|].
  unfold classify_capture, hasCapturedVLAType, capturesVariableArrayType,
    capturesThis, capturesVariableByCopy.
  destruct Hk as [-> | ->]; reflexivity.
Qed.

Lemma classify_capture_supported F c r :
  supported c = true -> classify_capture F c = Ok r ->
  r = Some (capture_identity c, sharing_mode F c).
Proof.
  intros Hs. destruct (supported_cases c) as [[_ Hk]|[? _]]; [|congruence].
  unfold classify_capture, capture_identity, sharing_mode, hasCapturedVLAType,
    capturesVariableArrayType, capturesThis, capturesVariableByCopy.
  destruct Hk as [-> | ->]; cbn.
  - intros [= <-]. reflexivity.
  - destruct (hasLocalStorage F _); [|discriminate]. intros [= <-]. reflexivity.
Qed.

Lemma master_field_eq ty dst :
  (if bool_decide (dst = DST_Ref) then PointerType ty else ty) = master_field ty dst.
Proof. by destruct dst. Qed.

Lemma share_captures_spec F cs : forall p p' seen,
  (forall v, v ∈ AlreadySharedDecls p <-> v ∈ seen) ->
  share_captures F p cs = Ok p' ->
  let ds := first_occurrences seen (descriptors F cs) in
  Info p' = Info p ++ (descriptor_capture <$> ds) /\
  SharedMasterRD p' = SharedMasterRD p ++ (descriptor_field <$> ds) /\
  SharedWarpRD p' = SharedWarpRD p ++ (warp_field ∘ descriptor_field <$> ds).
Proof.
  induction cs as [|c cs IH]; intros p p' seen Hseen Hrun.
  - cbn in Hrun. injection Hrun as <-. cbn. by rewrite !app_nil_r.
  - cbn [share_captures] in Hrun.
    destruct (share_capture F p c) as [p1|msg] eqn:Hone; [|discriminate Hrun].
    cbn in Hrun. unfold share_capture in Hone.
    destruct (supported c) eqn:Hs.
    + destruct (classify_capture F c) as [r|msg] eqn:Hcl; [|discriminate Hone].
      apply (classify_capture_supported F c r Hs) in Hcl as ->. cbn in Hone.
      unfold descriptors. rewrite filter_cons_True by done. cbn [fmap list_fmap first_occurrences].
      fold (descriptors F cs).
      destruct (decide (capture_identity c ∈ AlreadySharedDecls p)) as [Hin|Hnin].
      * rewrite bool_decide_eq_true_2 in Hone by done. injection Hone as <-.
        rewrite bool_decide_eq_true_2 by (by apply Hseen).
        by apply IH.
      * rewrite bool_decide_eq_false_2 in Hone by done. injection Hone as <-.
        rewrite bool_decide_eq_false_2 by (by rewrite <- Hseen).
        eapply (IH _ p' (capture_identity c :: seen)) in Hrun as (HI & HM & HW).
        2: { intros v. cbn. rewrite elem_of_union, elem_of_singleton, elem_of_cons, Hseen. done. }
        cbn in HI, HM, HW. cbn [fmap list_fmap].
        rewrite HI, HM, HW, <- !app_assoc, master_field_eq. done.
    + rewrite (classify_capture_unsupported F c Hs) in Hone. cbn in Hone.
      injection Hone as <-.
      unfold descriptors. rewrite filter_cons_False by congruence.
      by apply IH.
Qed.

Lemma first_occurrences_not_seen {A} (l : list (option VarDecl * A)) : forall seen v,
  v ∈ (first_occurrences seen l).*1 -> v ∉ seen.
Proof.
  induction l as [|[w a] l IH]; intros seen v Hin; cbn in Hin.
  - by apply elem_of_nil in Hin.
  - destruct (decide (w ∈ seen)) as [Hw|Hw].
    + rewrite bool_decide_eq_true_2 in Hin by done. by apply IH.
    + rewrite bool_decide_eq_false_2 in Hin by done. cbn in Hin.
      apply elem_of_cons in Hin as [->|Hin]; [done|].
      apply IH in Hin. intros ?. apply Hin. by apply elem_of_cons; right.
Qed.

Lemma first_occurrences_NoDup {A} (l : list (option VarDecl * A)) : forall seen,
  NoDup (first_occurrences seen l).*1.
Proof.
  induction l as [|[w a] l IH]; intros seen; cbn.
  - constructor.
  - destruct (bool_decide (w ∈ seen)); [apply IH|].
    cbn. constructor; [|apply IH].
    intros Hin%first_occurrences_not_seen. apply Hin. by apply elem_of_cons; left.
Qed.

(** Every identity met is kept once. *)
Lemma first_occurrences_complete {A} (l : list (option VarDecl * A)) : forall seen v,
  v ∈ l.*1 -> v ∈ seen \/ v ∈ (first_occurrences seen l).*1.
Proof.
  induction l as [|[w a] l IH]; intros seen v Hin; cbn in Hin.
  - by apply elem_of_nil in Hin.
  - cbn [first_occurrences]. apply elem_of_cons in Hin as [->|Hin].
    + destruct (decide (w ∈ seen)) as [Hw|Hw]; [by left|].
      rewrite bool_decide_eq_false_2 by done. right. cbn. by apply elem_of_cons; left.
    + destruct (decide (w ∈ seen)) as [Hw|Hw].
      * rewrite bool_decide_eq_true_2 by done. by apply IH.
      * rewrite bool_decide_eq_false_2 by done.
        destruct (IH (w :: seen) v Hin) as [[->|?]%elem_of_cons|?].
        -- right. cbn. by apply elem_of_cons; left.
        -- by left.
        -- right. cbn. by apply elem_of_cons; right.
Qed.

Lemma first_occurrences_subset {A} (l : list (option VarDecl * A)) : forall seen x,
  x ∈ first_occurrences seen l -> x ∈ l.
Proof.
  induction l as [|[w a] l IH]; intros seen x Hin; cbn in Hin; [done|].
  destruct (bool_decide (w ∈ seen)).
  - apply elem_of_cons. right. by apply (IH seen).
  - apply elem_of_cons in Hin as [->|Hin]; [by apply elem_of_cons; left|].
    apply elem_of_cons. right. by apply (IH (w :: seen)).
Qed.

Lemma createDataSharingInfo_fresh F id body s :
  CurCodeDecl F = Some (CapturedDecl id body) ->
  DataSharingInfoMap (RT s) !! id = None ->
  createDataSharingInfo F s =
  (if bool_decide (regions_of body = []) then
    AssertionFailed "Expecting at least one parallel region!"
  else
    match share_captures F empty_plan (all_captures (regions_of body)) with
    | Ok p =>
        Ok (tt, {| Globals := Globals s;
                   RT := set_data_sharing_info id
                           {| CapturesValues := Info p;
                              MasterRecordType := SharedMasterRD p;
                              WorkerWarpRecordType := SharedWarpRD p |} (RT s);
                   CGF := CGF s |})
    | AssertionFailed msg => AssertionFailed msg
    end).
Proof.
  intros HF Hfresh. unfold createDataSharingInfo. rewrite HF.
  cbv [mbind Gen_bind gen_bind getRT setRT mret Gen_ret gen_ret gen_assert lift_result
       gen_fail decl_id].
  rewrite Hfresh. rewrite bool_decide_eq_false_2 by (intros [? ?]; congruence).
  destruct (bool_decide (regions_of body = [])); cbn [negb]; [done|].
  by destruct (share_captures F empty_plan _).
Qed.

Lemma planned_inv F rt info :
  fresh_context F rt -> planned F rt = Some info ->
  exists p,
    share_captures F empty_plan (context_captures F) = Ok p /\
    info = {| CapturesValues := Info p; MasterRecordType := SharedMasterRD p;
              WorkerWarpRecordType := SharedWarpRD p |}.
Proof.
  unfold fresh_context, planned, context_captures, context_body.
  destruct (CurCodeDecl F) as [[id body|id body]|] eqn:HF; [| |done]; cbn [decl_id];
    intros Hfresh.
  - rewrite (createDataSharingInfo_fresh F id body) by done.
    destruct (bool_decide _); [done|].
    destruct (share_captures F empty_plan _) as [p|msg]; [|done]. cbn.
    rewrite lookup_insert_eq. intros [= <-]. by exists p.
  - unfold createDataSharingInfo. rewrite HF.
    cbv [mbind Gen_bind gen_bind getRT setRT mret Gen_ret gen_ret gen_assert lift_result
         gen_fail decl_id]. cbn [RT].
    rewrite Hfresh. rewrite bool_decide_eq_false_2 by (intros [? ?]; congruence).
    done.
Qed.

Lemma planned_spec F rt info :
  fresh_context F rt -> planned F rt = Some info ->
  let ds := first_occurrences [] (descriptors F (context_captures F)) in
  CapturesValues info = descriptor_capture <$> ds /\
  MasterRecordType info = descriptor_field <$> ds /\
  WorkerWarpRecordType info = warp_field ∘ descriptor_field <$> ds.
Proof.
  intros Hfresh Hplan. destruct (planned_inv F rt info Hfresh Hplan) as (p & Hp & ->).
  apply (share_captures_spec F _ empty_plan p []) in Hp; [exact Hp|].
  intros v. cbn. rewrite elem_of_nil. set_solver.
Qed.

Lemma classify_capture_this F c :
  getCaptureKind c = VCK_This -> classify_capture F c = Ok (Some (None, DST_Val)).
Proof.
  intros Hk. unfold classify_capture, hasCapturedVLAType, capturesVariableArrayType,
    capturesThis, capturesVariableByCopy. rewrite Hk. reflexivity.
Qed.

Lemma classify_capture_by_ref F c :
  getCaptureKind c = VCK_ByRef -> hasLocalStorage F (getCapturedVar c) = true ->
  classify_capture F c = Ok (Some (capture_identity c, sharing_mode F c)).
Proof.
  intros Hk Hl. unfold classify_capture, capture_identity, sharing_mode, hasCapturedVLAType,
    capturesVariableArrayType, capturesThis, capturesVariableByCopy. rewrite Hk, Hl.
  reflexivity.
Qed.

Lemma share_captures_succeeds F cs : forall p,
  (forall c, c ∈ cs -> getCaptureKind c = VCK_ByRef ->
             hasLocalStorage F (getCapturedVar c) = true) ->
  exists p', share_captures F p cs = Ok p'.
Proof.
  induction cs as [|c cs IH]; intros p Hloc; [by eexists|].
  cbn [share_captures].
  assert (Hone : exists p1, share_capture F p c = Ok p1).
  { unfold share_capture.
    destruct (supported_cases c) as [[_ [Hk|Hk]]|[Hs _]].
    - rewrite classify_capture_this by done. cbn.
      destruct (bool_decide _); eexists; reflexivity.
    - rewrite classify_capture_by_ref; [|done|apply Hloc; [apply elem_of_cons; by left|done]].
      cbn. destruct (bool_decide _); eexists; reflexivity.
    - rewrite classify_capture_unsupported by done. eexists; reflexivity. }
  destruct Hone as [p1 ->]. cbn. apply IH.
  intros c' Hin. apply Hloc. by apply elem_of_cons; right.
Qed.

(** The planner produces a plan for every captured declaration with a region
    whose by-reference captures are local variables. *)
Lemma planner_succeeds F rt id body :
  CurCodeDecl F = Some (CapturedDecl id body) ->
  DataSharingInfoMap rt !! id = None ->
  regions_of body <> [] ->
  (forall c, c ∈ context_captures F -> getCaptureKind c = VCK_ByRef ->
             hasLocalStorage F (getCapturedVar c) = true) ->
  is_Some (planned F rt).
Proof.
  intros HF Hfresh Hreg Hloc. unfold planned. rewrite HF.
  rewrite (createDataSharingInfo_fresh F id body) by done.
  rewrite bool_decide_eq_false_2 by done.
  unfold context_captures, context_body in Hloc. rewrite HF in Hloc.
  destruct (share_captures_succeeds F _ empty_plan Hloc) as [p ->].
  cbn. rewrite lookup_insert_eq. by eexists.
Qed.

(** C5 (as stated, refuted): the region of [unsupported_region] captures [x]
    by copy; the planner returns a plan for the context, and the plan has no
    descriptor for [x]. *)
Lemma C5_counterexample_capture_by_copy_has_no_descriptor :
  exists info,
    planned unsupported_region initial_runtime = Some info /\
    ~ one_descriptor_per_identity unsupported_region info.
Proof.
  exists {| CapturesValues := [(Some var_y, DST_Ref)];
            MasterRecordType := [PointerType int_ty];
            WorkerWarpRecordType := [ConstantArrayType (PointerType int_ty) 32] |}.
  split; [vm_compute; reflexivity|].
  intros [_ Hall]. specialize (Hall (by_copy var_x)).
  assert (Hin : by_copy var_x ∈ context_captures unsupported_region)
    by (vm_compute; apply list_elem_of_here).
  specialize (Hall Hin). cbn in Hall.
  apply list_elem_of_singleton in Hall. discriminate Hall.
Qed.

(** C5 (amended): for every enclosing context whose plan the planner builds,
    the capture list holds exactly one descriptor per identity (a variable,
    or [None] for [this]) captured by a capture the planner handles, that is
    one that is neither by copy nor of a variable array type: it is the list
    of these captures over all the regions of the context from which every
    occurrence of an identity after the first has been removed, so no
    identity occurs twice, and an identity occurs exactly when some region
    captures it in a way the planner handles. *)
Theorem C5_one_descriptor_per_identity F rt info :
  fresh_context F rt -> planned F rt = Some info ->
  CapturesValues info
    = descriptor_capture <$> first_occurrences [] (descriptors F (context_captures F)) /\
  NoDup (CapturesValues info).*1 /\
  (forall v, v ∈ (CapturesValues info).*1 <->
             exists c, c ∈ context_captures F /\ supported c = true /\
                       capture_identity c = v).
Proof.
  intros Hfresh Hplan.
  destruct (planned_spec F rt info Hfresh Hplan) as (HC & _ & _).
  assert (Hfst : (CapturesValues info).*1
                 = (first_occurrences [] (descriptors F (context_captures F))).*1).
  { rewrite HC, <- list_fmap_compose. by apply list_fmap_ext. }
  split; [exact HC|]. rewrite Hfst. split; [apply first_occurrences_NoDup|].
  intros v. split.
  - intros Hv. apply list_elem_of_fmap in Hv as ([v' d] & -> & Hin).
    apply first_occurrences_subset in Hin. unfold descriptors in Hin.
    apply list_elem_of_fmap in Hin as (c & Hc & Hfilter).
    apply list_elem_of_filter in Hfilter as [Hs Hcin].
    exists c. split; [exact Hcin|]. split; [exact Hs|]. by injection Hc as -> _.
  - intros (c & Hin & Hs & <-).
    destruct (first_occurrences_complete (descriptors F (context_captures F)) []
                (capture_identity c)) as [Hnil|Hok]; [|by apply elem_of_nil in Hnil|exact Hok].
    unfold descriptors. rewrite <- list_fmap_compose.
    apply list_elem_of_fmap. exists c. split; [done|].
    by apply list_elem_of_filter.
Qed.

Lemma C5_witness :
  planned two_regions initial_runtime
    = Some {| CapturesValues := [(Some var_z, DST_Val); (Some var_x, DST_Val);
                                 (Some var_y, DST_Ref)];
              MasterRecordType := [int_ty; int_ty; PointerType int_ty];
              WorkerWarpRecordType :=
                [ConstantArrayType int_ty 32; ConstantArrayType int_ty 32;
                 ConstantArrayType (PointerType int_ty) 32] |} /\
  NoDup [Some var_z; Some var_x; Some var_y].
Proof.
  split; [vm_compute; reflexivity|].
  refine (proj1 (proj2 (C5_one_descriptor_per_identity two_regions initial_runtime
            {| CapturesValues := [(Some var_z, DST_Val); (Some var_x, DST_Val);
                                  (Some var_y, DST_Ref)];
               MasterRecordType := [int_ty; int_ty; PointerType int_ty];
               WorkerWarpRecordType :=
                 [ConstantArrayType int_ty 32; ConstantArrayType int_ty 32;
                  ConstantArrayType (PointerType int_ty) 32] |} _ _)));
    vm_compute; reflexivity.
Defined.

(** C6: for every enclosing context whose plan the planner builds, the master
    record has one field per capture descriptor, of the type of the captured
    expression, or of the pointer type to it when the capture is shared by
    reference; the warp record has, in the same order, one array field of
    lane-group size 32 per capture whose element type is the corresponding
    master field. *)
Theorem C6_master_and_warp_layouts F rt info :
  fresh_context F rt -> planned F rt = Some info ->
  let ds := first_occurrences [] (descriptors F (context_captures F)) in
  CapturesValues info = descriptor_capture <$> ds /\
  MasterRecordType info = descriptor_field <$> ds /\
  WorkerWarpRecordType info = warp_field <$> MasterRecordType info /\
  length (MasterRecordType info) = length (CapturesValues info) /\
  length (WorkerWarpRecordType info) = length (CapturesValues info).
Proof.
  intros Hfresh Hplan ds.
  destruct (planned_spec F rt info Hfresh Hplan) as (HC & HM & HW).
  fold ds in HC, HM, HW.
  assert (HW' : WorkerWarpRecordType info = warp_field <$> MasterRecordType info).
  { rewrite HW, HM. apply list_fmap_compose. }
  repeat split; try done.
  - by rewrite HM, HC, !length_fmap.
  - by rewrite HW', HM, HC, !length_fmap.
Qed.

Lemma C6_witness :
  planned one_region initial_runtime
    = Some {| CapturesValues := [(Some var_x, DST_Val); (Some var_y, DST_Ref)];
              MasterRecordType := [int_ty; PointerType int_ty];
              WorkerWarpRecordType :=
                [ConstantArrayType int_ty 32;
                 ConstantArrayType (PointerType int_ty) 32] |} /\
  [ConstantArrayType int_ty 32; ConstantArrayType (PointerType int_ty) 32]
    = warp_field <$> [int_ty; PointerType int_ty].
Proof.
  split; [vm_compute; reflexivity|].
  refine (proj1 (proj2 (proj2 (C6_master_and_warp_layouts one_region initial_runtime
            {| CapturesValues := [(Some var_x, DST_Val); (Some var_y, DST_Ref)];
               MasterRecordType := [int_ty; PointerType int_ty];
               WorkerWarpRecordType :=
                 [ConstantArrayType int_ty 32;
                  ConstantArrayType (PointerType int_ty) 32] |} _ _))));
    vm_compute; reflexivity.
Defined.

(** ** Wrappers *)

Lemma update_block_compose id f g bs :
  (forall b, bb_id (g b) = bb_id b) ->
  update_block id f (update_block id g bs) = update_block id (f ∘ g) bs.
Proof.
  intros Hg. unfold update_block. rewrite List.map_map. apply List.map_ext.
  intros b. destruct (Nat.eqb (bb_id b) id) eqn:Hb; cbn.
  - by rewrite Hg, Hb.
  - by rewrite Hb.
Qed.

Lemma update_block_ext id f g bs :
  (forall b, f b = g b) -> update_block id f bs = update_block id g bs.
Proof.
  intros H. unfold update_block. apply List.map_ext. intros b. by rewrite H.
Qed.

Lemma update_block_id id bs : update_block id (append_instrs []) bs = bs.
Proof.
  unfold update_block. rewrite <- (List.map_id bs) at 2. apply List.map_ext.
  intros [i n c t]. destruct (Nat.eqb _ _); [|done].
  unfold append_instrs. cbn. by rewrite app_nil_r.
Qed.

Lemma emitInstrs_nil c : emitInstrs [] c = c.
Proof.
  destruct c as [cf bs [ip|] nb nv rv]; [|done].
  unfold emitInstrs, with_blocks.
  cbn [InsertPoint Blocks CurFn NextBlockId NextValueId ReturnValue].
  by rewrite update_block_id.
Qed.

Lemma emitInstrs_cons i code c : emitInstrs (i :: code) c = emitInstrs code (emitInstr i c).
Proof.
  destruct c as [cf bs [ip|] nb nv rv]; [|done].
  unfold emitInstrs, emitInstr, with_blocks.
  cbn [InsertPoint Blocks CurFn NextBlockId NextValueId ReturnValue]. f_equal.
  rewrite update_block_compose by done. apply update_block_ext.
  intros b. unfold append_instrs, append_instr. cbn. by rewrite <- app_assoc.
Qed.

Lemma createArgsAddress_eq CI gs rt c :
  supported CI = true ->
  Wrapper.createArgsAddress CI {| Globals := gs; RT := rt; CGF := c |}
  = Ok (AllocaAddr (NextValueId c) (temp_name CI),
        {| Globals := gs; RT := rt; CGF := next_value c |}).
Proof.
  intros Hone. unfold supported, hasCapturedVLAType in Hone.
  apply andb_true_iff in Hone as [Hvla Hcopy].
  unfold Wrapper.createArgsAddress, mbind, Gen_bind, gen_bind, gen_assert. cbn beta.
  rewrite Hvla, Hcopy. by destruct c.
Qed.

Lemma gen_mapM_createArgsAddress caps : forall gs rt c,
  Forall (fun CI => supported CI = true) caps ->
  gen_mapM Wrapper.createArgsAddress caps {| Globals := gs; RT := rt; CGF := c |}
  = Ok (args_addresses (NextValueId c) caps,
        {| Globals := gs; RT := rt; CGF := bump_values (length caps) c |}).
Proof.
  induction caps as [|CI caps IH]; intros gs rt c Hs.
  - destruct c as [cf bs ip nb nv rv]. cbn. unfold bump_values. cbn.
    by rewrite Nat.add_0_r.
  - apply Forall_cons in Hs as [Hone Hs]. cbn [gen_mapM].
    erewrite bind_Ok by (by apply createArgsAddress_eq).
    erewrite bind_Ok by (by apply IH).
    destruct c as [cf bs ip nb nv rv]. unfold bump_values.
    cbn [NextValueId CurFn Blocks InsertPoint NextBlockId ReturnValue length mret Gen_ret
         gen_ret args_addresses].
    cbn [Nat.add]. rewrite Nat.add_succ_r. reflexivity.
Qed.

Lemma resolve_capture_eq DSI base Lane CI a s :
  capture_known DSI CI = true ->
  resolve_capture DSI base Lane (CI, a) s
  = modifyCGF (emitInstr (resolve_store DSI base Lane (CI, a))) s.
Proof.
  intros Hk. unfold resolve_capture, capture_known, capture_identity in *.
  unfold mbind, Gen_bind, gen_bind, gen_assert. cbn beta. rewrite Hk.
  unfold resolve_store, resolve_value, shared_by_reference, capture_identity. cbn [fst snd].
  by destruct (bool_decide _).
Qed.

Lemma gen_for_resolve DSI base Lane Args : forall gs rt c,
  Forall (fun ca => capture_known DSI ca.1 = true) Args ->
  gen_for Args (resolve_capture DSI base Lane) {| Globals := gs; RT := rt; CGF := c |}
  = Ok (tt, {| Globals := gs; RT := rt;
               CGF := emitInstrs (resolve_store DSI base Lane <$> Args) c |}).
Proof.
  induction Args as [|[CI a] Args IH]; intros gs rt c Hk.
  - cbn. by rewrite emitInstrs_nil.
  - apply Forall_cons in Hk as [Hone Hk]. cbn [gen_for fmap list_fmap].
    unfold mbind at 1, Gen_bind, gen_bind.
    rewrite resolve_capture_eq by done. rewrite modifyCGF_eq.
    rewrite IH by done. by rewrite emitInstrs_cons.
Qed.

Lemma L0ParallelGen_eq DSI Args s :
  Forall (fun ca => capture_known DSI ca.1 = true) Args ->
  Wrapper.L0ParallelGen DSI Args s
  = emit_with_value (frame_code DSI getMasterThreadID [] Args) s.
Proof.
  intros Hk. destruct s as [gs rt c]. unfold Wrapper.L0ParallelGen, emit_with_value.
  unfold EmitRuntimeCall, CreateCall, fresh_value.
  unfold mbind, Gen_bind, gen_bind. cbn [CGF Globals RT].
  unfold emit. rewrite modifyCGF_eq. cbn [gen_ret].
  rewrite gen_for_resolve by done. unfold frame_code. rewrite emitInstrs_cons.
  by destruct c as [cf bs [ip|] nb nv rv].
Qed.

Lemma L1ParallelGen_eq DSI src Args s :
  Forall (fun ca => capture_known DSI ca.1 = true) Args ->
  Wrapper.L1ParallelGen DSI src Args s
  = emit_with_value (frame_code DSI getNVPTXThreadID [src] Args) s.
Proof.
  intros Hk. destruct s as [gs rt c]. unfold Wrapper.L1ParallelGen, emit_with_value.
  unfold EmitRuntimeCall, CreateCall, fresh_value.
  unfold mbind, Gen_bind, gen_bind. cbn [CGF Globals RT].
  unfold emit. rewrite modifyCGF_eq. cbn [gen_ret].
  rewrite gen_for_resolve by done. unfold frame_code. rewrite emitInstrs_cons.
  by destruct c as [cf bs [ip|] nb nv rv].
Qed.

Lemma generateFunction_ext name rv (body body' : Gen unit) s :
  body {| Globals := Globals s; RT := RT s; CGF := StartFunction name rv |}
  = body' {| Globals := Globals s; RT := RT s; CGF := StartFunction name rv |} ->
  generateFunction name rv body s = generateFunction name rv body' s.
Proof.
  destruct s as [gs rt c]. cbn [Globals RT]. intros H.
  unfold generateFunction, getCGF, setCGF, mbind, Gen_bind, gen_bind.
  cbn [Globals RT CGF]. by rewrite H.
Qed.

Lemma Forall_zip_fst {A B} (P : A -> Prop) (l : list A) (k : list B) :
  Forall P l -> Forall (fun ab => P ab.1) (zip l k).
Proof.
  intros H. revert k. induction H as [|a l Ha Hl IH]; intros [|b k]; cbn; constructor; auto.
Qed.

Lemma getDataSharingInfo_eq ctx DSI s :
  DataSharingInfoMap (RT s) !! ctx = Some DSI ->
  getDataSharingInfo (Some ctx) s = Ok (DSI, s).
Proof.
  intros H. unfold getDataSharingInfo, getRT, mbind, Gen_bind, gen_bind. cbn beta iota.
  by rewrite H.
Qed.

Lemma createDataSharingParallelWrapper_eq D Fn CS ctx DSI IsSimd s :
  DataSharingInfoMap (RT s) !! ctx = Some DSI ->
  Forall (fun CI => supported CI = true) (cs_captures CS) ->
  Forall (fun CI => capture_known DSI CI = true) (cs_captures CS) ->
  createDataSharingParallelWrapper D Fn CS (Some ctx) IsSimd s
  = generateFunction (wrapper_name Fn) false
      (wrapper_code DSI D Fn (cs_captures CS) IsSimd) s.
Proof.
  intros Hctx Hs Hk. unfold createDataSharingParallelWrapper.
  apply generateFunction_ext. destruct s as [gs rt c0]. cbn [Globals RT] in *.
  erewrite bind_Ok by (by apply gen_mapM_createArgsAddress).
  erewrite bind_Ok by (by apply getDataSharingInfo_eq).
  unfold wrapper_code. rewrite bind_modifyCGF.
  cbn [NextValueId StartFunction].
  set (Args := zip (cs_captures CS) (args_addresses 0 (cs_captures CS))).
  assert (HA : Forall (fun ca => capture_known DSI ca.1 = true) Args)
    by (exact (Forall_zip_fst (fun CI => capture_known DSI CI = true) _ _ Hk)).
  assert (H0 : Wrapper.L0ParallelGen DSI Args
               = emit_with_value (frame_code DSI getMasterThreadID [] Args))
    by (apply functional_extensionality; intros; by apply L0ParallelGen_eq).
  assert (H1 : Wrapper.L1ParallelGen DSI (Argument 0) Args
               = emit_with_value (frame_code DSI getNVPTXThreadID [Argument 0] Args))
    by (apply functional_extensionality; intros; by apply L1ParallelGen_eq).
  rewrite H0, H1. reflexivity.
Qed.

Lemma wrapper_code_static DSI D Fn caps IsSimd gs rt :
  IsOrphaned rt = false ->
  wrapper_level_emitted IsSimd (ParallelNestingLevel rt) = true ->
  fn_blocks <$> generated (generateFunction (wrapper_name Fn) false
                             (wrapper_code DSI D Fn caps IsSimd)) gs rt
  = Some (wrapper_blocks_at (level_of_nesting (ParallelNestingLevel rt))
            (frame_code DSI
               (if ParallelNestingLevel rt =? 0 then getMasterThreadID else getNVPTXThreadID)
               (if ParallelNestingLevel rt =? 0 then [] else [Argument 0])
               (zip caps (args_addresses 0 caps)) (length caps))
            Fn (Wrapper.Header D IsSimd ++ (CreateLoad <$> args_addresses 0 caps))).
Proof.
  destruct rt as [o pnl w wm dm fm cc]; cbn [IsOrphaned ParallelNestingLevel]; intros ->.
  unfold wrapper_level_emitted.
  destruct IsSimd, pnl as [|[p|p|]|p]; cbn; try discriminate; intros _; reflexivity.
Qed.


Lemma mapM_cons_Some {A B} (f : A -> option B) a l b k :
  f a = Some b -> mapM f l = Some k -> mapM f (a :: l) = Some (b :: k).
Proof. intros Ha Hl. cbn. by rewrite Ha, Hl. Qed.

Lemma mapM_cons_inv {A B} (f : A -> option B) a l vs :
  mapM f (a :: l) = Some vs -> exists b k, vs = b :: k /\ f a = Some b /\ mapM f l = Some k.
Proof.
  cbn. destruct (f a) as [b|]; [|done]. cbn. destruct (mapM f l) as [k|]; [|done].
  cbn. intros [= <-]. by exists b, k.
Qed.

Lemma mapM_app_Some {A B} (f : A -> option B) l1 l2 k1 k2 :
  mapM f l1 = Some k1 -> mapM f l2 = Some k2 -> mapM f (l1 ++ l2) = Some (k1 ++ k2).
Proof.
  revert k1. induction l1 as [|a l1 IH]; intros k1 H1 H2.
  - cbn in H1. injection H1 as <-. exact H2.
  - apply mapM_cons_inv in H1 as (b & k & -> & Ha & Hk).
    cbn [app]. apply mapM_cons_Some; [done|]. by apply IH.
Qed.

Lemma mapM_as_int zs : mapM as_int (RInt <$> zs) = Some zs.
Proof. induction zs as [|z zs IH]; [done|]. cbn [fmap list_fmap]. by apply mapM_cons_Some. Qed.

Lemma store_all_frame vs : forall m nv o p,
  store_all m nv vs (FrameElem o p) = m (FrameElem o p).
Proof.
  induction vs as [|v vs IH]; intros m nv o p; [done|].
  cbn [store_all]. rewrite IH. by apply mem_store_ne.
Qed.

Lemma store_all_below vs : forall m nv k,
  (k < nv)%nat -> store_all m nv vs (StackSlot k) = m (StackSlot k).
Proof.
  induction vs as [|v vs IH]; intros m nv k Hk; [done|].
  cbn [store_all]. rewrite IH by lia. apply mem_store_ne. intros [= ->]. lia.
Qed.

Lemma resolved_ext m m' DSI owner lane CI :
  (forall o p, m' (FrameElem o p) = m (FrameElem o p)) ->
  resolved m' DSI owner lane CI = resolved m DSI owner lane CI.
Proof. intros H. unfold resolved. by rewrite H. Qed.

Lemma eval_resolve_value L rg m DSI r owner Lane lane CI :
  rg r = Some (RPtr (FrameElem owner [])) ->
  mapM (eval L rg m) Lane = Some (RInt <$> lane) ->
  eval L rg m (resolve_value DSI (CreateBitOrPointerCast (CallResult r)) Lane CI)
  = resolved m DSI owner lane CI.
Proof.
  intros Hr HL. unfold resolve_value, resolved.
  set (Idx := capture_index _ _).
  assert (Hgep : eval L rg m (CreateInBoundsGEP (CreateBitOrPointerCast (CallResult r))
                                ([ConstantInt 0; ConstantInt (Z.of_nat Idx)] ++ Lane))
                 = Some (RPtr (FrameElem owner (Z.of_nat Idx :: lane)))).
  { cbn [eval]. rewrite Hr.
    rewrite (mapM_app_Some _ _ _ [RInt 0; RInt (Z.of_nat Idx)] (RInt <$> lane)) by done.
    unfold gep.
    change ([RInt 0; RInt (Z.of_nat Idx)] ++ (RInt <$> lane))
      with (RInt <$> (0 :: Z.of_nat Idx :: lane)).
    by rewrite mapM_as_int. }
  destruct (shared_by_reference DSI CI); [|exact Hgep].
  cbn [eval]. cbn [eval] in Hgep. by rewrite Hgep.
Qed.

Lemma exec_stores L DSI r owner Lane lane m0 caps : forall nv s vs,
  regs s r = Some (RPtr (FrameElem owner [])) ->
  (forall m, mapM (eval L (regs s) m) Lane = Some (RInt <$> lane)) ->
  (forall o p, mem s (FrameElem o p) = m0 (FrameElem o p)) ->
  mapM (resolved m0 DSI owner lane) caps = Some vs ->
  exec_instrs L (resolve_store DSI (CreateBitOrPointerCast (CallResult r)) Lane
                   <$> zip caps (args_addresses nv caps)) s
  = Some {| regs := regs s; mem := store_all (mem s) nv vs;
            script := script s; trace := trace s |}.
Proof.
  induction caps as [|CI caps IH]; intros nv s vs Hr HL Hm Hvs.
  - cbn in Hvs. injection Hvs as <-. cbn. by destruct s.
  - apply mapM_cons_inv in Hvs as (v & vs' & -> & Hv & Hvs).
    cbn [args_addresses zip zip_with fmap list_fmap exec_instrs].
    unfold resolve_store at 1. cbn [fst snd exec_instr].
    rewrite (eval_resolve_value L _ _ DSI r owner Lane lane) by done.
    rewrite (resolved_ext m0 (mem s)) by done. rewrite Hv. cbn [eval].
    rewrite IH with (vs := vs'); [reflexivity|exact Hr|exact HL| |exact Hvs].
    intros o p. cbn [mem]. rewrite mem_store_ne by done. apply Hm.
Qed.

Lemma eval_loads L rg caps : forall nv m vs,
  length vs = length caps ->
  mapM (eval L rg (store_all m nv vs)) (CreateLoad <$> args_addresses nv caps) = Some vs.
Proof.
  induction caps as [|CI caps IH]; intros nv m [|v vs] Hlen; try discriminate; [done|].
  cbn [args_addresses fmap list_fmap store_all].
  apply mapM_cons_Some.
  - cbn [eval]. rewrite store_all_below by lia. apply mem_store_eq.
  - apply IH. by injection Hlen.
Qed.

Lemma exec_frame_code L DSI ownerV owner Lane lane caps s vs r :
  (forall rg m, eval L rg m ownerV = Some (RInt owner)) ->
  (forall rg m, mapM (eval L rg m) Lane = Some (RInt <$> lane)) ->
  mapM (resolved (mem s) DSI owner lane) caps = Some vs ->
  exec_instrs L (frame_code DSI ownerV Lane (zip caps (args_addresses 0 caps)) r) s
  = Some {| regs := set_reg (regs s) r (RPtr (FrameElem owner []));
            mem := store_all (mem s) 0 vs; script := script s;
            trace := trace s ++ [EvCall get_frame [RInt owner]] |}.
Proof.
  intros Ho HL Hvs. unfold frame_code. cbn [exec_instrs exec_instr].
  rewrite (mapM_cons_Some _ _ _ (RInt owner) []) by done.
  cbn [call_effect set_result].
  erewrite exec_stores with (m0 := mem s) (vs := vs) (owner := owner) (lane := lane);
    [reflexivity| | |done|exact Hvs].
  - cbn [regs]. unfold set_reg. by rewrite Nat.eqb_refl.
  - intros m. apply HL.
Qed.

Lemma generateFunction_name {name rv body gs rt W} :
  generated (generateFunction name rv body) gs rt = Some W -> fn_name W = name.
Proof.
  unfold generated, generateFunction, start_state, getCGF, setCGF, mbind, Gen_bind, gen_bind.
  cbn [Globals RT CGF].
  destruct (body _) as [[[] s1]|]; [|done].
  destruct (FinishFunction s1) as [[[] s2]|]; [|done].
  cbn. by intros [= <-].
Qed.

Lemma eval_header L rg m D IsSimd :
  (IsSimd = true -> length (fn_args L) = 3%nat) ->
  mapM (eval L rg m) (Wrapper.Header D IsSimd) = Some (header_values D IsSimd L).
Proof.
  intros Hargs. unfold Wrapper.Header, header_values. destruct IsSimd.
  - specialize (Hargs eq_refl).
    destruct (fn_args L) as [|a0 [|a1 [|a2 [|]]]] eqn:Hfn; try discriminate.
    cbn. by rewrite Hfn.
  - by destruct (bool_decide _).
Qed.

Lemma bind_ext_l {A B} (m m' : Gen A) (k : A -> Gen B) s :
  m s = m' s -> (m ≫= k) s = (m' ≫= k) s.
Proof. intros H. unfold mbind, Gen_bind, gen_bind. by rewrite H. Qed.

(** At a level whose block the wrapper leaves empty, the captures need not be
    in the plan: the code that looks them up is not generated. *)
Lemma createDataSharingParallelWrapper_static D Fn CS ctx DSI IsSimd s :
  IsOrphaned (RT s) = false ->
  DataSharingInfoMap (RT s) !! ctx = Some DSI ->
  Forall (fun CI => supported CI = true) (cs_captures CS) ->
  (wrapper_level_emitted IsSimd (ParallelNestingLevel (RT s)) = true ->
   Forall (fun CI => capture_known DSI CI = true) (cs_captures CS)) ->
  createDataSharingParallelWrapper D Fn CS (Some ctx) IsSimd s
  = generateFunction (wrapper_name Fn) false
      (wrapper_code DSI D Fn (cs_captures CS) IsSimd) s.
Proof.
  intros Ho Hctx Hs Hk.
  destruct (wrapper_level_emitted IsSimd (ParallelNestingLevel (RT s))) eqn:Hlvl;
    [by apply createDataSharingParallelWrapper_eq; auto|]. clear Hk.
  unfold createDataSharingParallelWrapper.
  apply generateFunction_ext. destruct s as [gs rt c0]. cbn [Globals RT] in *.
  erewrite bind_Ok by (by apply gen_mapM_createArgsAddress).
  erewrite bind_Ok by (by apply getDataSharingInfo_eq).
  unfold wrapper_code. rewrite bind_modifyCGF.
  cbn [NextValueId StartFunction].
  apply bind_ext_l.
  unfold wrapper_level_emitted in Hlvl.
  destruct IsSimd;
    rewrite !emitParallelismLevelCode_static by exact Ho;
    cbv zeta; cbn [RT]; unfold level_of_nesting;
    destruct (ParallelNestingLevel rt =? 0), (ParallelNestingLevel rt =? 1);
    try discriminate Hlvl; reflexivity.
Qed.

Lemma wrapper_code_unused DSI D Fn caps IsSimd gs rt :
  IsOrphaned rt = false ->
  wrapper_level_emitted IsSimd (ParallelNestingLevel rt) = false ->
  fn_blocks <$> generated (generateFunction (wrapper_name Fn) false
                             (wrapper_code DSI D Fn caps IsSimd)) gs rt
  = Some (wrapper_blocks_at (level_of_nesting (ParallelNestingLevel rt)) [] Fn
            (Wrapper.Header D IsSimd ++ (CreateLoad <$> args_addresses 0 caps))).
Proof.
  destruct rt as [o pnl w wm dm fm cc]; cbn [IsOrphaned ParallelNestingLevel]; intros ->.
  unfold wrapper_level_emitted.
  destruct IsSimd, pnl as [|[p|p|]|p]; cbn; try discriminate; intros _; reflexivity.
Qed.

Lemma wrapper_blocks_at_no_lookup l Fn args W :
  fn_blocks W = wrapper_blocks_at l [] Fn args -> ~ looks_up_frame W.
Proof.
  intros HW (B & HB & Hcall). rewrite HW in HB. unfold wrapper_blocks_at in HB.
  repeat (apply elem_of_cons in HB as [->|HB]); [..|by apply elem_of_nil in HB];
    discriminate Hcall.
Qed.

(** The run of a wrapper whose level block holds the frame code. *)
Lemma wrapper_run D Fn CS ctx DSI IsSimd rt gs L s src vs :
  IsOrphaned rt = false ->
  wrapper_level_emitted IsSimd (ParallelNestingLevel rt) = true ->
  DataSharingInfoMap rt !! ctx = Some DSI ->
  Forall (fun CI => supported CI = true) (cs_captures CS) ->
  Forall (fun CI => capture_known DSI CI = true) (cs_captures CS) ->
  fn_args L !! 0%nat = Some (RInt src) ->
  (IsSimd = true -> length (fn_args L) = 3%nat) ->
  let pnl := ParallelNestingLevel rt in
  mapM (resolved (mem s) DSI (frame_owner pnl L) (frame_lane pnl src)) (cs_captures CS)
    = Some vs ->
  exists W s',
    generated (createDataSharingParallelWrapper D Fn CS (Some ctx) IsSimd) gs rt = Some W /\
    fn_name W = wrapper_name Fn /\
    looks_up_frame W /\
    steps 3 (fn_blocks W) L (At 0 s) = Returned None s' /\
    trace s' = trace s ++ [EvCall get_frame [RInt (frame_owner pnl L)];
                           EvCall (Function Fn) (header_values D IsSimd L ++ vs)].
Proof.
  intros Ho Hlvl Hctx Hs Hk Hsrc Hargs pnl Hvs.
  pose proof (wrapper_code_static DSI D Fn (cs_captures CS) IsSimd gs rt Ho Hlvl) as HW.
  assert (Heq : generated (createDataSharingParallelWrapper D Fn CS (Some ctx) IsSimd) gs rt
                = generated (generateFunction (wrapper_name Fn) false
                               (wrapper_code DSI D Fn (cs_captures CS) IsSimd)) gs rt).
  { unfold generated. by rewrite (createDataSharingParallelWrapper_eq D Fn CS ctx DSI). }
  destruct (generated (generateFunction _ _ _) gs rt) as [W|] eqn:HG; [|discriminate HW].
  cbn in HW. injection HW as HW. fold pnl in HW.
  set (ownerV := if pnl =? 0 then getMasterThreadID else getNVPTXThreadID) in HW.
  set (Lane := if pnl =? 0 then [] else [Argument 0]) in HW.
  assert (HoV : forall rg m, eval L rg m ownerV = Some (RInt (frame_owner pnl L))).
  { intros rg m. unfold ownerV, frame_owner. by destruct (pnl =? 0). }
  assert (HLane : forall rg m,
             mapM (eval L rg m) Lane = Some (RInt <$> frame_lane pnl src)).
  { intros rg m. unfold Lane, frame_lane. destruct (pnl =? 0); [done|].
    cbn. by rewrite Hsrc. }
  pose proof (exec_frame_code L DSI ownerV _ Lane _ (cs_captures CS) s vs
                (length (cs_captures CS)) HoV HLane Hvs) as Hcode.
  eexists W, _. split; [exact Heq|]. split; [exact (generateFunction_name HG)|].
  split.
  { eexists. rewrite HW. split.
    - apply list_elem_of_further, list_elem_of_here.
    - unfold block_calls, frame_code. cbn [bb_instrs existsb instr_calls].
      unfold get_frame. by rewrite bool_decide_eq_true_2. }
  rewrite HW. split.
  - unfold wrapper_blocks_at.
    run_block. cbn [bb_term exec_term].
    rewrite steps_S. erewrite step_block; [ | reflexivity | exact Hcode ].
    cbn [bb_term exec_term].
    rewrite steps_S. erewrite step_block; [ | reflexivity | ].
    + cbn [bb_term exec_term steps]. reflexivity.
    + cbn [bb_instrs exec_instrs exec_instr regs mem].
      erewrite mapM_app_Some;
        [ | apply eval_header; exact Hargs
          | apply eval_loads; by rewrite (length_mapM _ _ _ Hvs) ].
      cbn [call_effect]. reflexivity.
  - cbn [trace]. by rewrite <- app_assoc.
Qed.

(** The wrapper generated at a level whose block it leaves empty. *)
Lemma wrapper_unused D Fn CS ctx DSI IsSimd rt gs :
  IsOrphaned rt = false ->
  wrapper_level_emitted IsSimd (ParallelNestingLevel rt) = false ->
  DataSharingInfoMap rt !! ctx = Some DSI ->
  Forall (fun CI => supported CI = true) (cs_captures CS) ->
  exists W,
    generated (createDataSharingParallelWrapper D Fn CS (Some ctx) IsSimd) gs rt = Some W /\
    fn_name W = wrapper_name Fn /\
    fn_blocks W
    = wrapper_blocks_at (level_of_nesting (ParallelNestingLevel rt)) [] Fn
        (Wrapper.Header D IsSimd ++ (CreateLoad <$> args_addresses 0 (cs_captures CS))) /\
    ~ looks_up_frame W.
Proof.
  intros Ho Hlvl Hctx Hs.
  pose proof (wrapper_code_unused DSI D Fn (cs_captures CS) IsSimd gs rt Ho Hlvl) as HW.
  assert (Heq : generated (createDataSharingParallelWrapper D Fn CS (Some ctx) IsSimd) gs rt
                = generated (generateFunction (wrapper_name Fn) false
                               (wrapper_code DSI D Fn (cs_captures CS) IsSimd)) gs rt).
  { unfold generated, start_state.
    rewrite (createDataSharingParallelWrapper_static D Fn CS ctx DSI); [done..|].
    cbn [RT]. by rewrite Hlvl. }
  destruct (generated (generateFunction _ _ _) gs rt) as [W|] eqn:HG; [|discriminate HW].
  cbn in HW. injection HW as HW.
  exists W. split; [exact Heq|]. split; [exact (generateFunction_name HG)|].
  split; [exact HW|]. by eapply wrapper_blocks_at_no_lookup.
Qed.

(** C7 (as claimed, for every generated wrapper): a wrapper is generated for
    every outlined region, whatever the nesting level of its context.  The
    wrapper of a parallel region in a context at nesting level 2, and the
    wrapper of a simd region in a context at nesting level 0, ask for no data
    sharing frame: the block of their level is empty, and the outlined
    function is called with what temporaries that were never set hold, so
    that a run of the wrapper has no defined effect. *)
Theorem C7_counterexample_wrapper_without_frame_lookup :
  (exists W,
     generated (createDataSharingParallelWrapper OMPD_parallel "outlined" one_region_stmt
                  (Some 0%nat) false) [] (set_nesting 2 planned_runtime) = Some W /\
     fn_blocks W
     = wrapper_blocks_at AtSequential [] "outlined"
         [NullValue; NullValue; CreateLoad (AllocaAddr 0 "var.addr");
          CreateLoad (AllocaAddr 1 "var.addr")] /\
     ~ looks_up_frame W /\
     steps 3 (fn_blocks W) wrapper_lane (At 0 wrapper_state) = Fault) /\
  (exists W,
     generated (createDataSharingParallelWrapper OMPD_simd "outlined" one_region_stmt
                  (Some 0%nat) true) [] planned_runtime = Some W /\
     fn_blocks W
     = wrapper_blocks_at AtLevel0 [] "outlined"
         [Argument 1; Argument 2; CreateLoad (AllocaAddr 0 "var.addr");
          CreateLoad (AllocaAddr 1 "var.addr")] /\
     ~ looks_up_frame W).
Proof.
  split.
  - eexists. split; [vm_compute; reflexivity|]. cbn [fn_blocks].
    split; [reflexivity|]. split; [|reflexivity].
    by eapply (wrapper_blocks_at_no_lookup AtSequential).
  - eexists. split; [vm_compute; reflexivity|]. cbn [fn_blocks].
    split; [reflexivity|]. by eapply (wrapper_blocks_at_no_lookup AtLevel0).
Qed.

(** C7 (amended): a wrapper is generated for every outlined region whose
    captures are neither by copy nor of a variable array type and whose
    context has a plan.  It takes a source lane (for simd also the lane-id
    and lane-count cells).  When the context is at nesting level 0 or 1 (for
    simd: level 1 only) and the plan holds the captures: a lane that runs it with source lane [src] asks the
    runtime for the frame of the master thread (level 0) or of the thread
    itself (level 1), and then calls the outlined function with two null
    pointers (for simd: with the lane-id and lane-count cells it was given)
    followed by one argument per capture: the address of the capture's field
    in that frame (at level 1 the element [src] of the field), or what the
    field holds when the capture is shared by reference.  At any other level
    the block of the level is empty: the wrapper asks for no frame, and only
    calls the outlined function with what its temporaries hold. *)
Theorem C7_wrapper_resolves_the_captures D Fn CS ctx DSI IsSimd rt gs :
  IsOrphaned rt = false ->
  DataSharingInfoMap rt !! ctx = Some DSI ->
  Forall (fun CI => supported CI = true) (cs_captures CS) ->
  let pnl := ParallelNestingLevel rt in
  (wrapper_level_emitted IsSimd pnl = true ->
   Forall (fun CI => capture_known DSI CI = true) (cs_captures CS) ->
   forall L s src vs,
     fn_args L !! 0%nat = Some (RInt src) ->
     (IsSimd = true -> length (fn_args L) = 3%nat) ->
     mapM (resolved (mem s) DSI (frame_owner pnl L) (frame_lane pnl src)) (cs_captures CS)
       = Some vs ->
     exists W s',
       generated (createDataSharingParallelWrapper D Fn CS (Some ctx) IsSimd) gs rt = Some W /\
       fn_name W = wrapper_name Fn /\
       looks_up_frame W /\
       steps 3 (fn_blocks W) L (At 0 s) = Returned None s' /\
       trace s' = trace s ++ [EvCall get_frame [RInt (frame_owner pnl L)];
                              EvCall (Function Fn) (header_values D IsSimd L ++ vs)]) /\
  (wrapper_level_emitted IsSimd pnl = false ->
   exists W,
     generated (createDataSharingParallelWrapper D Fn CS (Some ctx) IsSimd) gs rt = Some W /\
     fn_name W = wrapper_name Fn /\
     fn_blocks W
     = wrapper_blocks_at (level_of_nesting pnl) [] Fn
         (Wrapper.Header D IsSimd ++ (CreateLoad <$> args_addresses 0 (cs_captures CS))) /\
     ~ looks_up_frame W).
Proof.
  intros Ho Hctx Hs pnl. split.
  - intros Hlvl Hk L s src vs Hsrc Hargs Hvs. by eapply wrapper_run.
  - intros Hlvl. by eapply wrapper_unused.
Qed.

Lemma C7_witness :
  (exists W s',
     generated (createDataSharingParallelWrapper OMPD_parallel "outlined" one_region_stmt
                  (Some 0%nat) false) [] planned_runtime = Some W /\
     fn_name W = "outlined_wrapper" /\
     looks_up_frame W /\
     steps 3 (fn_blocks W) wrapper_lane (At 0 wrapper_state) = Returned None s' /\
     trace s' = [EvCall get_frame [RInt 96];
                 EvCall (Function "outlined")
                        [RNull; RNull; RPtr (FrameElem 96 [0]); y_referent]]) /\
  (exists W,
     generated (createDataSharingParallelWrapper OMPD_parallel "outlined" one_region_stmt
                  (Some 0%nat) false) [] (set_nesting 2 planned_runtime) = Some W /\
     ~ looks_up_frame W).
Proof.
  split.
  - destruct (C7_wrapper_resolves_the_captures OMPD_parallel "outlined" one_region_stmt 0%nat
                one_region_plan false planned_runtime [])
      as [Hrun _]; [reflexivity | reflexivity | repeat constructor |].
    apply (Hrun eq_refl ltac:(repeat constructor) wrapper_lane wrapper_state 96
             [RPtr (FrameElem 96 [0]); y_referent]);
      [reflexivity | discriminate | vm_compute; reflexivity].
  - destruct (C7_wrapper_resolves_the_captures OMPD_parallel "outlined" one_region_stmt 0%nat
                one_region_plan false (set_nesting 2 planned_runtime) [])
      as [_ Hun]; [reflexivity | reflexivity | repeat constructor |].
    destruct (Hun eq_refl) as (W & HW & _ & _ & Hno). by exists W.
Defined.

(** ** Simd calls *)

Lemma createDataSharingPerFunctionInfrastructure_eq F CD DSI gs rt c :
  CurCodeDecl F = Some CD ->
  DataSharingInfoMap rt !! decl_id CD = Some DSI ->
  exists rt',
    createDataSharingPerFunctionInfrastructure F {| Globals := gs; RT := rt; CGF := c |}
    = Ok (tt, {| Globals := gs; RT := rt'; CGF := c |}) /\
    IsOrphaned rt' = IsOrphaned rt /\
    ParallelNestingLevel rt' = ParallelNestingLevel rt /\
    Work rt' = Work rt.
Proof.
  intros HF HD. unfold createDataSharingPerFunctionInfrastructure. rewrite HF.
  rewrite (bind_Ok _ _ _ _ _ eq_refl).
  erewrite bind_Ok by (by apply getDataSharingInfo_eq).
  destruct (bool_decide (CapturesValues DSI = [])); [by exists rt|].
  unfold getCGF at 1. rewrite (bind_Ok _ _ _ _ _ eq_refl).
  unfold getRT at 1. rewrite (bind_Ok _ _ _ _ _ eq_refl). cbn [CGF RT].
  destruct (InitializationFunction _); [by exists rt|].
  eexists. split; [reflexivity|]. by destruct rt.
Qed.

Lemma emitSimdCall_eq F CD DSI gs rt Fn WFn cv :
  CurCodeDecl F = Some CD ->
  DataSharingInfoMap rt !! decl_id CD = Some DSI ->
  WrapperFunctionsMap rt !! Fn = Some WFn ->
  exists rt',
    emitSimdCall F Fn cv (start_state gs rt false)
    = emitParallelismLevelCode (SimdCall.SeqGen Fn cv) (SimdCall.L1SimdGen WFn)
        (SimdCall.SeqGen Fn cv) (start_state gs rt' false) /\
    IsOrphaned rt' = IsOrphaned rt /\
    ParallelNestingLevel rt' = ParallelNestingLevel rt.
Proof.
  intros HF HD HW.
  destruct (createDataSharingPerFunctionInfrastructure_eq F CD DSI gs rt
              (StartFunction "f" false) HF HD) as (rt' & Hinfra & Ho & Hp & _).
  exists rt'. split; [|done].
  unfold emitSimdCall, start_state.
  unfold getCGF at 1. rewrite (bind_Ok _ _ _ _ _ eq_refl). cbn [CGF].
  change (negb (HaveInsertPoint (StartFunction "f" false))) with false. cbn iota.
  unfold getRT at 1. rewrite (bind_Ok _ _ _ _ _ eq_refl). cbn [RT]. rewrite HW.
  by rewrite (bind_Ok _ _ _ _ _ Hinfra).
Qed.

Ltac solve_elem_of :=
  repeat (apply elem_of_cons; first [left; reflexivity | right]).

Lemma simd_dispatch_shape gs rt Fn WFn cv :
  simd_call_shape rt (simd_dispatch gs rt Fn WFn cv) Fn cv.
Proof.
  destruct rt as [o pnl w wm dm fm cc].
  unfold simd_call_shape, expected_guard. cbn [IsOrphaned ParallelNestingLevel].
  destruct o.
  - set (F := simd_dispatch _ _ _ _ _). vm_compute in F. subst F.
    split; [reflexivity|]. split.
    { intros l. destruct l; split; intros _; by eexists. }
    split.
    { intros l B Hl HB. destruct l; [|congruence|]; vm_compute in HB; injection HB as <-.
      - exists 0%nat, 1%nat. repeat split; first [reflexivity | solve_elem_of].
      - exists 8%nat, 9%nat. repeat split; first [reflexivity | solve_elem_of]. }
    split; [reflexivity|].
    intros B HB. vm_compute in HB. injection HB as <-. split; reflexivity.
  - destruct pnl as [|[p|p|]|p];
      set (F := simd_dispatch _ _ _ _ _); vm_compute in F; subst F;
      (split; [reflexivity|]);
      (split; [intros l; destruct l; vm_compute; split; intros [? ?]; by eauto|]);
      (split; [intros l B Hl HB; destruct l; try congruence; vm_compute in HB;
               try discriminate HB; injection HB as <-;
               exists 0%nat, 1%nat; repeat split; first [reflexivity | solve_elem_of]|]);
      (split; [reflexivity|]);
      intros B HB; vm_compute in HB; try discriminate HB; injection HB as <-;
      split; reflexivity.
Qed.

Lemma simd_wrapper_has_shape D Fn CS ctx DSI gs rt W :
  DataSharingInfoMap rt !! ctx = Some DSI ->
  Forall (fun CI => supported CI = true) (cs_captures CS) ->
  Forall (fun CI => capture_known DSI CI = true) (cs_captures CS) ->
  generated (createDataSharingParallelWrapper D Fn CS (Some ctx) true) gs rt = Some W ->
  simd_wrapper_shape rt DSI Fn (cs_captures CS) (fn_blocks W).
Proof.
  intros Hctx Hs Hk HG. unfold generated in HG.
  rewrite (createDataSharingParallelWrapper_eq D Fn CS ctx DSI) in HG by done.
  clear Hctx. destruct rt as [o pnl w wm dm fm cc].
  unfold simd_wrapper_shape, expected_guard. cbn [IsOrphaned ParallelNestingLevel].
  destruct o; [|destruct pnl as [|[p|p|]|p]];
    vm_compute in HG; injection HG as <-; cbn [fn_blocks];
    (split; [intros l; destruct l; vm_compute; split; intros [? ?]; by eauto|]);
    (split; [intros B HB Hcall;
             repeat (apply elem_of_cons in HB as [->|HB]);
             [..|by apply elem_of_nil in HB];
             first [reflexivity | vm_compute in Hcall; discriminate Hcall]|]);
    (split; [intros l B Hl HB; destruct l; try congruence; vm_compute in HB;
             try discriminate HB; by injection HB as <-|]);
    (split; [intros B HB; vm_compute in HB; try discriminate HB; injection HB as <-;
             vm_compute; reflexivity|]);
    eexists; (split; [vm_compute; reflexivity|]); split; vm_compute; reflexivity.
Qed.

(** C10: the code of a simd call never prepares a parallel region for the
    workers; the blocks of level 0 and of the sequential level only call the
    outlined simd function on the spot, with a lane id cell initialized to 0
    and a lane count cell initialized to 1, and go on to the continuation;
    the loop around [__kmpc_kernel_convergent_simd] is entered from the level
    1 block and exists only when that block does.  The wrapper of a simd
    region has the level blocks of the dispatch; it asks for a data sharing
    frame in its level 1 block alone, where it resolves every capture in the
    frame of the lane itself at the element of the source lane; its blocks
    for the other levels are empty; and it ends with the call of the outlined
    function on the two cells it was given and the resolved captures.  In a
    context at nesting level 1 a lane that runs the wrapper asks for its own
    frame and calls the outlined function with the captures resolved in it;
    at any other level the wrapper asks for no frame. *)
Theorem C10_simd_dispatch_and_wrapper EnclosingCGF CD DSI rt gs Fn WFn CapturedVars :
  CurCodeDecl EnclosingCGF = Some CD ->
  DataSharingInfoMap rt !! decl_id CD = Some DSI ->
  WrapperFunctionsMap rt !! Fn = Some WFn ->
  simd_call_shape rt
    (emitted_blocks (emitSimdCall EnclosingCGF Fn CapturedVars (start_state gs rt false)))
    Fn CapturedVars /\
  (forall D CS ctx DSI' W,
     DataSharingInfoMap rt !! ctx = Some DSI' ->
     Forall (fun CI => supported CI = true) (cs_captures CS) ->
     Forall (fun CI => capture_known DSI' CI = true) (cs_captures CS) ->
     generated (createDataSharingParallelWrapper D Fn CS (Some ctx) true) gs rt = Some W ->
     simd_wrapper_shape rt DSI' Fn (cs_captures CS) (fn_blocks W)) /\
  (forall D CS ctx DSI' L s src vs,
     IsOrphaned rt = false ->
     ParallelNestingLevel rt = 1 ->
     DataSharingInfoMap rt !! ctx = Some DSI' ->
     Forall (fun CI => supported CI = true) (cs_captures CS) ->
     Forall (fun CI => capture_known DSI' CI = true) (cs_captures CS) ->
     fn_args L !! 0%nat = Some (RInt src) ->
     length (fn_args L) = 3%nat ->
     mapM (resolved (mem s) DSI' (tid_x L) [src]) (cs_captures CS) = Some vs ->
     exists W s',
       generated (createDataSharingParallelWrapper D Fn CS (Some ctx) true) gs rt = Some W /\
       steps 3 (fn_blocks W) L (At 0 s) = Returned None s' /\
       trace s' = trace s ++ [EvCall get_frame [RInt (tid_x L)];
                              EvCall (Function Fn) (drop 1 (fn_args L) ++ vs)]) /\
  (forall D CS ctx DSI',
     IsOrphaned rt = false ->
     ParallelNestingLevel rt <> 1 ->
     DataSharingInfoMap rt !! ctx = Some DSI' ->
     Forall (fun CI => supported CI = true) (cs_captures CS) ->
     exists W,
       generated (createDataSharingParallelWrapper D Fn CS (Some ctx) true) gs rt = Some W /\
       ~ looks_up_frame W).
Proof.
  intros HF HD HW. split; [|split; [|split]].
  - destruct (emitSimdCall_eq EnclosingCGF CD DSI gs rt Fn WFn CapturedVars HF HD HW)
      as (rt' & -> & Ho & Hp).
    pose proof (simd_dispatch_shape gs rt' Fn WFn CapturedVars) as Hshape.
    unfold simd_call_shape, expected_guard in *. by rewrite Ho, Hp in Hshape.
  - intros D CS ctx DSI' W. apply simd_wrapper_has_shape.
  - intros D CS ctx DSI' L s src vs Ho Hp Hctx Hs Hk Hsrc Hlen Hvs.
    destruct (wrapper_run D Fn CS ctx DSI' true rt gs L s src vs) as (W & s' & H);
      try done.
    + by rewrite Hp.
    + by rewrite Hp.
    + rewrite Hp in H. exists W, s'. tauto.
  - intros D CS ctx DSI' Ho Hp Hctx Hs.
    destruct (wrapper_unused D Fn CS ctx DSI' true rt gs) as (W & H); try done.
    + unfold wrapper_level_emitted. cbn [negb andb]. rewrite orb_false_r.
      by apply Z.eqb_neq.
    + exists W. tauto.
Qed.

Lemma C10_witness :
  simd_call_shape (simd_runtime false 1)
    (emitted_blocks (emitSimdCall one_region "simd_fn" []
                       (start_state [] (simd_runtime false 1) false)))
    "simd_fn" [] /\
  (exists W,
     generated (createDataSharingParallelWrapper OMPD_simd "simd_fn" one_region_stmt
                  (Some 0%nat) true) [] (simd_runtime false 1) = Some W /\
     simd_wrapper_shape (simd_runtime false 1) one_region_plan "simd_fn"
       (cs_captures one_region_stmt) (fn_blocks W)) /\
  (exists W s',
     generated (createDataSharingParallelWrapper OMPD_simd "simd_fn" one_region_stmt
                  (Some 0%nat) true) [] (simd_runtime false 1) = Some W /\
     steps 3 (fn_blocks W) simd_wrapper_lane (At 0 simd_wrapper_state) = Returned None s' /\
     trace s' = [EvCall get_frame [RInt 37];
                 EvCall (Function "simd_fn")
                        [RPtr (StackSlot 7); RPtr (StackSlot 8);
                         RPtr (FrameElem 37 [0; 3]); y_referent]]).
Proof.
  destruct (C10_simd_dispatch_and_wrapper one_region (CapturedDecl 0%nat (context_body one_region))
              one_region_plan (simd_runtime false 1) [] "simd_fn" "simd_fn_wrapper" [])
    as (Hcall & Hwrapper & Hrun & _); [reflexivity..|].
  split; [exact Hcall|]. split.
  - eexists. split; [vm_compute; reflexivity|].
    eapply (Hwrapper OMPD_simd one_region_stmt 0%nat one_region_plan);
      [reflexivity | repeat constructor | repeat constructor | vm_compute; reflexivity].
  - apply (Hrun OMPD_simd one_region_stmt 0%nat one_region_plan simd_wrapper_lane
             simd_wrapper_state 3 [RPtr (FrameElem 37 [0; 3]); y_referent]);
      [reflexivity | reflexivity | reflexivity | repeat constructor | repeat constructor
      | reflexivity | reflexivity | vm_compute; reflexivity].
Defined.

(** ** The worker loop of a kernel *)

(** C4 (as claimed): the worker loop of the second of two kernels also
    matches the work function against the wrapper dispatched by the first
    kernel: handed that address, a worker of the second kernel calls the
    wrapper, although the entry function of its kernel dispatches
    [outlined2_wrapper] alone. *)
Theorem C4_counterexample_worker_matches_earlier_kernel :
  exists k1 k2,
    two_kernels = Some (k1, k2) /\
    dispatched (fn_blocks (k_entry k2)) = ["outlined2_wrapper"] /\
    ~ matches_this_kernel_only k2.
Proof.
  eexists _, _. split; [vm_compute; reflexivity|]. split; [reflexivity|].
  match goal with |- ~ matches_this_kernel_only ?k => set (k2 := k) end.
  intros Hclaim.
  assert (Hrun : exists s',
    steps 6 (fn_blocks (k_worker k2)) worker_lane_5
          (At 1 (idle_worker [RespKernelParallel (RFn "outlined1_wrapper") true]))
    = At 1 s' /\ calls_function "outlined1_wrapper" (trace s') = true)
    by (eexists; split; reflexivity).
  destruct Hrun as (s' & Hsteps & Hcall).
  destruct (Hclaim worker_lane_5
              (idle_worker [RespKernelParallel (RFn "outlined1_wrapper") true])
              "outlined1_wrapper" [] 6%nat s' eq_refl Hsteps Hcall) as [Hbefore|Hin].
  - discriminate Hbefore.
  - cbn in Hin. apply elem_of_cons in Hin as [Hin|Hin]; [discriminate Hin|].
    by apply elem_of_nil in Hin.
Qed.

(** C4 (amended): one iteration of the generated worker loop.  The worker
    waits at the barrier and reads the work function and its activity flag
    with [__kmpc_kernel_parallel].  If the work function is null it returns
    after these two calls, in two steps, and stays returned.  Otherwise, if it
    is active, it compares the work function in order with the wrappers in
    the code generator's [Work] list, which holds the wrappers of all the
    parallel regions dispatched at level 0 so far, calls the first one that
    matches with the master's thread id, and signals the end of the parallel
    region; active or not, it then crosses a second barrier and is back at
    the await block. *)
Theorem C4_worker_loop_iteration name gs rt L s fn active rest :
  script s = RespKernelParallel fn active :: rest ->
  exists W n s',
    generated (emitWorkerFunction name) gs rt = Some W /\
    steps n (fn_blocks W) L (At 1 s)
      = (if bool_decide (fn = RNull) then Returned None s' else At 1 s') /\
    trace s' = trace s ++ iteration_events L (Work rt) fn active /\
    script s' = rest /\
    (fn = RNull ->
     n = 2%nat /\ forall m, steps m (fn_blocks W) L (Returned None s') = Returned None s').
Proof.
  intros Hsc.
  pose proof (emitWorkerFunction_blocks name gs rt) as HW.
  destruct (generated (emitWorkerFunction name) gs rt) as [W|]; [|discriminate HW].
  cbn in HW. injection HW as HW.
  destruct (worker_iteration (Work rt) L s fn active rest Hsc) as (n & s' & Hrun & Htr & Hrest & Hn).
  exists W, n, s'. rewrite HW. repeat split; try done.
  - by apply Hn.
  - intros m. apply steps_Returned_any.
Qed.

Lemma C4_witness :
  exists W n s',
    generated (emitWorkerFunction "kernel2_worker") [] runtime_after_two_kernels = Some W /\
    steps n (fn_blocks W) worker_lane_5
          (At 1 (idle_worker [RespKernelParallel (RFn "outlined2_wrapper") true]))
      = At 1 s' /\
    trace s' = [EvCall nvvm_barrier0 [];
                EvCall (RuntimeFunction OMPRTL_NVPTX__kmpc_kernel_parallel) [RPtr (StackSlot 0)];
                EvCall (Function "outlined2_wrapper") [RInt 32];
                EvCall (RuntimeFunction OMPRTL_NVPTX__kmpc_kernel_end_parallel) [];
                EvCall nvvm_barrier0 []] /\
    script s' = [] /\
    (RFn "outlined2_wrapper" = RNull ->
     n = 2%nat /\ forall m, steps m (fn_blocks W) worker_lane_5 (Returned None s')
                            = Returned None s').
Proof.
  apply (C4_worker_loop_iteration "kernel2_worker" [] runtime_after_two_kernels worker_lane_5
           (idle_worker [RespKernelParallel (RFn "outlined2_wrapper") true])
           (RFn "outlined2_wrapper") true []).
  reflexivity.
Defined.

(** ** The parallelism level around an outlined region *)

Lemma increaseParallelismLevel_eq IsSimd gs rt c :
  increaseParallelismLevel IsSimd {| Globals := gs; RT := rt; CGF := c |}
  = Ok (tt, {| Globals := declare_levels gs; RT := rt;
               CGF := emitInstr (increase_code IsSimd) c |}).
Proof. by destruct IsSimd. Qed.

Lemma decreaseParallelismLevel_eq IsSimd gs rt c :
  decreaseParallelismLevel IsSimd {| Globals := gs; RT := rt; CGF := c |}
  = Ok (tt, {| Globals := declare_levels gs; RT := rt;
               CGF := emitInstr (decrease_code IsSimd) c |}).
Proof. by destruct IsSimd. Qed.

Lemma signed32_small z : 0 <= z < 2 ^ 31 -> signed32 z = z.
Proof. intros [H0 H1]. unfold signed32. apply Z.ltb_lt in H1. by rewrite H1. Qed.

(** C2 (code bug): the array of the parallelism levels has 992 elements, the
    number of worker threads the source comment assumes, but it is indexed by
    the thread id of whatever lane runs the code.  The master lane of a block
    of 1024 threads has thread id 992: it has no counter that is 0 at kernel
    start, and the entry code of a parallel region, which takes the counter
    of lane 5 from 0 to 1, has no defined effect for it. *)
Theorem C2_master_of_full_block_has_no_counter :
  tid_x master_of_1024 = master_tid master_of_1024 /\
  0 <= tid_x master_of_1024 < ntid_x master_of_1024 /\
  exists st,
    increaseParallelismLevel false (start_state [] initial_runtime false) = Ok (tt, st) /\
    Globals st = [levels_global] /\
    gv_length levels_global = DS_Max_Worker_Threads /\
    initial_memory (Globals st) (level_cell master_of_1024) = None /\
    step (Blocks (CGF st)) master_of_1024 (At 0 (initial_state (Globals st) [])) = Fault /\
    (exists s1,
       step (Blocks (CGF st)) worker_lane_5 (At 0 (initial_state (Globals st) []))
       = Stopped 0 s1 /\
       mem s1 (level_cell worker_lane_5) = Some (RInt 1)) /\
    ~ level_counter_works (Globals st) master_of_1024.
Proof.
  split; [reflexivity|]. split; [by vm_compute|].
  eexists. split; [unfold start_state; by rewrite increaseParallelismLevel_eq|].
  cbn [Globals CGF Blocks].
  split; [reflexivity|]. split; [reflexivity|]. split; [reflexivity|].
  split; [reflexivity|]. split.
  - eexists. split; [reflexivity|]. reflexivity.
  - intros [Hzero _]. discriminate Hzero.
Qed.

(** ** Thread identifiers within a block *)

Ltac solve_bound := vm_compute; repeat split; first [reflexivity | discriminate].

Lemma eval_getNVPTXWarpID L rg m :
  0 <= tid_x L < 2 ^ 31 ->
  eval L rg m getNVPTXWarpID = Some (RInt (tid_x L / DS_Max_Worker_Warp_Size)).
Proof.
  intros Ht. unfold getNVPTXWarpID, getNVPTXThreadID.
  cbn [eval read_sreg eval_binop fmap option_fmap option_map].
  rewrite signed32_small by exact Ht.
  change DS_Max_Worker_Warp_Size_Log2 with 5. change DS_Max_Worker_Warp_Size with 32.
  rewrite Z.shiftr_div_pow2 by lia. change (2 ^ 5) with 32.
  assert (0 <= tid_x L / 32 < 2 ^ 32).
  { split; [apply Z.div_pos; lia|]. apply Z.div_lt_upper_bound; lia. }
  by rewrite wrap32_small.
Qed.

(** X1: the warp id and the lane id generated for a thread decompose its
    thread id: the warp id is the thread id divided by 32, the lane id is the
    remainder, so that threadId = 32 * warpId + laneId with laneId below
    32. *)
Theorem X1_warp_id_and_lane_id_decompose_thread_id L rg m :
  0 <= tid_x L < 2 ^ 31 ->
  eval L rg m getNVPTXWarpID = Some (RInt (tid_x L / DS_Max_Worker_Warp_Size)) /\
  eval L rg m getNVPTXThreadWarpID = Some (RInt (tid_x L mod DS_Max_Worker_Warp_Size)) /\
  0 <= tid_x L mod DS_Max_Worker_Warp_Size < DS_Max_Worker_Warp_Size /\
  tid_x L = DS_Max_Worker_Warp_Size * (tid_x L / DS_Max_Worker_Warp_Size)
            + tid_x L mod DS_Max_Worker_Warp_Size.
Proof.
  intros Ht. split; [by apply eval_getNVPTXWarpID|].
  unfold getNVPTXThreadWarpID, getNVPTXThreadID.
  cbn [eval read_sreg eval_binop fmap option_fmap option_map].
  rewrite warp_mask_is_31, Z.land_ones by lia.
  change DS_Max_Worker_Warp_Size with 32. change (2 ^ 5) with 32.
  repeat split; try reflexivity.
  - apply Z.mod_pos_bound; lia.
  - apply Z.mod_pos_bound; lia.
  - apply Z.div_mod; lia.
Qed.

Lemma X1_witness :
  eval worker_lane_5 no_state no_memory getNVPTXWarpID = Some (RInt (5 / 32)) /\
  eval worker_lane_5 no_state no_memory getNVPTXThreadWarpID = Some (RInt (5 mod 32)).
Proof.
  destruct (X1_warp_id_and_lane_id_decompose_thread_id worker_lane_5 no_state no_memory)
    as (Hw & Hl & _); [solve_bound|].
  split; [exact Hw | exact Hl].
Defined.

Lemma eval_getTeamThreadId L rg m :
  1 <= master_tid L ->
  eval L rg m getTeamThreadId = Some (RInt (Z.land (tid_x L) (master_tid L - 1))).
Proof.
  intros HM. unfold getTeamThreadId. cbn [eval]. rewrite eval_getMasterThreadID.
  cbn [getNVPTXThreadID eval read_sreg eval_binop fmap option_fmap option_map].
  destruct (Z.ltb_spec (master_tid L) 1); [lia|]. reflexivity.
Qed.

Lemma master_tid_lane_of_block N W b t :
  master_tid (lane_of_block N W b t) = master_tid (lane_of_block N W 0 0).
Proof. reflexivity. Qed.

Lemma master_tid_at_least_warp L k :
  warpsize L = 2 ^ k -> 0 <= k < 32 -> warpsize L < ntid_x L < 2 ^ 32 ->
  warpsize L <= master_tid L.
Proof.
  intros HW Hk HN.
  assert (HWpos : 0 < warpsize L) by (rewrite HW; apply Z.pow_pos_nonneg; lia).
  destruct (master_tid_formula L k HW Hk) as [_ HM]; [lia|]. rewrite HM.
  assert (1 <= (ntid_x L - 1) / warpsize L); [|nia].
  apply Z.div_le_lower_bound; lia.
Qed.

Lemma land_complement x n :
  0 <= n -> 0 <= x < 2 ^ n -> Z.land (2 ^ n - 1 - x) x = 0.
Proof.
  intros Hn Hx.
  assert (Hc : 2 ^ n - 1 - x = Z.land (Z.lnot x) (Z.ones n)).
  { rewrite Z.land_ones by lia. unfold Z.lnot.
    apply (Z.mod_unique_pos _ _ (-1)); lia. }
  rewrite Hc. apply Z.bits_inj'. intros i Hi.
  rewrite !Z.land_spec, Z.lnot_spec, Z.bits_0 by lia.
  by destruct (Z.testbit x i), (Z.testbit (Z.ones n) i).
Qed.

Lemma land_pow2_pred t j : 0 <= j -> 0 <= t < 2 ^ j -> Z.land t (2 ^ j - 1) = t.
Proof.
  intros Hj Ht. replace (2 ^ j - 1) with (Z.ones j) by (rewrite Z.ones_equiv; lia).
  rewrite Z.land_ones by lia. by apply Z.mod_small.
Qed.

(** X2: the team-relative thread id the code generates, threadId &
    (MasterThreadId - 1), gives every thread below the master its own id
    exactly when the master thread id is a power of two, as the source
    expects; for any other master thread id two distinct threads below the
    master get the same team-relative id. *)
Theorem X2_team_thread_id_needs_power_of_two_master N W k :
  W = 2 ^ k -> 0 <= k < 32 -> W < N < 2 ^ 32 ->
  let M := master_tid (lane_of_block N W 0 0) in
  let team b t rg m := eval (lane_of_block N W b t) rg m getTeamThreadId in
  ((exists j, M = 2 ^ j) ->
   forall b t rg m, 0 <= t < M -> team b t rg m = Some (RInt t)) /\
  (~ (exists j, M = 2 ^ j) ->
   exists t t', 0 <= t' < t /\ t < M /\
     forall b rg m, team b t rg m = team b t' rg m).
Proof.
  intros HW Hk HN M team.
  assert (HWpos : 0 < W) by (rewrite HW; apply Z.pow_pos_nonneg; lia).
  assert (HM : W <= M).
  { apply (master_tid_at_least_warp (lane_of_block N W 0 0) k);
      cbn [warpsize ntid_x lane_of_block]; [exact HW|lia|lia]. }
  assert (Hteam : forall b t rg m, team b t rg m = Some (RInt (Z.land t (M - 1)))).
  { intros b t rg m. unfold team. rewrite eval_getTeamThreadId.
    - by rewrite master_tid_lane_of_block.
    - rewrite master_tid_lane_of_block. fold M. lia. }
  split.
  - intros [j Hj] b t rg m Ht. rewrite Hteam, Hj.
    assert (0 <= j).
    { destruct (Z.lt_ge_cases j 0) as [Hneg|]; [|lia].
      rewrite (Z.pow_neg_r 2 j Hneg) in Hj. lia. }
    rewrite land_pow2_pred by lia. reflexivity.
  - intros Hnot.
    set (j := Z.log2 M).
    destruct (Z.log2_spec M) as [Hlo Hhi]; [lia|]. fold j in Hlo, Hhi.
    assert (Hj : 0 <= j) by apply Z.log2_nonneg.
    assert (2 ^ j <> M) by (intros Heq; apply Hnot; by exists j).
    replace (Z.succ j) with (j + 1) in Hhi by lia.
    assert (Hpow : 2 ^ (j + 1) = 2 * 2 ^ j) by (rewrite Z.pow_add_r by lia; lia).
    exists (2 ^ (j + 1) - M), 0. split; [lia|]. split; [lia|].
    intros b rg m. rewrite !Hteam. rewrite Z.land_0_l.
    replace (2 ^ (j + 1) - M) with (2 ^ (j + 1) - 1 - (M - 1)) by lia.
    rewrite land_complement by lia. reflexivity.
Qed.

Lemma X2_witness :
  (forall b t rg m, 0 <= t < 32 ->
     eval (lane_of_block 64 32 b t) rg m getTeamThreadId = Some (RInt t)) /\
  exists t t', 0 <= t' < t /\ t < 96 /\
    forall b rg m, eval (lane_of_block 128 32 b t) rg m getTeamThreadId
                   = eval (lane_of_block 128 32 b t') rg m getTeamThreadId.
Proof.
  split.
  - apply (proj1 (X2_team_thread_id_needs_power_of_two_master 64 32 5 eq_refl
                    ltac:(lia) ltac:(lia))).
    by exists 5.
  - apply (proj2 (X2_team_thread_id_needs_power_of_two_master 128 32 5 eq_refl
                    ltac:(lia) ltac:(lia))).
    intros [j Hj]. change (master_tid (lane_of_block 128 32 0 0)) with 96 in Hj.
    destruct (Z.lt_ge_cases j 0) as [Hneg|Hpos].
    + rewrite (Z.pow_neg_r 2 j Hneg) in Hj. lia.
    + destruct (Z.le_gt_cases 7 j) as [Hge|Hlt].
      * assert (2 ^ 7 <= 2 ^ j) by (apply Z.pow_le_mono_r; lia). lia.
      * assert (j = 0 \/ j = 1 \/ j = 2 \/ j = 3 \/ j = 4 \/ j = 5 \/ j = 6) as Hc by lia.
        destruct Hc as [->|[->|[->|[->|[->|[->| ->]]]]]]; discriminate Hj.
Defined.

Lemma land_le_l a b : 0 <= a -> Z.land a b <= a.
Proof.
  intros Ha. rewrite Z.land_comm. pose proof (land_upper_bound b a Ha). lia.
Qed.

(** X3: the global thread id the code generates is block-major over the
    workers: for 32-lane groups and a block of N > 32 threads it is
    blockId * (N - 32) + teamThreadId, so that dividing it by the number of
    workers N - 32 gives back the block id and the remainder gives back the
    team-relative thread id.  This holds for every worker thread, and for
    every thread when N is a multiple of 32, as long as the ids of the grid
    fit in 32 bits. *)
Theorem X3_global_thread_id_is_block_major L rg m :
  warpsize L = 32 -> 32 < ntid_x L < 2 ^ 32 ->
  0 <= ctaid_x L -> 0 <= tid_x L ->
  (tid_x L < ntid_x L - 32 \/ (32 | ntid_x L)) ->
  (ctaid_x L + 1) * (ntid_x L - 32) <= 2 ^ 32 ->
  let NumWorkers := ntid_x L - 32 in
  let Team := Z.land (tid_x L) (master_tid L - 1) in
  eval L rg m getTeamThreadId = Some (RInt Team) /\
  eval L rg m getGlobalThreadId = Some (RInt (ctaid_x L * NumWorkers + Team)) /\
  (ctaid_x L * NumWorkers + Team) / NumWorkers = ctaid_x L /\
  (ctaid_x L * NumWorkers + Team) mod NumWorkers = Team.
Proof.
  intros HW HN Hb Ht Hcase Hfit NumWorkers Team.
  assert (HW' : warpsize L = 2 ^ 5) by exact HW.
  assert (HM : 32 <= master_tid L).
  { rewrite <- HW. apply (master_tid_at_least_warp L 5); [exact HW'|lia|lia]. }
  destruct (thread_limit_is_master L 5 HW') as [[Hle Hlt] Hdiv]; [lia|lia|].
  unfold thread_limit in Hle, Hdiv. rewrite HW in Hle, Hdiv.
  rewrite wrap32_small in Hle, Hdiv by lia.
  assert (HTeam : 0 <= Team < NumWorkers).
  { unfold Team, NumWorkers.
    pose proof (land_upper_bound (tid_x L) (master_tid L - 1)).
    pose proof (land_le_l (tid_x L) (master_tid L - 1) Ht).
    destruct Hcase as [Hworker|Hmult]; [lia|]. specialize (Hdiv Hmult). lia. }
  assert (Hteam : eval L rg m getTeamThreadId = Some (RInt Team))
    by (apply eval_getTeamThreadId; lia).
  split; [exact Hteam|]. split.
  - unfold getGlobalThreadId. cbn [eval]. rewrite Hteam.
    cbn [getNVPTXBlockID getNumWorkers getNVPTXNumThreads eval read_sreg eval_binop
         fmap option_fmap option_map].
    destruct (Z.ltb_spec (ntid_x L) 32); [lia|].
    cbn [fmap option_fmap option_map eval_binop].
    fold NumWorkers. rewrite (wrap32_small (ctaid_x L * NumWorkers)) by nia.
    rewrite wrap32_small by nia. reflexivity.
  - split.
    + symmetry. apply (Z.div_unique_pos _ _ _ Team); lia.
    + symmetry. apply (Z.mod_unique_pos _ _ (ctaid_x L)); lia.
Qed.

Lemma X3_witness :
  eval lane_70_of_128 no_state no_memory getGlobalThreadId = Some (RInt (0 * (128 - 32) + 70)).
Proof.
  apply (X3_global_thread_id_is_block_major lane_70_of_128 no_state no_memory);
    [reflexivity | solve_bound | solve_bound | solve_bound | left; solve_bound | solve_bound].
Defined.

(** ** The active thread id and the active master of a warp *)

Lemma getNVPTXWarpActiveThreadID_eq st :
  getNVPTXWarpActiveThreadID st
  = Ok (Popc (BinOp OpShl (CallResult (NextValueId (CGF st)))
                (BinOp OpSub (ConstantInt 32) getNVPTXThreadWarpID)),
        after_call warp_active_thread_mask_call st).
Proof. reflexivity. Qed.

Lemma exec_warp_active_thread_mask L id s mask rest :
  script s = RespActiveMask mask :: rest ->
  exec_instr L (warp_active_thread_mask_call id) s
  = Some {| regs := set_reg (regs s) id (RInt mask); mem := mem s; script := rest;
            trace := trace s ++ [EvCall (RuntimeFunction OMPRTL_NVPTX__kmpc_warp_active_thread_mask) []] |}.
Proof. intros Hsc. cbn. by rewrite Hsc. Qed.

(** X4: the id of a thread among the active threads of its warp.  The code
    asks the runtime for the mask of active lanes and computes
    popc(Mask << (32 - laneId)).  For a lane whose lane id is not 0 this is
    the number of active lanes with a smaller lane id.  For lane 0 the shift
    amount is 32, the width of the mask, and the generated expression has no
    defined value. *)
Theorem X4_warp_active_thread_id_counts_lower_active_lanes st :
  exists V,
    getNVPTXWarpActiveThreadID st = Ok (V, after_call warp_active_thread_mask_call st) /\
    forall L s mask rest,
      script s = RespActiveMask mask :: rest ->
      exists s',
        exec_instr L (warp_active_thread_mask_call (NextValueId (CGF st))) s = Some s' /\
        script s' = rest /\
        (lane_id L <> 0 ->
         eval L (regs s') (mem s') V
         = Some (RInt (popc_bits (Z.to_nat (lane_id L)) mask))) /\
        (lane_id L = 0 -> eval L (regs s') (mem s') V = None).
Proof.
  eexists. split; [apply getNVPTXWarpActiveThreadID_eq|].
  intros L s mask rest Hsc. eexists. split; [by apply exec_warp_active_thread_mask|].
  split; [reflexivity|].
  cbn [regs mem].
  rewrite (eval_active_thread_id L _ _ _ mask (set_reg_eq _ _ _)).
  split; intros Hl.
  - destruct (Z.eqb_spec (lane_id L) 0); [contradiction|reflexivity].
  - by rewrite Hl.
Qed.

Lemma X4_witness :
  exists V s',
    getNVPTXWarpActiveThreadID (start_state [] initial_runtime false)
    = Ok (V, after_call warp_active_thread_mask_call (start_state [] initial_runtime false)) /\
    exec_instr worker_lane_5 (warp_active_thread_mask_call 0) (initial_state [] [RespActiveMask 41])
    = Some s' /\
    eval worker_lane_5 (regs s') (mem s') V = Some (RInt 2).
Proof.
  destruct (X4_warp_active_thread_id_counts_lower_active_lanes
              (start_state [] initial_runtime false)) as (V & HV & Hrun).
  destruct (Hrun worker_lane_5 (initial_state [] [RespActiveMask 41]) 41 [] eq_refl)
    as (s' & Hexec & _ & Hval & _).
  exists V, s'. split; [exact HV|]. split; [exact Hexec|].
  apply Hval. vm_compute. discriminate.
Defined.

Lemma is_warp_active_master_spec L mask :
  is_warp_active_master L mask = true <->
  forall i, 0 <= i < lane_id L -> Z.testbit mask i = false.
Proof.
  pose proof (lane_id_bounds L).
  rewrite is_warp_active_master_eq, Z.eqb_eq, popc_bits_zero.
  by rewrite Z2Nat.id by lia.
Qed.

(** X5: a lane whose lane id is not 0 is the active master of its warp, the
    one that initializes the warp's data sharing slot, exactly when no lane
    of the warp with a smaller lane id is active in the mask the runtime
    hands out: the generated test popc(Mask << (32 - laneId)) == 0 evaluates
    to 1 for such a lane and to 0 for every other lane but lane 0.  For lane
    0 the test shifts the mask by 32 and has no defined value. *)
Theorem X5_warp_active_master_is_lowest_active_lane st :
  exists V,
    getNVPTXIsWarpActiveMaster st = Ok (V, after_call warp_active_thread_mask_call st) /\
    forall L s mask rest,
      script s = RespActiveMask mask :: rest ->
      exists s',
        exec_instr L (warp_active_thread_mask_call (NextValueId (CGF st))) s = Some s' /\
        (lane_id L <> 0 ->
         eval L (regs s') (mem s') V
         = Some (RInt (bool_to_Z (is_warp_active_master L mask))) /\
         (is_warp_active_master L mask = true <->
          forall i, 0 <= i < lane_id L -> Z.testbit mask i = false)) /\
        (lane_id L = 0 -> eval L (regs s') (mem s') V = None).
Proof.
  eexists. split; [reflexivity|].
  intros L s mask rest Hsc. eexists. split; [by apply exec_warp_active_thread_mask|].
  cbn [regs mem].
  rewrite (eval_is_warp_active_master L _ _ _ mask (set_reg_eq _ _ _)).
  split; intros Hl.
  - split; [|apply is_warp_active_master_spec].
    destruct (Z.eqb_spec (lane_id L) 0); [contradiction|reflexivity].
  - by rewrite Hl.
Qed.

Lemma X5_witness :
  exists V s',
    getNVPTXIsWarpActiveMaster (start_state [] initial_runtime false)
    = Ok (V, after_call warp_active_thread_mask_call (start_state [] initial_runtime false)) /\
    exec_instr worker_lane_5 (warp_active_thread_mask_call 0) (initial_state [] [RespActiveMask 96])
    = Some s' /\
    eval worker_lane_5 (regs s') (mem s') V = Some (RInt 1).
Proof.
  destruct (X5_warp_active_master_is_lowest_active_lane
              (start_state [] initial_runtime false)) as (V & HV & Hrun).
  destruct (Hrun worker_lane_5 (initial_state [] [RespActiveMask 96]) 96 [] eq_refl)
    as (s' & Hexec & Hval & _).
  exists V, s'. split; [exact HV|]. split; [exact Hexec|].
  apply Hval. vm_compute. discriminate.
Defined.

Lemma popc_bits_succ_active l mask :
  Z.testbit mask (Z.of_nat l) = true -> popc_bits (S l) mask = 1 + popc_bits l mask.
Proof. intros Hb. by rewrite popc_bits_S, Hb. Qed.

Lemma popc_bits_le n1 n2 z : (n1 <= n2)%nat -> popc_bits n1 z <= popc_bits n2 z.
Proof.
  intros Hle. replace n2 with (n1 + (n2 - n1))%nat by lia. apply popc_bits_mono.
Qed.

(** X6: within a warp the ids among the active threads are handed out in lane
    order to the lanes other than lane 0: of two such active lanes the one
    with the smaller lane id gets the smaller id, and the id of each is below
    the number of active threads the code computes from the same mask. *)
Theorem X6_active_lanes_get_increasing_ids_below_their_number st L1 L2 rg m mask :
  rg (NextValueId (CGF st)) = Some (RInt mask) ->
  lane_is_active L1 mask = true ->
  lane_is_active L2 mask = true ->
  0 < lane_id L1 < lane_id L2 ->
  exists Vid Vnum st1 st2 i1 i2 n,
    getNVPTXWarpActiveThreadID st = Ok (Vid, st1) /\
    getNVPTXWarpActiveNumThreads st = Ok (Vnum, st2) /\
    eval L1 rg m Vid = Some (RInt i1) /\
    eval L2 rg m Vid = Some (RInt i2) /\
    eval L2 rg m Vnum = Some (RInt n) /\
    0 <= i1 < i2 /\ i2 < n.
Proof.
  intros Hrg Ha1 Ha2 Hlt.
  pose proof (lane_id_bounds L1) as Hb1. pose proof (lane_id_bounds L2) as Hb2.
  exists (Popc (BinOp OpShl (CallResult (NextValueId (CGF st)))
                  (BinOp OpSub (ConstantInt 32) getNVPTXThreadWarpID))),
         (Popc (CallResult (NextValueId (CGF st)))).
  exists (after_call warp_active_thread_mask_call st),
         (after_call warp_active_thread_mask_call st),
         (popc_bits (Z.to_nat (lane_id L1)) mask),
          (popc_bits (Z.to_nat (lane_id L2)) mask), (popc_bits 32 mask).
  split; [reflexivity|]. split; [reflexivity|].
  assert (Hid : forall L, lane_id L <> 0 -> eval L rg m
            (Popc (BinOp OpShl (CallResult (NextValueId (CGF st)))
                     (BinOp OpSub (ConstantInt 32) getNVPTXThreadWarpID)))
          = Some (RInt (popc_bits (Z.to_nat (lane_id L)) mask))).
  { intros L HL. rewrite (eval_active_thread_id L rg m _ mask Hrg).
    destruct (Z.eqb_spec (lane_id L) 0); [contradiction|reflexivity]. }
  split; [apply Hid; lia|]. split; [apply Hid; lia|].
  split; [cbn [eval]; by rewrite Hrg|].
  unfold lane_is_active in Ha1, Ha2.
  rewrite <- (Z2Nat.id (lane_id L1)) in Ha1 by lia.
  rewrite <- (Z2Nat.id (lane_id L2)) in Ha2 by lia.
  pose proof (popc_bits_succ_active _ _ Ha1) as H1.
  pose proof (popc_bits_succ_active _ _ Ha2) as H2.
  pose proof (popc_bits_le (S (Z.to_nat (lane_id L1))) (Z.to_nat (lane_id L2)) mask
                ltac:(lia)) as H12.
  pose proof (popc_bits_le (S (Z.to_nat (lane_id L2))) 32 mask ltac:(lia)) as H2n.
  pose proof (popc_bits_nonneg (Z.to_nat (lane_id L1)) mask).
  lia.
Qed.

Lemma X6_witness :
  exists Vid Vnum st1 st2 i1 i2 n,
    getNVPTXWarpActiveThreadID (start_state [] initial_runtime false) = Ok (Vid, st1) /\
    getNVPTXWarpActiveNumThreads (start_state [] initial_runtime false) = Ok (Vnum, st2) /\
    eval (lane_of_block 64 32 0 3) (fun _ => Some (RInt 41)) no_memory Vid = Some (RInt i1) /\
    eval worker_lane_5 (fun _ => Some (RInt 41)) no_memory Vid = Some (RInt i2) /\
    eval worker_lane_5 (fun _ => Some (RInt 41)) no_memory Vnum = Some (RInt n) /\
    0 <= i1 < i2 /\ i2 < n.
Proof.
  apply (X6_active_lanes_get_increasing_ids_below_their_number
           (start_state [] initial_runtime false) (lane_of_block 64 32 0 3) worker_lane_5
           (fun _ => Some (RInt 41)) no_memory 41);
    [reflexivity | reflexivity | reflexivity | vm_compute; split; reflexivity].
Defined.

(** ** Parallel calls *)

Lemma emitParallelCall_eq F CD DSI gs rt Fn WFn cv :
  CurCodeDecl F = Some CD ->
  DataSharingInfoMap rt !! decl_id CD = Some DSI ->
  WrapperFunctionsMap rt !! Fn = Some WFn ->
  exists rt',
    emitParallelCall F Fn cv None (start_state gs rt false)
    = ParallelCall.ThenGen Fn WFn cv (start_state gs rt' false) /\
    IsOrphaned rt' = IsOrphaned rt /\
    ParallelNestingLevel rt' = ParallelNestingLevel rt /\
    Work rt' = Work rt.
Proof.
  intros HF HD HW.
  destruct (createDataSharingPerFunctionInfrastructure_eq F CD DSI gs rt
              (StartFunction "f" false) HF HD) as (rt' & Hinfra & Ho & Hp & Hw).
  exists rt'. split; [|done].
  unfold emitParallelCall, start_state.
  unfold getCGF at 1. rewrite (bind_Ok _ _ _ _ _ eq_refl). cbn [CGF].
  change (negb (HaveInsertPoint (StartFunction "f" false))) with false. cbn iota.
  unfold getRT at 1. rewrite (bind_Ok _ _ _ _ _ eq_refl). cbn [RT]. rewrite HW.
  by rewrite (bind_Ok _ _ _ _ _ Hinfra).
Qed.

Lemma ThenGen_work gs rt Fn WFn cv :
  exists st',
    ParallelCall.ThenGen Fn WFn cv (start_state gs rt false) = Ok (tt, st') /\
    Work (RT st') = Work rt ++ work_added rt WFn.
Proof.
  destruct rt as [o pnl w wm dm fm cc]. unfold work_added. cbn [IsOrphaned ParallelNestingLevel Work].
  destruct o; [|destruct pnl as [|[p|p|]|p]];
    (eexists; split; [vm_compute; reflexivity|]); cbn; by rewrite ?app_nil_r.
Qed.

Lemma ThenGen_static gs rt Fn WFn cv :
  IsOrphaned rt = false ->
  emitted_blocks (ParallelCall.ThenGen Fn WFn cv (start_state gs rt false))
  = parallel_call_blocks (level_of_nesting (ParallelNestingLevel rt)) Fn WFn cv.
Proof.
  destruct rt as [o pnl w wm dm fm cc]. cbn [IsOrphaned ParallelNestingLevel]. intros ->.
  destruct pnl as [|[p|p|]|p]; reflexivity.
Qed.

Lemma emitParallelCall_start F Fn cv IfCond gs rt :
  emitParallelCall F Fn cv IfCond (start_state gs rt false)
  = match WrapperFunctionsMap rt !! Fn with
    | None => AssertionFailed "Wrapper function does not exist??"
    | Some WFn =>
        (createDataSharingPerFunctionInfrastructure F;;
         match IfCond with
         | Some Cond =>
             emitOMPIfClause Cond (ParallelCall.ThenGen Fn WFn cv) (ParallelCall.SeqGen Fn cv)
         | None => ParallelCall.ThenGen Fn WFn cv
         end) (start_state gs rt false)
    end.
Proof.
  unfold emitParallelCall, start_state.
  unfold getCGF at 1. rewrite (bind_Ok _ _ _ _ _ eq_refl). cbn [CGF].
  change (negb (HaveInsertPoint (StartFunction "f" false))) with false. cbn iota.
  unfold getRT at 1. rewrite (bind_Ok _ _ _ _ _ eq_refl). cbn [RT].
  by destruct (WrapperFunctionsMap rt !! Fn).
Qed.

Lemma createDataSharingPerFunctionInfrastructure_no_context F st :
  CurCodeDecl F = None ->
  createDataSharingPerFunctionInfrastructure F st
  = AssertionFailed "Function does not have a context associated!".
Proof. intros HF. unfold createDataSharingPerFunctionInfrastructure. by rewrite HF. Qed.

Lemma createDataSharingPerFunctionInfrastructure_no_info F CD st :
  CurCodeDecl F = Some CD ->
  DataSharingInfoMap (RT st) !! decl_id CD = None ->
  createDataSharingPerFunctionInfrastructure F st
  = AssertionFailed "Data sharing info does not exist.".
Proof.
  intros HF HD. unfold createDataSharingPerFunctionInfrastructure. rewrite HF.
  rewrite (bind_Ok _ _ _ _ _ eq_refl).
  apply bind_AssertionFailed. unfold getDataSharingInfo.
  unfold getRT at 1. rewrite (bind_Ok _ _ _ _ _ eq_refl). by rewrite HD.
Qed.

(** X7: what a parallel call does to the code generator.  Without an
    insertion point it does nothing.  Otherwise it needs a wrapper registered
    for the outlined function, a declaration for the enclosing function and
    the data sharing plan of that declaration, and fails with the message of
    the first of these that is missing; when all are there it succeeds and
    adds the wrapper to the work of the workers exactly when the level 0 code
    is emitted, that is when the construct is orphaned or at nesting level
    0. *)
Theorem X7_parallel_call_outcome F Fn cv gs rt :
  (forall IfCond st,
     InsertPoint (CGF st) = None -> emitParallelCall F Fn cv IfCond st = Ok (tt, st)) /\
  let r := emitParallelCall F Fn cv None (start_state gs rt false) in
  match WrapperFunctionsMap rt !! Fn with
  | None => r = AssertionFailed "Wrapper function does not exist??"
  | Some WFn =>
      match CurCodeDecl F with
      | None => r = AssertionFailed "Function does not have a context associated!"
      | Some CD =>
          match DataSharingInfoMap rt !! decl_id CD with
          | None => r = AssertionFailed "Data sharing info does not exist."
          | Some _ =>
              exists st', r = Ok (tt, st') /\ Work (RT st') = Work rt ++ work_added rt WFn
          end
      end
  end.
Proof.
  split.
  - intros IfCond st Hip. unfold emitParallelCall.
    unfold getCGF at 1. rewrite (bind_Ok _ _ _ _ _ eq_refl).
    unfold HaveInsertPoint. rewrite Hip. by destruct st.
  - cbn zeta. rewrite emitParallelCall_start.
    destruct (WrapperFunctionsMap rt !! Fn) as [WFn|] eqn:HW; [|reflexivity].
    destruct (CurCodeDecl F) as [CD|] eqn:HF.
    + destruct (DataSharingInfoMap rt !! decl_id CD) as [DSI|] eqn:HD.
      * destruct (emitParallelCall_eq F CD DSI gs rt Fn WFn cv HF HD HW)
          as (rt' & Heq & Ho & Hp & Hw).
        rewrite emitParallelCall_start, HW in Heq. rewrite Heq.
        destruct (ThenGen_work gs rt' Fn WFn cv) as (st' & Hrun & Hwork).
        exists st'. split; [exact Hrun|]. rewrite Hwork, Hw.
        unfold work_added. by rewrite Ho, Hp.
      * apply bind_AssertionFailed.
        by apply (createDataSharingPerFunctionInfrastructure_no_info F CD).
    + apply bind_AssertionFailed.
      by apply createDataSharingPerFunctionInfrastructure_no_context.
Qed.

Lemma X7_witness :
  emitParallelCall one_region "outlined" [] None
    {| Globals := []; RT := initial_runtime;
       CGF := emitBranch (1%nat, ".exit") (StartFunction "f" false) |}
  = Ok (tt, {| Globals := []; RT := initial_runtime;
               CGF := emitBranch (1%nat, ".exit") (StartFunction "f" false) |}).
Proof.
  apply (proj1 (X7_parallel_call_outcome one_region "outlined" [] [] initial_runtime)).
  reflexivity.
Defined.

Lemma emitParallelCall_static F CD DSI gs rt Fn WFn cv :
  CurCodeDecl F = Some CD ->
  DataSharingInfoMap rt !! decl_id CD = Some DSI ->
  WrapperFunctionsMap rt !! Fn = Some WFn ->
  IsOrphaned rt = false ->
  exists st',
    emitParallelCall F Fn cv None (start_state gs rt false) = Ok (tt, st') /\
    Blocks (CGF st')
    = parallel_call_blocks (level_of_nesting (ParallelNestingLevel rt)) Fn WFn cv /\
    Work (RT st') = Work rt ++ work_added rt WFn.
Proof.
  intros HF HD HW Ho.
  destruct (emitParallelCall_eq F CD DSI gs rt Fn WFn cv HF HD HW)
    as (rt' & Heq & Ho' & Hp & Hw).
  destruct (ThenGen_work gs rt' Fn WFn cv) as (st' & Hrun & Hwork).
  exists st'. rewrite Heq. split; [exact Hrun|]. split.
  - pose proof (ThenGen_static gs rt' Fn WFn cv) as Hb.
    rewrite Hrun in Hb. cbn [emitted_blocks] in Hb. rewrite Hb by congruence.
    by rewrite Hp.
  - rewrite Hwork, Hw. unfold work_added. by rewrite Ho', Hp.
Qed.

Lemma matched_work_last ws WFn : matched_work (RFn WFn) (ws ++ [WFn]) = [WFn].
Proof.
  unfold matched_work. rewrite bool_decide_eq_true_2; [done|].
  apply elem_of_app. right. apply elem_of_cons. by left.
Qed.

(** X8: the hand-over of a parallel region at nesting level 0.  The code of
    the parallel call makes the lane that runs it announce the region's
    wrapper with [__kmpc_kernel_prepare_parallel] and then cross two
    barriers; the call also appends the wrapper to the work list, so that a
    worker function generated afterwards, once the runtime hands it that
    wrapper, calls it with the master's thread id (when the worker is
    active) and crosses the same two barriers, one before and one after the
    region. *)
Theorem X8_level0_parallel_call_meets_the_worker_loop
    F CD DSI gs rt Fn WFn cv name :
  CurCodeDecl F = Some CD ->
  DataSharingInfoMap rt !! decl_id CD = Some DSI ->
  WrapperFunctionsMap rt !! Fn = Some WFn ->
  IsOrphaned rt = false ->
  ParallelNestingLevel rt = 0 ->
  exists st' W,
    emitParallelCall F Fn cv None (start_state gs rt false) = Ok (tt, st') /\
    generated (emitWorkerFunction name) (Globals st') (RT st') = Some W /\
    (forall L s,
       exists s',
         steps 3 (Blocks (CGF st')) L (At 0 s) = Stopped 1 s' /\
         trace s' = trace s ++ [EvCall kernel_prepare_parallel [RFn WFn];
                                EvCall nvvm_barrier0 []; EvCall nvvm_barrier0 []]) /\
    (forall L s active rest,
       script s = RespKernelParallel (RFn WFn) active :: rest ->
       exists n s',
         steps n (fn_blocks W) L (At 1 s) = At 1 s' /\
         script s' = rest /\
         trace s' = trace s ++
           [EvCall nvvm_barrier0 [];
            EvCall (RuntimeFunction OMPRTL_NVPTX__kmpc_kernel_parallel) [RPtr (StackSlot 0)]] ++
           (if active then
              [EvCall (Function WFn) [RInt (master_tid L)];
               EvCall (RuntimeFunction OMPRTL_NVPTX__kmpc_kernel_end_parallel) []]
            else []) ++
           [EvCall nvvm_barrier0 []]).
Proof.
  intros HF HD HW Ho Hp.
  destruct (emitParallelCall_static F CD DSI gs rt Fn WFn cv HF HD HW Ho)
    as (st' & Hrun & Hblocks & Hwork).
  rewrite Hp in Hblocks. change (level_of_nesting 0) with AtLevel0 in Hblocks.
  unfold work_added in Hwork. rewrite Ho, Hp in Hwork. cbn in Hwork.
  pose proof (emitWorkerFunction_blocks name (Globals st') (RT st')) as HWk.
  destruct (generated (emitWorkerFunction name) (Globals st') (RT st')) as [W|] eqn:HG;
    [|discriminate HWk].
  cbn [fmap option_fmap option_map] in HWk. injection HWk as HWk.
  exists st', W. split; [exact Hrun|]. split; [exact HG|]. split.
  - intros L s. rewrite Hblocks. eexists. split.
    + unfold parallel_call_blocks.
      run_block. cbn [bb_term exec_term]. run_block. cbn [bb_term exec_term].
      run_block. cbn [bb_term exec_term open_block steps]. reflexivity.
    + cbn [trace]. by rewrite <- !app_assoc.
  - intros L s active rest Hsc.
    destruct (worker_iteration (Work rt ++ [WFn]) L s (RFn WFn) active rest Hsc)
      as (n & s' & Hsteps & Htr & Hrest & _).
    exists n, s'. rewrite HWk, Hwork.
    split; [exact Hsteps|]. split; [exact Hrest|].
    rewrite Htr. unfold iteration_events. rewrite matched_work_last.
    cbn [bool_decide decide_rel]. rewrite bool_decide_eq_false_2 by discriminate.
    reflexivity.
Qed.

Lemma X8_witness :
  exists st' W,
    emitParallelCall one_region "simd_fn" [] None (start_state [] (simd_runtime false 0) false)
    = Ok (tt, st') /\
    generated (emitWorkerFunction "kernel_worker") (Globals st') (RT st') = Some W /\
    fn_blocks W = worker_blocks ["simd_fn_wrapper"].
Proof.
  destruct (X8_level0_parallel_call_meets_the_worker_loop one_region
              (CapturedDecl 0%nat (context_body one_region)) one_region_plan []
              (simd_runtime false 0) "simd_fn" "simd_fn_wrapper" [] "kernel_worker")
    as (st' & W & Hrun & HW & _); [reflexivity..|].
  exists st', W. split; [exact Hrun|]. split; [exact HW|].
  vm_compute in Hrun. injection Hrun as <-.
  vm_compute in HW. by injection HW as <-.
Defined.

(** *** The loop of a parallel call at nesting level 1 *)

Lemma convergent_parallel_round_run Fn WFn cv L s active final src rest :
  script s = RespConvergentParallel active final src :: rest ->
  exists k s1,
    steps k (parallel_call_blocks AtLevel1 Fn WFn cv) L (At 3 s)
    = At (if final then 6%nat else 3%nat) s1 /\
    trace s1 = trace s ++ convergent_parallel_round WFn (active, src) /\
    script s1 = rest.
Proof.
  intros Hsc. destruct s as [rg m sc tr]. cbn [script] in Hsc. subst sc.
  destruct active, final.
  - exists 3%nat. eexists. split; [reflexivity|]. split; [|reflexivity].
    cbn [trace convergent_parallel_round fst snd]. by rewrite <- !app_assoc.
  - exists 3%nat. eexists. split; [reflexivity|]. split; [|reflexivity].
    cbn [trace convergent_parallel_round fst snd]. by rewrite <- !app_assoc.
  - exists 2%nat. eexists. split; [reflexivity|]. split; reflexivity.
  - exists 2%nat. eexists. split; [reflexivity|]. split; reflexivity.
Qed.

Lemma convergent_parallel_loop Fn WFn cv L rounds :
  forall s last rest,
    script s = convergent_parallel_script rounds last ++ rest ->
    exists n s',
      steps n (parallel_call_blocks AtLevel1 Fn WFn cv) L (At 3 s) = Stopped 1 s' /\
      trace s' = trace s ++ concat (convergent_parallel_round WFn <$> rounds ++ [last]) /\
      script s' = rest.
Proof.
  induction rounds as [|r rounds IH]; intros s [la ls] rest Hsc.
  - destruct (convergent_parallel_round_run Fn WFn cv L s la true ls rest Hsc)
      as (k & s1 & Hk & Htr & Hrest).
    exists (k + 2)%nat, s1. split; [|split; [|exact Hrest]].
    + rewrite steps_add, Hk. reflexivity.
    + rewrite Htr. cbn. by rewrite app_nil_r.
  - destruct r as [ra rs].
    destruct (convergent_parallel_round_run Fn WFn cv L s ra false rs
                (convergent_parallel_script rounds (la, ls) ++ rest) Hsc)
      as (k & s1 & Hk & Htr & Hrest).
    destruct (IH s1 (la, ls) rest Hrest) as (n & s' & Hn & Htr' & Hrest').
    exists (k + n)%nat, s'. split; [|split; [|exact Hrest']].
    + rewrite steps_add, Hk. exact Hn.
    + rewrite Htr', Htr. cbn [fmap list_fmap app concat]. by rewrite <- app_assoc.
Qed.

(** X9: a parallel call in a context at nesting level 1 is a loop around
    [__kmpc_kernel_convergent_parallel]: in every round the lane asks the
    runtime whether it is active and, if it is, calls the region's wrapper
    with the source lane the runtime named in that round and signals the end
    of the round; the loop is left after the first round the runtime marks
    as final, and after no other.  No barrier is crossed. *)
Theorem X9_level1_parallel_call_runs_the_rounds
    F CD DSI gs rt Fn WFn cv L s rounds last rest :
  CurCodeDecl F = Some CD ->
  DataSharingInfoMap rt !! decl_id CD = Some DSI ->
  WrapperFunctionsMap rt !! Fn = Some WFn ->
  IsOrphaned rt = false ->
  ParallelNestingLevel rt = 1 ->
  script s = convergent_parallel_script rounds last ++ rest ->
  exists n s',
    steps n (emitted_blocks (emitParallelCall F Fn cv None (start_state gs rt false)))
          L (At 0 s) = Stopped 1 s' /\
    trace s' = trace s ++ concat (convergent_parallel_round WFn <$> rounds ++ [last]) /\
    script s' = rest.
Proof.
  intros HF HD HW Ho Hp Hsc.
  destruct (emitParallelCall_static F CD DSI gs rt Fn WFn cv HF HD HW Ho)
    as (st' & Hrun & Hblocks & _).
  rewrite Hrun. cbn [emitted_blocks]. rewrite Hblocks, Hp.
  change (level_of_nesting 1) with AtLevel1.
  assert (Hentry : exists s0,
            steps 2 (parallel_call_blocks AtLevel1 Fn WFn cv) L (At 0 s) = At 3 s0 /\
            trace s0 = trace s /\ script s0 = script s).
  { eexists. split; [reflexivity|]. split; reflexivity. }
  destruct Hentry as (s0 & H0 & Htr0 & Hsc0).
  rewrite <- Hsc0 in Hsc.
  destruct (convergent_parallel_loop Fn WFn cv L rounds s0 last rest Hsc)
    as (n & s' & Hn & Htr & Hrest).
  exists (2 + n)%nat, s'. split; [|split; [|exact Hrest]].
  - rewrite steps_add, H0. exact Hn.
  - by rewrite Htr, Htr0.
Qed.

Lemma X9_witness :
  exists n s',
    steps n (emitted_blocks (emitParallelCall one_region "simd_fn" [] None
                               (start_state [] (simd_runtime false 1) false)))
          worker_lane_5
          (At 0 (initial_state [] (convergent_parallel_script [(false, 3); (true, 7)] (true, 9))))
    = Stopped 1 s' /\
    trace s' = concat (convergent_parallel_round "simd_fn_wrapper"
                         <$> [(false, 3); (true, 7); (true, 9)]) /\
    script s' = [].
Proof.
  apply (X9_level1_parallel_call_runs_the_rounds one_region
           (CapturedDecl 0%nat (context_body one_region)) one_region_plan []
           (simd_runtime false 1) "simd_fn" "simd_fn_wrapper" [] worker_lane_5
           (initial_state [] (convergent_parallel_script [(false, 3); (true, 7)] (true, 9)))
           [(false, 3); (true, 7)] (true, 9) []);
    reflexivity.
Defined.

(** *** The loop of a simd call at nesting level 1 *)

Lemma emitSimdCall_level1 F CD DSI gs rt Fn WFn cv :
  CurCodeDecl F = Some CD ->
  DataSharingInfoMap rt !! decl_id CD = Some DSI ->
  WrapperFunctionsMap rt !! Fn = Some WFn ->
  IsOrphaned rt = false ->
  ParallelNestingLevel rt = 1 ->
  emitted_blocks (emitSimdCall F Fn cv (start_state gs rt false)) = simd_level1_blocks WFn.
Proof.
  intros HF HD HW Ho Hp.
  destruct (emitSimdCall_eq F CD DSI gs rt Fn WFn cv HF HD HW) as (rt' & -> & Ho' & Hp').
  rewrite Ho in Ho'. rewrite Hp in Hp'.
  destruct rt' as [o pnl w wm dm fm cc]. cbn in Ho', Hp'. subst o pnl. reflexivity.
Qed.

Lemma convergent_simd_round_run WFn L s active final src lane num rest :
  script s = RespConvergentSimd active final src lane num :: rest ->
  exists k s1,
    steps k (simd_level1_blocks WFn) L (At 3 s) = At (if final then 6%nat else 3%nat) s1 /\
    trace s1 = trace s ++ convergent_simd_round WFn (active, src, (lane, num)) /\
    script s1 = rest.
Proof.
  intros Hsc. destruct s as [rg m sc tr]. cbn [script] in Hsc. subst sc.
  destruct active, final.
  - exists 3%nat. eexists. split; [reflexivity|]. split; [|reflexivity].
    cbn [trace convergent_simd_round fst snd]. by rewrite <- !app_assoc.
  - exists 3%nat. eexists. split; [reflexivity|]. split; [|reflexivity].
    cbn [trace convergent_simd_round fst snd]. by rewrite <- !app_assoc.
  - exists 2%nat. eexists. split; [reflexivity|]. split; reflexivity.
  - exists 2%nat. eexists. split; [reflexivity|]. split; reflexivity.
Qed.

Lemma convergent_simd_loop WFn L rounds :
  forall s last rest,
    script s = convergent_simd_script rounds last ++ rest ->
    exists n s',
      steps n (simd_level1_blocks WFn) L (At 3 s) = Stopped 1 s' /\
      trace s' = trace s ++ concat (convergent_simd_round WFn <$> rounds ++ [last]) /\
      script s' = rest.
Proof.
  induction rounds as [|r rounds IH]; intros s [[la ls] [ll ln]] rest Hsc.
  - destruct (convergent_simd_round_run WFn L s la true ls ll ln rest Hsc)
      as (k & s1 & Hk & Htr & Hrest).
    exists (k + 2)%nat, s1. split; [|split; [|exact Hrest]].
    + rewrite steps_add, Hk. reflexivity.
    + rewrite Htr. cbn. by rewrite app_nil_r.
  - destruct r as [[ra rs] [rl rn]].
    destruct (convergent_simd_round_run WFn L s ra false rs rl rn
                (convergent_simd_script rounds (la, ls, (ll, ln)) ++ rest) Hsc)
      as (k & s1 & Hk & Htr & Hrest).
    destruct (IH s1 (la, ls, (ll, ln)) rest Hrest) as (n & s' & Hn & Htr' & Hrest').
    exists (k + n)%nat, s'. split; [|split; [|exact Hrest']].
    + rewrite steps_add, Hk. exact Hn.
    + rewrite Htr', Htr. cbn [fmap list_fmap app concat]. by rewrite <- app_assoc.
Qed.

(** X10: a simd call in a context at nesting level 1 is a loop around
    [__kmpc_kernel_convergent_simd]: in every round in which the runtime
    reports the lane active, the lane calls the region's wrapper with the
    source lane of that round and the addresses of the two cells in which
    the runtime has just put the lane id and the number of lanes, and then
    signals the end of the round; the loop is left after the first round
    marked as final. *)
Theorem X10_level1_simd_call_runs_the_rounds
    F CD DSI gs rt Fn WFn cv L s rounds last rest :
  CurCodeDecl F = Some CD ->
  DataSharingInfoMap rt !! decl_id CD = Some DSI ->
  WrapperFunctionsMap rt !! Fn = Some WFn ->
  IsOrphaned rt = false ->
  ParallelNestingLevel rt = 1 ->
  script s = convergent_simd_script rounds last ++ rest ->
  exists n s',
    steps n (emitted_blocks (emitSimdCall F Fn cv (start_state gs rt false))) L (At 0 s)
    = Stopped 1 s' /\
    trace s' = trace s ++ concat (convergent_simd_round WFn <$> rounds ++ [last]) /\
    script s' = rest.
Proof.
  intros HF HD HW Ho Hp Hsc.
  rewrite (emitSimdCall_level1 F CD DSI gs rt Fn WFn cv HF HD HW Ho Hp).
  assert (Hentry : exists s0,
            steps 2 (simd_level1_blocks WFn) L (At 0 s) = At 3 s0 /\
            trace s0 = trace s /\ script s0 = script s).
  { eexists. split; [reflexivity|]. split; reflexivity. }
  destruct Hentry as (s0 & H0 & Htr0 & Hsc0).
  rewrite <- Hsc0 in Hsc.
  destruct (convergent_simd_loop WFn L rounds s0 last rest Hsc)
    as (n & s' & Hn & Htr & Hrest).
  exists (2 + n)%nat, s'. split; [|split; [|exact Hrest]].
  - rewrite steps_add, H0. exact Hn.
  - by rewrite Htr, Htr0.
Qed.

Lemma X10_witness :
  exists n s',
    steps n (emitted_blocks (emitSimdCall one_region "simd_fn" []
                               (start_state [] (simd_runtime false 1) false)))
          worker_lane_5
          (At 0 (initial_state [] (convergent_simd_script [(true, 7, (0, 4))] (false, 9, (1, 4)))))
    = Stopped 1 s' /\
    trace s' = concat (convergent_simd_round "simd_fn_wrapper"
                         <$> [(true, 7, (0, 4)); (false, 9, (1, 4))]) /\
    script s' = [].
Proof.
  apply (X10_level1_simd_call_runs_the_rounds one_region
           (CapturedDecl 0%nat (context_body one_region)) one_region_plan []
           (simd_runtime false 1) "simd_fn" "simd_fn_wrapper" [] worker_lane_5
           (initial_state [] (convergent_simd_script [(true, 7, (0, 4))] (false, 9, (1, 4))))
           [(true, 7, (0, 4))] (false, 9, (1, 4)) []
           eq_refl eq_refl eq_refl eq_refl eq_refl eq_refl).
Defined.

(** *** A parallel call below level 1 *)

(** X11: a parallel call in a context nested two or more levels deep (as
    inside a simd region, which counts for ten levels) is serialized: the
    lane that meets it calls the outlined function itself, with two null
    pointers before the captured variables, between
    [__kmpc_serialized_parallel] and [__kmpc_end_serialized_parallel], which
    both get the location descriptor and the global thread id.  No barrier
    is crossed and the workers' list is left as it was. *)
Theorem X11_nested_parallel_call_is_serialized
    F CD DSI gs rt Fn WFn cv L s gtid vs :
  CurCodeDecl F = Some CD ->
  DataSharingInfoMap rt !! decl_id CD = Some DSI ->
  WrapperFunctionsMap rt !! Fn = Some WFn ->
  IsOrphaned rt = false ->
  ParallelNestingLevel rt <> 0 -> ParallelNestingLevel rt <> 1 ->
  eval L (regs s) (mem s) getThreadID = Some gtid ->
  mapM (eval L (regs s) (mem s)) cv = Some vs ->
  exists st' s',
    emitParallelCall F Fn cv None (start_state gs rt false) = Ok (tt, st') /\
    Work (RT st') = Work rt /\
    steps 3 (Blocks (CGF st')) L (At 0 s) = Stopped 1 s' /\
    trace s' = trace s ++
      [EvCall serialized_parallel [RPtr (GlobalElem ".kmpc_loc" []); gtid];
       EvCall (Function Fn) ([RNull; RNull] ++ vs);
       EvCall end_serialized_parallel [RPtr (GlobalElem ".kmpc_loc" []); gtid]].
Proof.
  intros HF HD HW Ho Hp0 Hp1 Hg Hvs.
  destruct (emitParallelCall_static F CD DSI gs rt Fn WFn cv HF HD HW Ho)
    as (st' & Hrun & Hblocks & Hwork).
  assert (Hl : level_of_nesting (ParallelNestingLevel rt) = AtSequential).
  { unfold level_of_nesting.
    destruct (Z.eqb_spec (ParallelNestingLevel rt) 0); [done|].
    by destruct (Z.eqb_spec (ParallelNestingLevel rt) 1). }
  rewrite Hl in Hblocks.
  unfold work_added in Hwork. rewrite Ho in Hwork.
  destruct (Z.eqb_spec (ParallelNestingLevel rt) 0) as [|_]; [done|].
  cbn in Hwork. rewrite app_nil_r in Hwork.
  exists st'. eexists. split; [exact Hrun|]. split; [exact Hwork|].
  rewrite Hblocks. split.
  - unfold parallel_call_blocks.
    run_block. cbn [bb_term exec_term].
    rewrite steps_S. erewrite step_block; [ | reflexivity | ].
    + cbn [bb_term exec_term]. run_block. cbn [bb_term exec_term open_block steps].
      reflexivity.
    + cbn [bb_instrs exec_instrs exec_instr mapM].
      change (eval L (regs s) (mem s) emitUpdateLocation)
        with (Some (RPtr (GlobalElem ".kmpc_loc" []))).
      rewrite Hg. cbn [mbind option_bind mret option_ret].
      cbn [call_effect serialized_parallel regs mem].
      change (mapM (eval L (regs s) (mem s)) ([NullValue; NullValue] ++ cv))
        with (x ← Some RNull; k ← (y ← Some RNull; k ← mapM (eval L (regs s) (mem s)) cv;
                                   mret (y :: k)); mret (x :: k)).
      rewrite Hvs. cbn [mbind option_bind mret option_ret call_effect regs mem].
      change (eval L (regs s) (mem s) emitUpdateLocation)
        with (Some (RPtr (GlobalElem ".kmpc_loc" []))).
      rewrite Hg. cbn [mbind option_bind mret option_ret call_effect regs mem].
      reflexivity.
  - cbn [trace]. by rewrite <- !app_assoc.
Qed.

Lemma X11_witness :
  exists st' s',
    emitParallelCall one_region "simd_fn" [Argument 0] None
      (start_state [] (simd_runtime false 11) false) = Ok (tt, st') /\
    Work (RT st') = [] /\
    steps 3 (Blocks (CGF st')) wrapper_lane (At 0 wrapper_state) = Stopped 1 s' /\
    trace s' =
      [EvCall serialized_parallel [RPtr (GlobalElem ".kmpc_loc" []); RInt 5];
       EvCall (Function "simd_fn") [RNull; RNull; RInt 96];
       EvCall end_serialized_parallel [RPtr (GlobalElem ".kmpc_loc" []); RInt 5]].
Proof.
  apply (X11_nested_parallel_call_is_serialized one_region
           (CapturedDecl 0%nat (context_body one_region)) one_region_plan []
           (simd_runtime false 11) "simd_fn" "simd_fn_wrapper" [Argument 0]
           wrapper_lane wrapper_state (RInt 5) [RInt 96]);
    [reflexivity | reflexivity | reflexivity | reflexivity
    | discriminate | discriminate | reflexivity | reflexivity].
Defined.

(** ** Loop schedules *)

(** X12: a loop that gets the coalesced schedule never requires a barrier:
    [generateCoalescedSchedule] accepts only loops without an [ordered]
    clause whose schedule is unspecified, [auto] or [static] with chunk size
    one, and [requiresBarrier] asks for a barrier only for [ordered],
    [dynamic] and [guided] loops. *)
Theorem X12_coalesced_schedule_needs_no_barrier S ChunkSizeOne :
  generateCoalescedSchedule (default OMPC_SCHEDULE_unknown (ScheduleClause S))
                            ChunkSizeOne (OrderedClause S) = true ->
  requiresBarrier S = false.
Proof.
  destruct S as [o [k|]]; unfold generateCoalescedSchedule, requiresBarrier;
    cbn [OrderedClause ScheduleClause default from_option id];
    destruct o; try discriminate; [destruct k, ChunkSizeOne|];
    cbn; first [discriminate | reflexivity].
Qed.

Lemma X12_witness :
  requiresBarrier {| OrderedClause := false; ScheduleClause := Some OMPC_SCHEDULE_static |}
  = false.
Proof.
  apply (X12_coalesced_schedule_needs_no_barrier
           {| OrderedClause := false; ScheduleClause := Some OMPC_SCHEDULE_static |} true).
  reflexivity.
Defined.

(** ** Calls into the device runtime library *)

Lemma work_chain_conforms B next final ws :
  forallb call_conforms (bb_instrs B) = true ->
  calls_conform (work_chain B next final ws) = true.
Proof.
  revert B next. induction ws as [|W ws IH]; intros B next HB; cbn.
  - by rewrite HB.
  - rewrite HB. cbn. by apply IH.
Qed.

Lemma calls_conform_app F G :
  calls_conform (F ++ G) = calls_conform F && calls_conform G.
Proof. apply forallb_app. Qed.

Lemma worker_blocks_conform ws : calls_conform (worker_blocks ws) = true.
Proof.
  unfold worker_blocks. rewrite !calls_conform_app.
  rewrite work_chain_conforms by reflexivity. reflexivity.
Qed.

Lemma createDataSharingPerFunctionInfrastructure_cases F gs rt c :
  (exists msg, createDataSharingPerFunctionInfrastructure F
                 {| Globals := gs; RT := rt; CGF := c |} = AssertionFailed msg) \/
  (exists rt', createDataSharingPerFunctionInfrastructure F
                 {| Globals := gs; RT := rt; CGF := c |}
               = Ok (tt, {| Globals := gs; RT := rt'; CGF := c |})).
Proof.
  destruct (CurCodeDecl F) as [CD|] eqn:HF.
  - destruct (DataSharingInfoMap rt !! decl_id CD) as [DSI|] eqn:HD.
    + right. destruct (createDataSharingPerFunctionInfrastructure_eq F CD DSI gs rt c HF HD)
        as (rt' & Heq & _). by exists rt'.
    + left. eexists. by apply (createDataSharingPerFunctionInfrastructure_no_info F CD).
  - left. eexists. by apply createDataSharingPerFunctionInfrastructure_no_context.
Qed.

Lemma ThenGen_conforms gs rt Fn WFn cv :
  calls_conform (emitted_blocks (ParallelCall.ThenGen Fn WFn cv (start_state gs rt false)))
  = true.
Proof.
  destruct rt as [o pnl w wm dm fm cc].
  destruct o; [|destruct pnl as [|[p|p|]|p]]; reflexivity.
Qed.

Lemma simd_dispatch_conforms gs rt Fn WFn cv :
  calls_conform (simd_dispatch gs rt Fn WFn cv) = true.
Proof.
  destruct rt as [o pnl w wm dm fm cc].
  destruct o; [|destruct pnl as [|[p|p|]|p]]; reflexivity.
Qed.

Lemma emitSimdCall_start F Fn cv gs rt :
  emitSimdCall F Fn cv (start_state gs rt false)
  = match WrapperFunctionsMap rt !! Fn with
    | None => AssertionFailed "Wrapper function does not exist??"
    | Some WFn =>
        (createDataSharingPerFunctionInfrastructure F;;
         emitParallelismLevelCode (SimdCall.SeqGen Fn cv) (SimdCall.L1SimdGen WFn)
                                  (SimdCall.SeqGen Fn cv)) (start_state gs rt false)
    end.
Proof.
  unfold emitSimdCall, start_state.
  unfold getCGF at 1. rewrite (bind_Ok _ _ _ _ _ eq_refl). cbn [CGF].
  change (negb (HaveInsertPoint (StartFunction "f" false))) with false. cbn iota.
  unfold getRT at 1. rewrite (bind_Ok _ _ _ _ _ eq_refl). cbn [RT].
  by destruct (WrapperFunctionsMap rt !! Fn).
Qed.

(** X13: the generated code calls the functions of the device runtime
    library as [createNVPTXRuntimeFunction] declares them: in the worker
    function, in the kernel initializer and in the code of a parallel call
    and of a simd call, every call to a runtime function passes exactly as
    many arguments as the declaration has parameters, and a result is used
    only of a function that is declared to return one. *)
Theorem X13_runtime_calls_match_the_declarations gs rt :
  (forall name, exists W,
     generated (emitWorkerFunction name) gs rt = Some W /\
     calls_conform (fn_blocks W) = true) /\
  (forall WorkerFunction, exists I,
     generated (createKernelInitializerFunction WorkerFunction) gs rt = Some I /\
     calls_conform (fn_blocks I) = true) /\
  (forall F Fn cv,
     calls_conform (emitted_blocks (emitParallelCall F Fn cv None (start_state gs rt false)))
     = true) /\
  (forall F Fn cv,
     calls_conform (emitted_blocks (emitSimdCall F Fn cv (start_state gs rt false))) = true).
Proof.
  split; [|split; [|split]].
  - intros name. pose proof (emitWorkerFunction_blocks name gs rt) as HW.
    destruct (generated (emitWorkerFunction name) gs rt) as [W|]; [|discriminate HW].
    cbn [fmap option_fmap option_map] in HW. injection HW as HW.
    exists W. split; [reflexivity|]. rewrite HW. apply worker_blocks_conform.
  - intros Wk. pose proof (createKernelInitializerFunction_blocks Wk gs rt) as HI.
    destruct (generated (createKernelInitializerFunction Wk) gs rt) as [I|];
      [|discriminate HI].
    cbn [fmap option_fmap option_map] in HI. injection HI as HI.
    exists I. split; [reflexivity|]. rewrite HI. reflexivity.
  - intros F Fn cv. rewrite emitParallelCall_start.
    destruct (WrapperFunctionsMap rt !! Fn) as [WFn|]; [|reflexivity].
    destruct (createDataSharingPerFunctionInfrastructure_cases F gs rt
                (StartFunction "f" false)) as [[msg Hfail]|[rt' Hok]].
    + unfold start_state. by rewrite (bind_AssertionFailed _ _ _ _ Hfail).
    + unfold start_state. rewrite (bind_Ok _ _ _ _ _ Hok). apply ThenGen_conforms.
  - intros F Fn cv. rewrite emitSimdCall_start.
    destruct (WrapperFunctionsMap rt !! Fn) as [WFn|]; [|reflexivity].
    destruct (createDataSharingPerFunctionInfrastructure_cases F gs rt
                (StartFunction "f" false)) as [[msg Hfail]|[rt' Hok]].
    + unfold start_state. by rewrite (bind_AssertionFailed _ _ _ _ Hfail).
    + unfold start_state. rewrite (bind_Ok _ _ _ _ _ Hok).
      apply (simd_dispatch_conforms gs rt' Fn WFn cv).
Qed.

(** ** The regions of a context *)

Lemma collectCapturedStmts_outermost fuel : forall WorkList CapturedStmts,
  (work_size WorkList < fuel)%nat ->
  collectCapturedStmts fuel WorkList CapturedStmts
  = Some (CapturedStmts ++ concat (reverse (List.map outermost_regions WorkList))).
Proof.
  induction fuel as [|fuel IH]; intros WorkList CapturedStmts Hlt; [lia|].
  cbn [collectCapturedStmts].
  destruct (pop_back_val_inv WorkList) as [[-> ->]|(l' & x & -> & ->)].
  { cbn. by rewrite app_nil_r. }
  rewrite work_size_app in Hlt. unfold work_size at 2 in Hlt. cbn in Hlt.
  rewrite List.map_app, reverse_app. cbn [List.map reverse]. rewrite reverse_singleton.
  cbn [app concat].
  destruct x as [|children|kind caps body|kind]; cbn [stmt_size outermost_regions] in *.
  - rewrite IH by lia. reflexivity.
  - rewrite IH by (rewrite work_size_app; unfold work_size at 2; lia).
    by rewrite List.map_app, reverse_app, concat_app.
  - destruct (_ || _).
    + rewrite IH by lia. by rewrite <- app_assoc.
    + rewrite IH by (rewrite work_size_app; unfold work_size at 2; cbn; lia).
      rewrite List.map_app, reverse_app. cbn [List.map reverse]. rewrite reverse_singleton.
      cbn [app concat]. reflexivity.
  - rewrite IH by lia. reflexivity.
Qed.

(** X14: the work list loop of the planner finds exactly the parallel and
    simd regions of the context's body that are not nested in another such
    region: it looks below every other statement and every other directive,
    never below a parallel or simd directive, and lists the regions of the
    children of a statement from the last child to the first. *)
Theorem X14_planner_finds_the_outermost_regions Body :
  regions_of Body = outermost_regions Body.
Proof.
  unfold regions_of. rewrite collectCapturedStmts_outermost.
  - cbn. by rewrite app_nil_r.
  - unfold work_size. cbn. lia.
Qed.

(** ** From the plan to the wrapper *)

Lemma sharing_mode_identity F c : sharing_mode F c = identity_mode F (capture_identity c).
Proof. unfold sharing_mode, capture_identity, identity_mode. by destruct (capturesThis c). Qed.

Lemma capture_index_elem v l :
  v ∈ l.*1 ->
  exists d, l !! capture_index v l = Some (v, d) /\ (v, d) ∈ l /\
            (capture_index v l < length l)%nat.
Proof.
  induction l as [|[w d] l IH]; intros Hin; [by apply elem_of_nil in Hin|].
  cbn [capture_index]. destruct (decide (w = v)) as [->|Hne].
  - rewrite bool_decide_eq_true_2 by done. exists d. cbn.
    split; [done|]. split; [by apply elem_of_cons; left | lia].
  - rewrite bool_decide_eq_false_2 by done.
    cbn in Hin. apply elem_of_cons in Hin as [->|Hin]; [done|].
    destruct (IH Hin) as (d' & Hl & He & Hlt). exists d'. cbn.
    split; [done|]. split; [by apply elem_of_cons; right | lia].
Qed.

Lemma planned_modes F rt info v d :
  fresh_context F rt -> planned F rt = Some info ->
  (v, d) ∈ CapturesValues info -> d = identity_mode F v.
Proof.
  intros Hfresh Hplan Hin.
  destruct (planned_spec F rt info Hfresh Hplan) as (HC & _ & _).
  rewrite HC in Hin. apply list_elem_of_fmap in Hin as ([v' [d' ty]] & Heq & Hin).
  apply first_occurrences_subset in Hin. unfold descriptors in Hin.
  apply list_elem_of_fmap in Hin as (c & Hc & _).
  unfold descriptor_capture in Heq. cbn in Heq.
  injection Heq as -> ->. injection Hc as -> -> _. apply sharing_mode_identity.
Qed.

Lemma elem_of_concat {A} (x : A) (l : list A) (ls : list (list A)) :
  x ∈ l -> l ∈ ls -> x ∈ concat ls.
Proof.
  intros Hx. induction ls as [|l' ls IH]; intros Hl; [by apply elem_of_nil in Hl|].
  cbn. apply elem_of_app. apply elem_of_cons in Hl as [<-|Hl]; [by left|].
  right. by apply IH.
Qed.

Lemma region_captures_in_context F CS c :
  CS ∈ regions_of (context_body F) -> c ∈ cs_captures CS -> c ∈ context_captures F.
Proof.
  intros HCS Hc. unfold context_captures, all_captures.
  apply (elem_of_concat c (cs_captures CS)); [done|].
  apply list_elem_of_fmap. by exists CS.
Qed.

Lemma planned_capture_known F rt info CS c :
  fresh_context F rt -> planned F rt = Some info ->
  CS ∈ regions_of (context_body F) -> c ∈ cs_captures CS -> supported c = true ->
  capture_known info c = true /\
  shared_by_reference info c = bool_decide (sharing_mode F c = DST_Ref).
Proof.
  intros Hfresh Hplan HCS Hc Hs.
  assert (Hid : capture_identity c ∈ (CapturesValues info).*1).
  { destruct (planned_spec F rt info Hfresh Hplan) as (HC & _ & _).
    assert (Hfst : (CapturesValues info).*1
                   = (first_occurrences [] (descriptors F (context_captures F))).*1).
    { rewrite HC, <- list_fmap_compose. by apply list_fmap_ext. }
    rewrite Hfst.
    destruct (first_occurrences_complete (descriptors F (context_captures F)) []
                (capture_identity c)) as [Hnil|Hok]; [|by apply elem_of_nil in Hnil|exact Hok].
    unfold descriptors. rewrite <- list_fmap_compose.
    apply list_elem_of_fmap. exists c. split; [done|].
    apply list_elem_of_filter. split; [done|].
    by apply (region_captures_in_context F CS). }
  destruct (capture_index_elem _ _ Hid) as (d & Hl & He & Hlt).
  split.
  - unfold capture_known. apply negb_true_iff, Nat.eqb_neq. lia.
  - unfold shared_by_reference. rewrite Hl. cbn.
    rewrite (planned_modes F rt info _ d Hfresh Hplan He), sharing_mode_identity.
    apply bool_decide_ext. split; congruence.
Qed.

Lemma wrapper_code_succeeds DSI D Fn caps IsSimd gs rt :
  is_Some (generated (generateFunction (wrapper_name Fn) false
                        (wrapper_code DSI D Fn caps IsSimd)) gs rt).
Proof.
  destruct rt as [o pnl w wm dm fm cc].
  destruct IsSimd, o; [| destruct pnl as [|[p|p|]|p] | | destruct pnl as [|[p|p|]|p]];
    eexists; vm_compute; reflexivity.
Qed.

(** X15: the plan the planner builds for a context is the one the wrappers
    of its regions need.  For every region the planner found in the context
    and every capture of the region that the planner handles, the capture is
    in the plan, and the wrapper reads through the capture's field exactly
    when the address of the captured variable in the enclosing function is a
    load; so for a region all of whose captures are handled, the wrapper is
    generated without tripping the check that the capture exists, whatever
    the nesting level. *)
Theorem X15_plan_serves_the_wrappers_of_its_regions F rt info CS :
  fresh_context F rt -> planned F rt = Some info ->
  CS ∈ regions_of (context_body F) ->
  (forall c, c ∈ cs_captures CS -> supported c = true ->
     capture_known info c = true /\
     shared_by_reference info c = bool_decide (sharing_mode F c = DST_Ref)) /\
  (Forall (fun c => supported c = true) (cs_captures CS) ->
   forall D Fn IsSimd ctx gs rt',
     DataSharingInfoMap rt' !! ctx = Some info ->
     exists W,
       generated (createDataSharingParallelWrapper D Fn CS (Some ctx) IsSimd) gs rt' = Some W /\
       fn_name W = wrapper_name Fn).
Proof.
  intros Hfresh Hplan HCS. split.
  - intros c Hc Hs. by apply (planned_capture_known F rt info CS).
  - intros Hall D Fn IsSimd ctx gs rt' Hctx.
    assert (Hk : Forall (fun c => capture_known info c = true) (cs_captures CS)).
    { apply Forall_forall. intros c Hc.
      apply (planned_capture_known F rt info CS c Hfresh Hplan HCS Hc).
      by apply (proj1 (Forall_forall _ _) Hall). }
    unfold generated.
    rewrite (createDataSharingParallelWrapper_eq D Fn CS ctx info IsSimd) by done.
    destruct (wrapper_code_succeeds info D Fn (cs_captures CS) IsSimd gs rt') as [W HW].
    exists W. split; [exact HW|]. exact (generateFunction_name HW).
Qed.

Lemma X15_witness :
  exists W,
    generated (createDataSharingParallelWrapper OMPD_parallel "outlined" one_region_stmt
                 (Some 0%nat) false) [] planned_runtime = Some W /\
    fn_name W = wrapper_name "outlined".
Proof.
  apply (proj2 (X15_plan_serves_the_wrappers_of_its_regions one_region initial_runtime
                  one_region_plan one_region_stmt eq_refl eq_refl
                  ltac:(apply elem_of_cons; left; reflexivity))
           ltac:(repeat constructor) OMPD_parallel "outlined" false 0%nat [] planned_runtime
           eq_refl).
Defined.

(** ** The split of an entry function *)

Lemma find_split_first bb k extra t new name bs B :
  find_block bs bb = Some B ->
  find_block (split_block bb k extra t new name bs) bb
  = Some {| bb_id := bb_id B; bb_name := bb_name B;
            bb_instrs := take k (bb_instrs B) ++ extra; bb_term := Some t |}.
Proof.
  induction bs as [|b bs IH]; [done|]. unfold find_block, split_block in *. cbn.
  destruct (Nat.eqb_spec (bb_id b) bb) as [Heq|Hne].
  - intros [= ->]. cbn. by rewrite Heq, Nat.eqb_refl.
  - intros HB. cbn. destruct (Nat.eqb_spec (bb_id b) bb); [done|]. by apply IH.
Qed.

Lemma find_split_new bb k extra t new name bs B :
  find_block bs bb = Some B ->
  Forall (fun b => bb_id b <> new) bs ->
  find_block (split_block bb k extra t new name bs) new
  = Some {| bb_id := new; bb_name := name;
            bb_instrs := drop k (bb_instrs B); bb_term := bb_term B |}.
Proof.
  intros HB Hfresh. revert HB.
  induction Hfresh as [|b bs Hb _ IH]; [done|]. unfold find_block, split_block in *. cbn.
  destruct (Nat.eqb_spec (bb_id b) bb) as [Heq|Hne].
  - intros [= ->]. cbn. destruct (Nat.eqb_spec (bb_id B) new); [done|].
    by rewrite Nat.eqb_refl.
  - intros HB. cbn. destruct (Nat.eqb_spec (bb_id b) new); [done|]. by apply IH.
Qed.

Lemma find_split_other bb k extra t new name bs id :
  id <> bb -> id <> new ->
  find_block (split_block bb k extra t new name bs) id = find_block bs id.
Proof.
  intros Hbb Hnew. induction bs as [|b bs IH]; [done|].
  unfold find_block, split_block in *. cbn.
  destruct (Nat.eqb_spec (bb_id b) bb) as [Heq|Hne]; cbn.
  - destruct (Nat.eqb_spec (bb_id b) id); [congruence|].
    destruct (Nat.eqb_spec new id); [congruence|]. exact IH.
  - destruct (Nat.eqb_spec (bb_id b) id); [done|]. exact IH.
Qed.

Lemma generated_bind_ret {A B} (g : Gen A) (f : A -> B) gs rt :
  generated (a ← g; mret (f a)) gs rt = f <$> generated g gs rt.
Proof.
  unfold generated, mbind, Gen_bind, gen_bind.
  by destruct (g (start_state gs rt false)) as [[a s]|].
Qed.

Lemma createKernelInitializerFunction_name W gs rt :
  fn_name <$> generated (createKernelInitializerFunction W) gs rt
  = Some kernel_initialization_name.
Proof. reflexivity. Qed.

Lemma InitializeEntryPoint_eq DSI Fn InsertPtr WorkerFunction ExitBlock gs rt :
  EntryWorkerFunction DSI = Some WorkerFunction ->
  EntryExitBlock DSI = Some ExitBlock ->
  exists InitFn,
    generated (InitializeEntryPoint DSI Fn InsertPtr) gs rt
    = Some ({| fn_name := fn_name Fn;
               fn_blocks :=
                 split_block InsertPtr.1 InsertPtr.2
                   [Call (Some (fn_next_value Fn)) (Function (fn_name InitFn)) []]
                   (CondBr (ICmp ICMP_EQ (CallResult (fn_next_value Fn)) (ConstantInt 0))
                           (fn_next_block Fn) ExitBlock)
                   (fn_next_block Fn) ".master" (fn_blocks Fn);
               fn_next_block := S (fn_next_block Fn);
               fn_next_value := S (fn_next_value Fn) |},
            (fn_next_block Fn, 0%nat), InitFn) /\
    fn_name InitFn = kernel_initialization_name /\
    fn_blocks InitFn = initializer_blocks WorkerFunction.
Proof.
  intros HW HE.
  pose proof (createKernelInitializerFunction_blocks WorkerFunction gs rt) as Hb.
  pose proof (createKernelInitializerFunction_name WorkerFunction gs rt) as Hn.
  assert (Hgen : generated (InitializeEntryPoint DSI Fn InsertPtr) gs rt
                 = (fun InitFn =>
                      ({| fn_name := fn_name Fn;
                          fn_blocks :=
                            split_block InsertPtr.1 InsertPtr.2
                              [Call (Some (fn_next_value Fn)) (Function (fn_name InitFn)) []]
                              (CondBr (ICmp ICMP_EQ (CallResult (fn_next_value Fn))
                                            (ConstantInt 0))
                                      (fn_next_block Fn) ExitBlock)
                              (fn_next_block Fn) ".master" (fn_blocks Fn);
                          fn_next_block := S (fn_next_block Fn);
                          fn_next_value := S (fn_next_value Fn) |},
                       (fn_next_block Fn, 0%nat), InitFn))
                   <$> generated (createKernelInitializerFunction WorkerFunction) gs rt).
  { unfold InitializeEntryPoint. rewrite HW, HE. apply generated_bind_ret. }
  rewrite Hgen. clear Hgen.
  generalize dependent (generated (createKernelInitializerFunction WorkerFunction) gs rt).
  intros [InitFn|] Hb Hn; [|discriminate Hb].
  cbn [fmap option_fmap option_map] in *. injection Hb as Hb. injection Hn as Hn.
  exists InitFn. by split.
Qed.

(** X16: what finishing an entry point does to an arbitrary entry function.
    The block of the insertion point is cut in two: the first half keeps the
    instructions before the insertion point, then calls the kernel
    initializer and leaves to the second half when the call returned 0 and
    to the exit block of the kernel otherwise; the second half, a new block,
    holds the remaining instructions and the terminator of the original
    block; every other block is left as it was.  So a lane to which the
    initializer returns anything but 0 executes nothing of the kernel after
    the insertion point. *)
Theorem X16_entry_point_is_split_at_the_insertion_point
    DSI Fn bb k B WorkerFunction ExitBlock gs rt :
  EntryWorkerFunction DSI = Some WorkerFunction ->
  EntryExitBlock DSI = Some ExitBlock ->
  find_block (fn_blocks Fn) bb = Some B ->
  Forall (fun b => bb_id b <> fn_next_block Fn) (fn_blocks Fn) ->
  let MasterBB := fn_next_block Fn in
  let res := fn_next_value Fn in
  exists Fn' InitFn,
    generated (InitializeEntryPoint DSI Fn (bb, k)) gs rt
    = Some (Fn', (MasterBB, 0%nat), InitFn) /\
    fn_blocks InitFn = initializer_blocks WorkerFunction /\
    find_block (fn_blocks Fn') bb = Some (entry_half B k res MasterBB ExitBlock) /\
    find_block (fn_blocks Fn') MasterBB = Some (master_half B k MasterBB) /\
    (forall id, id <> bb -> id <> MasterBB ->
       find_block (fn_blocks Fn') id = find_block (fn_blocks Fn) id) /\
    (forall L s s1 r rest,
       exec_instrs L (take k (bb_instrs B)) s = Some s1 ->
       script s1 = RespReturn (RInt r) :: rest ->
       exists s2,
         step (fn_blocks Fn') L (At bb s) = At (if r =? 0 then MasterBB else ExitBlock) s2 /\
         trace s2 = trace s1 ++ [EvCall (Function kernel_initialization_name) []] /\
         script s2 = rest /\ mem s2 = mem s1).
Proof.
  intros HW HE HB Hfresh. cbn zeta.
  set (MasterBB := fn_next_block Fn). set (res := fn_next_value Fn).
  destruct (InitializeEntryPoint_eq DSI Fn (bb, k) WorkerFunction ExitBlock gs rt HW HE)
    as (InitFn & Hgen & Hname & Hinit).
  rewrite Hname in Hgen. fold MasterBB res in Hgen.
  eexists _, InitFn. split; [exact Hgen|]. split; [exact Hinit|].
  cbn [fn_blocks fst snd].
  assert (Hfirst : find_block
            (split_block bb k [Call (Some res) (Function kernel_initialization_name) []]
               (CondBr (ICmp ICMP_EQ (CallResult res) (ConstantInt 0)) MasterBB ExitBlock)
               MasterBB ".master" (fn_blocks Fn)) bb
            = Some (entry_half B k res MasterBB ExitBlock))
    by (by apply find_split_first).
  split; [exact Hfirst|]. split; [by apply find_split_new|].
  split; [intros id Hbb Hnew; by apply find_split_other|].
  intros L s s1 r rest Hpre Hsc.
  set (s2 := {| regs := set_reg (regs s1) res (RInt r); mem := mem s1; script := rest;
                trace := trace s1 ++ [EvCall (Function kernel_initialization_name) []] |}).
  exists s2. split; [|by repeat split].
  assert (Hexec : exec_instrs L (bb_instrs (entry_half B k res MasterBB ExitBlock)) s
                  = Some s2).
  { cbn [bb_instrs entry_half]. rewrite exec_instrs_app, Hpre.
    cbn. by rewrite Hsc. }
  rewrite (step_block _ _ _ _ _ _ Hfirst Hexec).
  cbn [bb_term entry_half]. unfold exec_term.
  cbn [eval regs s2]. rewrite set_reg_eq. cbn [eval_icmp].
  destruct (Z.eqb_spec r 0) as [->|Hr].
  - reflexivity.
  - rewrite bool_decide_eq_false_2 by congruence. reflexivity.
Qed.

Lemma X16_witness :
  exists Fn' InitFn,
    generated (InitializeEntryPoint sample_entry_info sample_entry (0%nat, 1%nat)) []
              initial_runtime
    = Some (Fn', (3%nat, 0%nat), InitFn) /\
    fn_blocks InitFn = initializer_blocks "kernel_worker" /\
    find_block (fn_blocks Fn') 0
    = Some (entry_half {| bb_id := 0; bb_name := "entry";
                          bb_instrs := [Store (ConstantInt 7) (AllocaAddr 0 "x");
                                        Call None (Function target_region_body) []];
                          bb_term := Some (Br 2) |} 1 1 3 1) /\
    find_block (fn_blocks Fn') 3
    = Some (master_half {| bb_id := 0; bb_name := "entry";
                           bb_instrs := [Store (ConstantInt 7) (AllocaAddr 0 "x");
                                         Call None (Function target_region_body) []];
                           bb_term := Some (Br 2) |} 1 3).
Proof.
  destruct (X16_entry_point_is_split_at_the_insertion_point sample_entry_info sample_entry
              0%nat 1%nat
              {| bb_id := 0; bb_name := "entry";
                 bb_instrs := [Store (ConstantInt 7) (AllocaAddr 0 "x");
                               Call None (Function target_region_body) []];
                 bb_term := Some (Br 2) |}
              "kernel_worker" 1%nat [] initial_runtime eq_refl eq_refl eq_refl)
    as (Fn' & InitFn & Hgen & Hinit & Hfirst & Hnew & _).
  - repeat constructor; discriminate.
  - exists Fn', InitFn. repeat split; assumption.
Defined.

(** ** The partition of the threads at kernel entry *)

Lemma initializer_result_master L : initializer_result L = 0 <-> kernel_role L = Master.
Proof. unfold initializer_result. by destruct (kernel_role L). Qed.

(** The first half of a split entry block, run by a lane to which the
    initializer returns [r]. *)
Lemma InitializeEntryPoint_step DSI Fn bb k B WorkerFunction ExitBlock gs rt :
  EntryWorkerFunction DSI = Some WorkerFunction ->
  EntryExitBlock DSI = Some ExitBlock ->
  find_block (fn_blocks Fn) bb = Some B ->
  exists Fn' InitFn,
    generated (InitializeEntryPoint DSI Fn (bb, k)) gs rt
    = Some (Fn', (fn_next_block Fn, 0%nat), InitFn) /\
    fn_blocks InitFn = initializer_blocks WorkerFunction /\
    (Forall (fun b => bb_id b <> fn_next_block Fn) (fn_blocks Fn) ->
     find_block (fn_blocks Fn') (fn_next_block Fn)
     = Some (master_half B k (fn_next_block Fn))) /\
    forall L s s1 r rest,
      exec_instrs L (take k (bb_instrs B)) s = Some s1 ->
      script s1 = RespReturn (RInt r) :: rest ->
      exists s2,
        step (fn_blocks Fn') L (At bb s)
        = At (if r =? 0 then fn_next_block Fn else ExitBlock) s2 /\
        trace s2 = trace s1 ++ [EvCall (Function kernel_initialization_name) []].
Proof.
  intros HW HE HB.
  destruct (InitializeEntryPoint_eq DSI Fn (bb, k) WorkerFunction ExitBlock gs rt HW HE)
    as (InitFn & Hgen & Hname & Hinit).
  rewrite Hname in Hgen.
  eexists _, InitFn. split; [exact Hgen|]. split; [exact Hinit|].
  cbn [fn_blocks fst snd]. split; [intros Hfresh; by apply find_split_new|].
  intros L s s1 r rest Hpre Hsc.
  set (res := fn_next_value Fn). set (MasterBB := fn_next_block Fn).
  set (s2 := {| regs := set_reg (regs s1) res (RInt r); mem := mem s1; script := rest;
                trace := trace s1 ++ [EvCall (Function kernel_initialization_name) []] |}).
  exists s2. split; [|reflexivity].
  assert (Hfirst : find_block
            (split_block bb k [Call (Some res) (Function kernel_initialization_name) []]
               (CondBr (ICmp ICMP_EQ (CallResult res) (ConstantInt 0)) MasterBB ExitBlock)
               MasterBB ".master" (fn_blocks Fn)) bb
            = Some (entry_half B k res MasterBB ExitBlock))
    by (by apply find_split_first).
  assert (Hexec : exec_instrs L (bb_instrs (entry_half B k res MasterBB ExitBlock)) s
                  = Some s2).
  { cbn [bb_instrs entry_half]. rewrite exec_instrs_app, Hpre.
    cbn. by rewrite Hsc. }
  rewrite (step_block _ _ _ _ _ _ Hfirst Hexec).
  cbn [bb_term entry_half]. unfold exec_term.
  cbn [eval regs s2]. rewrite set_reg_eq. cbn [eval_icmp].
  destruct (Z.eqb_spec r 0) as [->|Hr].
  - reflexivity.
  - rewrite bool_decide_eq_false_2 by congruence. reflexivity.
Qed.

(** C9 (as stated, refuted): in a block of 33 threads with 32-lane groups the
    master is thread 32, but thread 5, which lies in [0, MasterThreadId), does
    not enter the worker loop: only thread 0 is below the thread limit 1. *)
Lemma C9_counterexample_worker_range :
  ~ workers_are_below_master (initializer_blocks sample_worker_name) sample_worker_name
      lane_5_of_33 (initial_state [] [RespActiveMask 1]).
Proof.
  intros (n & v & s' & Hrun & Hiff).
  assert (Hthree : exists s3, trace s3 = [] /\
            steps 3 (initializer_blocks sample_worker_name) lane_5_of_33
              (At 0 (initial_state [] [RespActiveMask 1]))
            = Returned (Some (RInt 1)) s3)
    by (eexists; split; [|vm_compute; reflexivity]; reflexivity).
  destruct Hthree as (s3 & Htr & Hthree).
  destruct (Nat.le_gt_cases 3 n) as [Hle|Hlt].
  - replace n with (3 + (n - 3))%nat in Hrun by lia.
    rewrite steps_add, Hthree, steps_Returned in Hrun.
    injection Hrun as _ <-. rewrite Htr in Hiff.
    destruct Hiff as [_ Hiff]. discriminate Hiff. vm_compute. split; [discriminate|reflexivity].
  - do 3 (destruct n as [|n]; [vm_compute in Hrun; discriminate Hrun|]). lia.
Qed.

(** C9 (amended): at every kernel entry the threads are split by the kernel
    initializer, which [InitializeEntryPoint] makes every entry function call
    first.  Exactly the threads whose id is below the thread limit N - W
    call the worker function; the master lane (the first lane of the last
    group) alone gets 0 from the initializer and continues with the code
    after the insertion point; every other thread branches to the exit block
    of the entry function.  The thread limit never exceeds the master thread
    id and equals it when the block size is a multiple of the lane-group
    size, in which case the workers are exactly the threads of
    [0, MasterThreadId).  Nothing is stated for the first lane of a worker
    group, whose test for the active master of the group shifts by 32. *)
Theorem C9_kernel_entry_partition :
  (forall W L s mask rest,
     script s = RespActiveMask mask :: rest ->
     (kernel_role L = Worker -> lane_id L <> 0) ->
     exists s',
       steps 6 (initializer_blocks W) L (At 0 s)
       = Returned (Some (RInt (initializer_result L))) s' /\
       trace s' = trace s ++ initializer_events W L mask /\
       (calls_function W (initializer_events W L mask) = true <-> kernel_role L = Worker) /\
       (initializer_result L = 0 <-> kernel_role L = Master)) /\
  (forall DSI Fn bb k B WorkerFunction ExitBlock gs rt,
     EntryWorkerFunction DSI = Some WorkerFunction ->
     EntryExitBlock DSI = Some ExitBlock ->
     find_block (fn_blocks Fn) bb = Some B ->
     Forall (fun b => bb_id b <> fn_next_block Fn) (fn_blocks Fn) ->
     exists Fn' InitFn,
       generated (InitializeEntryPoint DSI Fn (bb, k)) gs rt
       = Some (Fn', (fn_next_block Fn, 0%nat), InitFn) /\
       fn_blocks InitFn = initializer_blocks WorkerFunction /\
       find_block (fn_blocks Fn') (fn_next_block Fn)
       = Some (master_half B k (fn_next_block Fn)) /\
       forall L s s1 rest,
         exec_instrs L (take k (bb_instrs B)) s = Some s1 ->
         script s1 = RespReturn (RInt (initializer_result L)) :: rest ->
         exists s2,
           step (fn_blocks Fn') L (At bb s)
           = At (match kernel_role L with
                 | Master => fn_next_block Fn
                 | _ => ExitBlock
                 end) s2 /\
           trace s2 = trace s1 ++ [EvCall (Function kernel_initialization_name) []]) /\
  (fun K => (fn_blocks (k_entry K), fn_name (k_worker K), fn_blocks (k_init K)))
    <$> sample_kernel
  = Some (sample_entry_blocks, sample_worker_name, initializer_blocks sample_worker_name) /\
  (forall L s rest,
     script s = RespReturn (RInt (initializer_result L)) :: rest ->
     exists s',
       steps 4 sample_entry_blocks L (At 0 s) = Returned None s' /\
       trace s' = trace s ++ [EvCall (Function kernel_initialization_name) []] ++
                  match kernel_role L with Master => master_events L | _ => [] end) /\
  (forall L k,
     warpsize L = 2 ^ k -> 0 <= k < 32 -> warpsize L <= ntid_x L < 2 ^ 32 ->
     thread_limit L <= master_tid L < ntid_x L /\
     ((warpsize L | ntid_x L) -> thread_limit L = master_tid L)).
Proof.
  split; [|split; [|split; [exact sample_kernel_functions|split]]].
  - intros W L s mask rest Hsc Hlane.
    destruct (initializer_run W L s mask rest Hsc Hlane) as (s' & Hrun & Htr & _).
    exists s'. split; [exact Hrun|]. split; [exact Htr|].
    split; [apply initializer_events_call_worker | apply initializer_result_master].
  - intros DSI Fn bb k B WorkerFunction ExitBlock gs rt HW HE HB Hfresh.
    destruct (InitializeEntryPoint_step DSI Fn bb k B WorkerFunction ExitBlock gs rt HW HE HB)
      as (Fn' & InitFn & Hgen & Hinit & Hmaster & Hstep).
    exists Fn', InitFn. split; [exact Hgen|]. split; [exact Hinit|].
    split; [exact (Hmaster Hfresh)|].
    intros L s s1 rest Hpre Hsc.
    destruct (Hstep L s s1 _ rest Hpre Hsc) as (s2 & Hs2 & Htr).
    exists s2. split; [|exact Htr]. rewrite Hs2. unfold initializer_result.
    by destruct (kernel_role L).
  - intros L s rest Hsc.
    destruct (entry_run L s _ rest Hsc) as (s' & Hrun & Htr).
    exists s'. split; [exact Hrun|]. rewrite Htr. unfold initializer_result.
    destruct (kernel_role L); reflexivity.
  - apply thread_limit_is_master.
Qed.

Lemma C9_witness :
  (exists s',
     steps 6 (initializer_blocks sample_worker_name) worker_lane_5
       (At 0 (initial_state [] [RespActiveMask 33]))
     = Returned (Some (RInt 1)) s' /\
     trace s' = [EvCall (RuntimeFunction OMPRTL_NVPTX__kmpc_warp_active_thread_mask) [];
                 EvCall (Function sample_worker_name) []]) /\
  (exists Fn' InitFn s2,
     generated (InitializeEntryPoint sample_entry_info sample_entry (0%nat, 1%nat)) []
               initial_runtime
     = Some (Fn', (3%nat, 0%nat), InitFn) /\
     step (fn_blocks Fn') worker_lane_5 (At 0 (initial_state [] [RespReturn (RInt 1)]))
     = At 1 s2) /\
  (thread_limit worker_lane_5 <= master_tid worker_lane_5 < ntid_x worker_lane_5 /\
   ((warpsize worker_lane_5 | ntid_x worker_lane_5) ->
    thread_limit worker_lane_5 = master_tid worker_lane_5)).
Proof.
  split; [|split].
  - destruct (proj1 C9_kernel_entry_partition sample_worker_name worker_lane_5
                (initial_state [] [RespActiveMask 33]) 33 [] eq_refl)
      as (s' & Hrun & Htr & _); [intros _; vm_compute; discriminate|].
    exists s'. split; [exact Hrun | exact Htr].
  - destruct (proj1 (proj2 C9_kernel_entry_partition) sample_entry_info sample_entry
                0%nat 1%nat
                {| bb_id := 0; bb_name := "entry";
                   bb_instrs := [Store (ConstantInt 7) (AllocaAddr 0 "x");
                                 Call None (Function target_region_body) []];
                   bb_term := Some (Br 2) |}
                "kernel_worker" 1%nat [] initial_runtime eq_refl eq_refl eq_refl)
      as (Fn' & InitFn & Hgen & _ & _ & Hstep); [repeat constructor; discriminate|].
    destruct (Hstep worker_lane_5 (initial_state [] [RespReturn (RInt 1)])
                {| regs := fun _ => None;
                   mem := mem_store (initial_memory []) (StackSlot 0) (RInt 7);
                   script := [RespReturn (RInt 1)]; trace := [] |} [] eq_refl eq_refl)
      as (s2 & Hs2 & _).
    exists Fn', InitFn, s2. split; [exact Hgen | exact Hs2].
  - apply (proj2 (proj2 (proj2 (proj2 C9_kernel_entry_partition))) worker_lane_5 5);
      [reflexivity | lia | cbn; lia].
Defined.

(** ** The root slots of the data sharing *)

Lemma kernel_role_Worker L : kernel_role L = Worker -> tid_x L < thread_limit L.
Proof.
  unfold kernel_role. destruct (Z.ltb_spec (tid_x L) (thread_limit L)); [done|].
  by destruct (tid_x L =? master_tid L).
Qed.

Lemma element_type_worker_slot block warp :
  0 <= block < DS_Max_Teams -> 0 <= warp ->
  element_type getDataSharingRootSlotQty [block; 1; warp]
  = if warp <? 31 then Some getDataSharingWorkerWarpSlotQty else None.
Proof.
  intros Hb Hw. cbn [element_type getDataSharingRootSlotQty].
  destruct (Z.leb_spec 0 block); [|lia]. destruct (Z.ltb_spec block DS_Max_Teams); [|lia].
  cbn [andb].
  change (0 <=? 1) with true. change (Z.to_nat 1) with 1%nat. cbn [lookup list_lookup].
  change (DS_Max_Worker_Threads / DS_Max_Worker_Warp_Size) with 31.
  destruct (Z.leb_spec 0 warp); [|lia]. reflexivity.
Qed.

Lemma element_type_master_slot block :
  0 <= block < DS_Max_Teams ->
  element_type getDataSharingRootSlotQty [block; 0] = Some getDataSharingMasterSlotQty.
Proof.
  intros Hb. cbn [element_type getDataSharingRootSlotQty].
  destruct (Z.leb_spec 0 block); [|lia]. destruct (Z.ltb_spec block DS_Max_Teams); [|lia].
  reflexivity.
Qed.

(** X17: the slot a lane gets in the global of root slots.  The master's
    slot is the first field of its team's element, the slot of any other lane
    is the element of the second field with the number of the lane's warp,
    threadId / 32; lanes of one team share a slot exactly when they are in
    the same warp.  The global is declared with 1024 team elements of one
    master slot and 992 / 32 = 31 warp slots: for a block id below 1024 the
    master's slot is inside it, and the slot of another lane is inside it
    exactly when its thread id is below 992, which holds for every worker of
    a block of at most 1024 threads with 32-lane warps. *)
Theorem X17_root_slot_of_a_lane st L rg m :
  0 <= ctaid_x L < DS_Max_Teams ->
  0 <= tid_x L < 2 ^ 31 ->
  let block := ctaid_x L in
  let warp := tid_x L / DS_Max_Worker_Warp_Size in
  (exists V st',
     getDataSharingRootSlotLValue true st = Ok (V, st') /\
     eval L rg m V = Some (RPtr (GlobalElem shared_data_slots_name [block; 0])) /\
     element_type getDataSharingRootSlotQty [block; 0] = Some getDataSharingMasterSlotQty) /\
  (exists V st',
     getDataSharingRootSlotLValue false st = Ok (V, st') /\
     eval L rg m V = Some (RPtr (GlobalElem shared_data_slots_name [block; 1; warp])) /\
     (element_type getDataSharingRootSlotQty [block; 1; warp]
        = Some getDataSharingWorkerWarpSlotQty <-> tid_x L < DS_Max_Worker_Threads) /\
     (tid_x L >= DS_Max_Worker_Threads ->
      element_type getDataSharingRootSlotQty [block; 1; warp] = None) /\
     (kernel_role L = Worker -> warpsize L = 32 -> tid_x L < ntid_x L <= 1024 ->
      tid_x L < DS_Max_Worker_Threads)).
Proof.
  intros Hb Ht block warp.
  pose proof (eval_getNVPTXWarpID L rg m Ht) as Hw.
  split.
  - eexists _, _. split; [reflexivity|]. split; [reflexivity|].
    by apply element_type_master_slot.
  - eexists _, _. split; [reflexivity|]. split.
    { cbn [eval mapM]. rewrite Hw. reflexivity. }
    assert (Hwarp : 0 <= warp) by (apply Z.div_pos; [lia | reflexivity]).
    assert (Hlt : warp < 31 <-> tid_x L < 992).
    { unfold warp. change DS_Max_Worker_Warp_Size with 32. split; intros H.
      - apply Z.nle_gt. intros Hge. apply (Z.div_le_mono _ _ 32) in Hge; [|lia].
        change (992 / 32) with 31 in Hge. lia.
      - apply Z.div_lt_upper_bound; lia. }
    rewrite (element_type_worker_slot block warp Hb Hwarp).
    change DS_Max_Worker_Threads with 992. split; [|split].
    + destruct (Z.ltb_spec warp 31); split; intros H'; try done; lia.
    + intros Hge. destruct (Z.ltb_spec warp 31); [lia|done].
    + intros Hrole HW HN. apply kernel_role_Worker in Hrole.
      unfold thread_limit in Hrole. rewrite HW in Hrole.
      unfold wrap32 in Hrole.
      destruct (Z.le_gt_cases 32 (ntid_x L)).
      * rewrite Z.mod_small in Hrole by lia. lia.
      * lia.
Qed.

Lemma X17_witness :
  exists V st',
    getDataSharingRootSlotLValue false (start_state [] initial_runtime false) = Ok (V, st') /\
    eval lane_70_of_128 no_state no_memory V
    = Some (RPtr (GlobalElem shared_data_slots_name [0; 1; 70 / 32])).
Proof.
  destruct (X17_root_slot_of_a_lane (start_state [] initial_runtime false) lane_70_of_128
              no_state no_memory) as (_ & V & st' & HV & Heval & _);
    [change (0 <= 0 < 1024); lia | change (0 <= 70 < 2 ^ 31); lia |].
  exists V, st'. split; [exact HV | exact Heval].
Defined.


(** ** The whole run of a worker *)

Lemma barriers_app a b : barriers (a ++ b) = (barriers a + barriers b)%nat.
Proof. unfold barriers. by rewrite List.filter_app, length_app. Qed.

Lemma barriers_iteration L ws fn active :
  barriers (iteration_events L ws fn active)
  = if bool_decide (fn = RNull) then 1%nat else 2%nat.
Proof.
  unfold iteration_events. destruct (bool_decide (fn = RNull)); [reflexivity|].
  destruct active; [|reflexivity].
  rewrite !barriers_app. unfold matched_work.
  destruct fn as [| |p|]; try reflexivity.
  destruct (bool_decide (p ∈ ws)); reflexivity.
Qed.

Lemma worker_run ws L items : forall s rest,
  script s = work_script items ++ rest ->
  exists n s',
    steps n (worker_blocks ws) L (At 1 s) = Returned None s' /\
    trace s' = trace s
               ++ concat ((fun it : string * bool =>
                             iteration_events L ws (RFn it.1) it.2) <$> items)
               ++ iteration_events L ws RNull false /\
    script s' = rest.
Proof.
  induction items as [|[fn active] items IH]; intros s rest Hsc.
  - destruct (worker_iteration ws L s RNull false rest Hsc) as (n & s' & Hn & Htr & Hrest & _).
    exists n, s'. split; [exact Hn|]. split; [exact Htr | exact Hrest].
  - destruct (worker_iteration ws L s (RFn fn) active (work_script items ++ rest) Hsc)
      as (n & s1 & Hn & Htr & Hrest & _).
    rewrite bool_decide_eq_false_2 in Hn by discriminate.
    destruct (IH s1 rest Hrest) as (k & s' & Hk & Htr' & Hrest').
    exists (n + k)%nat, s'. split; [|split; [|exact Hrest']].
    + rewrite steps_add, Hn. exact Hk.
    + rewrite Htr', Htr. cbn [fmap list_fmap concat fst snd]. by rewrite <- !app_assoc.
Qed.

(** X18: the whole run of a worker.  A worker that the runtime hands one
    work function per parallel region of the kernel, and then none, goes
    through one iteration of the loop per region, in order, and returns at
    the first null work function; it crosses two barriers per region and one
    more before it returns, as many as the master crosses: two in the code
    of each parallel call at level 0 and one after it has signalled the end
    of the kernel. *)
Theorem X18_worker_runs_every_region_and_returns name gs rt L s items rest :
  script s = work_script items ++ rest ->
  exists W n s',
    generated (emitWorkerFunction name) gs rt = Some W /\
    steps n (fn_blocks W) L (At 0 s) = Returned None s' /\
    trace s' = trace s
               ++ concat ((fun it : string * bool =>
                             iteration_events L (Work rt) (RFn it.1) it.2) <$> items)
               ++ iteration_events L (Work rt) RNull false /\
    script s' = rest /\
    barriers (trace s') = (barriers (trace s) + 2 * length items + 1)%nat.
Proof.
  intros Hsc.
  pose proof (emitWorkerFunction_blocks name gs rt) as HW.
  destruct (generated (emitWorkerFunction name) gs rt) as [W|]; [|discriminate HW].
  cbn [fmap option_fmap option_map] in HW. injection HW as HW.
  assert (Hentry : exists s0,
            step (worker_blocks (Work rt)) L (At 0 s) = At 1 s0 /\
            trace s0 = trace s /\ script s0 = script s).
  { eexists. split; [reflexivity|]. split; reflexivity. }
  destruct Hentry as (s0 & H0 & Htr0 & Hsc0). rewrite <- Hsc0 in Hsc.
  destruct (worker_run (Work rt) L items s0 rest Hsc) as (n & s' & Hn & Htr & Hrest).
  exists W, (S n), s'. rewrite HW. split; [reflexivity|].
  split; [by rewrite steps_S, H0|]. rewrite Htr0 in Htr.
  split; [exact Htr|]. split; [exact Hrest|].
  rewrite Htr, !barriers_app, barriers_iteration.
  rewrite bool_decide_eq_true_2 by reflexivity.
  assert (Hsum : barriers (concat ((fun it : string * bool =>
                    iteration_events L (Work rt) (RFn it.1) it.2) <$> items))
                 = (2 * length items)%nat).
  { clear. induction items as [|it items IH]; [reflexivity|].
    cbn [fmap list_fmap concat]. rewrite barriers_app, barriers_iteration, IH.
    rewrite bool_decide_eq_false_2 by discriminate. cbn [length]. lia. }
  rewrite Hsum. lia.
Qed.

Lemma X18_witness :
  exists W n s',
    generated (emitWorkerFunction "kernel_worker") [] runtime_after_two_kernels = Some W /\
    steps n (fn_blocks W) worker_lane_5
          (At 0 (idle_worker (work_script [("outlined1_wrapper", true);
                                           ("outlined2_wrapper", false)])))
    = Returned None s' /\
    barriers (trace s') = 5%nat.
Proof.
  destruct (X18_worker_runs_every_region_and_returns "kernel_worker" []
              runtime_after_two_kernels worker_lane_5
              (idle_worker (work_script [("outlined1_wrapper", true);
                                         ("outlined2_wrapper", false)]))
              [("outlined1_wrapper", true); ("outlined2_wrapper", false)] [])
    as (W & n & s' & HW & Hrun & _ & _ & Hbar); [reflexivity|].
  exists W, n, s'. split; [exact HW|]. split; [exact Hrun | exact Hbar].
Defined.

(** ** Outlining a region *)

Lemma FinishFunction_run s :
  exists c', FinishFunction s = Ok (tt, {| Globals := Globals s; RT := RT s; CGF := c' |}).
Proof.
  unfold FinishFunction. unfold getCGF at 1. rewrite (bind_Ok _ _ _ _ _ eq_refl).
  destruct (terminated (CGF s)).
  - exists (CGF s). by destruct s.
  - eexists. reflexivity.
Qed.

Lemma generateFunction_run name rv (body : Gen unit) gs rt c s1 :
  body {| Globals := gs; RT := rt; CGF := StartFunction name rv |} = Ok (tt, s1) ->
  exists F,
    generateFunction name rv body {| Globals := gs; RT := rt; CGF := c |}
    = Ok (F, {| Globals := Globals s1; RT := RT s1; CGF := c |}) /\
    fn_name F = name.
Proof.
  intros Hbody. unfold generateFunction.
  unfold getCGF at 1. rewrite (bind_Ok _ _ _ _ _ eq_refl).
  unfold setCGF at 1. rewrite (bind_Ok _ _ _ _ _ eq_refl). cbn [Globals RT CGF].
  rewrite (bind_Ok _ _ _ _ _ Hbody).
  destruct (FinishFunction_run s1) as [c' Hfin].
  rewrite (bind_Ok _ _ _ _ _ Hfin).
  eexists. split; reflexivity.
Qed.

Lemma wrapper_code_run DSI D Fn caps IsSimd gs rt n :
  exists s1,
    wrapper_code DSI D Fn caps IsSimd
      {| Globals := gs; RT := rt; CGF := StartFunction n false |} = Ok (tt, s1) /\
    RT s1 = rt.
Proof.
  destruct rt as [o pnl w wm dm fm cc].
  destruct IsSimd, o; [| destruct pnl as [|[p|p|]|p] | | destruct pnl as [|[p|p|]|p]];
    eexists; (split; [vm_compute; reflexivity|reflexivity]).
Qed.

Lemma CodeGenWithDataSharing_run IsSimd CodeGen gs rt name st1 :
  CodeGen (region_entry gs rt name IsSimd) = Ok (tt, st1) ->
  exists s2,
    CodeGenWithDataSharing IsSimd CodeGen
      {| Globals := gs; RT := rt; CGF := StartFunction name false |} = Ok (tt, s2) /\
    RT s2 = RT st1.
Proof.
  intros Hgen. unfold CodeGenWithDataSharing.
  rewrite (bind_Ok _ _ _ _ _ (increaseParallelismLevel_eq _ _ _ _)).
  fold (region_entry gs rt name IsSimd). rewrite (bind_Ok _ _ _ _ _ Hgen).
  destruct st1 as [gs1 rt1 c1]. rewrite decreaseParallelismLevel_eq.
  eexists. split; reflexivity.
Qed.

Lemma createArgsAddress_rejects CI s :
  supported CI = false ->
  Wrapper.createArgsAddress CI s = AssertionFailed (unsupported_capture_message CI).
Proof.
  intros Hs. unfold supported, hasCapturedVLAType in Hs.
  unfold unsupported_capture_message, Wrapper.createArgsAddress, mbind, Gen_bind, gen_bind,
    gen_assert.
  destruct (capturesVariableArrayType CI); [reflexivity|].
  cbn in Hs. apply negb_false_iff in Hs. by rewrite Hs.
Qed.

(** The loop that creates the temporaries of a wrapper stops at the first
    capture that is by copy or of a variable array type. *)
Lemma gen_mapM_createArgsAddress_rejects caps : forall s,
  Exists (fun CI => supported CI = false) caps ->
  exists CI, CI ∈ caps /\ supported CI = false /\
    gen_mapM Wrapper.createArgsAddress caps s
    = AssertionFailed (unsupported_capture_message CI).
Proof.
  induction caps as [|c caps IH]; intros s Hex; [by apply Exists_nil in Hex|].
  cbn [gen_mapM]. destruct (supported c) eqn:Hc.
  - apply Exists_cons in Hex as [Hex|Hex]; [congruence|].
    destruct s as [gs rt cf].
    rewrite (bind_Ok _ _ _ _ _ (createArgsAddress_eq c gs rt cf Hc)).
    destruct (IH {| Globals := gs; RT := rt; CGF := next_value cf |} Hex)
      as (CI & Hin & Hs & Hfail).
    exists CI. split; [by apply elem_of_cons; right|]. split; [done|].
    by apply bind_AssertionFailed.
  - exists c. split; [by apply elem_of_cons; left|]. split; [done|].
    apply bind_AssertionFailed. by apply createArgsAddress_rejects.
Qed.

Lemma generateFunction_fails name rv (body : Gen unit) s msg :
  body {| Globals := Globals s; RT := RT s; CGF := StartFunction name rv |}
  = AssertionFailed msg ->
  generateFunction name rv body s = AssertionFailed msg.
Proof.
  intros Hbody. unfold generateFunction.
  unfold getCGF at 1. rewrite (bind_Ok _ _ _ _ _ eq_refl).
  unfold setCGF at 1. rewrite (bind_Ok _ _ _ _ _ eq_refl).
  by apply bind_AssertionFailed.
Qed.

Lemma wrapper_rejects_unsupported D Fn CS ctx IsSimd s :
  Exists (fun CI => supported CI = false) (cs_captures CS) ->
  exists CI, CI ∈ cs_captures CS /\ supported CI = false /\
    createDataSharingParallelWrapper D Fn CS ctx IsSimd s
    = AssertionFailed (unsupported_capture_message CI).
Proof.
  intros Hex.
  destruct (gen_mapM_createArgsAddress_rejects (cs_captures CS)
              {| Globals := Globals s; RT := RT s;
                 CGF := StartFunction (wrapper_name Fn) false |} Hex)
    as (CI & Hin & Hs & Hfail).
  exists CI. split; [exact Hin|]. split; [exact Hs|].
  unfold createDataSharingParallelWrapper. apply generateFunction_fails.
  by apply bind_AssertionFailed.
Qed.

Lemma thread_id_assert_passes {A} T (k : unit -> Gen A) s :
  isPointerType T = true ->
  (gen_assert (isPointerType T) "thread id variable must be of type kmp_int32 *" ≫= k) s
  = k tt s.
Proof. intros ->. reflexivity. Qed.

Lemma parallel_outlining_aborts D T CS name CodeGen s :
  D <> OMPD_teams ->
  Exists (fun CI => supported CI = false) (cs_captures CS) ->
  exists msg,
    emitParallelOrTeamsOutlinedFunction D T CS name CodeGen s = AssertionFailed msg.
Proof.
  intros HD Hex. unfold emitParallelOrTeamsOutlinedFunction. destruct s as [gs rt c].
  destruct (isPointerType T) eqn:HT; [|by eexists].
  rewrite (bind_Ok _ _ _ _ _ (eq_refl : gen_assert true _ _ = Ok (tt, _))).
  rewrite bool_decide_eq_false_2 by exact HD.
  unfold getRT at 1. rewrite (bind_Ok _ _ _ _ _ eq_refl). cbn [RT].
  unfold setRT at 1. rewrite (bind_Ok _ _ _ _ _ eq_refl). cbn [Globals CGF].
  destruct (GenerateOpenMPCapturedStmtFunction name (CodeGenWithDataSharing false CodeGen)
              {| Globals := gs; RT := add_nesting 1 rt; CGF := c |})
    as [[F [gs2 rt2 c2]]|msg] eqn:Hout; [|exists msg; by apply bind_AssertionFailed].
  rewrite (bind_Ok _ _ _ _ _ Hout).
  unfold getRT at 1. rewrite (bind_Ok _ _ _ _ _ eq_refl). cbn [RT].
  unfold setRT at 1. rewrite (bind_Ok _ _ _ _ _ eq_refl). cbn [Globals CGF].
  destruct (wrapper_rejects_unsupported D name CS (CurrentParallelContext rt) false
              {| Globals := gs2; RT := add_nesting (-1) rt2; CGF := c2 |} Hex)
    as (CI & _ & _ & Hfail).
  eexists. by apply bind_AssertionFailed.
Qed.

Lemma simd_outlining_aborts D CS name CodeGen s :
  Exists (fun CI => supported CI = false) (cs_captures CS) ->
  exists msg, emitSimdOutlinedFunction D CS name CodeGen s = AssertionFailed msg.
Proof.
  intros Hex. unfold emitSimdOutlinedFunction. destruct s as [gs rt c].
  unfold getRT at 1. rewrite (bind_Ok _ _ _ _ _ eq_refl). cbn [RT].
  unfold setRT at 1. rewrite (bind_Ok _ _ _ _ _ eq_refl). cbn [Globals CGF].
  destruct (GenerateOpenMPCapturedStmtFunction name (CodeGenWithDataSharing true CodeGen)
              {| Globals := gs; RT := add_nesting 10 rt; CGF := c |})
    as [[F [gs2 rt2 c2]]|msg] eqn:Hout; [|exists msg; by apply bind_AssertionFailed].
  rewrite (bind_Ok _ _ _ _ _ Hout).
  unfold getRT at 1. rewrite (bind_Ok _ _ _ _ _ eq_refl). cbn [RT].
  unfold setRT at 1. rewrite (bind_Ok _ _ _ _ _ eq_refl). cbn [Globals CGF].
  destruct (wrapper_rejects_unsupported D name CS (CurrentParallelContext rt) true
              {| Globals := gs2; RT := add_nesting (-10) rt2; CGF := c2 |} Hex)
    as (CI & _ & _ & Hfail).
  eexists. by apply bind_AssertionFailed.
Qed.

Lemma unsupported_kind c :
  getCaptureKind c = VCK_ByCopy \/ getCaptureKind c = VCK_VLAType -> supported c = false.
Proof.
  intros Hk. destruct (supported_cases c) as [[_ Hs]|[Hs _]]; [|exact Hs].
  destruct Hk as [Hk|Hk], Hs as [Hs|Hs]; congruence.
Qed.

(** C8: a capture by copy or of a variable array type stops code generation.
    The planner passes such a capture over, but every region it scans is
    outlined, and the wrapper generated for the outlined function asserts
    that no capture is of these kinds: whatever the state of the generator
    and the code of the region, the wrapper generator ends in the failed
    assertion of the first such capture of the region, the outlining of the
    parallel or simd region and the lowering of the directive end in a
    failed assertion, and no code is kept. *)
Theorem C8_unsupported_capture_aborts_code_generation
    D ThreadIDVar CS name CodeGen ctx IsSimd st c :
  c ∈ cs_captures CS ->
  getCaptureKind c = VCK_ByCopy \/ getCaptureKind c = VCK_VLAType ->
  (exists CI,
     CI ∈ cs_captures CS /\
     (getCaptureKind CI = VCK_ByCopy \/ getCaptureKind CI = VCK_VLAType) /\
     createDataSharingParallelWrapper D name CS ctx IsSimd st
     = AssertionFailed (unsupported_capture_message CI)) /\
  (D <> OMPD_teams ->
   exists msg,
     emitParallelOrTeamsOutlinedFunction D ThreadIDVar CS name CodeGen st
     = AssertionFailed msg) /\
  (exists msg, emitSimdOutlinedFunction D CS name CodeGen st = AssertionFailed msg) /\
  (forall F CapturedVars IfCond,
     D <> OMPD_teams ->
     exists msg,
       EmitOMPParallelDirective F D CS name CodeGen CapturedVars IfCond st
       = AssertionFailed msg /\
       emitted_blocks (EmitOMPParallelDirective F D CS name CodeGen CapturedVars IfCond st)
       = []).
Proof.
  intros Hin Hk.
  assert (Hex : Exists (fun CI => supported CI = false) (cs_captures CS)).
  { apply Exists_exists. exists c. split; [exact Hin | by apply unsupported_kind]. }
  split; [|split; [|split]].
  - destruct (wrapper_rejects_unsupported D name CS ctx IsSimd st Hex)
      as (CI & HCI & Hs & Hfail).
    exists CI. split; [exact HCI|]. split; [|exact Hfail].
    destruct (supported_cases CI) as [[Hs' _]|[_ Hkind]]; [congruence|exact Hkind].
  - intros HD. by apply parallel_outlining_aborts.
  - by apply simd_outlining_aborts.
  - intros F cv IfCond HD. unfold EmitOMPParallelDirective.
    destruct (registerParallelContext F D st) as [[[] s1]|msg] eqn:Hreg.
    + rewrite (bind_Ok _ _ _ _ _ Hreg).
      destruct (parallel_outlining_aborts D kmp_int32_ptr CS name CodeGen s1 HD Hex)
        as [msg Hfail].
      exists msg. by rewrite (bind_AssertionFailed _ _ _ _ Hfail).
    + exists msg. by rewrite (bind_AssertionFailed _ _ _ _ Hreg).
Qed.

Lemma C8_witness :
  createDataSharingParallelWrapper OMPD_parallel "outlined"
    {| cs_captures := [by_ref var_y; by_copy var_x; vla_size var_z];
       getCapturedStmt := NullStmt |}
    (Some 0%nat) false (start_state [] planned_runtime false)
  = AssertionFailed "Not expecting to capture by copy values!" /\
  exists msg,
    EmitOMPParallelDirective unsupported_region OMPD_parallel
      {| cs_captures := [by_ref var_y; by_copy var_x; vla_size var_z];
         getCapturedStmt := NullStmt |}
      "outlined" empty_region_code [] None (start_state [] initial_runtime false)
    = AssertionFailed msg.
Proof.
  destruct (C8_unsupported_capture_aborts_code_generation OMPD_parallel kmp_int32_ptr
              {| cs_captures := [by_ref var_y; by_copy var_x; vla_size var_z];
                 getCapturedStmt := NullStmt |}
              "outlined" empty_region_code (Some 0%nat) false
              (start_state [] initial_runtime false) (by_copy var_x))
    as (_ & _ & _ & Hlower);
    [apply list_elem_of_further, list_elem_of_here | left; reflexivity |].
  split; [reflexivity|].
  destruct (Hlower unsupported_region [] None) as (msg & Hfail & _); [discriminate|].
  exists msg. exact Hfail.
Defined.

(** X19: outlining a parallel region.  The outlining stops at once when the
    thread id variable is not of a pointer type, and nothing is outlined for
    a teams directive.  For any other directive it stops in a failed
    assertion when a capture of the region is by copy or of a variable array
    type.  When a context is registered, the code of the region is generated
    without failure, the context has a plan afterwards and every capture of
    the region is handled by the planner and in that plan, the code of the
    region is generated into a function of its own with the static nesting
    level raised by one, the level is lowered again, the wrapper is generated
    for the context that was current when the outlining started and is
    registered under the outlined function: the function being generated by
    the caller is left untouched, and a parallel call to the outlined
    function finds its wrapper. *)
Theorem X19_outlining_registers_the_wrapper D T CS name CodeGen gs rt c st1 ctx DSI :
  let st := {| Globals := gs; RT := rt; CGF := c |} in
  (isPointerType T = false ->
   emitParallelOrTeamsOutlinedFunction D T CS name CodeGen st
   = AssertionFailed "thread id variable must be of type kmp_int32 *") /\
  (isPointerType T = true ->
   emitParallelOrTeamsOutlinedFunction OMPD_teams T CS name CodeGen st = Ok (None, st)) /\
  (D <> OMPD_teams ->
   Exists (fun CI => supported CI = false) (cs_captures CS) ->
   exists msg,
     emitParallelOrTeamsOutlinedFunction D T CS name CodeGen st = AssertionFailed msg) /\
  (isPointerType T = true ->
   D <> OMPD_teams ->
   CurrentParallelContext rt = Some ctx ->
   CodeGen (region_entry gs (add_nesting 1 rt) name false) = Ok (tt, st1) ->
   DataSharingInfoMap (RT st1) !! ctx = Some DSI ->
   Forall (fun CI => supported CI = true) (cs_captures CS) ->
   Forall (fun CI => capture_known DSI CI = true) (cs_captures CS) ->
   exists R st',
     emitParallelOrTeamsOutlinedFunction D T CS name CodeGen st = Ok (Some R, st') /\
     fn_name (region_function R) = name /\
     fn_name (region_wrapper R) = wrapper_name name /\
     CGF st' = c /\
     RT st' = set_wrapper name (wrapper_name name) (add_nesting (-1) (RT st1)) /\
     ParallelNestingLevel (RT st') = ParallelNestingLevel (RT st1) - 1 /\
     WrapperFunctionsMap (RT st') !! name = Some (wrapper_name name)).
Proof.
  intros st. split; [|split; [|split]].
  { intros HT. unfold emitParallelOrTeamsOutlinedFunction. by rewrite HT. }
  { intros HT. unfold emitParallelOrTeamsOutlinedFunction.
    by rewrite (thread_id_assert_passes T _ st HT). }
  { intros HD Hex. by apply parallel_outlining_aborts. }
  intros HT HD Hctx Hgen HDSI Hs Hk.
  unfold emitParallelOrTeamsOutlinedFunction.
  rewrite (thread_id_assert_passes T _ st HT). unfold st.
  rewrite bool_decide_eq_false_2 by exact HD.
  unfold getRT at 1. rewrite (bind_Ok _ _ _ _ _ eq_refl). cbn [RT].
  unfold setRT at 1. rewrite (bind_Ok _ _ _ _ _ eq_refl). cbn [Globals CGF].
  destruct (CodeGenWithDataSharing_run false CodeGen gs (add_nesting 1 rt) name st1 Hgen)
    as (s2 & Hbody & HRT2).
  destruct (generateFunction_run name false _ gs (add_nesting 1 rt) c s2 Hbody)
    as (OutlinedFun & Hout & Hname).
  unfold GenerateOpenMPCapturedStmtFunction. rewrite (bind_Ok _ _ _ _ _ Hout).
  unfold getRT at 1. rewrite (bind_Ok _ _ _ _ _ eq_refl). cbn [RT].
  unfold setRT at 1. rewrite (bind_Ok _ _ _ _ _ eq_refl). cbn [Globals CGF].
  rewrite HRT2, Hctx.
  set (sw := {| Globals := Globals s2; RT := add_nesting (-1) (RT st1); CGF := c |}).
  assert (HDSI' : DataSharingInfoMap (RT sw) !! ctx = Some DSI) by exact HDSI.
  destruct (wrapper_code_run DSI D name (cs_captures CS) false (Globals s2)
              (add_nesting (-1) (RT st1)) (wrapper_name name)) as (s3 & Hcode & HRT3).
  destruct (generateFunction_run (wrapper_name name) false _ (Globals s2)
              (add_nesting (-1) (RT st1)) c s3 Hcode) as (WrapperFun & Hwrap & Hwname).
  fold sw in Hwrap.
  rewrite <- (createDataSharingParallelWrapper_eq D name CS ctx DSI false sw HDSI' Hs Hk)
    in Hwrap.
  rewrite (bind_Ok _ _ _ _ _ Hwrap).
  rewrite (bind_Ok _ _ _ _ _ eq_refl). cbn [RT].
  rewrite (bind_Ok _ _ _ _ _ eq_refl). cbn [Globals CGF].
  eexists _, _. split; [reflexivity|]. cbn [region_function region_wrapper CGF RT].
  rewrite HRT3, Hwname.
  split; [exact Hname|]. split; [reflexivity|]. split; [reflexivity|].
  split; [reflexivity|]. split.
  - cbn. lia.
  - cbn. apply lookup_insert_eq.
Qed.

Lemma X19_witness :
  exists R st',
    emitParallelOrTeamsOutlinedFunction OMPD_parallel kmp_int32_ptr one_region_stmt "outlined"
      empty_region_code
      (start_state [] (set_parallel_context (Some 0%nat) planned_runtime) false)
    = Ok (Some R, st') /\
    fn_name (region_wrapper R) = "outlined_wrapper" /\
    WrapperFunctionsMap (RT st') !! "outlined" = Some "outlined_wrapper".
Proof.
  destruct (proj2 (proj2 (proj2
              (X19_outlining_registers_the_wrapper OMPD_parallel kmp_int32_ptr one_region_stmt
                 "outlined" empty_region_code []
                 (set_parallel_context (Some 0%nat) planned_runtime)
                 (StartFunction "f" false)
                 (region_entry [] (add_nesting 1 (set_parallel_context (Some 0%nat)
                                                    planned_runtime)) "outlined" false)
                 0%nat one_region_plan))))
    as (R & st' & Hrun & _ & Hw & _ & _ & _ & Hmap);
    [reflexivity | discriminate | reflexivity | reflexivity | reflexivity
    | repeat constructor | repeat constructor |].
  exists R, st'. split; [exact Hrun|]. split; [exact Hw | exact Hmap].
Defined.

(** X20: outlining a simd region.  The outlining stops in a failed assertion
    when a capture of the region is by copy or of a variable array type.
    When a context is registered, the code of the region is generated
    without failure, the context has a plan afterwards and every capture of
    the region is handled by the planner and in that plan, the code of the
    region is generated with the static nesting level raised by ten, so that
    whatever the level of the enclosing code every parallel call met in the
    region is at the sequential level; afterwards the level is lowered by ten
    again, the simd wrapper is generated for the context that was current
    when the outlining started and is registered under the outlined function,
    and the function being generated by the caller is left untouched. *)
Theorem X20_simd_outlining_registers_the_wrapper D CS name CodeGen gs rt c st1 ctx DSI :
  let st := {| Globals := gs; RT := rt; CGF := c |} in
  (Exists (fun CI => supported CI = false) (cs_captures CS) ->
   exists msg, emitSimdOutlinedFunction D CS name CodeGen st = AssertionFailed msg) /\
  (0 <= ParallelNestingLevel rt ->
   level_of_nesting (ParallelNestingLevel (add_nesting 10 rt)) = AtSequential) /\
  (CurrentParallelContext rt = Some ctx ->
   CodeGen (region_entry gs (add_nesting 10 rt) name true) = Ok (tt, st1) ->
   DataSharingInfoMap (RT st1) !! ctx = Some DSI ->
   Forall (fun CI => supported CI = true) (cs_captures CS) ->
   Forall (fun CI => capture_known DSI CI = true) (cs_captures CS) ->
   exists R st',
     emitSimdOutlinedFunction D CS name CodeGen st = Ok (R, st') /\
     fn_name (region_function R) = name /\
     fn_name (region_wrapper R) = wrapper_name name /\
     CGF st' = c /\
     RT st' = set_wrapper name (wrapper_name name) (add_nesting (-10) (RT st1)) /\
     ParallelNestingLevel (RT st') = ParallelNestingLevel (RT st1) - 10 /\
     WrapperFunctionsMap (RT st') !! name = Some (wrapper_name name)).
Proof.
  intros st. split; [intros Hex; by apply simd_outlining_aborts|]. split.
  { intros Hp. unfold level_of_nesting. cbn [add_nesting set_nesting ParallelNestingLevel].
    destruct (Z.eqb_spec (ParallelNestingLevel rt + 10) 0); [lia|].
    destruct (Z.eqb_spec (ParallelNestingLevel rt + 10) 1); [lia|]. reflexivity. }
  intros Hctx Hgen HDSI Hs Hk.
  unfold emitSimdOutlinedFunction, st.
  unfold getRT at 1. rewrite (bind_Ok _ _ _ _ _ eq_refl). cbn [RT].
  unfold setRT at 1. rewrite (bind_Ok _ _ _ _ _ eq_refl). cbn [Globals CGF].
  destruct (CodeGenWithDataSharing_run true CodeGen gs (add_nesting 10 rt) name st1 Hgen)
    as (s2 & Hbody & HRT2).
  destruct (generateFunction_run name false _ gs (add_nesting 10 rt) c s2 Hbody)
    as (OutlinedFun & Hout & Hname).
  unfold GenerateOpenMPCapturedStmtFunction. rewrite (bind_Ok _ _ _ _ _ Hout).
  unfold getRT at 1. rewrite (bind_Ok _ _ _ _ _ eq_refl). cbn [RT].
  unfold setRT at 1. rewrite (bind_Ok _ _ _ _ _ eq_refl). cbn [Globals CGF].
  rewrite HRT2, Hctx.
  set (sw := {| Globals := Globals s2; RT := add_nesting (-10) (RT st1); CGF := c |}).
  assert (HDSI' : DataSharingInfoMap (RT sw) !! ctx = Some DSI) by exact HDSI.
  destruct (wrapper_code_run DSI D name (cs_captures CS) true (Globals s2)
              (add_nesting (-10) (RT st1)) (wrapper_name name)) as (s3 & Hcode & HRT3).
  destruct (generateFunction_run (wrapper_name name) false _ (Globals s2)
              (add_nesting (-10) (RT st1)) c s3 Hcode) as (WrapperFun & Hwrap & Hwname).
  fold sw in Hwrap.
  rewrite <- (createDataSharingParallelWrapper_eq D name CS ctx DSI true sw HDSI' Hs Hk)
    in Hwrap.
  rewrite (bind_Ok _ _ _ _ _ Hwrap).
  rewrite (bind_Ok _ _ _ _ _ eq_refl). cbn [RT].
  rewrite (bind_Ok _ _ _ _ _ eq_refl). cbn [Globals CGF].
  eexists _, _. split; [reflexivity|]. cbn [region_function region_wrapper CGF RT].
  rewrite HRT3, Hwname.
  split; [exact Hname|]. split; [reflexivity|]. split; [reflexivity|].
  split; [reflexivity|]. split.
  - cbn. lia.
  - cbn. apply lookup_insert_eq.
Qed.

Lemma X20_witness :
  exists R st',
    emitSimdOutlinedFunction OMPD_simd one_region_stmt "simd_fn" empty_region_code
      (start_state [] (set_parallel_context (Some 0%nat) (set_nesting 1 planned_runtime)) false)
    = Ok (R, st') /\
    fn_name (region_wrapper R) = "simd_fn_wrapper" /\
    ParallelNestingLevel (RT st') = 1.
Proof.
  destruct (proj2 (proj2
              (X20_simd_outlining_registers_the_wrapper OMPD_simd one_region_stmt
                 "simd_fn" empty_region_code []
                 (set_parallel_context (Some 0%nat) (set_nesting 1 planned_runtime))
                 (StartFunction "f" false)
                 (region_entry [] (add_nesting 10 (set_parallel_context (Some 0%nat)
                                                     (set_nesting 1 planned_runtime)))
                               "simd_fn" true)
                 0%nat one_region_plan)))
    as (R & st' & Hrun & _ & Hw & _ & _ & Hlevel & _);
    [reflexivity | reflexivity | reflexivity | repeat constructor | repeat constructor |].
  exists R, st'. split; [exact Hrun|]. split; [exact Hw | exact Hlevel].
Defined.

(** ** The outcomes of the planner *)

(** X21: what the planner does for a context.  It fails when the enclosing
    function has no declaration; it leaves everything as it is when the
    context already has a plan, so that running it again after a success
    changes nothing; for a context that is not a captured declaration it
    fails on the cast of a null declaration; for a captured declaration
    without a parallel or simd region it fails with the message that at
    least one region is expected; and for a captured declaration with a
    region, all of whose captures by reference are of variables with local
    storage, it succeeds and the context has a plan afterwards. *)
Theorem X21_planner_outcomes F s :
  (CurCodeDecl F = None ->
   createDataSharingInfo F s
   = AssertionFailed "A parallel region is expected to be enclosed in a context.") /\
  (forall Context,
     CurCodeDecl F = Some Context ->
     is_Some (DataSharingInfoMap (RT s) !! decl_id Context) ->
     createDataSharingInfo F s = Ok (tt, s)) /\
  (forall id body,
     CurCodeDecl F = Some (FunctionDecl id body) ->
     DataSharingInfoMap (RT s) !! id = None ->
     createDataSharingInfo F s = AssertionFailed "isa<> used on a null pointer") /\
  (forall id body,
     CurCodeDecl F = Some (CapturedDecl id body) ->
     DataSharingInfoMap (RT s) !! id = None ->
     regions_of body = [] ->
     createDataSharingInfo F s = AssertionFailed "Expecting at least one parallel region!") /\
  (forall id body,
     CurCodeDecl F = Some (CapturedDecl id body) ->
     DataSharingInfoMap (RT s) !! id = None ->
     regions_of body <> [] ->
     (forall c, c ∈ context_captures F -> getCaptureKind c = VCK_ByRef ->
                hasLocalStorage F (getCapturedVar c) = true) ->
     exists s', createDataSharingInfo F s = Ok (tt, s') /\
                is_Some (DataSharingInfoMap (RT s') !! id)) /\
  (forall s', createDataSharingInfo F s = Ok (tt, s') ->
              createDataSharingInfo F s' = Ok (tt, s')).
Proof.
  assert (Hknown : forall Context s0,
            CurCodeDecl F = Some Context ->
            is_Some (DataSharingInfoMap (RT s0) !! decl_id Context) ->
            createDataSharingInfo F s0 = Ok (tt, s0)).
  { intros Context s0 HF Hin. unfold createDataSharingInfo. rewrite HF.
    unfold getRT at 1. rewrite (bind_Ok _ _ _ _ _ eq_refl).
    rewrite bool_decide_eq_true_2 by exact Hin. reflexivity. }
  assert (Hfun : forall id body,
            CurCodeDecl F = Some (FunctionDecl id body) ->
            DataSharingInfoMap (RT s) !! id = None ->
            createDataSharingInfo F s = AssertionFailed "isa<> used on a null pointer").
  { intros id body HF Hfresh. unfold createDataSharingInfo. rewrite HF.
    unfold getRT at 1. rewrite (bind_Ok _ _ _ _ _ eq_refl). cbn [decl_id].
    rewrite bool_decide_eq_false_2 by (rewrite Hfresh; intros [? ?]; congruence).
    reflexivity. }
  split; [|split; [|split; [|split; [|split]]]].
  - intros HF. unfold createDataSharingInfo. by rewrite HF.
  - intros Context. apply Hknown.
  - exact Hfun.
  - intros id body HF Hfresh Hnil.
    rewrite (createDataSharingInfo_fresh F id body s HF Hfresh).
    by rewrite bool_decide_eq_true_2.
  - intros id body HF Hfresh Hreg Hloc.
    rewrite (createDataSharingInfo_fresh F id body s HF Hfresh).
    rewrite bool_decide_eq_false_2 by done.
    unfold context_captures, context_body in Hloc. rewrite HF in Hloc.
    destruct (share_captures_succeeds F _ empty_plan Hloc) as [p ->].
    eexists. split; [reflexivity|]. cbn. rewrite lookup_insert_eq. by eexists.
  - intros s' Hrun.
    destruct (CurCodeDecl F) as [Context|] eqn:HF.
    + destruct (DataSharingInfoMap (RT s) !! decl_id Context) as [i|] eqn:Hl.
      * rewrite (Hknown Context s eq_refl) in Hrun by (rewrite Hl; by eexists).
        injection Hrun as <-. apply (Hknown Context); [done|]. rewrite Hl. by eexists.
      * destruct Context as [id body|id body]; cbn [decl_id] in Hl.
        -- rewrite (createDataSharingInfo_fresh F id body s HF Hl) in Hrun.
           destruct (bool_decide (regions_of body = [])); [discriminate Hrun|].
           destruct (share_captures F empty_plan _) as [p|msg]; [|discriminate Hrun].
           injection Hrun as <-. apply (Hknown (CapturedDecl id body)); [done|].
           cbn. rewrite lookup_insert_eq. by eexists.
        -- rewrite (Hfun id body eq_refl Hl) in Hrun. discriminate Hrun.
    + unfold createDataSharingInfo in Hrun. rewrite HF in Hrun. discriminate Hrun.
Qed.

Lemma X21_witness :
  createDataSharingInfo
    {| CurCodeDecl := Some (FunctionDecl 0%nat (context_body one_region));
       GetAddrOfLocalVar := sample_locals; hasLocalStorage := fun _ => true |}
    (start_state [] initial_runtime false)
  = AssertionFailed "isa<> used on a null pointer".
Proof.
  apply (proj1 (proj2 (proj2 (X21_planner_outcomes
           {| CurCodeDecl := Some (FunctionDecl 0%nat (context_body one_region));
              GetAddrOfLocalVar := sample_locals; hasLocalStorage := fun _ => true |}
           (start_state [] initial_runtime false)))) 0%nat (context_body one_region));
    reflexivity.
Defined.

(** ** The functions of a kernel *)

Lemma emitWorkerFunction_run name gs rt c :
  exists W,
    emitWorkerFunction name {| Globals := gs; RT := rt; CGF := c |}
    = Ok (W, {| Globals := gs; RT := rt; CGF := c |}) /\
    fn_name W = name /\
    fn_blocks W = worker_blocks (Work rt).
Proof.
  unfold emitWorkerFunction, generateFunction.
  unfold getCGF at 1. rewrite (bind_Ok _ _ _ _ _ eq_refl).
  unfold setCGF at 1. rewrite (bind_Ok _ _ _ _ _ eq_refl).
  cbn [Globals RT CGF].
  rewrite (bind_Ok _ _ _ _ _ (emitWorkerLoop_eq gs rt name)).
  unfold FinishFunction, getCGF at 1. rewrite bind_assoc, (bind_Ok _ _ _ _ _ eq_refl).
  cbn [CGF]. unfold terminated. cbn [InsertPoint Blocks]. rewrite find_exit_open.
  cbn [bb_term open_block]. unfold set_terminator.
  rewrite bind_modifyCGF. unfold setTerminator, with_blocks. cbn [InsertPoint Blocks].
  rewrite worker_blocks_finish. eexists. split; [reflexivity|]. split; reflexivity.
Qed.

Lemma emitEntryFooter_run ExitBB gs rt c :
  exists c',
    emitEntryFooter ExitBB {| Globals := gs; RT := rt; CGF := c |}
    = Ok (tt, {| Globals := gs; RT := rt; CGF := c' |}).
Proof. destruct c as [cf bs ip nb nv rv]. eexists. reflexivity. Qed.

(** X22: the functions of a kernel.  Nothing is generated for a target
    region that is not an offload entry, and an offload entry without a
    parent name stops in a failed assertion.  Otherwise the entry header
    registers the entry function as an entry point, with its worker function
    and its exit block, and leaves the work list alone; whatever the code of
    the target region does, if it is generated without failure the worker
    function is generated after it, under the name of the entry function
    followed by [_worker], and compares the work function with every wrapper
    that is in the work list when the region's code has been emitted; the
    function the caller was generating is left as it was. *)
Theorem X22_worker_is_generated_after_the_kernel_body
    ParentName EntryName CodeGen gs rt c :
  let WorkerFn := (EntryName +:+ "_worker")%string in
  let st := {| Globals := gs; RT := rt; CGF := c |} in
  emitTargetOutlinedFunction ParentName EntryName false CodeGen st = Ok (None, st) /\
  emitTargetOutlinedFunction EmptyString EntryName true CodeGen st
  = AssertionFailed "Invalid target region parent name!" /\
  emitEntryHeader WorkerFn {| Globals := gs; RT := rt; CGF := StartFunction EntryName false |}
  = Ok ((1%nat, ".sleepy.hollow"), entry_header_state gs rt EntryName) /\
  DataSharingFunctionInfoMap (RT (entry_header_state gs rt EntryName)) !! EntryName
  = Some {| IsEntryPoint := true; EntryWorkerFunction := Some WorkerFn;
            EntryExitBlock := Some 1%nat;
            InitializationFunction :=
              InitializationFunction (lookup_function_info rt EntryName) |} /\
  Work (RT (entry_header_state gs rt EntryName)) = Work rt /\
  forall st1,
    ParentName <> EmptyString ->
    CodeGen (entry_header_state gs rt EntryName) = Ok (tt, st1) ->
    exists Entry Worker,
      emitTargetOutlinedFunction ParentName EntryName true CodeGen st
      = Ok (Some (Entry, Worker), {| Globals := Globals st1; RT := RT st1; CGF := c |}) /\
      fn_name Entry = EntryName /\
      fn_name Worker = WorkerFn /\
      fn_blocks Worker = worker_blocks (Work (RT st1)).
Proof.
  intros WorkerFn st.
  split; [reflexivity|]. split; [reflexivity|].
  assert (Hhead : emitEntryHeader WorkerFn
                    {| Globals := gs; RT := rt; CGF := StartFunction EntryName false |}
                  = Ok ((1%nat, ".sleepy.hollow"), entry_header_state gs rt EntryName))
    by reflexivity.
  split; [exact Hhead|].
  split; [cbn; apply lookup_insert_eq|]. split; [reflexivity|].
  intros st1 HP Hgen. destruct st1 as [gs1 rt1 c1].
  destruct (emitEntryFooter_run (1%nat, ".sleepy.hollow") gs1 rt1 c1) as [c2 Hfoot].
  assert (Hbody : (ExitBB ← emitEntryHeader WorkerFn; CodeGen;; emitEntryFooter ExitBB)
                    {| Globals := gs; RT := rt; CGF := StartFunction EntryName false |}
                  = Ok (tt, {| Globals := gs1; RT := rt1; CGF := c2 |})).
  { rewrite (bind_Ok _ _ _ _ _ Hhead). rewrite (bind_Ok _ _ _ _ _ Hgen). exact Hfoot. }
  destruct (generateFunction_run EntryName false _ gs rt c _ Hbody) as (Entry & HE & HEn).
  destruct (emitWorkerFunction_run WorkerFn gs1 rt1 c) as (Worker & HW & HWn & HWb).
  exists Entry, Worker. unfold emitTargetOutlinedFunction. fold WorkerFn.
  cbn [negb]. rewrite bool_decide_eq_false_2 by exact HP.
  rewrite (bind_Ok _ _ _ _ _ (eq_refl : gen_assert true _ st = Ok (tt, st))).
  unfold st. rewrite (bind_Ok _ _ _ _ _ HE). cbn [Globals RT].
  rewrite (bind_Ok _ _ _ _ _ HW). by repeat split.
Qed.

Lemma X22_witness :
  exists Entry Worker st',
    emitTargetOutlinedFunction "main" "kernel" true
      (ParallelCall.L0ParallelGen "outlined_wrapper")
      (start_state [] initial_runtime false)
    = Ok (Some (Entry, Worker), st') /\
    fn_name Entry = "kernel" /\
    fn_name Worker = "kernel_worker" /\
    fn_blocks Worker = worker_blocks ["outlined_wrapper"].
Proof.
  destruct (X22_worker_is_generated_after_the_kernel_body "main" "kernel"
              (ParallelCall.L0ParallelGen "outlined_wrapper") [] initial_runtime
              (StartFunction "f" false)) as (_ & _ & _ & _ & _ & Hrun).
  destruct (Hrun {| Globals := [];
                    RT := push_work "outlined_wrapper"
                            (RT (entry_header_state [] initial_runtime "kernel"));
                    CGF := emitInstr (Call None nvvm_barrier0 [])
                             (emitInstr (Call None nvvm_barrier0 [])
                                (emitInstr
                                   (Call None kernel_prepare_parallel
                                      [CreateBitOrPointerCast (FunctionAddr "outlined_wrapper")])
                                   (CGF (entry_header_state [] initial_runtime "kernel")))) |}
                 ltac:(discriminate) eq_refl)
    as (Entry & Worker & H1 & H2 & H3 & H4).
  exists Entry, Worker. eexists. split; [exact H1|]. split; [exact H2|].
  split; [exact H3 | exact H4].
Defined.
